(* ===== verification/_CoqProject ===== *)
-Q . S2P
Prelude.v
Text.v
Codec.v
Types.v
Extern.v
InMemory.v
Hash.v
Merkle.v
Float.v
Mining.v
Db.v
World.v
AccountStore.v
TxStore.v
BlockProducer.v
Lineage.v
BlockStore.v
StateTrie.v
Coinbase.v
Genesis.v
Staking.v
Validators.v
Node.v
Rules.v
Fees.v
Mempool.v
Pipeline.v
Crypto.v
Wallet.v
WalletStorage.v
Cli.v
TestKit.v
TestsTypes.v
TestsChain.v
TestsStorage.v
TestsConsensus.v
TestsMempool.v
TestsCrypto.v
TestsWallet.v
