(* ===== verification/Prelude.v ===== *)
(** * kyvera-core: a verified model of the chain, its state, consensus, mempool and wallet

    This development models the Rust crate kyvera-core: every function under
    src/src/, the command-line wallet included (see the end for what surrounds
    them).  The definitions keep the names of the source and evaluate by
    [vm_compute]; the theorems are about those definitions.
    File names below are relative to src/src/.

    ** The program

    A chain of micro blocks (transactions) and epoch blocks (summaries of micro
    blocks, with a mined reward) over an account ledger kept in a sled
    database.  [chain/] hashes, builds and mines blocks and checks them against
    the tip; [storage/] keeps accounts, transactions, blocks, state roots and
    snapshots and applies transactions; [consensus/] holds the block rules, the
    genesis allocations, coinbases, staking, validator rewards and slashing;
    [mempool/] holds pending transactions and the fee arithmetic; [crypto/] and
    [wallet/] wrap the post-quantum schemes, keep keys in encrypted files and
    build signed transactions.  The storage functions call the database handle,
    the consensus functions call the account store and the state trie, the
    rules and the mempool read accounts, and the builder's transactions are
    what the mempool's structural check accepts.  [bin/wallet.rs] drives
    [wallet/] from a terminal.  The crate has no main loop that ties ledger,
    consensus and mempool together, and none is made up here: [Node] and
    [Pipeline] state what holds of sequences of the public operations.

    ** Files

    - [Prelude]: outcomes, the store monad, machine integers, loops, list
      lemmas.  [Text]: Rust strings and byte strings, UTF-8, decimal and
      fixed-width encodings and the order of keys.  [Codec]: a text encoding of
      records, for the instances.
    - [Types]: types/account.rs, types/transaction.rs, types/block.rs.
    - [Extern]: the crates the code calls (sha3, hex, serde_json, sled) as
      classes of operations and classes of laws.  [InMemory]: an instance of
      each, used only by the witnesses and the tests.
    - [Hash], [Merkle], [Mining], [BlockProducer]: chain/hash.rs, merkle.rs,
      mining.rs, block_producer.rs.  [Lineage]: what the hash of a tip says about
      the blocks behind it.  [Float]: the [f64] operations the code
      uses, their printing and parsing, and bounds on their rounding.
    - [Db], [AccountStore], [TxStore], [BlockStore], [StateTrie]: storage/db.rs,
      account_store.rs, tx_store.rs, block_store.rs, state_trie.rs.  [World]
      between them is the abstraction: a map of accounts and the raw contents
      of the other trees, the relation [Rep] between a database and a world,
      and the rules [wp] and [refines] for computations on the database.
    - [Coinbase], [Genesis], [Staking], [Validators], [Rules]: the files of
      consensus/ with these names.  [Node]: sequences of operations on a
      database that genesis initialised.
    - [Fees], [Mempool]: mempool/fees.rs, mempool/pool.rs.  [Pipeline]: from
      the pool through a produced block to the ledger.
    - [Crypto]: crypto/dilithium.rs, sphincs.rs, kyber.rs and mod.rs.
    - [Wallet]: wallet/keys.rs, seed.rs, transaction_builder.rs.
      [WalletStorage]: wallet/storage.rs.  [Cli]: bin/wallet.rs.
    - [TestKit], [TestsTypes], [TestsChain], [TestsStorage], [TestsConsensus],
      [TestsMempool], [TestsCrypto], [TestsWallet]: the unit tests in the files
      of these directories, a module per file and a definition per test, run on
      the instances.

    ** Modelling choices

    A [String] and a byte vector are both Rocq strings of bytes.  A function
    that returns [Result] or can panic gives a [res]: [Ok], [Err] or [Panic].
    A function that writes is a [st] computation on the store it is given, and
    keeps what was written before an error.  Arithmetic is on [Z] with the
    operator's width written out; the plain operators panic or wrap as the
    class [Build] says, since the crate's profile decides it.  The clock and
    every random draw are arguments.  An [f64] is the binary64 of the Standard
    Library's [SpecFloat] ([Float]).  A [BTreeMap] or sled tree is a map iterated
    in key order, a [HashMap] or [HashSet] a map or set whose order is never used.
    [std::fs] is modelled in [WalletStorage] with a list of failures to come;
    [Cli] adds the terminal, as the lines still to be read and the output
    written so far.

    The laws of the crates are what their documentation promises: a digest has
    32 bytes (nothing else is assumed of it: where a property needs more, its
    statement names the two texts that would collide), decoding inverts
    encoding, an online tree behaves as a map, a fresh key's signatures verify,
    decryption inverts encryption.

    ** Loops and fuel

    [for] loops recurse on their list.  [loop_pos] runs a counting loop at most
    a given binary number of times; [mine_block] gives it one round more than
    [max_attempts], and [calculate_mined_supply] two more than the epoch, and
    the theorems show that the loop ends before.  The layers of a Merkle tree
    at least halve, so the number of hashes is fuel enough for its loops.

    ** What the theorems show

    - The ledger: every transaction implements one transition function on the
      account map, on success and on every error; the supply shrinks by exactly
      the burnt fees; nonces are consecutive and replays are refused; rolling
      back undoes a block; the state root binds the accounts ([StateTrie],
      [AccountStore]).
    - The chain: Merkle proofs and roots, the first solving nonce, the reward
      schedule, the difficulty adjustment, the exact conditions under which a
      block is accepted, and what a node that accepts a sequence of blocks has
      ([Merkle], [Mining], [BlockProducer], [Rules]).
    - The economy: genesis, the mined supply, proportional rewards, slashing,
      unbonding, the split and the bounds of fees ([Genesis], [Coinbase],
      [Validators], [Staking], [Fees]).
    - The node: in every database reachable from genesis all entries parse and
      every field has its width, the supply is bounded by what was allocated and
      credited, an operation that is refused changes nothing, and one that panics
      leaves exactly the two partial writes that are named ([Node]).
    - The stores: what was saved is found ([TxStore], [BlockStore]).
    - Agreement: nodes whose tips have one height and one hash accepted the same
      blocks with the same transaction hashes, unless two texts with one digest
      are found in their chains ([Lineage]).
    - The mempool as a state machine: an invariant of all reachable pools, the
      exact admission condition, the selection for a block ([Mempool]); payable
      transactions that are submitted reach the ledger of every node with the
      same tip and accounts and leave the pool, if mining finds a nonce
      ([Pipeline]).
    - Keys and wallets: signatures and sessions round-trip, signed messages and
      addresses bind what they should, built transactions are valid, wallet
      files are saved atomically and read back ([Crypto], [Wallet],
      [WalletStorage]).
    - The command line: which files a command can change, what was created can
      be shown, what is sent is signed by the wallet, and how far an amount
      typed in KYV can be from the units that are sent ([Cli]).
    - The tests: each of the 236 unit tests of the crate ends without a failed
      assertion on the model, at a fixed clock and with numbered draws of
      randomness ([TestKit] and the files that follow it).

    Several theorems state behaviour that the comments of the code do not
    intend: an accepted epoch block is a fixed point of the digest, a second
    unstake request of an epoch overwrites the first, snapshots overwrite each
    other, at most 29 of the 900 million KYV set aside can be mined, a Merkle
    root does not distinguish a doubled last entry, the first version of
    [save_wallet] writes files that cannot be loaded, the wallet's restore
    command makes a fresh wallet whatever the recovery phrase is, an epoch block
    passes the rules with any number of transactions in the coinbase's name, the
    history of an address contains that of the addresses that extend it, and
    large stakes are slashed by less than their part.

    ** Not modelled

    The module declarations (lib.rs and the mod.rs files; the functions of
    crypto/mod.rs are modelled), what the tests print, and the texts that
    [Debug] derives.  A node that receives blocks, applies them and rolls back
    those that fail is not part of the crate; nor is a check of a transaction's
    hash, so the theorems speak of transaction hashes where the code does.
    What the crates compute is a parameter: the digest, the ciphers and
    signature schemes, JSON, the BIP-39 word list, the formatting of dates.
    Writes to standard error are assumed to succeed; a concurrent process on
    the same files, and a power failure in the middle of a sled operation, are
    outside the model.
*)
From Stdlib Require Export ZArith Lia.
From stdpp Require Export base tactics decidable option strings gmap sorting countable numbers.
From stdpp Require Export list.

#[export] Set Default Goal Selector "!".
Open Scope Z_scope.

(** Closes a goal on concrete data by computation. *)
Ltac concrete := vm_compute; repeat split; first [reflexivity|discriminate|done].

(** ** Outcomes

    A Rust call ends in one of three ways: it returns [Ok], it returns [Err],
    or it panics (an arithmetic overflow in a build with overflow checks, an
    out-of-range slice, an [unwrap] of nothing).  A function whose Rust type is
    not [Result] but which can panic is polymorphic in [E], so that it cannot
    return [Err]. *)
Inductive res (E A : Type) : Type :=
| Ok (a : A)
| Err (e : E)
| Panic.
Arguments Ok {E A} a.
Arguments Err {E A} e.
Arguments Panic {E A}.

#[export] Instance res_ret E : MRet (res E) := fun A a => Ok a.
#[export] Instance res_bind E : MBind (res E) := fun A B f r =>
  match r with Ok a => f a | Err e => Err e | Panic => Panic end.

Definition map_err {E F A} (f : E -> F) (r : res E A) : res F A :=
  match r with Ok a => Ok a | Err e => Err (f e) | Panic => Panic end.
Definition map_ok {E A B} (f : A -> B) (r : res E A) : res E B :=
  match r with Ok a => Ok (f a) | Err e => Err e | Panic => Panic end.
Definition ok_or {E A} (o : option A) (e : E) : res E A :=
  match o with Some a => Ok a | None => Err e end.
Definition is_ok {E A} (r : res E A) : bool :=
  match r with Ok _ => true | _ => false end.

#[export] Instance res_eq_dec `{EqDecision E, EqDecision A} : EqDecision (res E A).
Proof. solve_decision. Defined.

Lemma res_bind_Ok {E A B} (m : res E A) (f : A -> res E B) b :
  m ≫= f = Ok b <-> exists a, m = Ok a /\ f a = Ok b.
Proof. destruct m as [a|e|]; cbn; [|naive_solver..]. split; [eauto|by intros (? & [= ->] & ?)]. Qed.

(** ** Computations on a store

    [st S E A] threads a store [S].  The store is kept when the computation
    returns [Err] or panics: what was written before the failure stays
    written. *)
Definition st (S E A : Type) : Type := S -> S * res E A.

#[export] Instance st_ret S E : MRet (st S E) := fun A a s => (s, Ok a).
#[export] Instance st_bind S E : MBind (st S E) := fun A B f m s =>
  match m s with
  | (s', Ok a) => f a s'
  | (s', Err e) => (s', Err e)
  | (s', Panic) => (s', Panic)
  end.

Definition st_lift {S E A} (r : res E A) : st S E A := fun s => (s, r).
Definition st_fail {S E A} (e : E) : st S E A := fun s => (s, Err e).
Definition st_get {S E} : st S E S := fun s => (s, Ok s).
Definition st_gets {S E A} (f : S -> res E A) : st S E A := fun s => (s, f s).
Definition st_modify {S E} (f : S -> S) : st S E unit := fun s => (f s, Ok tt).
Definition st_map_err {S E F A} (f : E -> F) (m : st S E A) : st S F A :=
  fun s => let '(s', r) := m s in (s', map_err f r).

Lemma st_bind_run {S E A B} (m : st S E A) (f : A -> st S E B) s :
  (m ≫= f) s = match m s with
    | (s', Ok a) => f a s'
    | (s', Err e) => (s', Err e)
    | (s', Panic) => (s', Panic)
    end.
Proof. done. Qed.

(** [let x = r?;] for a fallible step [r] that does not touch the store. *)
Notation "x ←? r ; z" := (st_lift r ≫= λ x, z)
  (at level 20, r at level 100, z at level 200, only parsing) : stdpp_scope.

(** [for x in l { body x }] with [?] inside the body. *)
Fixpoint st_for {S E A} (l : list A) (body : A -> st S E unit) : st S E unit :=
  match l with
  | [] => mret tt
  | x :: l => body x ;; st_for l body
  end.

Lemma st_for_app {S E A} (l1 l2 : list A) (body : A -> st S E unit) s :
  st_for (l1 ++ l2) body s = (st_for l1 body ;; st_for l2 body) s.
Proof.
  revert s. induction l1 as [|x l1 IH]; intros s; [done|]. cbn [app st_for]. rewrite !st_bind_run.
  destruct (body x s) as [s' [[]|e|]]; [|done..]. by rewrite IH, !st_bind_run.
Qed.

(** A loop that carries an accumulator. *)
Fixpoint st_fold {S E A B} (l : list A) (acc : B) (body : B -> A -> st S E B) : st S E B :=
  match l with
  | [] => mret acc
  | x :: l => acc' ← body acc x; st_fold l acc' body
  end.

Fixpoint res_fold {E A B} (l : list A) (acc : B) (body : B -> A -> res E B) : res E B :=
  match l with
  | [] => Ok acc
  | x :: l => acc' ← body acc x; res_fold l acc' body
  end.

Fixpoint sumZ (l : list Z) : Z :=
  match l with [] => 0 | x :: l => x + sumZ l end.
Lemma sumZ_app l1 l2 : sumZ (l1 ++ l2) = sumZ l1 + sumZ l2.
Proof. induction l1 as [|x l1 IH]; cbn; lia. Qed.
Lemma sumZ_nonneg l : Forall (fun x => 0 <= x) l -> 0 <= sumZ l.
Proof. induction 1; cbn; lia. Qed.

(** ** Machine integers

    A [u64] is a [Z] between 0 and [u64_max], an [i64] one between [i64_min]
    and [i64_max].  The plain operators of Rust panic on overflow when the
    crate is built with overflow checks (the default of a debug build) and
    wrap around when it is not (the default of a release build); [Cargo.toml]
    sets neither profile, so the development is generic in the choice. *)
Class Build := { overflow_checks : bool }.

Definition u32_max : Z := 4294967295.
Definition u64_max : Z := 18446744073709551615.
Definition u128_max : Z := 340282366920938463463374607431768211455.
Definition i64_min : Z := -9223372036854775808.
Definition i64_max : Z := 9223372036854775807.

Definition is_u32 (x : Z) : Prop := 0 <= x <= u32_max.
Definition is_u64 (x : Z) : Prop := 0 <= x <= u64_max.
Definition is_i64 (x : Z) : Prop := i64_min <= x <= i64_max.

(** The value of a plain unsigned operator whose exact result is [x]. *)
Definition unsigned `{Build} {E} (max x : Z) : res E Z :=
  if (0 <=? x) && (x <=? max) then Ok x
  else if overflow_checks then Panic else Ok (x mod (max + 1)).
Definition signed64 `{Build} {E} (x : Z) : res E Z :=
  if (i64_min <=? x) && (x <=? i64_max) then Ok x
  else if overflow_checks then Panic
  else Ok ((x - i64_min) mod (u64_max + 1) + i64_min).

Definition add_u64 `{Build} {E} (a b : Z) : res E Z := unsigned u64_max (a + b).
Definition sub_u64 `{Build} {E} (a b : Z) : res E Z := unsigned u64_max (a - b).
Definition mul_u64 `{Build} {E} (a b : Z) : res E Z := unsigned u64_max (a * b).
Definition add_u32 `{Build} {E} (a b : Z) : res E Z := unsigned u32_max (a + b).
Definition mul_u128 `{Build} {E} (a b : Z) : res E Z := unsigned u128_max (a * b).
Definition add_u128 `{Build} {E} (a b : Z) : res E Z := unsigned u128_max (a + b).
Definition add_i64 `{Build} {E} (a b : Z) : res E Z := signed64 (a + b).
Definition sub_i64 `{Build} {E} (a b : Z) : res E Z := signed64 (a - b).
Definition mul_i64 `{Build} {E} (a b : Z) : res E Z := signed64 (a * b).

Definition checked_add_u64 (a b : Z) : option Z :=
  if a + b <=? u64_max then Some (a + b) else None.
Definition saturating_add_u64 (a b : Z) : Z := Z.min (a + b) u64_max.
Definition saturating_sub_u64 (a b : Z) : Z := Z.max (a - b) 0.
Definition saturating_mul_u64 (a b : Z) : Z := Z.min (a * b) u64_max.
(** [x.checked_shr(n)] of a [u64]: [None] once the shift reaches the width. *)
Definition checked_shr_u64 (x n : Z) : option Z :=
  if n <? 64 then Some (Z.shiftr x n) else None.
(** [x as u32]: the low 32 bits. *)
Definition as_u32 (x : Z) : Z := x mod (u32_max + 1).
Definition as_u64 (x : Z) : Z := x mod (u64_max + 1).
Definition clamp (lo hi x : Z) : Z := if x <? lo then lo else if hi <? x then hi else x.

Section machine_lemmas.
  Context `{Build} {E : Type}.
  Implicit Types a b x : Z.

Lemma unsigned_ok max x : 0 <= x <= max -> unsigned (E:=E) max x = Ok x.
Proof. intros. unfold unsigned. by rewrite (proj2 (Z.leb_le 0 x)), (proj2 (Z.leb_le x max)) by lia. Qed.

Lemma unsigned_inv max x y :
  0 <= max -> unsigned (E:=E) max x = Ok y -> 0 <= y <= max.
Proof.
  unfold unsigned. intros Hm. destruct (Z.leb_spec 0 x), (Z.leb_spec x max); cbn;
    try (destruct overflow_checks; [done|]); intros [= <-]; try lia;
    pose proof (Z.mod_pos_bound x (max + 1)); lia.
Qed.

Lemma unsigned_no_err max x e : unsigned (E:=E) max x <> Err e.
Proof. unfold unsigned. by repeat case_match. Qed.

Lemma unsigned_panic max x :
  overflow_checks = true -> x < 0 \/ max < x -> unsigned (E:=E) max x = Panic.
Proof.
  intros Hc Hx. unfold unsigned. rewrite Hc.
  destruct (Z.leb_spec 0 x), (Z.leb_spec x max); cbn; try done; lia.
Qed.

Lemma unsigned_panic_inv max x :
  unsigned (E:=E) max x = Panic -> overflow_checks = true /\ (x < 0 \/ max < x).
Proof.
  unfold unsigned. destruct (Z.leb_spec 0 x), (Z.leb_spec x max); cbn; try done; destruct overflow_checks; try done; lia.
Qed.

Lemma unsigned_wrap max x :
  0 <= max -> overflow_checks = false -> unsigned (E:=E) max x = Ok (x mod (max + 1)).
Proof.
  intros Hm Hc. unfold unsigned. rewrite Hc.
  destruct (Z.leb_spec 0 x), (Z.leb_spec x max); cbn; try done.
  rewrite Z.mod_small; [done|lia].
Qed.

Lemma signed64_ok x : is_i64 x -> signed64 (E:=E) x = Ok x.
Proof.
  unfold is_i64, signed64. intros.
  by rewrite (proj2 (Z.leb_le i64_min x)), (proj2 (Z.leb_le x i64_max)) by lia.
Qed.

Lemma add_u64_ok a b : 0 <= a -> 0 <= b -> a + b <= u64_max -> add_u64 (E:=E) a b = Ok (a + b).
Proof. intros. apply unsigned_ok. lia. Qed.
Lemma sub_u64_ok a b : 0 <= b <= a -> a <= u64_max -> sub_u64 (E:=E) a b = Ok (a - b).
Proof. intros. apply unsigned_ok. lia. Qed.
Lemma mul_u64_ok a b : 0 <= a * b <= u64_max -> mul_u64 (E:=E) a b = Ok (a * b).
Proof. apply unsigned_ok. Qed.

Lemma checked_add_Some a b c : checked_add_u64 a b = Some c <-> c = a + b /\ a + b <= u64_max.
Proof. unfold checked_add_u64. destruct (Z.leb_spec (a + b) u64_max); naive_solver lia. Qed.
Lemma checked_add_None a b : checked_add_u64 a b = None <-> u64_max < a + b.
Proof. unfold checked_add_u64. destruct (Z.leb_spec (a + b) u64_max); naive_solver lia. Qed.
End machine_lemmas.

(** ** Loops with a large bound

    [loop_pos body p s] runs [body] from state [s] until it returns a result
    ([inr]), at most [p] times.  The bound is a binary number, so that a loop
    bounded by a [u64] can be evaluated. *)
Fixpoint loop_pos {S R} (body : S -> S + R) (p : positive) (s : S) : S + R :=
  match p with
  | xH => body s
  | xO p =>
    match loop_pos body p s with inl s => loop_pos body p s | inr r => inr r end
  | xI p =>
    match body s with
    | inl s => match loop_pos body p s with inl s => loop_pos body p s | inr r => inr r end
    | inr r => inr r
    end
  end.
Fixpoint loop_nat {S R} (body : S -> S + R) (n : nat) (s : S) : S + R :=
  match n with
  | O => inl s
  | Datatypes.S n => match body s with inl s => loop_nat body n s | inr r => inr r end
  end.

Section loops.
  Context {S R : Type} (body : S -> S + R).

Lemma loop_nat_add n m s :
  loop_nat body (n + m) s =
  match loop_nat body n s with inl s => loop_nat body m s | inr r => inr r end.
Proof. revert s. induction n as [|n IH]; intros s; cbn; [done|]. destruct (body s); [apply IH|done]. Qed.

Lemma loop_pos_nat p s : loop_pos body p s = loop_nat body (Pos.to_nat p) s.
Proof.
  revert s. induction p as [p IH|p IH|]; intros s; cbn [loop_pos].
  - rewrite Pos2Nat.inj_xI. cbn [loop_nat]. destruct (body s); [|done].
    replace (2 * Pos.to_nat p)%nat with (Pos.to_nat p + Pos.to_nat p)%nat by lia.
    rewrite loop_nat_add, IH. by destruct (loop_nat body _ s0).
  - rewrite Pos2Nat.inj_xO.
    replace (2 * Pos.to_nat p)%nat with (Pos.to_nat p + Pos.to_nat p)%nat by lia.
    rewrite loop_nat_add, IH. by destruct (loop_nat body _ s).
  - rewrite Pos2Nat.inj_1. cbn. by destruct (body s).
Qed.

(** The rule of a counting loop: the invariant [I] is kept by every round
    that goes on, a round that stops establishes [Q], and [m] decreases. *)
Lemma loop_pos_rule (I : S -> Prop) (Q : R -> Prop) (m : S -> Z) p s :
  I s -> m s < Zpos p ->
  (forall s, I s -> 0 <= m s /\
    match body s with inl s' => I s' /\ m s' < m s | inr r => Q r end) ->
  exists r, loop_pos body p s = inr r /\ Q r.
Proof.
  intros HI Hm Hstep. rewrite loop_pos_nat.
  assert (m s < Z.of_nat (Pos.to_nat p)) as Hn by lia. clear Hm. revert s HI Hn.
  induction (Pos.to_nat p) as [|n IH]; intros s HI Hn;
    destruct (Hstep s HI) as [H0 Hb]; [lia|]. cbn.
  destruct (body s) as [s'|r]; [|by eauto]. destruct Hb. apply IH; [done|lia].
Qed.
End loops.

(** ** Lists *)

Lemma NoDup_fmap_eq {A B} (f : A -> B) l x y :
  NoDup (f <$> l) -> x ∈ l -> y ∈ l -> f x = f y -> x = y.
Proof.
  intros Hl [i Hx]%list_elem_of_lookup [j Hy]%list_elem_of_lookup He.
  assert (i = j) as <-; [|congruence].
  apply (NoDup_lookup (f <$> l) i j (f x)); [done|..]; rewrite list_lookup_fmap.
  - by rewrite Hx.
  - by rewrite Hy, He.
Qed.
Lemma NoDup_fmap_filter {A B} `{EqDecision B} (f : A -> B) l :
  (forall y, length (filter (fun x => f x = y) l) <= 1)%nat -> NoDup (f <$> l).
Proof.
  induction l as [|x l IH]; intros Hl; cbn; [constructor|]. constructor.
  - intros (y & He & Hy)%list_elem_of_fmap. specialize (Hl (f x)). rewrite filter_cons, decide_True in Hl by done.
    assert (y ∈ filter (fun z => f z = f x) l) as Hin by by apply list_elem_of_filter.
    destruct (filter (fun z => f z = f x) l); [by apply not_elem_of_nil in Hin|cbn in Hl; lia].
  - apply IH. intros y. specialize (Hl y). rewrite filter_cons in Hl. case_decide; cbn in *; lia.
Qed.
Lemma elem_of_sumZ l x : Forall (fun x => 0 <= x) l -> x ∈ l -> x <= sumZ l.
Proof.
  induction 1 as [|y l Hy Hl IH]; intros Hx; [by apply not_elem_of_nil in Hx|].
  pose proof (sumZ_nonneg l Hl). apply elem_of_cons in Hx as [->|Hx]; cbn; [lia|].
  specialize (IH Hx). lia.
Qed.
Lemma Sorted_filter {A} (R : relation A) `{!Transitive R} (P : A -> Prop)
    `{forall x, Decision (P x)} l :
  Sorted R l -> Sorted R (filter P l).
Proof.
  intros Hl%Sorted_StronglySorted; [|done]. apply StronglySorted_Sorted.
  induction Hl as [|x l Hl IH Hx]; [constructor|]. rewrite filter_cons. case_decide; [|done].
  constructor; [done|]. rewrite Forall_forall in *. intros y [_ Hy]%list_elem_of_filter. auto.
Qed.
Lemma Sorted_fmap_on {A B} (R : relation A) (S : relation B) (f : A -> B) l :
  (forall x y, x ∈ l -> y ∈ l -> R x y -> S (f x) (f y)) -> Sorted R l -> Sorted S (f <$> l).
Proof.
  intros Hf Hl. induction Hl as [|x l Hl IH Hx]; cbn; constructor.
  - apply IH. intros ?? ? ?. apply Hf; by right.
  - destruct Hx; cbn; constructor. apply Hf; set_solver.
Qed.
