(* ===== verification/Text.v ===== *)
(** * Rust strings and byte sequences

    A Rust [String] or [&str] is the [string] of its UTF-8 bytes; a [Vec<u8>]
    or [&[u8]] is a [string] too, so that [as_bytes] is the identity and
    [String::from_utf8] is the partial function [from_utf8].  This file models
    what the crate uses of the standard library on them: decimal formatting
    and parsing, zero padding, slicing, prefixes, the byte-wise order of keys,
    and the fixed-width little- and big-endian encodings of integers. *)
From S2P Require Import Prelude.
From Stdlib Require Import Ascii.

Definition byte_of (c : ascii) : Z := Z.of_N (N_of_ascii c).
Definition of_byte (b : Z) : ascii := ascii_of_N (Z.to_N b).

Definition str_len (s : string) : Z := Z.of_nat (String.length s).
Definition is_empty (s : string) : bool := match s with EmptyString => true | _ => false end.

Fixpoint str_repeat (n : nat) (s : string) : string :=
  match n with O => "" | S n => s +:+ str_repeat n s end.
Fixpoint str_concat (l : list string) : string :=
  match l with [] => "" | s :: l => s +:+ str_concat l end.
Fixpoint str_forall (f : ascii -> bool) (s : string) : bool :=
  match s with EmptyString => true | String c s => f c && str_forall f s end.
Fixpoint str_take (n : nat) (s : string) : string :=
  match n, s with S n, String c s => String c (str_take n s) | _, _ => "" end.
Fixpoint str_drop (n : nat) (s : string) : string :=
  match n, s with S n, String c s => str_drop n s | _, _ => s end.
Definition starts_with (p s : string) : bool := String.prefix p s.

(** ** UTF-8 *)

Definition in_range (lo hi : Z) (c : ascii) : bool := (lo <=? byte_of c) && (byte_of c <=? hi).
Definition is_cont : ascii -> bool := in_range 128 191.

(** Whether [b] may follow the lead byte [a] of a three- or four-byte sequence
    (the well-formed byte sequences of the Unicode standard, table 3-7). *)
Definition second_ok (a b : ascii) : bool :=
  if in_range 224 224 a then in_range 160 191 b
  else if in_range 237 237 a then in_range 128 159 b
  else if in_range 240 240 a then in_range 144 191 b
  else if in_range 244 244 a then in_range 128 143 b
  else is_cont b.

(** The first ill-formed sequence, if any: where it starts, and how many bytes
    of it there are, [None] when the input ends inside it (the fields
    [valid_up_to] and [error_len] of [Utf8Error]). *)
Fixpoint utf8_scan (i : Z) (s : string) : option (Z * option Z) :=
  match s with
  | EmptyString => None
  | String a s1 =>
    if in_range 0 127 a then utf8_scan (i + 1) s1
    else if in_range 194 223 a then
      match s1 with
      | EmptyString => Some (i, None)
      | String b s2 => if is_cont b then utf8_scan (i + 2) s2 else Some (i, Some 1)
      end
    else if in_range 224 239 a then
      match s1 with
      | EmptyString => Some (i, None)
      | String b s2 =>
        if second_ok a b then
          match s2 with
          | EmptyString => Some (i, None)
          | String c s3 => if is_cont c then utf8_scan (i + 3) s3 else Some (i, Some 2)
          end
        else Some (i, Some 1)
      end
    else if in_range 240 244 a then
      match s1 with
      | EmptyString => Some (i, None)
      | String b s2 =>
        if second_ok a b then
          match s2 with
          | EmptyString => Some (i, None)
          | String c s3 =>
            if is_cont c then
              match s3 with
              | EmptyString => Some (i, None)
              | String d s4 => if is_cont d then utf8_scan (i + 4) s4 else Some (i, Some 3)
              end
            else Some (i, Some 2)
          end
        else Some (i, Some 1)
      end
    else Some (i, Some 1)
  end.
Definition utf8_valid (s : string) : bool :=
  match utf8_scan 0 s with None => true | Some _ => false end.

(** [String::from_utf8_lossy(v)]: every maximal ill-formed sequence becomes one
    replacement character. *)
Definition replacement : string :=
  String (of_byte 239) (String (of_byte 191) (String (of_byte 189) "")).
Fixpoint from_utf8_lossy (s : string) : string :=
  match s with
  | EmptyString => ""
  | String a s1 =>
    if in_range 0 127 a then String a (from_utf8_lossy s1)
    else if in_range 194 223 a then
      match s1 with
      | EmptyString => replacement
      | String b s2 =>
        if is_cont b then String a (String b (from_utf8_lossy s2))
        else replacement +:+ from_utf8_lossy s1
      end
    else if in_range 224 239 a then
      match s1 with
      | EmptyString => replacement
      | String b s2 =>
        if second_ok a b then
          match s2 with
          | EmptyString => replacement
          | String c s3 =>
            if is_cont c then String a (String b (String c (from_utf8_lossy s3)))
            else replacement +:+ from_utf8_lossy s2
          end
        else replacement +:+ from_utf8_lossy s1
      end
    else if in_range 240 244 a then
      match s1 with
      | EmptyString => replacement
      | String b s2 =>
        if second_ok a b then
          match s2 with
          | EmptyString => replacement
          | String c s3 =>
            if is_cont c then
              match s3 with
              | EmptyString => replacement
              | String d s4 =>
                if is_cont d then String a (String b (String c (String d (from_utf8_lossy s4))))
                else replacement +:+ from_utf8_lossy s3
              end
            else replacement +:+ from_utf8_lossy s2
          end
        else replacement +:+ from_utf8_lossy s1
      end
    else replacement +:+ from_utf8_lossy s1
  end.

(** [&s[..n]] and [&s[n..]]: a panic past the end or inside a character. *)
Definition is_char_boundary (n : nat) (s : string) : bool :=
  match str_drop n s with
  | EmptyString => Nat.eqb n (String.length s)
  | String c _ => negb (is_cont c)
  end.
Definition slice_to {E} (n : nat) (s : string) : res E string :=
  if is_char_boundary n s then Ok (str_take n s) else Panic.
Definition slice_from {E} (n : nat) (s : string) : res E string :=
  if is_char_boundary n s then Ok (str_drop n s) else Panic.

(** ** Decimal numbers *)

Definition digit (d : Z) : ascii := of_byte (48 + d).
Definition is_digit : ascii -> bool := in_range 48 57.
Definition digit_value (c : ascii) : Z := byte_of c - 48.

Fixpoint dec_acc (fuel : nat) (n : Z) (acc : string) : string :=
  match fuel with
  | O => acc
  | S fuel =>
    if n <? 10 then String (digit n) acc
    else dec_acc fuel (n / 10) (String (digit (n mod 10)) acc)
  end.
(** [n.to_string()] of an unsigned and of a signed integer. *)
Definition show_uint (n : Z) : string := dec_acc (S (Z.to_nat (Z.log2 n))) n "".
Definition show_int (n : Z) : string :=
  if n <? 0 then "-" +:+ show_uint (- n) else show_uint n.
(** [format!("{:0w$}", n)] of an unsigned integer. *)
Definition show_padded (w : nat) (n : Z) : string :=
  let s := show_uint n in str_repeat (w - String.length s) "0" +:+ s.

(** [s.parse::<u64>()]: an optional [+], then digits, left to right. *)
Fixpoint parse_digits (s : string) (v : Z) : res string Z :=
  match s with
  | EmptyString => Ok v
  | String c s =>
    if is_digit c then
      let v' := 10 * v + digit_value c in
      if v' <=? u64_max then parse_digits s v' else Err "number too large to fit in target type"
    else Err "invalid digit found in string"
  end.
Definition parse_u64 (s : string) : res string Z :=
  match s with
  | EmptyString => Err "cannot parse integer from empty string"
  | String "+" EmptyString => Err "invalid digit found in string"
  | String "+" s => parse_digits s 0
  | _ => parse_digits s 0
  end.

(** [String::from_utf8(v)], with the text [FromUtf8Error] displays. *)
Definition from_utf8 (v : string) : res string string :=
  match utf8_scan 0 v with
  | None => Ok v
  | Some (i, Some n) =>
    Err ("invalid utf-8 sequence of " +:+ show_uint n +:+ " bytes from index " +:+ show_uint i)
  | Some (i, None) => Err ("incomplete utf-8 byte sequence from index " +:+ show_uint i)
  end.

(** ** Fixed-width encodings *)

Fixpoint le_bytes (w : nat) (n : Z) : string :=
  match w with
  | O => ""
  | S w => String (of_byte (n mod 256)) (le_bytes w (n / 256))
  end.
Fixpoint be_bytes_acc (w : nat) (n : Z) (acc : string) : string :=
  match w with
  | O => acc
  | S w => be_bytes_acc w (n / 256) (String (of_byte (n mod 256)) acc)
  end.
Definition u64_to_le_bytes (n : Z) : string := le_bytes 8 n.
(** Two's complement. *)
Definition i64_to_le_bytes (n : Z) : string := le_bytes 8 (n mod (u64_max + 1)).
Definition u64_to_be_bytes (n : Z) : string := be_bytes_acc 8 n "".

(** [c.is_ascii_hexdigit()] *)
Definition is_hexdigit (c : ascii) : bool :=
  in_range 48 57 c || in_range 65 70 c || in_range 97 102 c.

(** ** The byte-wise order of keys and strings *)

Definition str_le (a b : string) : Prop := String.leb a b = true.
#[export] Instance str_le_dec a b : Decision (str_le a b).
Proof. unfold str_le. apply _. Defined.
Definition key_le {V} (x y : string * V) : Prop := str_le x.1 y.1.
#[export] Instance key_le_dec {V} (x y : string * V) : Decision (key_le x y).
Proof. unfold key_le. apply _. Defined.

(** ** Lemmas on strings *)

Lemma str_app_nil_l a : "" +:+ a = a.
Proof. done. Qed.
Lemma str_app_cons x a b : String x a +:+ b = String x (a +:+ b).
Proof. done. Qed.
Create Rewrite HintDb text.
#[export] Hint Rewrite str_app_nil_l str_app_cons : text.

Lemma str_app_assoc a b c : (a +:+ b) +:+ c = a +:+ (b +:+ c).
Proof. induction a as [|x a IH]; autorewrite with text; [done|]. by rewrite IH. Qed.
Lemma str_app_nil_r a : a +:+ "" = a.
Proof. induction a as [|x a IH]; autorewrite with text; [done|]. by rewrite IH. Qed.
Lemma str_length_app a b : String.length (a +:+ b) = (String.length a + String.length b)%nat.
Proof. induction a as [|x a IH]; autorewrite with text; [done|]. cbn. by rewrite IH. Qed.
#[export] Hint Rewrite str_app_assoc str_app_nil_r str_length_app : text.
Lemma str_app_inj_l a b c : a +:+ b = a +:+ c -> b = c.
Proof. induction a as [|x a IH]; [done|]. rewrite !str_app_cons. intros [= ?]. auto. Qed.
Lemma str_app_inj a1 a2 b1 b2 :
  String.length a1 = String.length a2 -> a1 +:+ b1 = a2 +:+ b2 -> a1 = a2 /\ b1 = b2.
Proof.
  revert a2. induction a1 as [|x a IH]; intros [|y a2]; try done.
  rewrite !str_app_cons. intros [= Hl] [= -> He]. destruct (IH _ Hl He) as [-> ->]. done.
Qed.
Lemma str_length_repeat n s : String.length (str_repeat n s) = (n * String.length s)%nat.
Proof. induction n as [|n IH]; [done|]. cbn. by rewrite str_length_app, IH. Qed.
Lemma str_take_app a b : str_take (String.length a) (a +:+ b) = a.
Proof. induction a as [|x a IH]; [by destruct b|]. rewrite str_app_cons. cbn. by rewrite IH. Qed.
Lemma str_drop_app a b : str_drop (String.length a) (a +:+ b) = b.
Proof. induction a as [|x a IH]; [done|]. apply IH. Qed.
Lemma str_forall_app f a b : str_forall f (a +:+ b) = str_forall f a && str_forall f b.
Proof.
  induction a as [|x a IH]; [done|]. rewrite str_app_cons. cbn. by rewrite IH, andb_assoc.
Qed.
Lemma str_forall_repeat f n s : str_forall f s = true -> str_forall f (str_repeat n s) = true.
Proof. intros Hs. induction n as [|n IH]; [done|]. cbn. by rewrite str_forall_app, Hs, IH. Qed.
Lemma str_forall_impl (f g : ascii -> bool) s :
  (forall c, f c = true -> g c = true) -> str_forall f s = true -> str_forall g s = true.
Proof.
  intros Hfg. induction s as [|c s IH]; [done|]. cbn. rewrite !andb_true_iff.
  naive_solver.
Qed.

Lemma boundary_no_cont n s :
  str_forall (fun c => negb (is_cont c)) s = true -> (n <= String.length s)%nat -> is_char_boundary n s = true.
Proof.
  unfold is_char_boundary. revert n. induction s as [|c s IH]; intros n Hs Hn.
  - by destruct n; [|cbn in Hn; lia].
  - cbn [str_forall] in Hs. apply andb_true_iff in Hs as [Hc Hs].
    destruct n as [|n]; [done|]. cbn [str_drop String.length] in *. apply IH; [done|lia].
Qed.
Lemma starts_with_app p s : starts_with p (p +:+ s) = true.
Proof.
  unfold starts_with. induction p as [|c p IH]; [by destruct s|]. rewrite str_app_cons. cbn.
  destruct (ascii_dec c c); [apply IH|done].
Qed.
Lemma starts_with_spec p s : starts_with p s = true <-> exists r, s = p +:+ r.
Proof.
  unfold starts_with. revert s. induction p as [|c p IH]; intros s.
  - cbn. split; [by exists s|by destruct s].
  - destruct s as [|d s]; cbn; [split; [done|by intros [? [=]]]|].
    destruct (ascii_dec c d) as [->|Hne].
    + rewrite IH. split; [by intros [r ->]; exists r|].
      intros [r Hr]. rewrite str_app_cons in Hr. exists r. by simplify_eq.
    + split; [done|]. intros [r Hr]. rewrite str_app_cons in Hr. by simplify_eq.
Qed.

Lemma str_app_inj_r a1 a2 b1 b2 :
  String.length b1 = String.length b2 -> a1 +:+ b1 = a2 +:+ b2 -> a1 = a2 /\ b1 = b2.
Proof.
  intros Hl He. apply str_app_inj; [|done]. apply (f_equal String.length) in He.
  rewrite !str_length_app in He. lia.
Qed.

(** A lossy conversion changes no ASCII prefix. *)
Lemma starts_with_lossy p s :
  str_forall (in_range 0 127) p = true -> starts_with p (from_utf8_lossy s) = starts_with p s.
Proof.
  unfold starts_with. revert s. induction p as [|x p IH]; intros s Hp; [by destruct s, (from_utf8_lossy _)|].
  destruct s as [|a s]; [done|]. cbn [str_forall] in Hp. apply andb_true_iff in Hp as [Hx Hp].
  assert (forall b r, in_range 0 127 b = false -> String.prefix (String x p) (String b r) = false) as Hne.
  { intros b r Hb. cbn. destruct (Ascii.ascii_dec x b); [congruence|done]. }
  cbn [from_utf8_lossy]. destruct (in_range 0 127 a) eqn:Ha.
  - cbn. destruct (Ascii.ascii_dec x a); [by apply IH|done].
  - rewrite (Hne a s Ha). unfold replacement.
    repeat case_match; rewrite ?str_app_cons; by apply Hne.
Qed.

(** ** Bytes and digits *)

Lemma byte_of_range c : 0 <= byte_of c < 256.
Proof. unfold byte_of. pose proof (N_ascii_bounded c). lia. Qed.
Lemma byte_of_of_byte b : 0 <= b < 256 -> byte_of (of_byte b) = b.
Proof. intros. unfold byte_of, of_byte. rewrite N_ascii_embedding; lia. Qed.
Lemma of_byte_byte_of c : of_byte (byte_of c) = c.
Proof. unfold byte_of, of_byte. by rewrite N2Z.id, ascii_N_embedding. Qed.
Lemma of_byte_inj a b : 0 <= a < 256 -> 0 <= b < 256 -> of_byte a = of_byte b -> a = b.
Proof. intros Ha Hb He. by rewrite <-(byte_of_of_byte a), <-(byte_of_of_byte b), He. Qed.

Lemma digit_value_digit d : 0 <= d < 10 -> digit_value (digit d) = d.
Proof. intros. unfold digit_value, digit. rewrite byte_of_of_byte; lia. Qed.
Lemma is_digit_digit d : 0 <= d < 10 -> is_digit (digit d) = true.
Proof.
  intros. unfold is_digit, in_range, digit. rewrite byte_of_of_byte by lia.
  apply andb_true_iff; split; apply Z.leb_le; lia.
Qed.
Lemma digit_inj a b : 0 <= a < 10 -> 0 <= b < 10 -> digit a = digit b -> a = b.
Proof. intros ?? He. by rewrite <-(digit_value_digit a), <-(digit_value_digit b), He. Qed.

(** ** Decimal formatting *)

(** The value of a run of base-[B] digits, the digit 0 being the byte [off],
    after the number [v] read so far. *)
Fixpoint base_value (B off : Z) (s : string) (v : Z) : Z :=
  match s with
  | EmptyString => v
  | String c s => base_value B off s (B * v + (byte_of c - off))
  end.
Abbreviation digits_value := (base_value 10 48).

Lemma dec_acc_value fuel n acc :
  0 <= n < 10 ^ Z.of_nat fuel -> (0 < fuel)%nat ->
  digits_value (dec_acc fuel n acc) 0 = digits_value acc n.
Proof.
  revert n acc. induction fuel as [|fuel IH]; intros n acc Hn Hf; [lia|]. cbn.
  destruct (Z.ltb_spec n 10).
  - cbn [base_value]. fold (digit_value (digit n)). by rewrite digit_value_digit by lia.
  - rewrite Nat2Z.inj_succ, Z.pow_succ_r in Hn by lia.
    destruct fuel as [|fuel]; [lia|].
    rewrite IH; [|split; [apply Z.div_pos; lia|apply Z.div_lt_upper_bound; lia]|lia].
    cbn [base_value]. fold (digit_value (digit (n mod 10))). rewrite (digit_value_digit (n mod 10)) by (apply Z.mod_pos_bound; lia).
    f_equal. pose proof (Z.div_mod n 10). lia.
Qed.

Lemma dec_acc_digits fuel n acc :
  0 <= n -> str_forall is_digit acc = true -> str_forall is_digit (dec_acc fuel n acc) = true.
Proof.
  revert n acc. induction fuel as [|fuel IH]; intros n acc Hn Ha; [done|]. cbn.
  destruct (Z.ltb_spec n 10); cbn.
  - by rewrite is_digit_digit, Ha by lia.
  - apply IH; [apply Z.div_pos; lia|]. cbn.
    by rewrite is_digit_digit, Ha by (apply Z.mod_pos_bound; lia).
Qed.

Lemma dec_acc_app fuel n acc : dec_acc fuel n acc = dec_acc fuel n "" +:+ acc.
Proof.
  revert n acc. induction fuel as [|fuel IH]; intros n acc; [done|]. cbn.
  case_match; [done|]. rewrite IH, (IH _ (String _ "")), str_app_assoc. done.
Qed.

Lemma show_uint_fuel n : 0 <= n -> n < 10 ^ Z.of_nat (S (Z.to_nat (Z.log2 n))).
Proof.
  intros Hn. destruct (Z.eq_dec n 0) as [->|]; [done|].
  pose proof (Z.log2_nonneg n).
  rewrite Nat2Z.inj_succ, Z2Nat.id by done.
  apply (Z.lt_le_trans _ (2 ^ Z.succ (Z.log2 n))); [apply Z.log2_spec; lia|].
  apply Z.pow_le_mono_l. lia.
Qed.

Lemma dec_acc_fuel f1 f2 n acc :
  0 <= n < 10 ^ Z.of_nat f1 -> n < 10 ^ Z.of_nat f2 -> (0 < f1)%nat -> (0 < f2)%nat ->
  dec_acc f1 n acc = dec_acc f2 n acc.
Proof.
  revert f2 n acc. induction f1 as [|f1 IH]; intros [|f2] n acc Hn Hm Hf1 Hf2; try lia. cbn.
  destruct (Z.ltb_spec n 10); [done|].
  rewrite Nat2Z.inj_succ, Z.pow_succ_r in Hn, Hm by lia.
  destruct f1; [cbn in Hn; lia|]. destruct f2; [cbn in Hm; lia|].
  apply IH; [|apply Z.div_lt_upper_bound; lia|lia..].
  split; [apply Z.div_pos; lia|apply Z.div_lt_upper_bound; lia].
Qed.

(** Printing a further digit appends it. *)
Lemma show_uint_snoc n k :
  0 < n -> 0 <= k < 10 -> show_uint (10 * n + k) = show_uint n +:+ String (digit k) "".
Proof.
  intros Hn Hk. unfold show_uint at 1. cbn [dec_acc].
  destruct (Z.ltb_spec (10 * n + k) 10); [lia|].
  replace ((10 * n + k) mod 10) with k by (rewrite Z.add_comm, Z.mul_comm, Z.mod_add, Z.mod_small; lia).
  replace ((10 * n + k) / 10) with n by (rewrite Z.mul_comm, Z.div_add_l, Z.div_small; lia).
  rewrite dec_acc_app. f_equal.
  assert (Z.log2 n + 1 <= Z.log2 (10 * n + k)).
  { rewrite Z.add_1_r, <-Z.log2_double by lia. apply Z.log2_le_mono. lia. }
  pose proof (Z.log2_nonneg n). pose proof (show_uint_fuel n ltac:(lia)).
  apply dec_acc_fuel; [|done|lia..]. split; [lia|].
  eapply Z.lt_le_trans; [done|]. apply Z.pow_le_mono_r; lia.
Qed.

Lemma show_uint_value n : 0 <= n -> digits_value (show_uint n) 0 = n.
Proof.
  intros Hn. unfold show_uint. rewrite dec_acc_value; [done| |lia].
  split; [done|]. by apply show_uint_fuel.
Qed.
Lemma show_uint_digits n : 0 <= n -> str_forall is_digit (show_uint n) = true.
Proof. intros. by apply dec_acc_digits. Qed.
Lemma show_uint_inj a b : 0 <= a -> 0 <= b -> show_uint a = show_uint b -> a = b.
Proof. intros ?? He. by rewrite <-(show_uint_value a), <-(show_uint_value b), He. Qed.

(** Numbers with a given number of decimal digits. *)
Lemma show_uint_length k n : 10 ^ Z.of_nat k <= n < 10 ^ (Z.of_nat k + 1) -> String.length (show_uint n) = S k.
Proof.
  revert n. induction k as [|k IH]; intros n [Hlo Hhi].
  - cbn in Hlo, Hhi. unfold show_uint. cbn [dec_acc]. by rewrite (proj2 (Z.ltb_lt n 10)) by lia.
  - rewrite Nat2Z.inj_succ, Z.pow_succ_r in Hlo by lia. rewrite Nat2Z.inj_succ, <-Z.add_1_r, Z.pow_add_r in Hhi by lia.
    pose proof (Z.div_mod n 10 ltac:(done)) as Hn. pose proof (Z.mod_pos_bound n 10 ltac:(done)).
    assert (10 ^ Z.of_nat k <= n / 10 < 10 ^ (Z.of_nat k + 1)) as Hd by (split;
      [apply Z.div_le_lower_bound; lia|apply Z.div_lt_upper_bound; lia]).
    pose proof (Z.pow_pos_nonneg 10 (Z.of_nat k) ltac:(done) ltac:(lia)).
    rewrite Hn, show_uint_snoc, str_length_app, IH by lia. cbn. lia.
Qed.

Lemma digits_value_mono s v w :
  str_forall is_digit s = true -> 0 <= v <= w -> v <= digits_value s v <= digits_value s w.
Proof.
  revert v w. induction s as [|c s IH]; intros v w; [cbn; lia|].
  cbn [str_forall base_value]. rewrite andb_true_iff. fold (digit_value c). intros [Hc Hs] Hv.
  unfold is_digit, in_range in Hc. apply andb_true_iff in Hc as [H1%Z.leb_le H2%Z.leb_le].
  assert (0 <= digit_value c) by (unfold digit_value; lia).
  destruct (IH (10 * v + digit_value c) (10 * w + digit_value c)); [done|lia|]. lia.
Qed.

Lemma parse_digits_value s v :
  str_forall is_digit s = true -> 0 <= v -> digits_value s v <= u64_max ->
  parse_digits s v = Ok (digits_value s v).
Proof.
  revert v. induction s as [|c s IH]; intros v; [done|].
  cbn [str_forall base_value parse_digits]. rewrite andb_true_iff. fold (digit_value c).
  intros [Hc Hs] Hv Hm.
  rewrite Hc. unfold is_digit, in_range in Hc.
  apply andb_true_iff in Hc as [H1%Z.leb_le H2%Z.leb_le].
  assert (0 <= digit_value c) by (unfold digit_value; lia).
  pose proof (digits_value_mono s (10 * v + digit_value c) (10 * v + digit_value c) Hs).
  rewrite (proj2 (Z.leb_le _ _)) by lia. apply IH; [done|lia|done].
Qed.

Lemma dec_acc_cons fuel n acc :
  (0 < fuel)%nat -> 0 <= n -> exists c s, dec_acc fuel n acc = String c s /\ is_digit c = true.
Proof.
  revert n acc. induction fuel as [|fuel IH]; intros n acc Hf Hn; [lia|]. cbn.
  destruct (Z.ltb_spec n 10).
  - do 2 eexists. split; [done|]. apply is_digit_digit. lia.
  - assert (Hm : 0 <= n mod 10 < 10) by (apply Z.mod_pos_bound; lia).
    destruct fuel as [|fuel]; [do 2 eexists; split; [done|by apply is_digit_digit]|].
    apply IH; [lia|apply Z.div_pos; lia].
Qed.
Lemma show_uint_cons n : 0 <= n -> exists c s, show_uint n = String c s /\ is_digit c = true.
Proof. intros. apply dec_acc_cons; [lia|done]. Qed.

(** Reading back a printed [u64] gives the number. *)
Lemma parse_show_uint n : is_u64 n -> parse_u64 (show_uint n) = Ok n.
Proof.
  intros [Hn Hm]. pose proof (show_uint_value n Hn) as Hv.
  pose proof (show_uint_digits n Hn) as Hd.
  destruct (show_uint_cons n Hn) as (c & s & Hs & Hc).
  assert (parse_u64 (show_uint n) = parse_digits (show_uint n) 0) as ->.
  { rewrite Hs. cbn. repeat (case_match; try done). all: by subst. }
  rewrite parse_digits_value; [by rewrite Hv|done|done|by rewrite Hv].
Qed.

Lemma is_digit_ascii c : is_digit c = true -> in_range 0 127 c = true.
Proof.
  unfold is_digit, in_range. rewrite !andb_true_iff, !Z.leb_le. lia.
Qed.
Lemma utf8_valid_ascii s : str_forall (in_range 0 127) s = true -> utf8_valid s = true.
Proof.
  unfold utf8_valid. generalize 0 at 2. induction s as [|c s IH]; intros i; [done|].
  cbn. rewrite andb_true_iff. intros [-> Hs]. by apply IH.
Qed.
Lemma from_utf8_valid s : utf8_valid s = true -> from_utf8 s = Ok s.
Proof. unfold utf8_valid, from_utf8. by destruct (utf8_scan 0 s) as [[]|]. Qed.
Lemma utf8_valid_show_uint n : 0 <= n -> utf8_valid (show_uint n) = true.
Proof.
  intros. apply utf8_valid_ascii. eapply str_forall_impl; [apply is_digit_ascii|].
  by apply show_uint_digits.
Qed.

(** ** Fixed-width numbers sort as numbers *)

Definition base_digits (B off : Z) (s : string) : Prop :=
  str_forall (in_range off (off + B - 1)) s = true.

Section base.
  Context (B off : Z) (HB : 1 < B).

Lemma base_digits_cons c s :
  base_digits B off (String c s) <-> off <= byte_of c < off + B /\ base_digits B off s.
Proof.
  unfold base_digits. cbn. unfold in_range.
  rewrite !andb_true_iff, !Z.leb_le. intuition lia.
Qed.

Lemma base_value_shift s v :
  base_value B off s v = v * B ^ Z.of_nat (String.length s) + base_value B off s 0.
Proof.
  revert v. induction s as [|c s IH]; intros v; [cbn; lia|].
  cbn [base_value String.length]. rewrite Nat2Z.inj_succ, Z.pow_succ_r by lia.
  rewrite IH, (IH (B * 0 + _)). lia.
Qed.

Lemma base_value_bound s :
  base_digits B off s -> 0 <= base_value B off s 0 < B ^ Z.of_nat (String.length s).
Proof.
  induction s as [|c s IH]; [cbn; lia|]. rewrite base_digits_cons. intros [Hc Hs].
  cbn [base_value String.length]. rewrite base_value_shift, Nat2Z.inj_succ, Z.pow_succ_r by lia.
  specialize (IH Hs). nia.
Qed.

(** Byte-wise comparison of two digit strings of one length is comparison of
    their values. *)
Lemma base_compare s t :
  String.length s = String.length t -> base_digits B off s -> base_digits B off t ->
  String.compare s t = (base_value B off s 0 ?= base_value B off t 0).
Proof.
  revert t. induction s as [|c s IH]; intros [|d t]; try done.
  rewrite !base_digits_cons. intros [= Hl] [Hc Hs] [Hd Ht].
  cbn [String.compare base_value]. rewrite (base_value_shift s), (base_value_shift t), <-Hl.
  pose proof (base_value_bound s Hs). pose proof (base_value_bound t Ht) as Hbt.
  rewrite <-Hl in Hbt.
  change (Ascii.compare c d) with (N.compare (N_of_ascii c) (N_of_ascii d)).
  rewrite <-N2Z.inj_compare. fold (byte_of c) (byte_of d).
  destruct (Z.compare_spec (byte_of c) (byte_of d)) as [He| |].
  - rewrite He. rewrite IH by done. symmetry.
    destruct (Z.compare_spec (base_value B off s 0) (base_value B off t 0));
      [apply Z.compare_eq_iff|apply Z.compare_lt_iff|apply Z.compare_gt_iff]; lia.
  - symmetry. apply Z.compare_lt_iff. nia.
  - symmetry. apply Z.compare_gt_iff. nia.
Qed.

Lemma base_value_inj s t :
  String.length s = String.length t -> base_digits B off s -> base_digits B off t ->
  base_value B off s 0 = base_value B off t 0 -> s = t.
Proof.
  intros Hl Hs Ht He. apply String.compare_eq_iff.
  rewrite base_compare by done. by apply Z.compare_eq_iff.
Qed.
End base.

Lemma dec_acc_length fuel n acc w :
  0 <= n < 10 ^ Z.of_nat w -> (0 < w)%nat ->
  (String.length (dec_acc fuel n acc) <= w + String.length acc)%nat.
Proof.
  revert n acc w. induction fuel as [|fuel IH]; intros n acc w Hn Hw; [cbn; lia|]. cbn.
  destruct (Z.ltb_spec n 10); [cbn; lia|].
  destruct w as [|[|w]]; [lia|cbn in Hn; lia|].
  rewrite Nat2Z.inj_succ, Z.pow_succ_r in Hn by lia.
  etrans; [apply (IH _ _ (S w)); [|lia]|cbn; lia].
  split; [apply Z.div_pos; lia|apply Z.div_lt_upper_bound; lia].
Qed.

Section padded.
  Context (w : nat) (Hw : (0 < w)%nat).

Lemma show_padded_length n :
  0 <= n < 10 ^ Z.of_nat w -> String.length (show_padded w n) = w.
Proof.
  intros Hn. unfold show_padded. rewrite str_length_app, str_length_repeat. cbn.
  pose proof (dec_acc_length (S (Z.to_nat (Z.log2 n))) n "" w Hn Hw) as Hl.
  fold (show_uint n) in Hl. cbn in Hl. lia.
Qed.
Lemma show_padded_digits n : 0 <= n -> base_digits 10 48 (show_padded w n).
Proof.
  intros. change (str_forall is_digit (show_padded w n) = true). unfold show_padded.
  by rewrite str_forall_app, str_forall_repeat, show_uint_digits.
Qed.
Lemma show_padded_value n : 0 <= n -> digits_value (show_padded w n) 0 = n.
Proof.
  intros Hn. unfold show_padded. generalize (w - String.length (show_uint n))%nat as k.
  induction k as [|k IH]; [by apply show_uint_value|].
  cbn [str_repeat]. rewrite str_app_cons, str_app_nil_l, str_app_cons. apply IH.
Qed.

(** Zero-padded numbers of one width sort as numbers. *)
Lemma show_padded_compare a b :
  0 <= a < 10 ^ Z.of_nat w -> 0 <= b < 10 ^ Z.of_nat w ->
  String.compare (show_padded w a) (show_padded w b) = (a ?= b).
Proof.
  intros Ha Hb. rewrite (base_compare 10 48) by
    (try lia; try apply show_padded_digits; try lia; by rewrite !show_padded_length).
  by rewrite !show_padded_value by lia.
Qed.
Lemma show_padded_inj a b :
  0 <= a < 10 ^ Z.of_nat w -> 0 <= b < 10 ^ Z.of_nat w ->
  show_padded w a = show_padded w b -> a = b.
Proof.
  intros Ha Hb He. rewrite <-(show_padded_value a), <-(show_padded_value b) by lia.
  by rewrite He.
Qed.
End padded.

Lemma be_bytes_acc_length w n acc :
  String.length (be_bytes_acc w n acc) = (w + String.length acc)%nat.
Proof. revert n acc. induction w as [|w IH]; intros n acc; [done|]. cbn. rewrite IH. cbn. lia. Qed.
Lemma be_bytes_acc_digits w n acc :
  base_digits 256 0 acc -> base_digits 256 0 (be_bytes_acc w n acc).
Proof.
  revert n acc. induction w as [|w IH]; intros n acc Ha; [done|]. cbn. apply IH.
  apply base_digits_cons. split; [|done]. pose proof (byte_of_range (of_byte (n mod 256))). lia.
Qed.
Lemma be_bytes_acc_value w n acc :
  base_value 256 0 (be_bytes_acc w n acc) 0 = base_value 256 0 acc (n mod 256 ^ Z.of_nat w).
Proof.
  revert n acc. induction w as [|w IH]; intros n acc; [cbn; by rewrite Z.mod_1_r|].
  cbn [be_bytes_acc]. rewrite IH. cbn [base_value].
  rewrite byte_of_of_byte by (apply Z.mod_pos_bound; lia). f_equal.
  rewrite Nat2Z.inj_succ, Z.pow_succ_r, Z.rem_mul_r by lia. lia.
Qed.

(** The big-endian bytes of two [u64] sort as the numbers. *)
Lemma u64_be_compare a b :
  is_u64 a -> is_u64 b ->
  String.compare (u64_to_be_bytes a) (u64_to_be_bytes b) = (a ?= b).
Proof.
  unfold is_u64, u64_max. intros Ha Hb. unfold u64_to_be_bytes.
  rewrite (base_compare 256 0); [|lia|by rewrite !be_bytes_acc_length|
    by apply be_bytes_acc_digits..].
  rewrite !be_bytes_acc_value. cbn [base_value]. change (256 ^ Z.of_nat 8) with 18446744073709551616.
  by rewrite !Z.mod_small by lia.
Qed.
Lemma u64_be_inj a b : is_u64 a -> is_u64 b -> u64_to_be_bytes a = u64_to_be_bytes b -> a = b.
Proof.
  intros Ha Hb He. apply Z.compare_eq_iff. rewrite <-u64_be_compare by done.
  rewrite He. pose proof (String.compare_antisym (u64_to_be_bytes b) (u64_to_be_bytes b)).
  by destruct (String.compare _ _).
Qed.

(** ** The order of keys *)

Lemma str_compare_le_trans a b c : str_le a b -> str_le b c -> str_le a c.
Proof.
  unfold str_le, String.leb. revert b c.
  induction a as [|x a IH]; intros [|y b] [|z c]; cbn; try done.
  unfold Ascii.compare.
  destruct (N.compare_spec (N_of_ascii x) (N_of_ascii y)) as [Hxy| |],
    (N.compare_spec (N_of_ascii y) (N_of_ascii z)) as [Hyz| |],
    (N.compare_spec (N_of_ascii x) (N_of_ascii z)); try done; try lia.
  apply IH.
Qed.
#[export] Instance str_le_trans : Transitive str_le.
Proof. intros a b c. apply str_compare_le_trans. Qed.
#[export] Instance str_le_total : Total str_le.
Proof. intros a b. destruct (String.leb_total a b); auto. Qed.
#[export] Instance str_le_antisymm : AntiSymm (=) str_le.
Proof. intros a b. apply String.leb_antisym. Qed.
#[export] Instance key_le_trans {V} : Transitive (@key_le V).
Proof. intros x y z. unfold key_le. apply transitivity. Qed.
#[export] Instance key_le_total {V} : Total (@key_le V).
Proof. intros x y. apply (total str_le). Qed.

Lemma str_le_compare a b : str_le a b <-> String.compare a b <> Gt.
Proof. unfold str_le, String.leb. by destruct (String.compare a b). Qed.
