(* ===== verification/Codec.v ===== *)
(** * A self-delimiting text encoding of records

    What the in-memory instance of serde_json in [InMemory] writes and reads.
    It models nothing of serde_json; the instances for the records of the model
    stand next to the records. *)
From S2P Require Import Prelude Text.
From Stdlib Require Import Ascii.

Definition is_ascii (c : ascii) : bool := in_range 0 127 c.

(** [put a s] writes [a] in front of [s]; [get] reads it back and gives the
    rest. *)
Class Codec (A : Type) := {
  put : A -> string -> string;
  get : string -> option (A * string);
  get_put a s : get (put a s) = Some (a, s);
  put_ascii a s : str_forall is_ascii s = true -> str_forall is_ascii (put a s) = true;
}.

(** Records, by their tuples. *)
Definition iso_codec {A B} `{Codec B} (f : A -> B) (g : B -> A) (gf : forall a, g (f a) = a) : Codec A.
Proof.
  refine {| put a s := put (f a) s; get s := '(b, s') ← get s; Some (g b, s') |}.
  - intros a s. rewrite get_put. cbn. by rewrite gf.
  - intros a s. apply put_ascii.
Defined.

(** ** Numbers: a sign and the binary digits *)

Fixpoint put_pos (p : positive) (s : string) : string :=
  match p with
  | xH => String "." s
  | xO p => String "0" (put_pos p s)
  | xI p => String "1" (put_pos p s)
  end.
Fixpoint get_pos (s : string) : option (positive * string) :=
  match s with
  | EmptyString => None
  | String c s =>
    if Ascii.eqb c "." then Some (xH, s)
    else '(p, s') ← get_pos s; if Ascii.eqb c "0" then Some (xO p, s') else Some (xI p, s')
  end.
Lemma get_put_pos p s : get_pos (put_pos p s) = Some (p, s).
Proof. induction p as [p IH|p IH|]; cbn; by rewrite ?IH. Qed.
Lemma put_pos_ascii p s : str_forall is_ascii s = true -> str_forall is_ascii (put_pos p s) = true.
Proof. intros Hs. by induction p. Qed.

#[export] Instance Z_codec : Codec Z.
Proof.
  refine {|
    put z s := match z with Z0 => String "0" s | Zpos p => String "+" (put_pos p s) | Zneg p => String "-" (put_pos p s) end;
    get s := match s with
      | EmptyString => None
      | String c s => if Ascii.eqb c "0" then Some (0, s)
        else '(p, s') ← get_pos s; if Ascii.eqb c "+" then Some (Zpos p, s') else Some (Zneg p, s')
      end |}.
  - intros [|p|p] s; cbn; by rewrite ?get_put_pos.
  - intros [|p|p] s Hs; [done|by apply put_pos_ascii..].
Defined.

(** ** Byte strings: two letters for each byte *)

Definition nibble (n : Z) : ascii := of_byte (65 + n).
Definition value (c : ascii) : Z := byte_of c - 65.
Fixpoint put_bytes (b s : string) : string :=
  match b with
  | EmptyString => String "." s
  | String c b => String (nibble (byte_of c / 16)) (String (nibble (byte_of c mod 16)) (put_bytes b s))
  end.
Fixpoint get_bytes (s : string) : option (string * string) :=
  match s with
  | EmptyString => None
  | String x s =>
    if Ascii.eqb x "." then Some ("", s)
    else match s with
      | EmptyString => None
      | String y s => '(b, s') ← get_bytes s; Some (String (of_byte (16 * value x + value y)) b, s')
      end
  end.

Lemma byte_of_nibble n : 0 <= n < 16 -> byte_of (nibble n) = 65 + n.
Proof. intros Hn. apply byte_of_of_byte. lia. Qed.
Lemma get_put_bytes b s : get_bytes (put_bytes b s) = Some (b, s).
Proof.
  induction b as [|c b IH]; [done|]. cbn [put_bytes get_bytes]. pose proof (byte_of_range c).
  assert (0 <= byte_of c / 16 < 16) by (split; [apply Z.div_pos; lia|apply Z.div_lt_upper_bound; lia]).
  assert (0 <= byte_of c mod 16 < 16) by (apply Z.mod_pos_bound; lia).
  destruct (Ascii.eqb_spec (nibble (byte_of c / 16)) ".") as [He|_].
  { apply (f_equal byte_of) in He. rewrite byte_of_nibble in He by done. change (byte_of ".") with 46 in He. lia. }
  rewrite IH. cbn. unfold value. rewrite !byte_of_nibble by done. do 3 f_equal.
  replace (16 * (65 + byte_of c / 16 - 65) + (65 + byte_of c mod 16 - 65)) with (byte_of c); [apply of_byte_byte_of|].
  pose proof (Z.div_mod (byte_of c) 16). lia.
Qed.
Lemma put_bytes_ascii b s : str_forall is_ascii s = true -> str_forall is_ascii (put_bytes b s) = true.
Proof.
  intros Hs. induction b as [|c b IH]; [done|]. cbn [put_bytes str_forall]. pose proof (byte_of_range c).
  assert (forall n, 0 <= n < 16 -> is_ascii (nibble n) = true) as Hn.
  { intros n Hn. unfold is_ascii, in_range. rewrite byte_of_nibble, andb_true_iff, !Z.leb_le by done. lia. }
  rewrite !Hn, IH; [done|apply Z.mod_pos_bound; lia|].
  split; [apply Z.div_pos; lia|apply Z.div_lt_upper_bound; lia].
Qed.
#[export] Instance string_codec : Codec string :=
  {| put := put_bytes; get := get_bytes; get_put := get_put_bytes; put_ascii := put_bytes_ascii |}.

(** ** Sums, pairs and lists *)

#[export] Instance bool_codec : Codec bool.
Proof.
  refine {| put (b : bool) s := String (if b then "1" else "0") s;
    get s := match s with String c s => Some (Ascii.eqb c "1", s) | EmptyString => None end |}.
  - by intros [].
  - by intros [].
Defined.
#[export] Instance option_codec {A} `{Codec A} : Codec (option A).
Proof.
  refine {| put o s := match o with None => String "0" s | Some a => String "1" (put a s) end;
    get s := match s with
      | String c s => if Ascii.eqb c "0" then Some (None, s) else '(a, s') ← get s; Some (Some a, s')
      | EmptyString => None end |}.
  - intros [a|] s; cbn; by rewrite ?get_put.
  - intros [a|] s Hs; [by apply put_ascii|done].
Defined.
#[export] Instance prod_codec {A B} `{Codec A} `{Codec B} : Codec (A * B).
Proof.
  refine {| put '(a, b) s := put a (put b s);
    get s := '(a, s1) ← get s; '(b, s2) ← get s1; Some ((a, b), s2) |}.
  - intros [a b] s. rewrite get_put. cbn. by rewrite get_put.
  - intros [a b] s Hs. by apply put_ascii, put_ascii.
Defined.

(** A list is its length in commas and its entries. *)
Fixpoint put_count (n : nat) (s : string) : string :=
  match n with O => String "." s | S n => String "," (put_count n s) end.
Fixpoint get_count (s : string) : option (nat * string) :=
  match s with
  | EmptyString => None
  | String c s => if Ascii.eqb c "." then Some (O, s) else '(n, s') ← get_count s; Some (S n, s')
  end.
Fixpoint get_entries {A} `{Codec A} (n : nat) (s : string) : option (list A * string) :=
  match n with
  | O => Some ([], s)
  | S n => '(a, s1) ← get s; '(l, s2) ← get_entries n s1; Some (a :: l, s2)
  end.
#[export] Instance list_codec {A} `{Codec A} : Codec (list A).
Proof.
  refine {| put l s := put_count (length l) (foldr put s l);
    get s := '(n, s') ← get_count s; get_entries n s' |}.
  - intros l s. assert (forall n r, get_count (put_count n r) = Some (n, r)) as Hc.
    { intros n r. induction n as [|n IH]; [done|]. cbn. by rewrite IH. }
    rewrite Hc. cbn. induction l as [|a l IH]; [done|]. cbn. rewrite get_put. cbn. by rewrite IH.
  - intros l s Hs. assert (str_forall is_ascii (foldr put s l) = true) as Hl.
    { induction l as [|a l IH]; [done|]. cbn. by apply put_ascii. }
    induction (length l) as [|n IH]; [done|]. exact IH.
Defined.
