(* ===== verification/Types.v ===== *)
(** * Blocks, transactions and accounts (src/types/)

    The records and enums of [types/account.rs], [types/transaction.rs] and
    [types/block.rs] with their constructors and methods.  A field [f] of a
    Rust struct is the projection [acc_f], [tx_f], [hdr_f] or [blk_f].  The
    clock is an argument: a constructor that reads [Utc::now()] takes the
    millisecond time [now_ms]. *)
From S2P Require Import Prelude Text Codec.

(** ** types/account.rs *)

Inductive ValidatorTier := Igniter | Kinetic | Nexus.
#[export] Instance ValidatorTier_eq_dec : EqDecision ValidatorTier.
Proof. solve_decision. Defined.
#[export] Instance ValidatorTier_codec : Codec ValidatorTier.
Proof.
  refine (iso_codec (fun t => match t with Igniter => 0 | Kinetic => 1 | Nexus => 2 end)
    (fun n => if decide (n = 0) then Igniter else if decide (n = 1) then Kinetic else Nexus) _).
  by intros [].
Defined.

Record Account := mkAccount {
  acc_address : string;
  acc_balance : Z;
  acc_staked_balance : Z;
  acc_nonce : Z;
  acc_validator_tier : option ValidatorTier;
  acc_is_contract : bool;
  acc_last_reward_epoch : Z;
}.
#[export] Instance Account_eq_dec : EqDecision Account.
Proof. solve_decision. Defined.
#[export] Instance Account_codec : Codec Account.
Proof.
  refine (iso_codec (fun a => (acc_address a, acc_balance a, acc_staked_balance a,
      acc_nonce a, acc_validator_tier a, acc_is_contract a, acc_last_reward_epoch a))
    (fun '(x1, x2, x3, x4, x5, x6, x7) => mkAccount x1 x2 x3 x4 x5 x6 x7) _).
  by intros [].
Defined.

(** Assignments to the fields of an account. *)
Definition set_balance (b : Z) (a : Account) : Account :=
  mkAccount (acc_address a) b (acc_staked_balance a) (acc_nonce a)
    (acc_validator_tier a) (acc_is_contract a) (acc_last_reward_epoch a).
Definition set_staked_balance (b : Z) (a : Account) : Account :=
  mkAccount (acc_address a) (acc_balance a) b (acc_nonce a)
    (acc_validator_tier a) (acc_is_contract a) (acc_last_reward_epoch a).
Definition set_nonce (n : Z) (a : Account) : Account :=
  mkAccount (acc_address a) (acc_balance a) (acc_staked_balance a) n
    (acc_validator_tier a) (acc_is_contract a) (acc_last_reward_epoch a).
Definition set_validator_tier (t : option ValidatorTier) (a : Account) : Account :=
  mkAccount (acc_address a) (acc_balance a) (acc_staked_balance a) (acc_nonce a)
    t (acc_is_contract a) (acc_last_reward_epoch a).

Definition minimum_stake (t : ValidatorTier) : Z :=
  match t with
  | Igniter => 500000000000
  | Kinetic => 5000000000000
  | Nexus => 25000000000000
  end.

Definition reward_bonus_bps (t : ValidatorTier) : Z :=
  match t with Igniter => 0 | Kinetic => 1500 | Nexus => 3500 end.

Definition from_staked_balance (staked : Z) : option ValidatorTier :=
  if minimum_stake Nexus <=? staked then Some Nexus
  else if minimum_stake Kinetic <=? staked then Some Kinetic
  else if minimum_stake Igniter <=? staked then Some Igniter
  else None.

Definition new_account (address : string) : Account := mkAccount address 0 0 0 None false 0.

Definition total_balance `{Build} {E} (a : Account) : res E Z :=
  add_u64 (acc_balance a) (acc_staked_balance a).

Definition can_afford `{Build} {E} (a : Account) (amount fee : Z) : res E bool :=
  cost ← add_u64 amount fee; Ok (cost <=? acc_balance a).

Definition update_validator_tier (a : Account) : Account :=
  set_validator_tier (from_staked_balance (acc_staked_balance a)) a.

Definition is_validator (a : Account) : bool :=
  match acc_validator_tier a with Some _ => true | None => false end.

(** ** types/transaction.rs *)

Inductive TransactionType := Transfer | StakeLock | StakeUnlock | ContractDeploy | ContractCall.
#[export] Instance TransactionType_eq_dec : EqDecision TransactionType.
Proof. solve_decision. Defined.
#[export] Instance TransactionType_codec : Codec TransactionType.
Proof.
  refine (iso_codec (fun t => match t with
      | Transfer => 0 | StakeLock => 1 | StakeUnlock => 2 | ContractDeploy => 3
      | ContractCall => 4 end)
    (fun n => if decide (n = 0) then Transfer else if decide (n = 1) then StakeLock
      else if decide (n = 2) then StakeUnlock else if decide (n = 3) then ContractDeploy
      else ContractCall) _).
  by intros [].
Defined.

Record Transaction := mkTransaction {
  tx_hash : string;
  tx_sender : string;
  tx_receiver : string;
  tx_amount : Z;
  tx_fee : Z;
  tx_nonce : Z;
  tx_signature : string;
  tx_timestamp : Z;
  tx_transaction_type : TransactionType;
  tx_data : string;
}.
#[export] Instance Transaction_eq_dec : EqDecision Transaction.
Proof. solve_decision. Defined.
#[export] Instance Transaction_codec : Codec Transaction.
Proof.
  refine (iso_codec (fun t => (tx_hash t, tx_sender t, tx_receiver t, tx_amount t, tx_fee t,
      tx_nonce t, tx_signature t, tx_timestamp t, tx_transaction_type t, tx_data t))
    (fun '(x1, x2, x3, x4, x5, x6, x7, x8, x9, x10) =>
      mkTransaction x1 x2 x3 x4 x5 x6 x7 x8 x9 x10) _).
  by intros [].
Defined.

Definition set_tx_hash (h : string) (t : Transaction) : Transaction :=
  mkTransaction h (tx_sender t) (tx_receiver t) (tx_amount t) (tx_fee t) (tx_nonce t)
    (tx_signature t) (tx_timestamp t) (tx_transaction_type t) (tx_data t).
Definition set_tx_signature (s : string) (t : Transaction) : Transaction :=
  mkTransaction (tx_hash t) (tx_sender t) (tx_receiver t) (tx_amount t) (tx_fee t) (tx_nonce t)
    s (tx_timestamp t) (tx_transaction_type t) (tx_data t).

Definition new_transaction (now_ms : Z) (sender receiver : string) (amount fee nonce : Z)
    (transaction_type : TransactionType) (data : string) : Transaction :=
  mkTransaction "" sender receiver amount fee nonce "" now_ms transaction_type data.

Definition is_signed (t : Transaction) : bool :=
  negb (is_empty (tx_hash t)) && negb (is_empty (tx_signature t)).

Definition is_transfer (t : Transaction) : bool :=
  bool_decide (tx_transaction_type t = Transfer).

Definition is_contract_deploy (t : Transaction) : bool :=
  bool_decide (tx_transaction_type t = ContractDeploy).

(** ** types/block.rs *)

Record BlockHeader := mkBlockHeader {
  hdr_index : Z;
  hdr_timestamp : Z;
  hdr_previous_hash : string;
  hdr_merkle_root : string;
  hdr_nonce : Z;
  hdr_difficulty : Z;
  hdr_is_epoch_block : bool;
  hdr_epoch_index : Z;
  hdr_state_root : string;
}.
#[export] Instance BlockHeader_eq_dec : EqDecision BlockHeader.
Proof. solve_decision. Defined.
#[export] Instance BlockHeader_codec : Codec BlockHeader.
Proof.
  refine (iso_codec (fun h => (hdr_index h, hdr_timestamp h, hdr_previous_hash h,
      hdr_merkle_root h, hdr_nonce h, hdr_difficulty h, hdr_is_epoch_block h, hdr_epoch_index h,
      hdr_state_root h))
    (fun '(x1, x2, x3, x4, x5, x6, x7, x8, x9) => mkBlockHeader x1 x2 x3 x4 x5 x6 x7 x8 x9) _).
  by intros [].
Defined.

Record Block := mkBlock {
  blk_header : BlockHeader;
  blk_transaction_hashes : list string;
  blk_hash : string;
  blk_validator_signature : string;
  blk_producer_address : string;
  blk_block_reward : Z;
}.
#[export] Instance Block_eq_dec : EqDecision Block.
Proof. solve_decision. Defined.
#[export] Instance Block_codec : Codec Block.
Proof.
  refine (iso_codec (fun b => (blk_header b, blk_transaction_hashes b, blk_hash b,
      blk_validator_signature b, blk_producer_address b, blk_block_reward b))
    (fun '(x1, x2, x3, x4, x5, x6) => mkBlock x1 x2 x3 x4 x5 x6) _).
  by intros [].
Defined.

Definition set_hdr_nonce (n : Z) (h : BlockHeader) : BlockHeader :=
  mkBlockHeader (hdr_index h) (hdr_timestamp h) (hdr_previous_hash h) (hdr_merkle_root h) n
    (hdr_difficulty h) (hdr_is_epoch_block h) (hdr_epoch_index h) (hdr_state_root h).
Definition set_hdr_state_root (r : string) (h : BlockHeader) : BlockHeader :=
  mkBlockHeader (hdr_index h) (hdr_timestamp h) (hdr_previous_hash h) (hdr_merkle_root h)
    (hdr_nonce h) (hdr_difficulty h) (hdr_is_epoch_block h) (hdr_epoch_index h) r.
Definition set_blk_hash (x : string) (b : Block) : Block :=
  mkBlock (blk_header b) (blk_transaction_hashes b) x (blk_validator_signature b)
    (blk_producer_address b) (blk_block_reward b).

Definition new_header (now_ms index : Z) (previous_hash merkle_root : string) (difficulty : Z)
    (is_epoch_block : bool) (epoch_index : Z) : BlockHeader :=
  mkBlockHeader index now_ms previous_hash merkle_root 0 difficulty is_epoch_block epoch_index "".

Definition new_block (header : BlockHeader) (transaction_hashes : list string)
    (producer_address : string) (block_reward : Z) : Block :=
  mkBlock header transaction_hashes "" "" producer_address block_reward.

Definition is_epoch_block (b : Block) : bool := hdr_is_epoch_block (blk_header b).
Definition height (b : Block) : Z := hdr_index (blk_header b).

(** ** Tiers *)

(** The account fields are in range. *)
Definition account_wf (a : Account) : Prop :=
  is_u64 (acc_balance a) /\ is_u64 (acc_staked_balance a) /\ is_u64 (acc_nonce a) /\
  is_u64 (acc_last_reward_epoch a).

Lemma new_account_wf addr : account_wf (new_account addr).
Proof. done. Qed.

(** The tier an account records is the one its stake qualifies for. *)
Definition tier_consistent (a : Account) : Prop :=
  acc_validator_tier a = from_staked_balance (acc_staked_balance a).

Lemma update_validator_tier_consistent a : tier_consistent (update_validator_tier a).
Proof. done. Qed.

(** The tier assigned to a stake is the highest one whose minimum it meets. *)
Lemma from_staked_balance_spec s t :
  from_staked_balance s = Some t <->
  minimum_stake t <= s /\ forall t', minimum_stake t' <= s -> minimum_stake t' <= minimum_stake t.
Proof.
  unfold from_staked_balance.
  destruct (Z.leb_spec (minimum_stake Nexus) s), (Z.leb_spec (minimum_stake Kinetic) s),
    (Z.leb_spec (minimum_stake Igniter) s); cbn in *; try lia;
    (split; [intros He; try discriminate He; injection He as <-;
        (split; [cbn; lia|intros []; cbn; lia])
      |intros [Ht Hmax]; pose proof (Hmax Nexus); pose proof (Hmax Kinetic);
       pose proof (Hmax Igniter); destruct t; cbn in *; try done; lia]).
Qed.
Lemma from_staked_balance_None s :
  from_staked_balance s = None <-> s < minimum_stake Igniter.
Proof.
  unfold from_staked_balance.
  destruct (Z.leb_spec (minimum_stake Nexus) s), (Z.leb_spec (minimum_stake Kinetic) s),
    (Z.leb_spec (minimum_stake Igniter) s); cbn in *; split; try done; lia.
Qed.
