(* ===== verification/Extern.v ===== *)
(** * The third-party crates the code calls

    The hash function (sha3), the hex encoder, serde_json and the sled database
    are not part of the repository.  Each is a class of operations, which the
    definitions of the other files take as an argument, and a class of laws:
    the documented behaviour the theorems rely on.  [InMemory.v] gives a
    concrete instance of every class, at which the theorems are applied. *)
From S2P Require Import Prelude Text.

(** ** sha3::Sha3_256: the 32-byte digest of the bytes fed to the hasher *)

Class Sha3 := sha3_256_digest : string -> string.
Class Sha3Laws `{Sha3} : Prop := {
  digest_length s : String.length (sha3_256_digest s) = 32%nat;
}.

(** ** hex::encode and hex::decode *)

Class HexCodec := {
  hex_encode : string -> string;
  hex_decode : string -> res string string;
}.
Definition is_lower_hex (c : Ascii.ascii) : bool := in_range 48 57 c || in_range 97 102 c.
Class HexLaws `{HexCodec} : Prop := {
  hex_decode_encode s : hex_decode (hex_encode s) = Ok s;
  hex_encode_length s : String.length (hex_encode s) = (2 * String.length s)%nat;
  hex_encode_digits s : str_forall is_lower_hex (hex_encode s) = true;
}.

(** ** serde_json

    [to_vec] and [to_string] produce the same bytes; [from_slice] and
    [from_str] read them.  The error is the text serde_json displays. *)

Class Serde (A : Type) := {
  to_vec : A -> res string string;
  from_slice : string -> res string A;
}.
Class SerdeLaws (A : Type) `{Serde A} : Prop := {
  to_vec_total (a : A) : exists b, to_vec a = Ok b;
  from_to_vec (a : A) b : to_vec a = Ok b -> from_slice b = Ok a;
  to_vec_utf8 (a : A) b : to_vec a = Ok b -> utf8_valid b = true;
  from_slice_returns b : from_slice (A:=A) b <> Panic;
}.

(** ** sled

    A [Tree] is an ordered map from byte keys to byte values.  Every access
    can fail with an I/O error, represented by its text. *)

Class Sled := {
  sled_db : Type;
  tree : Type;
  sled_open : string -> res string sled_db;
  sled_open_temporary : res string sled_db;
  sled_open_tree : sled_db -> string -> res string tree;
  sled_flush : sled_db -> res string Z;
  tree_insert : tree -> string -> string -> tree * res string (option string);
  tree_get : tree -> string -> res string (option string);
  tree_remove : tree -> string -> tree * res string (option string);
  tree_contains_key : tree -> string -> res string bool;
  tree_len : tree -> Z;
  tree_iter : tree -> list (res string (string * string));
  tree_scan_prefix : tree -> string -> list (res string (string * string));
}.

(** The entries of a map in the order of their keys. *)
Definition sorted_entries (m : gmap string string) : list (string * string) :=
  merge_sort key_le (map_to_list m).

Class SledLaws `{Sled} := {
  contents : tree -> gmap string string;
(** No access to the tree fails. *)
online : tree -> Prop;
(** A database just created. *)
fresh : sled_db -> Prop;

  temporary_fresh : exists d, sled_open_temporary = Ok d /\ fresh d;
  open_tree_fresh d name : fresh d ->
    exists t, sled_open_tree d name = Ok t /\ online t /\ contents t = ∅;

  tree_get_ok t k : online t -> tree_get t k = Ok (contents t !! k);
  tree_contains_ok t k : online t -> tree_contains_key t k = Ok (bool_decide (is_Some (contents t !! k)));
  tree_len_ok t : online t -> tree_len t = Z.of_nat (size (contents t));
  tree_insert_result t k v : online t -> (tree_insert t k v).2 = Ok (contents t !! k);
  tree_insert_contents t k v : online t -> contents (tree_insert t k v).1 = <[k:=v]> (contents t);
  tree_insert_online t k v : online t -> online (tree_insert t k v).1;
  tree_remove_result t k : online t -> (tree_remove t k).2 = Ok (contents t !! k);
  tree_remove_contents t k : online t -> contents (tree_remove t k).1 = delete k (contents t);
  tree_remove_online t k : online t -> online (tree_remove t k).1;
  tree_iter_ok t : online t -> tree_iter t = map Ok (sorted_entries (contents t));
  tree_scan_ok t p : online t ->
    tree_scan_prefix t p =
      map Ok (filter (fun kv => starts_with p kv.1 = true) (sorted_entries (contents t)));
}.

Lemma elem_of_sorted_entries m k v : (k, v) ∈ sorted_entries m <-> m !! k = Some v.
Proof. unfold sorted_entries. by rewrite merge_sort_Permutation, elem_of_map_to_list. Qed.
Lemma sorted_entries_sorted m : Sorted key_le (sorted_entries m).
Proof. apply Sorted_merge_sort. apply _. Qed.
Lemma sorted_entries_perm m : sorted_entries m ≡ₚ map_to_list m.
Proof. apply merge_sort_Permutation. Qed.
Lemma sorted_entries_NoDup m : NoDup (sorted_entries m).*1.
Proof. rewrite sorted_entries_perm. apply NoDup_fst_map_to_list. Qed.
Lemma sorted_entries_empty : sorted_entries ∅ = [].
Proof. done. Qed.

(** Lists of entries in key order, with the same entries and no key twice, are
    equal. *)
Lemma sorted_entries_unique {V} (l1 l2 : list (string * V)) :
  Sorted key_le l1 -> Sorted key_le l2 -> NoDup l1.*1 -> l1 ≡ₚ l2 -> l1 = l2.
Proof.
  intros H1 H2 Hd Hp.
  assert (l1.*1 = l2.*1) as Hk.
  { apply (Sorted_unique str_le).
    - by apply (Sorted_fmap_on key_le).
    - by apply (Sorted_fmap_on key_le).
    - by rewrite Hp. }
  apply list_eq_same_length with (length l1); [by rewrite Hp|done|].
  intros i x y Hi Hx Hy. apply (NoDup_fmap_eq fst l1); [done|by eapply list_elem_of_lookup_2|..].
  - rewrite Hp. by eapply list_elem_of_lookup_2.
  - apply (f_equal (.!! i)) in Hk. rewrite !list_lookup_fmap, Hx, Hy in Hk. by injection Hk.
Qed.

(** The entries of a submap, in key order. *)
Lemma sorted_filter {V} (P : string * V -> Prop) `{forall x, Decision (P x)} (m : gmap string V) :
  filter P (merge_sort key_le (map_to_list m)) = merge_sort key_le (map_to_list (filter P m)).
Proof.
  apply sorted_entries_unique.
  - apply Sorted_filter; [apply _|]. apply Sorted_merge_sort, _.
  - apply Sorted_merge_sort, _.
  - apply NoDup_fmap_fst.
    + intros k x y [_ Hx]%list_elem_of_filter [_ Hy]%list_elem_of_filter.
      rewrite merge_sort_Permutation in Hx, Hy. apply elem_of_map_to_list in Hx, Hy. congruence.
    + apply NoDup_filter. rewrite merge_sort_Permutation. apply NoDup_map_to_list.
  - apply NoDup_Permutation.
    + apply NoDup_filter. rewrite merge_sort_Permutation. apply NoDup_map_to_list.
    + rewrite merge_sort_Permutation. apply NoDup_map_to_list.
    + intros [k x]. rewrite list_elem_of_filter, !merge_sort_Permutation, !elem_of_map_to_list.
      rewrite map_lookup_filter_Some. naive_solver.
Qed.
