(* ===== verification/InMemory.v ===== *)
(** * Concrete instances of the third-party interfaces

    An in-memory database, a hexadecimal encoder, a toy digest and a toy
    serializer that satisfy the laws of [Extern.v].  They are what the theorems
    are instantiated with when they are applied to a concrete input, and they
    show that the laws are consistent.  Nothing here models the crates
    themselves.  The instances become visible with [Import Mem], so that no
    definition of the model can pick one up by accident. *)
From S2P Require Import Prelude Text Codec Extern.
From Stdlib Require Import Ascii.

Module Mem.

(** ** A digest: 32 bits mixed from the bytes, eight times over *)

Fixpoint mix (s : string) (acc : Z) : Z :=
  match s with
  | EmptyString => acc
  | String c s => mix s (Z.land (Z.shiftl acc 5 + acc + byte_of c) u32_max)
  end.
Definition low_byte (n : Z) : ascii := of_byte (Z.land n 255).
#[export] Instance mem_sha3 : Sha3 := fun s =>
  let a := mix s 5381 in
  let b := Z.shiftr a 8 in let c := Z.shiftr b 8 in let d := Z.shiftr c 8 in
  str_repeat 8 (String (low_byte a) (String (low_byte b) (String (low_byte c) (String (low_byte d) "")))).
#[export] Instance mem_sha3_laws : Sha3Laws.
Proof. split. intros s. done. Qed.

(** ** Hexadecimal *)

Definition hex_nibble (n : Z) : ascii := of_byte (if n <? 10 then 48 + n else 87 + n).
Definition unhex_nibble (c : ascii) : option Z :=
  let b := byte_of c in
  if (48 <=? b) && (b <=? 57) then Some (b - 48)
  else if (97 <=? b) && (b <=? 102) then Some (b - 87)
  else if (65 <=? b) && (b <=? 70) then Some (b - 55)
  else None.
Fixpoint mem_hex_encode (s : string) : string :=
  match s with
  | EmptyString => ""
  | String c s =>
    String (hex_nibble (byte_of c / 16)) (String (hex_nibble (byte_of c mod 16)) (mem_hex_encode s))
  end.
Fixpoint mem_hex_decode (s : string) : res string string :=
  match s with
  | EmptyString => Ok ""
  | String _ EmptyString => Err "Odd number of digits"
  | String a (String b s) =>
    match unhex_nibble a, unhex_nibble b with
    | Some x, Some y => r ← mem_hex_decode s; Ok (String (of_byte (16 * x + y)) r)
    | _, _ => Err "Invalid character"
    end
  end.
#[export] Instance mem_hex : HexCodec := {| hex_encode := mem_hex_encode; hex_decode := mem_hex_decode |}.

Lemma hex_nibble_byte n : 0 <= n < 16 -> byte_of (hex_nibble n) = if n <? 10 then 48 + n else 87 + n.
Proof. intros. unfold hex_nibble. apply byte_of_of_byte. case_match; lia. Qed.
Lemma unhex_hex_nibble n : 0 <= n < 16 -> unhex_nibble (hex_nibble n) = Some n.
Proof.
  intros Hn. unfold unhex_nibble. rewrite hex_nibble_byte by done.
  destruct (Z.ltb_spec n 10); repeat (case_match; rewrite ?andb_true_iff, ?andb_false_iff, ?Z.leb_le, ?Z.leb_gt in *);
    first [f_equal; lia|lia].
Qed.
Lemma hex_nibble_lower n : 0 <= n < 16 -> is_lower_hex (hex_nibble n) = true.
Proof.
  intros Hn. unfold is_lower_hex, in_range. rewrite hex_nibble_byte by done.
  rewrite orb_true_iff, !andb_true_iff, !Z.leb_le. destruct (Z.ltb_spec n 10); lia.
Qed.
#[export] Instance mem_hex_laws : HexLaws.
Proof.
  split; cbn; intros s.
  - induction s as [|c s IH]; [done|]. cbn [mem_hex_encode mem_hex_decode].
    pose proof (byte_of_range c).
    rewrite !unhex_hex_nibble, IH by (first [apply Z.mod_pos_bound; lia|
      split; [apply Z.div_pos; lia|apply Z.div_lt_upper_bound; lia]]).
    cbn. by rewrite <-Z.div_mod, of_byte_byte_of by lia.
  - induction s as [|c s IH]; [done|]. cbn. rewrite IH. lia.
  - induction s as [|c s IH]; [done|]. cbn [mem_hex_encode str_forall].
    pose proof (byte_of_range c).
    by rewrite !hex_nibble_lower, IH by (first [apply Z.mod_pos_bound; lia|
      split; [apply Z.div_pos; lia|apply Z.div_lt_upper_bound; lia]]).
Qed.

(** ** A serializer for every encodable type *)

#[export] Instance mem_serde A `{Codec A} : Serde A := {|
  to_vec a := Ok (put a "");
  from_slice s := match get s with Some (a, "") => Ok a | _ => Err "invalid encoding" end |}.
#[export] Instance mem_serde_laws A `{Codec A} : SerdeLaws A.
Proof.
  split; cbn.
  - eauto.
  - intros a b [= <-]. by rewrite get_put.
  - intros a b [= <-]. by apply utf8_valid_ascii, put_ascii.
  - intros b. destruct (get b) as [[a []]|]; done.
Qed.

(** ** A database of maps, no access to which fails *)

#[export] Instance mem_sled : Sled := {|
  sled_db := unit;
  tree := gmap string string;
  sled_open _ := Ok tt;
  sled_open_temporary := Ok tt;
  sled_open_tree _ _ := Ok ∅;
  sled_flush _ := Ok 0;
  tree_insert t k v := (<[k:=v]> t, Ok (t !! k));
  tree_get t k := Ok (t !! k);
  tree_remove t k := (delete k t, Ok (t !! k));
  tree_contains_key t k := Ok (bool_decide (is_Some (t !! k)));
  tree_len t := Z.of_nat (size t);
  tree_iter t := map Ok (sorted_entries t);
  tree_scan_prefix t p :=
    map Ok (filter (fun kv => starts_with p kv.1 = true) (sorted_entries t));
|}.
#[export] Instance mem_sled_laws : SledLaws.
Proof.
  refine {| contents := fun t : tree => t; online _ := True; fresh _ := True |}; by eauto.
Defined.

#[export] Instance debug_build : Build := {| overflow_checks := true |}.
Definition release_build : Build := {| overflow_checks := false |}.

End Mem.
