(* ===== verification/Hash.v ===== *)
(** * Hashing (src/chain/hash.rs)

    The header and transaction hashes, the SHA3 helpers and the leading-zero
    tests of [chain/hash.rs].  The digest itself is the class [Sha3]. *)
From S2P Require Import Prelude Text Types Extern InMemory.
From Stdlib Require Import Ascii.

Section hash.
  Context `{Sha3} `{HexCodec}.

Definition sha3_256_hex (input : string) : string := hex_encode (sha3_256_digest input).

Definition double_sha3_256 (input : string) : string :=
  let first := sha3_256_hex input in sha3_256_hex first.

(** The text that is hashed for a header: the fields one after the other. *)
Definition header_preimage (index timestamp : Z) (previous_hash merkle_root : string)
    (nonce difficulty : Z) (is_epoch_block : bool) (epoch_index : Z) (state_root : string)
    : string :=
  show_uint index +:+ show_int timestamp +:+ previous_hash +:+ merkle_root +:+
  show_uint nonce +:+ show_uint difficulty +:+ show_uint (if is_epoch_block then 1 else 0) +:+
  show_uint epoch_index +:+ state_root.

Definition hash_block_header (index timestamp : Z) (previous_hash merkle_root : string)
    (nonce difficulty : Z) (is_epoch_block : bool) (epoch_index : Z) (state_root : string)
    : string :=
  sha3_256_hex (header_preimage index timestamp previous_hash merkle_root nonce difficulty
    is_epoch_block epoch_index state_root).

(** The call the miner and the validators make, with a given nonce. *)
Definition hash_header (h : BlockHeader) (nonce : Z) : string :=
  hash_block_header (hdr_index h) (hdr_timestamp h) (hdr_previous_hash h) (hdr_merkle_root h)
    nonce (hdr_difficulty h) (hdr_is_epoch_block h) (hdr_epoch_index h) (hdr_state_root h).

Definition hash_transaction (sender receiver : string) (amount fee nonce timestamp : Z)
    (transaction_type data signature : string) : string :=
  hex_encode (sha3_256_digest (sender +:+ receiver +:+ u64_to_le_bytes amount +:+
    u64_to_le_bytes fee +:+ u64_to_le_bytes nonce +:+ i64_to_le_bytes timestamp +:+
    transaction_type +:+ data +:+ signature)).
End hash.

Definition is_zero (c : ascii) : bool := Ascii.eqb c "0".

Definition meets_difficulty (hash : string) (difficulty : Z) : bool :=
  if str_len hash <? difficulty then false
  else str_forall is_zero (str_take (Z.to_nat difficulty) hash).

Fixpoint take_while_zero (s : string) : Z :=
  match s with String c s => if is_zero c then 1 + take_while_zero s else 0 | EmptyString => 0 end.
Definition count_leading_zeros (hash : string) : Z := as_u32 (take_while_zero hash).

(** ** Lemmas *)

Lemma take_while_zero_bound s : 0 <= take_while_zero s <= str_len s.
Proof.
  unfold str_len. induction s as [|c s IH]; cbn [take_while_zero String.length]; [lia|].
  case_match; lia.
Qed.

Lemma str_take_zeros n h :
  (n <= String.length h)%nat ->
  str_forall is_zero (str_take n h) = true <-> Z.of_nat n <= take_while_zero h.
Proof.
  revert n. induction h as [|c h IH]; intros [|n] Hn; cbn [str_take str_forall String.length] in *.
  - done.
  - lia.
  - pose proof (take_while_zero_bound (String c h)). split; [lia|done].
  - rewrite andb_true_iff, IH by lia. cbn [take_while_zero].
    destruct (is_zero c); [intuition lia|]. split; [by intros [? _]|lia].
Qed.

Lemma meets_difficulty_zeros h d :
  0 <= d -> meets_difficulty h d = true <-> d <= take_while_zero h.
Proof.
  intros Hd. pose proof (take_while_zero_bound h) as Hb. unfold meets_difficulty, str_len in *.
  destruct (Z.ltb_spec (Z.of_nat (String.length h)) d) as [Hl|Hl]; [split; [done|lia]|].
  rewrite str_take_zeros by lia. by rewrite Z2Nat.id.
Qed.

Section hash_facts.
  Context `{Sha3Laws} `{HexLaws}.

Lemma sha3_256_hex_length s : String.length (sha3_256_hex s) = 64%nat.
Proof. unfold sha3_256_hex. by rewrite hex_encode_length, digest_length. Qed.
Lemma sha3_256_hex_digits s : str_forall is_lower_hex (sha3_256_hex s) = true.
Proof. apply hex_encode_digits. Qed.
Lemma sha3_256_hex_utf8 s : utf8_valid (sha3_256_hex s) = true.
Proof.
  apply utf8_valid_ascii. eapply str_forall_impl; [|apply sha3_256_hex_digits].
  intros c. unfold is_lower_hex, in_range.
  rewrite orb_true_iff, !andb_true_iff, !Z.leb_le. lia.
Qed.
Lemma sha3_256_hex_nonempty s : sha3_256_hex s <> "".
Proof. intros He. pose proof (sha3_256_hex_length s) as Hl. by rewrite He in Hl. Qed.
Lemma hex_encode_inj a b : hex_encode a = hex_encode b -> a = b.
Proof. intros He. pose proof (hex_decode_encode a) as Ha. rewrite He, hex_decode_encode in Ha. congruence. Qed.
End hash_facts.

(** ** Properties *)

Section hash_properties.
  Context `{Sha3} `{HexCodec}.

(** The hash a miner grinds covers the nonce: two headers that differ in
    nothing but the nonce are hashed from different texts. *)
Theorem header_preimage_nonce_inj index timestamp prev merkle n1 n2 d ep ei sr :
  0 <= n1 -> 0 <= n2 ->
  header_preimage index timestamp prev merkle n1 d ep ei sr =
    header_preimage index timestamp prev merkle n2 d ep ei sr ->
  n1 = n2.
Proof.
  intros H1 H2. unfold header_preimage. intros He.
  do 4 apply str_app_inj_l in He.
  assert (Hlen : String.length (show_uint n1) = String.length (show_uint n2)).
  { apply (f_equal String.length) in He. rewrite !str_length_app in He. lia. }
  apply str_app_inj in He as [Hn _]; [|done]. by apply show_uint_inj.
Qed.

(** The fields are hashed without separators, so the split between two
    neighbouring numbers is not covered: for any header, the last digit of
    the nonce can be moved to the front of the difficulty. *)
Theorem hash_block_header_ambiguous index timestamp prev merkle n ep ei sr :
  0 < n ->
  hash_block_header index timestamp prev merkle (10 * n + 1) 4 ep ei sr =
  hash_block_header index timestamp prev merkle n 14 ep ei sr.
Proof.
  intros Hn. unfold hash_block_header, header_preimage.
  rewrite show_uint_snoc by lia. rewrite !str_app_assoc. done.
Qed.
End hash_properties.

(** C40: [meets_difficulty] accepts a hash exactly when it starts with at least
    [difficulty] zero nibbles, which is what [count_leading_zeros] counts. *)
Theorem meets_difficulty_count h d :
  0 <= d -> str_len h <= u32_max ->
  meets_difficulty h d = true <-> d <= count_leading_zeros h.
Proof.
  intros Hd Hl. rewrite meets_difficulty_zeros by done. unfold count_leading_zeros, as_u32.
  pose proof (take_while_zero_bound h). rewrite Z.mod_small; [done|lia].
Qed.

Module HashWitness.
  Import Mem.

Lemma meets_difficulty_count_witness :
  meets_difficulty "000abcde" 3 = true <-> 3 <= count_leading_zeros "000abcde".
Proof. apply (meets_difficulty_count "000abcde" 3); vm_compute; done. Defined.
Lemma header_preimage_nonce_inj_witness : 17 = 17.
Proof.
  apply (header_preimage_nonce_inj 1 1000 "prev" "root" 17 17 4 false 0 ""); concrete.
Defined.

Lemma hash_block_header_ambiguous_witness :
  hash_block_header 1 1000 "prev" "root" 51 4 false 0 "" =
  hash_block_header 1 1000 "prev" "root" 5 14 false 0 "".
Proof. apply (hash_block_header_ambiguous 1 1000 "prev" "root" 5 false 0 ""). lia. Defined.
End HashWitness.
