(* ===== verification/Merkle.v ===== *)
(** * Merkle trees (src/chain/merkle.rs)

    The root, the proofs and the verifier of [chain/merkle.rs], with the loops
    over indices the code has, and the structural reference [pair_up] of one
    layer.  The theorems: every transaction has a proof that verifies and that
    is as short as the tree is high; the root binds the list of transactions
    up to an explicit collision of the digest; and the one way in which it does
    not, the duplicated last node. *)
From S2P Require Import Prelude Text Extern InMemory Hash.

Inductive ProofDirection := Left | Right.
#[export] Instance ProofDirection_eq_dec : EqDecision ProofDirection.
Proof. solve_decision. Defined.

Record MerkleProof := mkMerkleProof {
  mp_leaf_hash : string;
  mp_siblings : list (string * ProofDirection);
  mp_root : string;
}.

Section merkle.
  Context `{Sha3} `{HexCodec}.

Definition hash_pair (left right : string) : string := sha3_256_hex (left +:+ right).

(** The [while i < layer.len()] loop of [build_next_layer]: it advances [i] by
    two, so the length of the layer is fuel enough. *)
Fixpoint build_next_layer_loop (fuel : nat) (layer : list string) (i : nat) : list string :=
  match fuel with
  | O => []
  | S fuel =>
    match layer !! i with
    | None => []
    | Some left_node =>
      let right_node := match layer !! (i + 1)%nat with Some r => r | None => left_node end in
      hash_pair left_node right_node :: build_next_layer_loop fuel layer (i + 2)
    end
  end.
Definition build_next_layer (layer : list string) : list string :=
  build_next_layer_loop (length layer) layer 0.

(** The [while current_layer.len() > 1] loop. *)
Fixpoint root_loop (fuel : nat) (layer : list string) : list string :=
  match fuel with
  | O => layer
  | S fuel =>
    if (1 <? length layer)%nat then root_loop fuel (build_next_layer layer) else layer
  end.

(** [current_layer.remove(0)] takes the one element the loop leaves
    ([root_loop_singleton]). *)
Definition compute_merkle_root (transaction_hashes : list string) : string :=
  match transaction_hashes with
  | [] => sha3_256_hex "kyvera-empty-block"
  | [h] => h
  | _ => default "" (head (root_loop (length transaction_hashes) transaction_hashes))
  end.

(** The loop of [generate_proof]; indexing out of range panics. *)
Fixpoint proof_loop {E} (fuel : nat) (current_layer : list string) (current_index : nat)
    : res E (list (string * ProofDirection)) :=
  match fuel with
  | O => Ok []
  | S fuel =>
    if (1 <? length current_layer)%nat then
      let '(sibling_index, direction) :=
        if Nat.even current_index then
          (if (current_index + 1 <? length current_layer)%nat
           then (current_index + 1)%nat else current_index, Right)
        else (Nat.pred current_index, Left) in
      match current_layer !! sibling_index with
      | None => Panic
      | Some sibling =>
        siblings ← proof_loop fuel (build_next_layer current_layer) (Nat.div2 current_index);
        Ok ((sibling, direction) :: siblings)
      end
    else Ok []
  end.

(** [iter().position(|h| h == target)] *)
Fixpoint position (target : string) (l : list string) : option nat :=
  match l with
  | [] => None
  | h :: l => if decide (h = target) then Some O else S <$> position target l
  end.

Definition generate_proof {E} (transaction_hashes : list string) (target_hash : string)
    : res E (option MerkleProof) :=
  match transaction_hashes with
  | [] => Ok None
  | _ =>
    match position target_hash transaction_hashes with
    | None => Ok None
    | Some target_index =>
      siblings ← proof_loop (length transaction_hashes) transaction_hashes target_index;
      Ok (Some (mkMerkleProof target_hash siblings (compute_merkle_root transaction_hashes)))
    end
  end.

Definition proof_step (current_hash : string) (s : string * ProofDirection) : string :=
  match s with
  | (sibling, Right) => hash_pair current_hash sibling
  | (sibling, Left) => hash_pair sibling current_hash
  end.
Definition verify_proof (proof : MerkleProof) : bool :=
  bool_decide (foldl proof_step (mp_leaf_hash proof) (mp_siblings proof) = mp_root proof).

(** ** The reference definition of a layer *)

Fixpoint pair_up (layer : list string) : list string :=
  match layer with
  | a :: b :: layer => hash_pair a b :: pair_up layer
  | [a] => [hash_pair a a]
  | [] => []
  end.

Lemma pair_ind (P : list string -> Prop) :
  P [] -> (forall a, P [a]) -> (forall a b l, P l -> P (a :: b :: l)) -> forall l, P l.
Proof.
  intros Hnil Hone Htwo l. enough (P l /\ forall a, P (a :: l)) by tauto.
  induction l as [|x l [IH1 IH2]]; auto.
Qed.

Lemma build_next_layer_loop_drop fuel layer i :
  (length layer <= fuel + i)%nat ->
  build_next_layer_loop fuel layer i = pair_up (drop i layer).
Proof.
  revert i. induction fuel as [|fuel IH]; intros i Hl.
  - rewrite drop_ge by lia. done.
  - cbn. destruct (layer !! i) as [a|] eqn:Ha.
    + rewrite (drop_S _ a) by done. rewrite IH by lia. rewrite Nat.add_1_r.
      replace (i + 2)%nat with (S (S i)) by lia.
      destruct (layer !! S i) as [b|] eqn:Hb.
      * by rewrite (drop_S layer b (S i)).
      * apply lookup_ge_None in Hb. by rewrite !drop_ge by lia.
    + apply lookup_ge_None in Ha. by rewrite drop_ge.
Qed.

(** The index loop computes the pairwise reference. *)
Lemma build_next_layer_pair_up layer : build_next_layer layer = pair_up layer.
Proof. unfold build_next_layer. rewrite build_next_layer_loop_drop by lia. done. Qed.

Lemma pair_up_length l : length (pair_up l) = Nat.div2 (S (length l)).
Proof. induction l as [| |a b l IH] using pair_ind; cbn; [done..|]. by rewrite IH. Qed.

Lemma pair_up_lookup l i a :
  l !! i = Some a ->
  pair_up l !! Nat.div2 i =
    Some (if Nat.even i then hash_pair a (default a (l !! S i))
          else hash_pair (default a (l !! Nat.pred i)) a).
Proof.
  revert i. induction l as [|x|x y l IH] using pair_ind; intros i.
  - by rewrite lookup_nil.
  - destruct i; [|done]. intros [= ->]. done.
  - destruct i as [|[|i]].
    + intros [= ->]. done.
    + intros [= ->]. done.
    + intros Hi. apply IH in Hi. destruct i; exact Hi.
Qed.

(** ** The loops end at the root *)

Lemma pair_up_shrinks l : (1 < length l)%nat -> (0 < length (pair_up l) < length l)%nat.
Proof.
  intros Hl. rewrite pair_up_length. pose proof (Nat.div2_odd (S (length l))).
  destruct (Nat.odd _); cbn [Nat.b2n] in *; lia.
Qed.

Lemma root_loop_stop fuel l : length l = 1%nat -> root_loop fuel l = l.
Proof. intros Hl. destruct fuel; cbn; [done|]. by rewrite Hl. Qed.

Lemma root_loop_step fuel l :
  (1 < length l <= S fuel)%nat -> root_loop (S fuel) l = root_loop fuel (pair_up l).
Proof.
  intros Hl. cbn [root_loop]. rewrite (proj2 (Nat.ltb_lt 1 (length l))) by lia.
  by rewrite build_next_layer_pair_up.
Qed.

(** With the length of the layer as fuel the loop ends with one node. *)
Lemma root_loop_singleton fuel l :
  (0 < length l <= fuel)%nat -> exists r, root_loop fuel l = [r].
Proof.
  revert l. induction fuel as [|fuel IH]; intros l Hl; [lia|].
  destruct (decide (length l = 1%nat)) as [H1|H1].
  - rewrite root_loop_stop by done. destruct l as [|r [|]]; try done. eauto.
  - rewrite root_loop_step by lia. apply IH. pose proof (pair_up_shrinks l). lia.
Qed.

Lemma root_loop_fuel f1 f2 l :
  (0 < length l <= f1)%nat -> (length l <= f2)%nat -> root_loop f1 l = root_loop f2 l.
Proof.
  revert f2 l. induction f1 as [|f1 IH]; intros f2 l H1 H2; [lia|].
  destruct f2 as [|f2]; [lia|]. destruct (decide (length l = 1%nat)) as [He|He].
  - by rewrite !root_loop_stop.
  - rewrite !root_loop_step by lia. pose proof (pair_up_shrinks l). apply IH; lia.
Qed.

(** The root as a recursion on layers. *)
Lemma compute_merkle_root_one h : compute_merkle_root [h] = h.
Proof. done. Qed.
Lemma compute_merkle_root_step l :
  (1 < length l)%nat -> compute_merkle_root l = compute_merkle_root (pair_up l).
Proof.
  intros Hl. pose proof (pair_up_shrinks l Hl) as Hp.
  assert (forall k, (1 < length k)%nat -> compute_merkle_root k = default "" (head (root_loop (length k) k)))
    as Hroot by (intros [|? [|]]; cbn; try lia; done).
  rewrite Hroot by done. destruct (length l) as [|n] eqn:Hn; [lia|].
  rewrite root_loop_step by lia. destruct (pair_up l) as [|r [|r2 p]] eqn:Hpl; cbn in Hp; [lia| |].
  - by rewrite root_loop_stop.
  - rewrite <-Hpl. rewrite Hroot by (rewrite Hpl; cbn; lia).
    f_equal. f_equal. apply root_loop_fuel; rewrite Hpl; cbn; lia.
Qed.

(** ** Proofs verify *)

Lemma proof_loop_correct {E} fuel l i a :
  (length l <= fuel)%nat -> l !! i = Some a ->
  exists siblings, proof_loop (E:=E) fuel l i = Ok siblings /\
    foldl proof_step a siblings = compute_merkle_root l /\
    (length l <= 2 ^ length siblings)%nat /\ (2 ^ length siblings < 2 * length l)%nat.
Proof.
  revert l i a. induction fuel as [|fuel IH]; intros l i a Hf Hi;
    pose proof (lookup_lt_Some _ _ _ Hi) as Hlt; [lia|]. cbn [proof_loop].
  destruct (Nat.ltb_spec 1 (length l)) as [Hl|Hl]; cycle 1.
  { exists []. assert (i = 0%nat) as -> by lia. destruct l as [|x [|]]; [done| |cbn in Hl; lia].
    injection Hi as <-. split_and!; [done|done|cbn; lia|cbn; lia]. }
  pose proof (pair_up_shrinks l Hl) as Hp.
  pose proof (pair_up_lookup l i a Hi) as Hnext.
  rewrite build_next_layer_pair_up.
  destruct (IH (pair_up l) _ _ ltac:(lia) Hnext) as (sib & Hsib & Hfold & Hle & Hlt2).
  rewrite pair_up_length in Hle, Hlt2.
  rewrite (compute_merkle_root_step l Hl).
  pose proof (Nat.div2_odd (S (length l))) as Hodd.
  assert (Nat.b2n (Nat.odd (S (length l))) <= 1)%nat by (destruct (Nat.odd _); cbn; lia).
  assert (2 ^ length sib = 1 \/ exists m, 2 ^ length sib = 2 * m)%nat as Hpow.
  { destruct (length sib) as [|k]; [by left|]. right. exists (2 ^ k)%nat. apply Nat.pow_succ_r'. }
  destruct (Nat.even i) eqn:Hev.
  - assert (exists s, l !! (if (i + 1 <? length l)%nat then (i + 1)%nat else i) = Some s /\
      s = default a (l !! S i)) as (s & Hs & ->).
    { rewrite Nat.add_1_r. destruct (Nat.ltb_spec (S i) (length l)) as [Hin|Hout].
      - destruct (lookup_lt_is_Some_2 l (S i) Hin) as [s Hs]. rewrite Hs. eauto.
      - rewrite (lookup_ge_None_2 l (S i)) by done. eauto. }
    rewrite Hs. cbn. rewrite Hsib. cbn. eexists; split_and!; [done|done|rewrite length_cons, Nat.pow_succ_r'; destruct Hpow as [?|[m ?]]; lia..].
  - assert (exists s, l !! Nat.pred i = Some s) as [s Hs].
    { apply lookup_lt_is_Some_2. lia. }
    rewrite Hs in *. cbn. rewrite Hsib. cbn. eexists; split_and!; [done|done|rewrite length_cons, Nat.pow_succ_r'; destruct Hpow as [?|[m ?]]; lia..].
Qed.

Lemma position_Some t l i : position t l = Some i -> l !! i = Some t.
Proof.
  revert i. induction l as [|h l IH]; intros i; [done|]. cbn. case_decide as Hd.
  - intros [= <-]. by rewrite Hd.
  - destruct (position t l) as [j|]; [|done]. intros [= <-]. by apply IH.
Qed.
Lemma position_None t l : position t l = None <-> t ∉ l.
Proof.
  induction l as [|h l IH]; cbn [position]; [split; [intros _; apply not_elem_of_nil|done]|].
  rewrite not_elem_of_cons. case_decide as Hd; [split; [done|by intros []]|].
  destruct (position t l) as [j|]; cbn; [split; [done|]|].
  - intros [_ Hn]. by apply IH in Hn.
  - split; [|done]. intros _. split; [done|by apply IH].
Qed.

(** ** Collisions

    [merkle_collision l1 l2] walks the two trees level by level and returns the
    first two different texts it finds that have one hash. *)
Definition node_collision (x y : string) : option (string * string) :=
  if decide (x <> y /\ sha3_256_hex x = sha3_256_hex y) then Some (x, y) else None.
Fixpoint pair_collision (l1 l2 : list string) : option (string * string) :=
  match l1, l2 with
  | a :: b :: l1, c :: d :: l2 =>
    match node_collision (a +:+ b) (c +:+ d) with
    | Some xy => Some xy
    | None => pair_collision l1 l2
    end
  | [a], [c] => node_collision (a +:+ a) (c +:+ c)
  | _, _ => None
  end.
Fixpoint merkle_collision (fuel : nat) (l1 l2 : list string) : option (string * string) :=
  match fuel with
  | O => None
  | S fuel =>
    match pair_collision l1 l2 with
    | Some xy => Some xy
    | None => merkle_collision fuel (pair_up l1) (pair_up l2)
    end
  end.

Definition is_collision (xy : string * string) : Prop :=
  xy.1 <> xy.2 /\ sha3_256_hex xy.1 = sha3_256_hex xy.2.

Lemma node_collision_sound x y xy : node_collision x y = Some xy -> is_collision xy.
Proof. unfold node_collision, is_collision. case_decide; [|done]. by intros [= <-]. Qed.
Lemma node_collision_None x y :
  node_collision x y = None -> sha3_256_hex x = sha3_256_hex y -> x = y.
Proof. unfold node_collision. case_decide as Hd; [done|]. intros _ He. destruct (decide (x = y)); [done|tauto]. Qed.

Lemma pair_collision_sound l1 l2 xy : pair_collision l1 l2 = Some xy -> is_collision xy.
Proof.
  revert l2. induction l1 as [|a|a b l1 IH] using pair_ind; intros [|c [|d l2]]; cbn; try done.
  - apply node_collision_sound.
  - destruct (node_collision _ _) eqn:Hn; [intros [= <-]; by eapply node_collision_sound|apply IH].
Qed.
Lemma merkle_collision_sound fuel l1 l2 xy :
  merkle_collision fuel l1 l2 = Some xy -> is_collision xy.
Proof.
  revert l1 l2. induction fuel as [|fuel IH]; intros l1 l2; [done|]. cbn.
  destruct (pair_collision l1 l2) eqn:Hp; [intros [= <-]; by eapply pair_collision_sound|apply IH].
Qed.

(** A node is the hex digest of 32 bytes. *)
Definition is_node (h : string) : Prop := String.length h = 64%nat.

Lemma pair_collision_None l1 l2 :
  length l1 = length l2 -> Forall is_node l1 -> Forall is_node l2 ->
  pair_up l1 = pair_up l2 -> pair_collision l1 l2 = None -> l1 = l2.
Proof.
  unfold is_node. revert l2.
  induction l1 as [|a|a b l1 IH] using pair_ind; intros [|c [|d l2]] Hlen; try done;
    intros Hn1 Hn2 [=]; cbn; decompose_Forall_hyps.
  - intros Hc. apply node_collision_None in Hc; [|done].
    apply str_app_inj in Hc as [-> _]; [done|]. congruence.
  - destruct (node_collision _ _) eqn:Hnode; [done|]. intros Hc.
    apply node_collision_None in Hnode; [|done].
    apply str_app_inj in Hnode as [-> ->]; [|congruence].
    f_equal. f_equal. by apply IH.
Qed.

Section laws.
  Context `{!Sha3Laws} `{!HexLaws}.

Lemma pair_up_nodes l : Forall is_node (pair_up l).
Proof.
  induction l as [|a|a b l IH] using pair_ind; cbn; repeat constructor; try done;
    apply sha3_256_hex_length.
Qed.

Lemma merkle_root_is_node l : Forall is_node l -> is_node (compute_merkle_root l).
Proof.
  remember (length l) as n eqn:Hlen. revert l Hlen. induction (lt_wf n) as [n _ IH]. intros l -> Hn.
  destruct l as [|a [|b l]]; [apply sha3_256_hex_length|by apply Forall_inv in Hn|].
  assert (1 < length (a :: b :: l))%nat as Hl by (cbn; lia).
  rewrite compute_merkle_root_step by done. apply (IH (length (pair_up (a :: b :: l)))); [|done|apply pair_up_nodes].
  by apply pair_up_shrinks.
Qed.

Lemma merkle_collision_complete fuel l1 l2 :
  length l1 = length l2 -> (0 < length l1 <= fuel)%nat ->
  Forall is_node l1 -> Forall is_node l2 ->
  compute_merkle_root l1 = compute_merkle_root l2 -> merkle_collision fuel l1 l2 = None -> l1 = l2.
Proof.
  revert l1 l2. induction fuel as [|fuel IH]; intros l1 l2 Hlen Hf Hn1 Hn2 Hroot; [lia|]. cbn.
  destruct (pair_collision l1 l2) eqn:Hp; [done|]. intros Hc.
  destruct (decide (length l1 = 1%nat)) as [He|He].
  { destruct l1 as [|a [|]], l2 as [|c [|]]; try done. by rewrite !compute_merkle_root_one in Hroot; subst. }
  rewrite (compute_merkle_root_step l1), (compute_merkle_root_step l2) in Hroot by lia.
  pose proof (pair_up_shrinks l1 ltac:(lia)).
  apply pair_collision_None; try done.
  apply IH; try done; try apply pair_up_nodes; rewrite ?pair_up_length in *; [congruence|lia].
Qed.
End laws.

Lemma pair_up_duplicate l x : Nat.odd (length (l ++ [x])) = true ->
  pair_up ((l ++ [x]) ++ [x]) = pair_up (l ++ [x]).
Proof.
  induction l as [|a|a b l IH] using pair_ind; cbn [app pair_up]; [done..|].
  intros Hodd. f_equal. by apply IH.
Qed.
End merkle.

(** ** Properties *)

Section merkle_properties.
  Context `{Sha3} `{HexCodec}.

(** C14: [generate_proof] never panics.  It answers [None] exactly for hashes
    that are not in the block; for the others the proof is about the target
    and the block's root, [verify_proof] accepts it, and it has no more
    siblings than the tree has levels. *)
Theorem generate_proof_correct {E} (l : list string) (t : string) :
  exists o, generate_proof (E:=E) l t = Ok o /\
    match o with
    | None => t ∉ l
    | Some p => t ∈ l /\ mp_leaf_hash p = t /\ mp_root p = compute_merkle_root l /\
        verify_proof p = true /\ (2 ^ length (mp_siblings p) < 2 * length l)%nat
    end.
Proof.
  destruct l as [|h l]; [exists None; split; [done|apply not_elem_of_nil]|].
  unfold generate_proof. destruct (position t (h :: l)) as [i|] eqn:Hpos; cycle 1.
  { exists None. split; [done|]. by apply position_None. }
  apply position_Some in Hpos.
  destruct (proof_loop_correct (E:=E) (length (h :: l)) (h :: l) i t ltac:(lia) Hpos)
    as (sib & Hsib & Hfold & _ & Hlen).
  rewrite Hsib. eexists. split; [done|]. cbn [mp_leaf_hash mp_root mp_siblings].
  split_and!; [by eapply list_elem_of_lookup_2|done..| |done].
  unfold verify_proof. cbn [mp_leaf_hash mp_root mp_siblings]. by rewrite Hfold, bool_decide_true.
Qed.

(** C13: the Merkle root binds the list of transactions: two blocks with the
    same number of transactions, of hashes of 64 characters, and the same root
    carry the same hashes in the same order, or else [merkle_collision] computes from them two
    different texts with one SHA3 hash. *)
Theorem merkle_root_binding `{!Sha3Laws} `{!HexLaws} (l1 l2 : list string) :
  length l1 = length l2 -> Forall is_node l1 -> Forall is_node l2 ->
  compute_merkle_root l1 = compute_merkle_root l2 ->
  l1 = l2 \/
  exists xy, merkle_collision (length l1) l1 l2 = Some xy /\ is_collision xy.
Proof.
  intros Hlen Hn1 Hn2 Hroot. destruct (decide (length l1 = 0%nat)) as [He|He].
  { left. destruct l1, l2; done. }
  destruct (merkle_collision (length l1) l1 l2) as [xy|] eqn:Hc.
  - right. exists xy. split; [done|]. by eapply merkle_collision_sound.
  - left. eapply (merkle_collision_complete (length l1)); try done. lia.
Qed.

(** The root does not bind the number of transactions: repeating the last
    of an odd number (at least three) of hashes leaves the root unchanged. *)
Theorem merkle_root_duplicated_last (l : list string) (x : string) :
  l <> [] -> Nat.odd (length (l ++ [x])) = true ->
  compute_merkle_root ((l ++ [x]) ++ [x]) = compute_merkle_root (l ++ [x]).
Proof.
  intros Hl Hodd. assert (0 < length l)%nat by (destruct l; [done|cbn; lia]).
  rewrite (compute_merkle_root_step (l ++ [x])) by (rewrite length_app; cbn; lia).
  rewrite compute_merkle_root_step by (rewrite !length_app; cbn; lia).
  by rewrite pair_up_duplicate.
Qed.
End merkle_properties.

Module MerkleWitness.
  Import Mem.
Definition leaf (c : string) : string := str_repeat 64 c.

Lemma merkle_root_binding_witness :
  [leaf "a"; leaf "b"; leaf "c"] = [leaf "a"; leaf "b"; leaf "c"] \/
  exists xy, merkle_collision 3 [leaf "a"; leaf "b"; leaf "c"] [leaf "a"; leaf "b"; leaf "c"] = Some xy
    /\ is_collision xy.
Proof.
  apply (merkle_root_binding [leaf "a"; leaf "b"; leaf "c"] [leaf "a"; leaf "b"; leaf "c"]);
    [done|by repeat constructor..|done].
Defined.

Lemma merkle_root_duplicated_last_witness :
  compute_merkle_root ["a"; "b"; "c"; "c"] = compute_merkle_root ["a"; "b"; "c"].
Proof. apply (merkle_root_duplicated_last ["a"; "b"] "c"); done. Defined.
End MerkleWitness.
