(* ===== verification/Float.v ===== *)
(** * Floating-point numbers

    Rust's [f64] as a [spec_float] of the Standard Library: the operations of
    IEEE 754 binary64 (53 bits of mantissa, exponents up to 1024, rounding to
    nearest even), the conversion [as u64], [f64::powi], [str::parse::<f64>] and
    the [Display] of a float, with the lemmas on rounding. *)
From S2P Require Import Prelude Text.
From Stdlib Require Export SpecFloat.
From Stdlib Require Import Ascii.

(** ** Operations *)

Notation f64 := spec_float.
Definition f64_of_Z (m e : Z) : f64 := binary_normalize 53 1024 m e false.
Definition f64_add : f64 -> f64 -> f64 := SFadd 53 1024.
Definition f64_sub : f64 -> f64 -> f64 := SFsub 53 1024.
Definition f64_mul : f64 -> f64 -> f64 := SFmul 53 1024.
Definition f64_div : f64 -> f64 -> f64 := SFdiv 53 1024.
(** [x as u64] truncates, and saturates at the ends of the range; NaN is 0. *)
Definition f64_to_u64 (x : f64) : Z :=
  match x with
  | S754_finite false m e => Z.min (Z.shiftl (Zpos m) e) u64_max
  | S754_infinity false => u64_max
  | _ => 0
  end.
(** [f64::clamp]: a NaN stays. *)
Definition f64_clamp (x lo hi : f64) : f64 :=
  let x := if SFltb x lo then lo else x in
  if SFltb hi x then hi else x.
Definition is_nan (x : f64) : bool := match x with S754_nan => true | _ => false end.

(** [x.powi(n)]: the compiler's runtime squares [x] once per bit of [n] and
    takes the reciprocal for a negative [n].  (Rust leaves the rounding of
    [powi] open; the powers of 16 its caller takes are exact.) *)
Fixpoint f64_pow_pos (x : f64) (p : positive) (r : f64) : f64 :=
  match p with
  | xH => f64_mul r x
  | xO p => f64_pow_pos (f64_mul x x) p r
  | xI p => f64_pow_pos (f64_mul x x) p (f64_mul r x)
  end.
Definition f64_one : f64 := Eval vm_compute in f64_of_Z 1 0.
Definition f64_powi (x : f64) (n : Z) : f64 :=
  match n with
  | Z0 => f64_one
  | Zpos p => f64_pow_pos x p f64_one
  | Zneg p => f64_div f64_one (f64_pow_pos x p f64_one)
  end.

(** ** Decimal text

    [f64_of_ratio neg n d] is the float nearest to [n / d], and
    [f64_of_decimal neg m e] the one nearest to [m * 10^e]. *)
Definition f64_of_ratio (neg : bool) (n d : positive) : f64 :=
  let '(q, e, l) := SFdiv_core_binary 53 1024 (Zpos n) 0 (Zpos d) 0 in
  binary_round_aux 53 1024 neg q e l.
Definition ten_to (n : Z) : positive := Z.to_pos (10 ^ n).
Definition f64_of_decimal (neg : bool) (m e : Z) : f64 :=
  match m with
  | Zpos m => f64_of_ratio neg (m * ten_to (Z.max e 0)) (ten_to (Z.max (- e) 0))
  | _ => S754_zero neg
  end.

(** [s.parse::<f64>()]: a sign, then [inf], [infinity] or [nan] in letters of
    either case, or digits with at most one point among them and an optional
    exponent. *)
Definition to_lower (c : ascii) : ascii := if in_range 65 90 c then of_byte (byte_of c + 32) else c.
Fixpoint str_map (f : ascii -> ascii) (s : string) : string :=
  match s with EmptyString => EmptyString | String c s => String (f c) (str_map f s) end.
Fixpoint span_digits (s : string) : string * string :=
  match s with
  | EmptyString => ("", "")
  | String c s' => if is_digit c then (let '(d, r) := span_digits s' in (String c d, r)) else ("", s)
  end.
Definition split_sign (s : string) : bool * string :=
  match s with
  | String c s' => if bool_decide (c = "-"%char) then (true, s') else if bool_decide (c = "+"%char) then (false, s') else (false, s)
  | EmptyString => (false, "")
  end.
(** The exponent: nothing, or [e], a sign and digits up to the end. *)
Definition parse_exponent (s : string) : option Z :=
  match s with
  | EmptyString => Some 0
  | String c s' =>
    if bool_decide (to_lower c = "e"%char) then
      let '(neg, s'') := split_sign s' in
      let '(d, r) := span_digits s'' in
      if is_empty d || negb (is_empty r) then None
      else Some (if neg then - digits_value d 0 else digits_value d 0)
    else None
  end.
Definition parse_number (neg : bool) (s : string) : option f64 :=
  let '(ip, r) := span_digits s in
  let '(fp, r) :=
    match r with
    | String c r' => if bool_decide (c = "."%char) then span_digits r' else ("", r)
    | EmptyString => ("", r)
    end in
  if is_empty ip && is_empty fp then None
  else
    e ← parse_exponent r;
    Some (f64_of_decimal neg (digits_value (ip +:+ fp) 0) (e - str_len fp)).
Definition parse_inf_nan (neg : bool) (s : string) : option f64 :=
  let s := str_map to_lower s in
  if String.eqb s "inf" || String.eqb s "infinity" then Some (S754_infinity neg)
  else if String.eqb s "nan" then Some S754_nan else None.
Definition parse_f64 (s : string) : res string f64 :=
  if is_empty s then Err "cannot parse float from empty string"
  else
    let '(neg, r) := split_sign s in
    if is_empty r then Err "invalid float literal"
    else
      match parse_number neg r with
      | Some x => Ok x
      | None => ok_or (parse_inf_nan neg r) "invalid float literal"
      end.

(** [format!("{}", x)]: the shortest decimal that parses to [x], the nearest to
    [x] of these, the larger of two equally near; without an exponent.
    [shortest] looks for it from the power [p] of ten down, where it takes the
    multiple of [10^p] below [n / d] or the next; [exact] is the decimal
    expansion of [x], which is reached in the end. *)
Fixpoint shortest (fuel : nat) (x : f64) (n d : positive) (p : Z) (exact : Z * Z) : Z * Z :=
  match fuel with
  | O => exact
  | S fuel =>
    let unit := Zpos d * 10 ^ Z.max p 0 in
    let n' := Zpos n * 10 ^ Z.max (- p) 0 in
    let m := n' / unit in
    let below := (0 <? m) && SFeqb (f64_of_decimal false m p) x in
    let above := SFeqb (f64_of_decimal false (m + 1) p) x in
    if below && (negb above || (2 * (n' mod unit) <? unit)) then (m, p)
    else if above then (m + 1, p)
    else shortest fuel x n d (p - 1) exact
  end.
Definition show_decimal (m e : Z) : string :=
  let s := show_uint m in
  if 0 <=? e then s +:+ str_repeat (Z.to_nat e) "0"
  else
    let s := str_repeat (S (Z.to_nat (- e)) - String.length s) "0" +:+ s in
    let k := (String.length s - Z.to_nat (- e))%nat in
    str_take k s +:+ "." +:+ str_drop k s.
Definition show_positive_f64 (m : positive) (e : Z) : string :=
  let n := (m * Z.to_pos (2 ^ Z.max e 0))%positive in
  let d := Z.to_pos (2 ^ Z.max (- e) 0) in
  let p := (Z.log2 (Zpos n) - Z.log2 (Zpos d)) * 30103 / 100000 + 2 in
  let exact := if 0 <=? e then (Zpos n, 0) else (Zpos m * 5 ^ (- e), e) in
  let '(v, p) := shortest (Z.to_nat (p - Z.min e 0)) (S754_finite false m e) n d p exact in
  show_decimal v p.
Definition show_f64 (x : f64) : string :=
  match x with
  | S754_nan => "NaN"
  | S754_infinity neg => (if neg then "-" else "") +:+ "inf"
  | S754_zero neg => (if neg then "-" else "") +:+ "0"
  | S754_finite neg m e => (if neg then "-" else "") +:+ show_positive_f64 m e
  end.

(** ** Rounding

    The product of two floats is rounded to 53 bits.  [shr_1] halves the
    mantissa and keeps what was cut off; a mantissa that divides evenly is not
    rounded. *)

Lemma iter_pos_nat {A} (f : A -> A) n x : iter_pos f n x = Nat.iter (Pos.to_nat n) f x.
Proof.
  revert x. induction n as [n IH|n IH|]; intros x; cbn [iter_pos]; [| |done]; rewrite !IH, <-Nat.iter_add.
  - rewrite <-Nat.iter_succ_r. f_equal. lia.
  - f_equal. lia.
Qed.
Lemma shr_1_div mrs : 0 <= shr_m mrs -> shr_m (shr_1 mrs) = shr_m mrs / 2.
Proof.
  destruct mrs as [m r s]. cbn [shr_m]. intros Hm. destruct m as [|[p|p|]|p]; cbn [shr_1 shr_m]; try done; try lia.
  - rewrite Pos2Z.inj_xI. apply (Z.div_unique _ 2 _ 1); lia.
  - rewrite Pos2Z.inj_xO. apply (Z.div_unique _ 2 _ 0); lia.
Qed.
Lemma shr_iter_div n mrs :
  0 <= shr_m mrs -> shr_m (Nat.iter n shr_1 mrs) = shr_m mrs / 2 ^ Z.of_nat n.
Proof.
  intros Hm. induction n as [|n IH]; [by rewrite Z.div_1_r|]. rewrite Nat.iter_succ.
  rewrite shr_1_div, IH by (rewrite IH; apply Z.div_pos; lia).
  rewrite Z.div_div by lia. f_equal. rewrite Nat2Z.inj_succ, Z.pow_succ_r by lia. lia.
Qed.
Lemma shr_iter_exact n q :
  0 <= q -> Nat.iter n shr_1 (Build_shr_record (q * 2 ^ Z.of_nat n) false false) = Build_shr_record q false false.
Proof.
  intros Hq. revert q Hq. induction n as [|n IH]; intros q Hq; [by rewrite Z.mul_1_r|].
  rewrite Nat.iter_succ, Nat2Z.inj_succ, Z.pow_succ_r, Z.mul_assoc, IH by lia.
  rewrite Z.mul_comm. by destruct q.
Qed.

(** The mantissa after rounding lies between the cut one and its successor,
    and is the cut one where nothing was cut off. *)
Lemma round_nearest_bounds m l : m <= round_nearest_even m l <= m + 1.
Proof. destruct l as [|[]]; cbn; try lia. destruct (Z.even m); lia. Qed.

Lemma digits2_size p : digits2_pos p = Pos.size p.
Proof. induction p as [p IH|p IH|]; cbn; by rewrite ?IH. Qed.
Lemma digits2_bounds p : 2 ^ (Zpos (digits2_pos p) - 1) <= Zpos p < 2 ^ Zpos (digits2_pos p).
Proof.
  rewrite digits2_size. pose proof (Pos.size_gt p) as Hg. pose proof (Pos.size_le p) as Hl.
  split; [|rewrite <-Pos2Z.inj_pow; lia].
  assert (2 * 2 ^ (Zpos (Pos.size p) - 1) <= 2 * Zpos p); [|lia].
  rewrite <-Z.pow_succ_r by lia. replace (Z.succ _) with (Zpos (Pos.size p)) by lia.
  rewrite <-Pos2Z.inj_pow. lia.
Qed.
Lemma digits2_unique p d : 0 < d -> 2 ^ (d - 1) <= Zpos p < 2 ^ d -> Zpos (digits2_pos p) = d.
Proof.
  intros Hd Hp. pose proof (digits2_bounds p) as Hb. set (k := Zpos (digits2_pos p)) in *.
  assert (0 < k) by (unfold k; lia).
  destruct (Z.lt_trichotomy k d) as [Hk|[Hk|Hk]]; [|done|].
  - pose proof (Z.pow_le_mono_r 2 k (d - 1)). lia.
  - pose proof (Z.pow_le_mono_r 2 d (k - 1)). lia.
Qed.

(** A mantissa of [53 + n] bits is cut to 53 bits. *)
Lemma shr_fexp_cut P ex l n :
  2 ^ (52 + n) <= Zpos P < 2 ^ (53 + n) -> 0 <= n -> -1074 <= ex + n ->
  exists mrs, shr_fexp 53 1024 (Zpos P) ex l = (mrs, ex + n) /\
    shr_m mrs = Zpos P / 2 ^ n /\
    (l = loc_Exact -> Zpos P = Zpos P / 2 ^ n * 2 ^ n -> loc_of_shr_record mrs = loc_Exact).
Proof.
  intros HP Hn Hex. unfold shr_fexp, fexp, emin. cbn [Zdigits2].
  rewrite (digits2_unique P (53 + n)) by (first [lia|by replace (53 + n - 1) with (52 + n) by lia]).
  replace (Z.max _ _ - ex) with n by lia. unfold shr.
  assert (shr_m (shr_record_of_loc (Zpos P) l) = Zpos P) as Hm by by destruct l as [|[]].
  destruct n as [|k|k]; [|rewrite iter_pos_nat|lia].
  { eexists. rewrite Z.add_0_r, Z.div_1_r. split_and!; [done..|]. by intros ->. }
  eexists. split_and!; [done|..].
  - rewrite shr_iter_div, Hm by by rewrite Hm. by rewrite positive_nat_Z.
  - intros -> He. cbn [shr_m shr_record_of_loc] in *.
    rewrite He, <-(positive_nat_Z k), shr_iter_exact; [done|]. apply Z.div_pos; lia.
Qed.

Lemma round_located neg P ex l n :
  2 ^ (52 + n) <= Zpos P < 2 ^ (53 + n) -> 0 <= n -> -1074 <= ex + n <= 970 ->
  exists m e, binary_round_aux 53 1024 neg (Zpos P) ex l = S754_finite neg m e /\
    2 ^ 52 <= Zpos m < 2 ^ 53 /\ ex + n <= e <= ex + n + 1 /\
    let R := Zpos m * 2 ^ (e - (ex + n)) in
    Zpos P / 2 ^ n <= R <= Zpos P / 2 ^ n + 1 /\
    (l = loc_Exact -> Zpos P = Zpos P / 2 ^ n * 2 ^ n -> R = Zpos P / 2 ^ n).
Proof.
  intros HP Hn Hex. unfold binary_round_aux.
  destruct (shr_fexp_cut P ex l n HP Hn) as (mrs & -> & Hm & Hx); [lia|]. rewrite Hm.
  set (q := Zpos P / 2 ^ n) in *.
  assert (2 ^ 52 <= q < 2 ^ 53) as Hq.
  { rewrite !Z.pow_add_r in HP by lia. split; [apply Z.div_le_lower_bound; lia|apply Z.div_lt_upper_bound; lia]. }
  pose proof (round_nearest_bounds q (loc_of_shr_record mrs)) as Hr.
  assert (l = loc_Exact -> Zpos P = q * 2 ^ n -> round_nearest_even q (loc_of_shr_record mrs) = q) as Hre.
  { intros Hl Hd. by rewrite (Hx Hl Hd). }
  destruct (round_nearest_even q _) as [|m|m]; [lia| |lia].
  destruct (decide (Zpos m = 2 ^ 53)) as [Hm2|Hm2].
  - destruct (shr_fexp_cut m (ex + n) loc_Exact 1) as (mrs2 & -> & -> & _); [lia..|]. rewrite Hm2.
    replace (2 ^ 53 / 2 ^ 1) with (2 ^ 52) by done. cbn [Z.pow Z.pow_pos Pos.iter Z.mul Pos.mul].
    rewrite (proj2 (Z.leb_le _ _)) by lia. do 2 eexists. split_and!; [done|lia..| | |];
      replace (ex + n + 1 - (ex + n)) with 1 by lia; [lia..|]. intros Hl Hp. specialize (Hre Hl Hp). lia.
  - destruct (shr_fexp_cut m (ex + n) loc_Exact 0) as (mrs2 & -> & -> & _); [lia..|]. rewrite Z.div_1_r, Z.add_0_r.
    rewrite (proj2 (Z.leb_le _ _)) by lia. do 2 eexists. split_and!; [done|lia..| | |];
      rewrite Z.sub_diag, Z.mul_1_r; [lia..|done].
Qed.

(** Rounding keeps the order with the integers: a product between two of them
    is still between them when it is rounded and truncated.  One that exceeds
    an integer by less than a half is truncated to it, as long as the
    mantissa has bits left for the fraction. *)
Lemma product_to_u64 mx ex my ey lo hi :
  2 ^ 52 <= Zpos mx < 2 ^ 53 -> 2 ^ 52 <= Zpos my < 2 ^ 53 -> -1074 <= ex + ey <= 0 ->
  lo * 2 ^ (- (ex + ey)) <= Zpos mx * Zpos my ->
  (hi < 2 ^ 53 /\ Zpos mx * Zpos my <= hi * 2 ^ (- (ex + ey)) \/
   hi < 2 ^ 51 /\ 2 * (Zpos mx * Zpos my) < (2 * hi + 1) * 2 ^ (- (ex + ey))) ->
  lo <= f64_to_u64 (f64_mul (S754_finite false mx ex) (S754_finite false my ey)) <= hi.
Proof.
  intros Hx Hy He Hlo Hhi. unfold f64_mul, SFmul. cbn [xorb]. set (s := - (ex + ey)) in *.
  assert (exists n, 0 <= n <= 53 /\ 2 ^ (52 + n) <= Zpos (mx * my) < 2 ^ (53 + n)) as (n & Hn & Hmn).
  { rewrite Pos2Z.inj_mul. destruct (Z.lt_ge_cases (Zpos mx * Zpos my) (2 ^ 105)) as [Hs|Hs];
      [exists 52|exists 53]; change (2 ^ (52 + 52)) with (2 ^ 52 * 2 ^ 52);
      change (2 ^ (53 + 53)) with (2 ^ 53 * 2 ^ 53); (split; [lia|]); split; nia. }
  rewrite <-Pos2Z.inj_mul in Hlo, Hhi. set (P := (mx * my)%positive) in *.
  assert (0 < 2 ^ s) as Hs by (apply Z.pow_pos_nonneg; lia).
  (* the fraction of the product has bits beyond the mantissa *)
  assert (forall k, hi < 2 ^ (53 - k) -> 0 <= k <= 2 -> Zpos P < (hi + 1) * 2 ^ s -> n <= s - k) as Hns.
  { intros k Hk1 Hk2 HP.
    assert (2 ^ (52 + n) < 2 ^ (53 - k + s)) as Hp.
    { rewrite (Z.pow_add_r 2 (53 - k)) by lia. nia. }
    apply Z.pow_lt_mono_r_iff in Hp; lia. }
  assert (n <= s /\ (hi < 2 ^ 53 /\ Zpos P <= hi * 2 ^ s \/ n <= s - 2 /\ 2 * Zpos P < (2 * hi + 1) * 2 ^ s)) as [Hnle Hhi'].
  { destruct Hhi as [[H1' H2']|[H1' H2']].
    - split; [|by left]. pose proof (Hns 0). nia.
    - pose proof (Hns 2 H1') as Hk. assert (n <= s - 2) by (apply Hk; nia). split; [lia|by right]. }
  assert (hi < 2 ^ 53) as Hmax by lia. clear Hhi Hns.
  destruct (round_located false P (ex + ey) loc_Exact n) as (m & e & -> & Hm' & Hle & HR); [done|lia..|].
  cbv zeta in HR. set (R := Zpos m * 2 ^ (e - (ex + ey + n))) in *. cbn [f64_to_u64].
  assert (Z.shiftl (Zpos m) e = R / 2 ^ (s - n)) as ->.
  { unfold R. rewrite <-Z.shiftr_div_pow2, <-Z.shiftl_mul_pow2 by lia.
    rewrite Z.shiftr_shiftl_l by lia. f_equal. lia. }
  pose proof (Z.div_mod (Zpos P) (2 ^ n)) as Hd. pose proof (Z.mod_pos_bound (Zpos P) (2 ^ n)) as Hm.
  set (q := Zpos P / 2 ^ n) in *. set (r := Zpos P mod 2 ^ n) in *.
  replace s with (s - n + n) in Hlo, Hhi' by lia. rewrite Z.pow_add_r, !Z.mul_assoc in Hlo, Hhi' by lia.
  assert (n <= s - n + n - 2 -> 4 <= 2 ^ (s - n)) as Hb4.
  { intros Hs2. pose proof (Z.pow_le_mono_r 2 2 (s - n)). lia. }
  set (b := 2 ^ (s - n)) in *. assert (0 < b) by (apply Z.pow_pos_nonneg; lia).
  set (a := 2 ^ n) in *. assert (0 < a) by (apply Z.pow_pos_nonneg; lia).
  assert (lo * b <= R < (hi + 1) * b) as HRb.
  { destruct HR as [HR Hexact]. split; [nia|]. destruct Hhi' as [[_ Hh]|[H4%Hb4 Hh]].
    - destruct (decide (r = 0)) as [Hr|Hr]; [rewrite Hexact by (done || lia)|]; nia.
    - nia. }
  assert (lo <= R / b <= hi); [|unfold u64_max; lia].
  split; [apply Z.div_le_lower_bound; lia|]. apply Z.lt_succ_r, Z.div_lt_upper_bound; lia.
Qed.

(** ** Comparison *)

Lemma SFcompare_swap x y : SFcompare y x = CompOpp <$> SFcompare x y.
Proof.
  destruct x as [[]|[]| |[] m1 e1], y as [[]|[]| |[] m2 e2]; try done;
    cbn [SFcompare]; fold (Pos.compare m1 m2) (Pos.compare m2 m1); cbn [fmap option_fmap option_map];
    rewrite (Z.compare_antisym e1 e2), (Pos.compare_antisym m1 m2);
    by destruct (e1 ?= e2), (Pos.compare m1 m2).
Qed.
Lemma SFltb_false x y :
  is_nan x = false -> is_nan y = false -> SFltb x y = false -> SFleb y x = true.
Proof.
  intros Hx Hy. unfold SFltb, SFleb. rewrite (SFcompare_swap x y).
  destruct (SFcompare x y) as [[]|] eqn:Hc; try done.
  by destruct x as [[]|[]| |[] ? ?], y as [[]|[]| |[] ? ?].
Qed.
Lemma SFleb_finite m1 e1 m2 e2 :
  SFleb (S754_finite false m1 e1) (S754_finite false m2 e2) = true <->
  e1 < e2 \/ (e1 = e2 /\ Zpos m1 <= Zpos m2).
Proof.
  unfold SFleb. cbn [SFcompare]. fold (Pos.compare m1 m2).
  destruct (Z.compare_spec e1 e2); [|split; [lia|done]|split; [done|lia]].
  destruct (Pos.compare_spec m1 m2); split; try done; lia.
Qed.

(** ** Decimal amounts

    The float nearest to [n / d] is within one unit in the last place of it,
    and is the quotient where that is a whole number. *)

Lemma ratio_digits n d k :
  0 <= k -> Zpos n < 2 ^ k * Zpos d -> Zpos (digits2_pos n) - Zpos (digits2_pos d) <= k.
Proof.
  intros Hk Hn. pose proof (digits2_bounds n) as Hb1. pose proof (digits2_bounds d) as Hb2.
  assert (2 ^ (Zpos (digits2_pos n) - 1) < 2 ^ (k + Zpos (digits2_pos d))) as Hp.
  { rewrite Z.pow_add_r by lia. pose proof (Z.pow_pos_nonneg 2 k). nia. }
  apply Z.pow_lt_mono_r_iff in Hp; lia.
Qed.

Lemma div_core_quotient n d :
  Zpos n < 2 ^ 52 * Zpos d -> Zpos d < 2 ^ 900 * Zpos n ->
  exists q s, SFdiv_core_binary 53 1024 (Zpos n) 0 (Zpos d) 0 =
      (Zpos q, - s, new_location (Zpos d) (Zpos n * 2 ^ s mod Zpos d)) /\
    Zpos q = Zpos n * 2 ^ s / Zpos d /\ 1 <= s <= 953 /\ 2 ^ 52 <= Zpos q < 2 ^ 54.
Proof.
  intros Hn Hd. apply ratio_digits in Hn as H1, Hd as H2; [|lia..].
  pose proof (digits2_bounds n) as Hb1. pose proof (digits2_bounds d) as Hb2.
  unfold SFdiv_core_binary, fexp, emin. cbn [Zdigits2].
  set (s := 53 - (Zpos (digits2_pos n) - Zpos (digits2_pos d))).
  assert (0 < 2 ^ s) as Hpos by (apply Z.pow_pos_nonneg; lia).
  replace (Z.min _ _) with (- s) by lia. replace (0 - 0 - - s) with s by lia.
  assert (2 ^ 52 <= Zpos n * 2 ^ s / Zpos d < 2 ^ 54) as Hq.
  { split; [apply Z.div_le_lower_bound|apply Z.div_lt_upper_bound]; try lia.
    - assert (2 ^ (Zpos (digits2_pos n) - 1) * 2 ^ s = 2 ^ Zpos (digits2_pos d) * 2 ^ 52) as He.
      { rewrite <-!Z.pow_add_r by lia. f_equal. lia. }
      nia.
    - assert (2 ^ Zpos (digits2_pos n) * 2 ^ s = 2 ^ (Zpos (digits2_pos d) - 1) * 2 ^ 54) as He.
      { rewrite <-!Z.pow_add_r by lia. f_equal. lia. }
      nia. }
  assert (match s with 0 => Zpos n | Zpos _ => Z.shiftl (Zpos n) s | Zneg _ => 0 end = Zpos n * 2 ^ s) as ->.
  { rewrite <-Z.shiftl_mul_pow2 by lia. assert (1 <= s) as Hs by lia. clearbody s. by destruct s. }
  destruct (Z.div_eucl _ _) as [q r] eqn:Hdiv.
  assert (q = Zpos n * 2 ^ s / Zpos d) as -> by (unfold Z.div; by rewrite Hdiv).
  assert (r = Zpos n * 2 ^ s mod Zpos d) as -> by (unfold Z.modulo; by rewrite Hdiv).
  destruct (Zpos n * 2 ^ s / Zpos d) as [|q|q] eqn:Hquot; [lia| |lia].
  exists q, s. split_and!; [done|by rewrite Hquot|lia..].
Qed.

Lemma ratio_rounded n d :
  Zpos n < 2 ^ 52 * Zpos d -> Zpos d < 2 ^ 900 * Zpos n ->
  exists m e, f64_of_ratio false n d = S754_finite false m e /\ 2 ^ 52 <= Zpos m < 2 ^ 53 /\
    -1000 <= e <= 0 /\ (Zpos m - 1) * Zpos d <= Zpos n * 2 ^ (- e) <= (Zpos m + 1) * Zpos d /\
    (forall k, Zpos n = k * Zpos d -> Zpos m = k * 2 ^ (- e)).
Proof.
  intros Hn Hd. destruct (div_core_quotient n d Hn Hd) as (q & s & He & Hq & Hs & Hqb).
  unfold f64_of_ratio. rewrite He.
  assert (exists h, 0 <= h <= 1 /\ h < s /\ 2 ^ (52 + h) <= Zpos q < 2 ^ (53 + h)) as (h & Hh & Hhs & Hqh).
  { destruct (Z.lt_ge_cases (Zpos q) (2 ^ 53)); [exists 0; lia|exists 1]. split; [lia|]. split; [|lia].
    destruct (decide (s = 1)) as [->|]; [|lia]. exfalso.
    assert (Zpos q < 2 ^ 53); [|lia]. rewrite Hq. apply Z.div_lt_upper_bound; lia. }
  destruct (round_located false q (- s) (new_location (Zpos d) (Zpos n * 2 ^ s mod Zpos d)) h)
    as (m & e & -> & Hm & Hle & HR & Hexact); [done|lia..|].
  exists m, e. split; [done|]. split; [done|]. split; [lia|].
  set (g := e - (- s + h)) in *.
  assert (2 ^ s = 2 ^ (- e) * (2 ^ h * 2 ^ g)) as Hpow.
  { rewrite <-!Z.pow_add_r by lia. f_equal. lia. }
  pose proof (Z.div_mod (Zpos n * 2 ^ s) (Zpos d)) as Hdm. rewrite <-Hq in Hdm.
  pose proof (Z.mod_pos_bound (Zpos n * 2 ^ s) (Zpos d)) as Hr.
  pose proof (Z.div_mod (Zpos q) (2 ^ h)) as Hdh. pose proof (Z.mod_pos_bound (Zpos q) (2 ^ h)) as Hrh.
  set (r := Zpos n * 2 ^ s mod Zpos d) in *. set (Q := Zpos q / 2 ^ h) in *.
  assert (0 < 2 ^ h) as Ha by (apply Z.pow_pos_nonneg; lia). assert (0 < 2 ^ g) as Hg by (apply Z.pow_pos_nonneg; lia).
  split.
  - set (a := 2 ^ h) in *. set (b := 2 ^ g) in *. set (x := 2 ^ (- e)) in *. rewrite Hpow in Hdm.
    assert (Zpos n * (x * (a * b)) = Zpos n * x * (a * b)) as Hx by lia. rewrite Hx in Hdm.
    assert (0 < a * b) as Hab by nia.
    assert ((Zpos m - 1) * b * a <= Zpos q) as Hlow by nia.
    assert (Zpos q + 1 <= (Zpos m + 1) * b * a) as Hup by nia.
    clear - Hdm Hr Hlow Hup Hab.
    split; apply (Z.mul_le_mono_pos_r _ _ (a * b)); [done| |done|].
    + pose proof (Z.mul_le_mono_nonneg_r _ _ (Zpos d) ltac:(lia) Hlow). lia.
    + pose proof (Z.mul_le_mono_nonneg_r _ _ (Zpos d) ltac:(lia) Hup). lia.
  - intros k Hk. assert (0 < 2 ^ (- e)) by (apply Z.pow_pos_nonneg; lia).
    assert (r = 0) as Hr0. { unfold r. rewrite Hk. apply Z.mod_divide; [done|]. exists (k * 2 ^ s). lia. }
    assert (Zpos q = k * 2 ^ s) as Hqk. { rewrite Hq, Hk. symmetry. apply Z.div_unique_exact; lia. }
    assert (Zpos q = Q * 2 ^ h) as HQ.
    { unfold Q. rewrite Z.mul_comm. apply Z.div_exact; [lia|]. rewrite Hqk, Hpow.
      apply Z.mod_divide; [lia|]. exists (k * 2 ^ (- e) * 2 ^ g). lia. }
    assert (Zpos m * 2 ^ g = Q) as HmQ. { apply Hexact; [|done]. rewrite Hr0. unfold new_location. by case_match. }
    apply (Z.mul_cancel_r _ _ (2 ^ g)); [lia|]. apply (Z.mul_cancel_r _ _ (2 ^ h)); [lia|].
    rewrite HmQ, <-HQ, Hqk, Hpow. lia.
Qed.

(** [n / d] times a power of ten that makes it the whole number [u]: the float
    nearest to [n / d], multiplied by that power, is truncated to [u] or [u - 1],
    and to [u] if [n / d] is a whole number. *)
Definition f64_billion : f64 := Eval vm_compute in f64_of_Z 1000000000 0.
Lemma f64_billion_shape :
  f64_billion = S754_finite false (1000000000 * 2 ^ 23) (-23) /\
  2 ^ 52 <= Zpos (1000000000 * 2 ^ 23) < 2 ^ 53.
Proof. concrete. Qed.

Lemma ratio_billion n d u :
  Zpos d * u = Zpos n * 1000000000 -> Zpos d <= 1000000000 -> 0 < u < 2 ^ 53 ->
  let v := f64_to_u64 (f64_mul (f64_of_ratio false n d) f64_billion) in
  (u < 2 ^ 51 -> u - 1 <= v <= u) /\ (forall k, Zpos n = k * Zpos d -> v = u).
Proof.
  intros Hu Hd Hr. destruct f64_billion_shape as [-> Hb].
  destruct (ratio_rounded n d) as (m & e & -> & Hm & He & Hmd & Hexact).
  { clear - Hu Hr. nia. }
  { change (2 ^ 900) with (2 ^ 870 * 2 ^ 30). lia. }
  set (x := 2 ^ (- e)) in *. assert (0 < x) as Hx by (apply Z.pow_pos_nonneg; lia).
  assert (2 ^ (- (e + -23)) = x * 2 ^ 23) as Hs.
  { unfold x. rewrite <-Z.pow_add_r by lia. f_equal. lia. }
  rewrite Pos2Z.inj_mul in *. change (Zpos (2 ^ 23)) with (2 ^ 23) in *.
  assert ((Zpos m - 1) * 1000000000 <= u * x <= (Zpos m + 1) * 1000000000) as Hux.
  { assert (Zpos n * x * 1000000000 = Zpos d * (u * x)) as Hnx by (rewrite Z.mul_assoc, Hu; lia).
    clear - Hmd Hnx. split; apply (Z.mul_le_mono_pos_l _ _ (Zpos d)); [done|lia|done|lia]. }
  intros v. split.
  - intros Hu51. assert (2 * 1000000000 < x) as Hbig by (clear - Hux Hu51 Hm Hx; nia).
    apply product_to_u64; rewrite ?Pos2Z.inj_mul, ?Hs; [lia..|right; split; lia].
  - intros k Hk. specialize (Hexact k Hk). assert (u = k * 1000000000) as -> by nia.
    assert (k * 1000000000 <= v <= k * 1000000000); [|lia].
    apply product_to_u64; rewrite ?Pos2Z.inj_mul, ?Hs, ?Hexact; [lia..|left; split; lia].
Qed.

(** What [parse_f64] makes of digits, with and without a point. *)
Lemma span_digits_app s r :
  str_forall is_digit s = true -> (forall c r', r = String c r' -> is_digit c = false) ->
  span_digits (s +:+ r) = (s, r).
Proof.
  intros Hs Hr. induction s as [|c s IH].
  - rewrite str_app_nil_l. destruct r as [|c r]; [done|]. cbn. by rewrite (Hr c r).
  - cbn [str_forall] in Hs. apply andb_true_iff in Hs as [Hc Hs]. rewrite str_app_cons. cbn [span_digits].
    by rewrite Hc, IH.
Qed.
Lemma split_sign_other c s : c <> "-"%char -> c <> "+"%char -> split_sign (String c s) = (false, String c s).
Proof. intros Hm Hp. cbn. by rewrite !bool_decide_false. Qed.
Lemma split_sign_digits s r :
  str_forall is_digit s = true -> s <> "" \/ (exists r', r = String "." r') ->
  is_empty (s +:+ r) = false /\ split_sign (s +:+ r) = (false, s +:+ r).
Proof.
  intros Hs Hr. destruct s as [|c s].
  - destruct Hr as [Hr|[r' ->]]; [done|]. split; [done|]. by apply split_sign_other.
  - apply andb_true_iff in Hs as [Hc Hs]. split; [done|]. rewrite str_app_cons.
    apply split_sign_other; intros ->; done.
Qed.
Lemma parse_f64_digits s :
  str_forall is_digit s = true -> s <> "" -> parse_f64 s = Ok (f64_of_decimal false (digits_value s 0) 0).
Proof.
  intros Hs Hne. destruct (split_sign_digits s "") as [He Hsign]; [done|by left|].
  pose proof (span_digits_app s "" Hs ltac:(done)) as Hspan. rewrite str_app_nil_r in *.
  unfold parse_f64. rewrite He, Hsign, He. unfold parse_number. rewrite Hspan, He. cbn.
  by rewrite str_app_nil_r.
Qed.
Lemma parse_f64_point ip fp :
  str_forall is_digit ip = true -> str_forall is_digit fp = true -> ip +:+ fp <> "" ->
  parse_f64 (ip +:+ "." +:+ fp) = Ok (f64_of_decimal false (digits_value (ip +:+ fp) 0) (- str_len fp)).
Proof.
  intros Hi Hf Hne. destruct (split_sign_digits ip ("." +:+ fp)) as [He Hsign]; [done|right; by eexists|].
  unfold parse_f64. rewrite He, Hsign, He. unfold parse_number.
  rewrite (span_digits_app ip) by (done || by intros c r' [= <- <-]).
  pose proof (span_digits_app fp "" Hf ltac:(done)) as Hspan. rewrite str_app_nil_r in Hspan.
  change ("." +:+ fp) with (String "." fp). cbv beta iota.
  rewrite bool_decide_true by done. rewrite Hspan.
  assert (is_empty ip && is_empty fp = false) as ->.
  { apply andb_false_iff. destruct ip; [right|by left]. by destruct fp. }
  done.
Qed.
