(* ===== verification/Mining.v ===== *)
(** * Mining (src/chain/mining.rs)

    The emission schedule, the nonce search, the difficulty adjustment and the
    estimate of the hash rate. *)
From S2P Require Import Prelude Text Types Extern InMemory Hash Float.

Definition KYV_UNITS : Z := 1000000000.
Definition GENESIS_BLOCK_REWARD : Z := 50 * KYV_UNITS.
Definition HALVING_INTERVAL : Z := 290000.
Definition EPOCH_BLOCK_TARGET_SECONDS : Z := 600.
Definition MICRO_BLOCK_TARGET_SECONDS : Z := 3.
Definition DIFFICULTY_WINDOW : nat := 144.
Definition MIN_DIFFICULTY : Z := 1.
Definition MAX_DIFFICULTY : Z := 64.

Record MinedBlock := mkMinedBlock {
  mined_nonce : Z;
  mined_hash : string;
  mined_attempts : Z;
}.

Definition calculate_block_reward (epoch_block_height : Z) : Z :=
  let halving_count := epoch_block_height / HALVING_INTERVAL in
  default 0 (checked_shr_u64 GENESIS_BLOCK_REWARD (as_u32 halving_count)).

Definition verify_proof_of_work (hash : string) (difficulty : Z) : bool :=
  meets_difficulty hash difficulty.

(** [difficulty as i32] *)
Definition as_i32 (x : Z) : Z := let y := as_u32 x in if y <=? 2147483647 then y else y - 4294967296.
Definition f64_sixteen : f64 := Eval vm_compute in f64_of_Z 16 0.
Definition estimate_hash_rate (difficulty : Z) (average_block_time_seconds : f64) : f64 :=
  let expected_hashes := f64_powi f64_sixteen (as_i32 difficulty) in
  f64_div expected_hashes average_block_time_seconds.

Section mining.
  Context `{Sha3} `{HexCodec}.

(** One round of [while nonce < max_attempts]; [nonce + 1] is at most
    [max_attempts] and cannot overflow. *)
Definition mine_step (header : BlockHeader) (max_attempts nonce : Z) : Z + option MinedBlock :=
  if nonce <? max_attempts then
    let hash := hash_header header nonce in
    if meets_difficulty hash (hdr_difficulty header)
    then inr (Some (mkMinedBlock nonce hash (nonce + 1)))
    else inl (nonce + 1)
  else inr None.

Definition mine_block (header : BlockHeader) (max_attempts : Z) : option MinedBlock :=
  match loop_pos (mine_step header max_attempts) (Z.to_pos (max_attempts + 1)) 0 with
  | inr result => result
  | inl _ => None
  end.
End mining.

Definition calculate_next_difficulty `{Build} {E} (current_difficulty : Z)
    (timestamps : list Z) (is_epoch_block : bool) : res E Z :=
  if (length timestamps <? 2)%nat then Ok current_difficulty else
  let target_seconds :=
    if is_epoch_block then EPOCH_BLOCK_TARGET_SECONDS else MICRO_BLOCK_TARGET_SECONDS in
  let window := Nat.min (length timestamps) DIFFICULTY_WINDOW in
  let recent := drop (length timestamps - window) timestamps in
  match list.last recent, list.head recent with
  | Some l, Some f =>
    elapsed ← sub_i64 l f;
    let block_count := Z.of_nat (length recent - 1) in
    if block_count =? 0 then Ok current_difficulty else
    let average_seconds := Z.quot elapsed block_count in
    new_difficulty ←
      (if average_seconds <? Z.quot target_seconds 2 then add_u32 current_difficulty 1
       else if average_seconds <? target_seconds then add_u32 current_difficulty 1
       else if target_seconds * 2 <? average_seconds then Ok (Z.max (current_difficulty - 1) 0)
       else if target_seconds <? average_seconds then Ok (Z.max (current_difficulty - 1) 0)
       else Ok current_difficulty);
    Ok (clamp MIN_DIFFICULTY MAX_DIFFICULTY new_difficulty)
  | _, _ => Panic
  end.

(** ** The emission schedule *)

(** Before the counter of halvings leaves 32 bits, the reward is the genesis
    reward halved once per interval, rounding down. *)
Definition scheduled_reward (epoch : Z) : Z := GENESIS_BLOCK_REWARD / 2 ^ (epoch / HALVING_INTERVAL).

Lemma reward_shift k :
  0 <= k -> default 0 (checked_shr_u64 GENESIS_BLOCK_REWARD k) = GENESIS_BLOCK_REWARD / 2 ^ k.
Proof.
  intros Hk. unfold checked_shr_u64. destruct (Z.ltb_spec k 64); cbn [default from_option id].
  - by rewrite Z.shiftr_div_pow2.
  - symmetry. apply Z.div_small. split; [done|].
    apply (Z.lt_le_trans _ (2 ^ 64)); [done|]. by apply Z.pow_le_mono_r.
Qed.

Lemma halving_count_range h :
  0 <= h < HALVING_INTERVAL * (u32_max + 1) -> 0 <= h / HALVING_INTERVAL < u32_max + 1.
Proof.
  unfold HALVING_INTERVAL. intros Hh. split; [apply Z.div_pos; lia|].
  apply Z.div_lt_upper_bound; lia.
Qed.

Lemma block_reward_scheduled h :
  0 <= h < HALVING_INTERVAL * (u32_max + 1) -> calculate_block_reward h = scheduled_reward h.
Proof.
  intros Hh. pose proof (halving_count_range h Hh).
  unfold calculate_block_reward, as_u32. rewrite Z.mod_small by done. apply reward_shift; lia.
Qed.

Lemma scheduled_reward_range h : 0 <= h -> 0 <= scheduled_reward h <= GENESIS_BLOCK_REWARD.
Proof.
  intros Hh. unfold scheduled_reward.
  assert (0 <= h / HALVING_INTERVAL) by (by apply Z.div_pos).
  assert (0 < 2 ^ (h / HALVING_INTERVAL)) by (apply Z.pow_pos_nonneg; lia).
  split; [apply Z.div_pos; unfold GENESIS_BLOCK_REWARD, KYV_UNITS; lia|].
  apply Z.div_le_upper_bound; [done|]. unfold GENESIS_BLOCK_REWARD, KYV_UNITS. nia.
Qed.

Lemma block_reward_u64 h : is_u64 (calculate_block_reward h).
Proof.
  unfold calculate_block_reward, is_u64, u64_max.
  pose proof (Z.mod_pos_bound (h / HALVING_INTERVAL) (u32_max + 1) ltac:(done)) as Hm.
  unfold as_u32. rewrite reward_shift by lia.
  assert (0 < 2 ^ ((h / HALVING_INTERVAL) mod (u32_max + 1))) by (apply Z.pow_pos_nonneg; lia).
  split; [apply Z.div_pos; unfold GENESIS_BLOCK_REWARD, KYV_UNITS; lia|].
  apply Z.div_le_upper_bound; [done|]. unfold GENESIS_BLOCK_REWARD, KYV_UNITS. nia.
Qed.

(** ** Properties *)

(** C29: for every epoch a chain can reach (the counter of halvings fits 32 bits)
    the reward is the genesis reward halved once per 290,000 epochs, and it is
    zero from the thirty-sixth halving on. *)
Theorem block_reward_schedule h :
  0 <= h < HALVING_INTERVAL * (u32_max + 1) ->
  calculate_block_reward h = GENESIS_BLOCK_REWARD / 2 ^ (h / HALVING_INTERVAL) /\
  (calculate_block_reward h = 0 <-> 36 * HALVING_INTERVAL <= h).
Proof.
  intros Hh. rewrite block_reward_scheduled by done. split; [done|]. unfold scheduled_reward.
  pose proof (halving_count_range h Hh) as Hk.
  pose proof (Z.div_mod h HALVING_INTERVAL ltac:(done)) as Hdm.
  pose proof (Z.mod_pos_bound h HALVING_INTERVAL ltac:(done)) as Hm.
  assert (36 * HALVING_INTERVAL <= h <-> 36 <= h / HALVING_INTERVAL) as -> by (unfold HALVING_INTERVAL in *; lia).
  generalize dependent (h / HALVING_INTERVAL). intros k Hk _. split.
  - intros Hz. destruct (Z.le_gt_cases 36 k) as [|Hlt]; [done|]. exfalso.
    assert (2 ^ k <= 2 ^ 35) by (apply Z.pow_le_mono_r; lia).
    assert (0 < 2 ^ k) by (apply Z.pow_pos_nonneg; lia).
    apply Z.div_small_iff in Hz; [|lia]. unfold GENESIS_BLOCK_REWARD, KYV_UNITS in Hz. lia.
  - intros Hle. apply Z.div_small. split; [done|].
    apply (Z.lt_le_trans _ (2 ^ 36)); [done|]. by apply Z.pow_le_mono_r.
Qed.

(** The number of halvings is cut to 32 bits before the shift, so the
    schedule starts over: [290000 * 2^32] epochs later the reward is the same
    as now, 50 KYV again at that height itself. *)
Theorem block_reward_wraps h :
  0 <= h ->
  calculate_block_reward (h + HALVING_INTERVAL * (u32_max + 1)) = calculate_block_reward h.
Proof.
  intros Hh. unfold calculate_block_reward, as_u32.
  rewrite (Z.mul_comm HALVING_INTERVAL), Z.div_add by done.
  do 2 f_equal. rewrite <-(Z.mul_1_l (u32_max + 1)) at 1. by rewrite Z.mod_add.
Qed.

Section mining_properties.
  Context `{Sha3} `{HexCodec}.

(** What a search of the nonces below [max_attempts] may answer. *)
Definition first_nonce (header : BlockHeader) (max_attempts : Z) (r : option MinedBlock) : Prop :=
  match r with
  | Some m =>
    0 <= mined_nonce m < max_attempts /\
    mined_hash m = hash_header header (mined_nonce m) /\
    mined_attempts m = mined_nonce m + 1 /\
    verify_proof_of_work (mined_hash m) (hdr_difficulty header) = true /\
    (forall n, 0 <= n < mined_nonce m ->
      meets_difficulty (hash_header header n) (hdr_difficulty header) = false)
  | None =>
    forall n, 0 <= n < max_attempts ->
      meets_difficulty (hash_header header n) (hdr_difficulty header) = false
  end.

Lemma mine_block_result header max_attempts :
  0 <= max_attempts -> first_nonce header max_attempts (mine_block header max_attempts).
Proof.
  intros Hmax. unfold mine_block.
  destruct (loop_pos_rule (mine_step header max_attempts)
    (fun nonce => 0 <= nonce <= max_attempts /\ forall n, 0 <= n < nonce ->
      meets_difficulty (hash_header header n) (hdr_difficulty header) = false)
    (first_nonce header max_attempts) (fun nonce => max_attempts - nonce)
    (Z.to_pos (max_attempts + 1)) 0) as (r & -> & HQ).
  - split; [lia|]. intros; lia.
  - lia.
  - intros nonce [Hr Hnone]. split; [lia|]. unfold mine_step.
    destruct (Z.ltb_spec nonce max_attempts) as [Hlt|Hge].
    + destruct (meets_difficulty (hash_header header nonce) _) eqn:Hm;
        [unfold first_nonce; cbn; split_and!; try done; lia|].
      split; [|lia]. split; [lia|]. intros n Hn.
      destruct (decide (n = nonce)) as [->|]; [done|]. apply Hnone. lia.
    + intros n Hn. apply Hnone. lia.
  - exact HQ.
Qed.

(** C21: [mine_block] terminates with the first nonce below the bound whose
    header hash meets the difficulty, together with that hash; it answers
    [None] exactly when no nonce below the bound does. *)
Theorem mine_block_first header max_attempts :
  0 <= max_attempts ->
  first_nonce header max_attempts (mine_block header max_attempts) /\
  (mine_block header max_attempts = None <->
    forall n, 0 <= n < max_attempts ->
      meets_difficulty (hash_header header n) (hdr_difficulty header) = false).
Proof.
  intros Hmax. pose proof (mine_block_result header max_attempts Hmax) as Hr.
  split; [done|]. destruct (mine_block header max_attempts) as [m|]; [|done].
  destruct Hr as (Hn & Hh & _ & Hv & _). split; [done|]. intros Hnone.
  unfold verify_proof_of_work in Hv. rewrite Hh, (Hnone _ Hn) in Hv. done.
Qed.
End mining_properties.

(** The average spacing of the blocks in the window, in the units of the
    timestamps. *)
Definition window_of (timestamps : list Z) : list Z :=
  drop (length timestamps - Nat.min (length timestamps) DIFFICULTY_WINDOW) timestamps.

Definition target_of (is_epoch_block : bool) : Z :=
  if is_epoch_block then EPOCH_BLOCK_TARGET_SECONDS else MICRO_BLOCK_TARGET_SECONDS.

(** C30: with at least two timestamps the next difficulty is one more, one less
    or the same as the current one according to whether the average spacing in
    the window is below, above or at the target, cut to [1, 64]; the
    computation neither fails nor panics when the elapsed time fits an [i64]
    and the current difficulty is not the largest [u32]. *)
Theorem next_difficulty_spec `{Build} {E} current timestamps ep first latest :
  (2 <= length timestamps)%nat -> 0 <= current < u32_max ->
  list.head (window_of timestamps) = Some first ->
  list.last (window_of timestamps) = Some latest ->
  is_i64 (latest - first) ->
  let average := Z.quot (latest - first) (Z.of_nat (length (window_of timestamps) - 1)) in
  calculate_next_difficulty (E:=E) current timestamps ep =
    Ok (clamp MIN_DIFFICULTY MAX_DIFFICULTY
      (match average ?= target_of ep with
       | Lt => current + 1 | Eq => current | Gt => Z.max (current - 1) 0 end)).
Proof.
  intros Hlen Hcur Hfirst Hlast Hi average. unfold calculate_next_difficulty.
  fold (window_of timestamps) (target_of ep).
  rewrite (proj2 (Nat.ltb_ge (length timestamps) 2)) by lia. rewrite Hfirst, Hlast.
  unfold sub_i64. rewrite signed64_ok by done. cbn [mbind res_bind].
  assert (1 < length (window_of timestamps))%nat as Hw.
  { unfold window_of, DIFFICULTY_WINDOW. rewrite length_drop. lia. }
  rewrite (proj2 (Z.eqb_neq _ 0)) by lia. fold average.
  assert (add_u32 (E:=E) current 1 = Ok (current + 1)) as -> by (apply unsigned_ok; lia).
  assert (2 <= target_of ep) by (destruct ep; done).
  pose proof (Z.quot_div_nonneg (target_of ep) 2 ltac:(lia) ltac:(lia)) as Hq.
  pose proof (Z.mul_div_le (target_of ep) 2 ltac:(lia)).
  destruct (Z.ltb_spec average (Z.quot (target_of ep) 2)), (Z.ltb_spec average (target_of ep)),
    (Z.ltb_spec (target_of ep * 2) average), (Z.ltb_spec (target_of ep) average),
    (Z.compare_spec average (target_of ep)); try done; lia.
Qed.

(** Whatever the timestamps, the adjusted difficulty lies between the
    minimum and the maximum. *)
Theorem next_difficulty_bounds `{Build} {E} current timestamps ep d :
  (2 <= length timestamps)%nat ->
  calculate_next_difficulty (E:=E) current timestamps ep = Ok d ->
  MIN_DIFFICULTY <= d <= MAX_DIFFICULTY.
Proof.
  intros Hlen. unfold calculate_next_difficulty. fold (window_of timestamps) (target_of ep).
  rewrite (proj2 (Nat.ltb_ge (length timestamps) 2)) by lia.
  assert (1 < length (window_of timestamps))%nat as Hw.
  { unfold window_of, DIFFICULTY_WINDOW. rewrite length_drop. lia. }
  destruct (list.last _) as [l|]; [|done]. destruct (list.head _) as [f|]; [|done].
  intros (elapsed & _ & He)%res_bind_Ok. revert He. rewrite (proj2 (Z.eqb_neq _ 0)) by lia.
  intros (x & _ & He)%res_bind_Ok. revert He.
  intros [= <-]. unfold clamp, MIN_DIFFICULTY, MAX_DIFFICULTY.
  destruct (Z.ltb_spec x 1), (Z.ltb_spec 64 x); lia.
Qed.

(** The expected number of hashes is [16^difficulty], exactly, for every
    difficulty the adjustment can give, and an infinity from 256 on. *)
Lemma expected_hashes_exact difficulty :
  0 <= difficulty <= 255 -> f64_powi f64_sixteen (as_i32 difficulty) = f64_of_Z 1 (4 * difficulty).
Proof.
  intros Hd. assert (as_i32 difficulty = difficulty) as ->.
  { unfold as_i32, as_u32, u32_max. rewrite Z.mod_small by lia. by rewrite (proj2 (Z.leb_le _ _)) by lia. }
  assert (map (f64_powi f64_sixteen) (seqZ 0 256) = map (fun d => f64_of_Z 1 (4 * d)) (seqZ 0 256)) as Hall
    by (vm_compute; reflexivity).
  apply (proj1 map_ext_in_iff Hall), list_elem_of_In, elem_of_seqZ. lia.
Qed.

Module MiningWitness.
  Import Mem.

Lemma block_reward_schedule_witness :
  calculate_block_reward 580000 = GENESIS_BLOCK_REWARD / 2 ^ (580000 / HALVING_INTERVAL) /\
  (calculate_block_reward 580000 = 0 <-> 36 * HALVING_INTERVAL <= 580000).
Proof. apply (block_reward_schedule 580000). vm_compute. by split. Defined.

Lemma block_reward_wraps_witness :
  calculate_block_reward (0 + HALVING_INTERVAL * (u32_max + 1)) = calculate_block_reward 0.
Proof. apply (block_reward_wraps 0). done. Defined.

Definition witness_header : BlockHeader :=
  new_header 1700000000000 0 (str_repeat 64 "0") "merkle" 1 true 0.
Lemma mine_block_first_witness :
  first_nonce witness_header 100 (mine_block witness_header 100) /\
  (mine_block witness_header 100 = None <->
    forall n, 0 <= n < 100 ->
      meets_difficulty (hash_header witness_header n) (hdr_difficulty witness_header) = false).
Proof. apply (mine_block_first witness_header 100). done. Defined.
(** The search succeeds there. *)
Example mine_block_first_finds : is_Some (mine_block witness_header 100).
Proof. vm_compute. eauto. Qed.

Lemma next_difficulty_spec_witness :
  calculate_next_difficulty (E:=string) 4 [0; 1200; 2400] true = Ok 3.
Proof.
  etransitivity; [apply (next_difficulty_spec (E:=string) 4 [0; 1200; 2400] true 0 2400)|];
    vm_compute; first [done|by split|lia].
Defined.

Lemma next_difficulty_bounds_witness : MIN_DIFFICULTY <= 3 <= MAX_DIFFICULTY.
Proof.
  apply (next_difficulty_bounds (E:=string) 4 [0; 1200; 2400] true 3); vm_compute; [lia|done].
Defined.
(** 16^4 hashes in 3 seconds; a difficulty beyond [i32::MAX] is read as a
    negative power. *)
Example hash_rate : show_f64 (estimate_hash_rate 4 (f64_of_Z 3 0)) = "21845.333333333332" /\
  show_f64 (estimate_hash_rate 4294967295 f64_one) = "0.0625".
Proof. vm_compute. done. Qed.
End MiningWitness.
