(* ===== verification/Db.v ===== *)
(** * The database handle (src/storage/db.rs)

    [KyveraDb] holds the sled database and its five trees.  A Rust function
    that takes [&KyveraDb] changes it through sled's interior mutability; here
    it is a computation [st KyveraDb E A] that passes the handle along.  The
    helpers that take [&Tree] name the tree of the handle they work on. *)
From S2P Require Import Prelude Text Extern.

Inductive TreeName := BlocksByHash | BlocksByHeight | Accounts | Transactions | Metadata.
#[export] Instance TreeName_eq_dec : EqDecision TreeName.
Proof. solve_decision. Defined.

Section db.
  Context `{Sled}.

Record KyveraDb := mkKyveraDb {
  kdb_db : sled_db;
  blocks_by_hash : tree;
  blocks_by_height : tree;
  accounts : tree;
  transactions : tree;
  metadata : tree;
}.

Definition get_tree (n : TreeName) (db : KyveraDb) : tree :=
  match n with
  | BlocksByHash => blocks_by_hash db
  | BlocksByHeight => blocks_by_height db
  | Accounts => accounts db
  | Transactions => transactions db
  | Metadata => metadata db
  end.
Definition set_tree (n : TreeName) (t : tree) (db : KyveraDb) : KyveraDb :=
  let '(mkKyveraDb d bh bt ac tx md) := db in
  match n with
  | BlocksByHash => mkKyveraDb d t bt ac tx md
  | BlocksByHeight => mkKyveraDb d bh t ac tx md
  | Accounts => mkKyveraDb d bh bt t tx md
  | Transactions => mkKyveraDb d bh bt ac t md
  | Metadata => mkKyveraDb d bh bt ac tx t
  end.

Definition open_trees (d : sled_db) (msg : string -> string -> string) : res string KyveraDb :=
  bh ← map_err (msg "blocks_by_hash") (sled_open_tree d "blocks_by_hash");
  bt ← map_err (msg "blocks_by_height") (sled_open_tree d "blocks_by_height");
  ac ← map_err (msg "accounts") (sled_open_tree d "accounts");
  tx ← map_err (msg "transactions") (sled_open_tree d "transactions");
  md ← map_err (msg "metadata") (sled_open_tree d "metadata");
  Ok (mkKyveraDb d bh bt ac tx md).

Definition open (path : string) : res string KyveraDb :=
  d ← map_err (fun e => "Failed to open database at " +:+ path +:+ ": " +:+ e) (sled_open path);
  open_trees d (fun name e => "Failed to open " +:+ name +:+ " tree: " +:+ e).

Definition open_temp : res string KyveraDb :=
  d ← map_err (fun e => "Failed to open temp database: " +:+ e) sled_open_temporary;
  open_trees d (fun _ e => e).

Definition flush : st KyveraDb string unit := fun db =>
  (db, map_err (fun e => "Flush failed: " +:+ e) (map_ok (fun _ => tt) (sled_flush (kdb_db db)))).

Definition write (n : TreeName) (key value : string) : st KyveraDb string unit := fun db =>
  let '(t, r) := tree_insert (get_tree n db) key value in
  (set_tree n t db, map_err (fun e => "Write failed: " +:+ e) (map_ok (fun _ => tt) r)).

Definition read (n : TreeName) (key : string) : st KyveraDb string (option string) := fun db =>
  (db, map_err (fun e => "Read failed: " +:+ e) (tree_get (get_tree n db) key)).

Definition delete (n : TreeName) (key : string) : st KyveraDb string unit := fun db =>
  let '(t, r) := tree_remove (get_tree n db) key in
  (set_tree n t db, map_err (fun e => "Delete failed: " +:+ e) (map_ok (fun _ => tt) r)).

Definition exists_ (n : TreeName) (key : string) : st KyveraDb string bool := fun db =>
  (db, map_err (fun e => "Exists check failed: " +:+ e) (tree_contains_key (get_tree n db) key)).

Definition count (n : TreeName) (db : KyveraDb) : Z := tree_len (get_tree n db).

Definition set_metadata (key value : string) : st KyveraDb string unit := write Metadata key value.
Definition get_metadata (key : string) : st KyveraDb string (option string) := read Metadata key.

(** [for item in tree.iter()] and [tree.scan_prefix(p)]: the items, each of
    which may be an I/O error. *)
Definition iter_tree {E} (n : TreeName) : st KyveraDb E (list (res string (string * string))) :=
  st_gets (fun db => Ok (tree_iter (get_tree n db))).
Definition scan_tree {E} (n : TreeName) (prefix : string)
    : st KyveraDb E (list (res string (string * string))) :=
  st_gets (fun db => Ok (tree_scan_prefix (get_tree n db) prefix)).

Lemma get_set_tree n t db : get_tree n (set_tree n t db) = t.
Proof. by destruct db, n. Qed.
Lemma get_set_tree_ne n m t db : n <> m -> get_tree m (set_tree n t db) = get_tree m db.
Proof. by destruct db, n, m. Qed.
End db.
