(* ===== verification/World.v ===== *)
(** * The abstract state of the node and the refinement relation

    A [World] is what the database means: the account of each address, and the
    raw contents of the other trees.  [Rep db w] says that the handle [db]
    represents [w] (every access succeeds and every stored account can be read
    back under its own address).  [wp c w Q] says that from any handle
    representing [w] the computation [c] ends in a handle representing some
    [w'] with outcome [r] such that [Q r w'] ([valid] records that the fields of
    the accounts are in the range of their Rust types); [refines c s] says that [c]
    implements the function [s] on worlds.  The storage and consensus modules
    prove a rule for each of their operations, which their callers use instead
    of the definition. *)
From S2P Require Import Prelude Text Types Extern Db.

Record World := mkWorld {
  w_accounts : gmap string Account;
  w_blocks_by_hash : gmap string string;
  w_blocks_by_height : gmap string string;
  w_transactions : gmap string string;
  w_metadata : gmap string string;
}.

Definition empty_world : World := mkWorld ∅ ∅ ∅ ∅ ∅.

(** The raw contents of a tree other than the accounts. *)
Definition w_raw (n : TreeName) (w : World) : gmap string string :=
  match n with
  | BlocksByHash => w_blocks_by_hash w
  | BlocksByHeight => w_blocks_by_height w
  | Accounts => ∅
  | Transactions => w_transactions w
  | Metadata => w_metadata w
  end.
Definition set_raw (n : TreeName) (m : gmap string string) (w : World) : World :=
  let '(mkWorld ac bh bt tx md) := w in
  match n with
  | BlocksByHash => mkWorld ac m bt tx md
  | BlocksByHeight => mkWorld ac bh m tx md
  | Accounts => w
  | Transactions => mkWorld ac bh bt m md
  | Metadata => mkWorld ac bh bt tx m
  end.
Definition set_accounts (m : gmap string Account) (w : World) : World :=
  mkWorld m (w_blocks_by_hash w) (w_blocks_by_height w) (w_transactions w) (w_metadata w).
Lemma set_accounts_id w : set_accounts (w_accounts w) w = w.
Proof. by destruct w. Qed.
(** The world after [a] is saved. *)
Definition put_account (a : Account) (w : World) : World :=
  set_accounts (<[acc_address a := a]> (w_accounts w)) w.
(** The account of an address, a fresh one if it has none. *)
Definition account_at (addr : string) (w : World) : Account :=
  default (new_account addr) (w_accounts w !! addr).

(** Every account is stored under its own address, its fields in range. *)
Definition valid (w : World) : Prop :=
  forall k a, w_accounts w !! k = Some a -> acc_address a = k /\ account_wf a.

Lemma account_at_valid addr w :
  valid w -> acc_address (account_at addr w) = addr /\ account_wf (account_at addr w).
Proof.
  intros Hw. unfold account_at. destruct (w_accounts w !! addr) as [a|] eqn:Ha; cbn; [by apply Hw|].
  split; [done|apply new_account_wf].
Qed.
Lemma put_account_valid a w : valid w -> account_wf a -> valid (put_account a w).
Proof.
  intros Hw Ha k b. cbn. rewrite lookup_insert. case_decide as Hk; [by intros [= <-]|apply Hw].
Qed.
Lemma valid_empty : valid empty_world.
Proof. intros k a. cbn. by rewrite lookup_empty. Qed.

Lemma account_at_put a w addr :
  account_at addr (put_account a w) = if decide (acc_address a = addr) then a else account_at addr w.
Proof. unfold account_at. cbn. rewrite lookup_insert. by case_decide. Qed.

(** The accounts in the order of their addresses. *)
Definition sorted_accounts (m : gmap string Account) : list Account :=
  (merge_sort key_le (map_to_list m)).*2.

(** Maps with the same keys list their entries in the same order. *)
Lemma sorted_keys {A B} (c : gmap string A) (m : gmap string B) :
  (forall k, is_Some (c !! k) <-> is_Some (m !! k)) ->
  Forall2 (fun x y => x.1 = y.1 /\ c !! x.1 = Some x.2 /\ m !! y.1 = Some y.2)
    (merge_sort key_le (map_to_list c)) (merge_sort key_le (map_to_list m)).
Proof.
  intros Hdom.
  assert (forall V (n : gmap string V), Sorted str_le (merge_sort key_le (map_to_list n)).*1) as Hs.
  { intros V n. assert (Sorted key_le (merge_sort key_le (map_to_list n))) as Hs by apply Sorted_merge_sort, _.
    induction Hs as [|x l Hl IH Hx]; cbn; constructor; [done|].
    destruct Hx; cbn; by constructor. }
  assert ((merge_sort key_le (map_to_list c)).*1 = (merge_sort key_le (map_to_list m)).*1) as Hk.
  { apply (Sorted_unique str_le); [apply Hs|apply Hs|].
    rewrite !merge_sort_Permutation. apply NoDup_Permutation; [apply NoDup_fst_map_to_list..|].
    intros k. rewrite !list_elem_of_fmap. pose proof (Hdom k) as Hd. split; intros ([k' x] & -> & Hx); cbn in *.
    - apply elem_of_map_to_list in Hx. destruct (proj1 Hd) as [y Hy]; [by eauto|].
      exists (k', y). by rewrite elem_of_map_to_list.
    - apply elem_of_map_to_list in Hx. destruct (proj2 Hd) as [y Hy]; [by eauto|].
      exists (k', y). by rewrite elem_of_map_to_list. }
  apply Forall2_same_length_lookup. split.
  { apply (f_equal length) in Hk. by rewrite !length_fmap in Hk. }
  intros i x y Hx Hy. split_and!.
  - apply (f_equal (.!! i)) in Hk. rewrite !list_lookup_fmap, Hx, Hy in Hk. by injection Hk.
  - apply elem_of_map_to_list. destruct x. cbn. rewrite <-merge_sort_Permutation.
    by eapply list_elem_of_lookup_2.
  - apply elem_of_map_to_list. destruct y. cbn. rewrite <-merge_sort_Permutation.
    by eapply list_elem_of_lookup_2.
Qed.

Lemma elem_of_sorted_accounts w a :
  valid w -> a ∈ sorted_accounts (w_accounts w) <-> w_accounts w !! acc_address a = Some a.
Proof.
  intros Hw. unfold sorted_accounts. rewrite merge_sort_Permutation, list_elem_of_fmap. split.
  - intros ([k b] & -> & Hb%elem_of_map_to_list). cbn. by destruct (Hw k b Hb) as [-> _].
  - intros Ha. exists (acc_address a, a). by rewrite elem_of_map_to_list.
Qed.

(** ** What the accounts hold *)

Definition holdings (a : Account) : Z := acc_balance a + acc_staked_balance a.
(** The number of base units in existence. *)
Definition supply (w : World) : Z := map_fold (fun _ a s => holdings a + s) 0 (w_accounts w).

Lemma supply_insert k a (m : gmap string Account) :
  map_fold (fun _ a s => holdings a + s) 0 (<[k:=a]> m) =
  map_fold (fun _ a s => holdings a + s) 0 m - default 0 (holdings <$> m !! k) + holdings a.
Proof.
  rewrite <-insert_delete_eq, map_fold_insert_L; [|intros; lia|by rewrite lookup_delete_eq].
  destruct (m !! k) as [b|] eqn:Hb; cbn.
  - rewrite <-(insert_delete_id m k b Hb) at 2.
    rewrite map_fold_insert_L; [|intros; lia|by rewrite lookup_delete_eq]. lia.
  - rewrite delete_id by done. lia.
Qed.
Lemma supply_put a w :
  supply (put_account a w) = supply w - holdings (account_at (acc_address a) w) + holdings a.
Proof.
  unfold supply. cbn. rewrite supply_insert. unfold account_at.
  by destruct (w_accounts w !! acc_address a).
Qed.
Lemma supply_nonneg w : valid w -> 0 <= supply w.
Proof.
  intros Hw. unfold supply.
  assert (forall k a, w_accounts w !! k = Some a -> 0 <= holdings a) as Hh.
  { intros k a Ha. destruct (Hw k a Ha) as (_ & Hb & Hs & _). unfold holdings, is_u64 in *. lia. }
  clear Hw. revert Hh. generalize (w_accounts w). intros m.
  induction m as [|k a m Hk IH] using map_ind; intros Hh; [done|].
  rewrite map_fold_insert_L by (intros; lia || done).
  pose proof (Hh k a (lookup_insert_eq _ _ _)).
  assert (0 <= map_fold (fun _ a s => holdings a + s) 0 m); [|lia].
  apply IH. intros k' a' Ha'. apply (Hh k'). rewrite lookup_insert_ne; [done|]. congruence.
Qed.
(** No account holds more than there is. *)
Lemma holdings_le_supply addr w : valid w -> 0 <= holdings (account_at addr w) <= supply w.
Proof.
  intros Hw. destruct (account_at_valid addr w Hw) as (Ha & Hb & Hs & _).
  pose proof (supply_put (new_account addr) w) as Hp. cbn [acc_address new_account] in Hp.
  pose proof (supply_nonneg _ (put_account_valid (new_account addr) w Hw (new_account_wf addr))).
  change (holdings (new_account addr)) with 0 in Hp. unfold holdings, is_u64 in *. lia.
Qed.
Lemma supply_sorted w : supply w = sumZ (map holdings (sorted_accounts (w_accounts w))).
Proof.
  assert (forall l1 l2, l1 ≡ₚ l2 -> sumZ (map holdings l1) = sumZ (map holdings l2)) as Hp.
  { induction 1; cbn in *; lia. }
  unfold supply, sorted_accounts. rewrite map_fold_foldr.
  rewrite (Hp _ (map_to_list (w_accounts w)).*2) by by rewrite merge_sort_Permutation.
  induction (map_to_list (w_accounts w)) as [|[k a] l IH]; [done|]. cbn in *. by rewrite IH.
Qed.
Lemma supply_empty : supply empty_world = 0.
Proof. done. Qed.

Section world.
  Context `{SledLaws} `{!Serde Account}.

Definition accounts_rep (c : gmap string string) (m : gmap string Account) : Prop :=
  forall k, match m !! k with
    | None => c !! k = None
    | Some a => (acc_address a = k /\ account_wf a) /\ exists b, c !! k = Some b /\ from_slice b = Ok a
    end.

Definition Rep (db : KyveraDb) (w : World) : Prop :=
  (forall n, online (get_tree n db)) /\
  (forall n, n <> Accounts -> contents (get_tree n db) = w_raw n w) /\
  accounts_rep (contents (accounts db)) (w_accounts w).

Definition wp {E A} (c : st KyveraDb E A) (w : World) (Q : res E A -> World -> Prop) : Prop :=
  forall db, Rep db w -> exists w', Rep (c db).1 w' /\ Q (c db).2 w'.

Definition refines {E A} (c : st KyveraDb E A) (s : World -> World * res E A) : Prop :=
  forall w, wp c w (fun r w' => (w', r) = s w).

Lemma Rep_valid db w : Rep db w -> valid w.
Proof. intros (_ & _ & Ha) k a Hk. specialize (Ha k). rewrite Hk in Ha. tauto. Qed.

(** ** The rules of the monad *)

Lemma wp_mono {E A} (c : st KyveraDb E A) w (Q Q' : res E A -> World -> Prop) :
  (forall r w', Q r w' -> Q' r w') -> wp c w Q -> wp c w Q'.
Proof. intros HQ Hc db Hdb. destruct (Hc db Hdb) as (w' & ? & ?). eauto. Qed.

(** The accounts of a represented world are valid. *)
Lemma wp_valid {E A} (c : st KyveraDb E A) w Q : (valid w -> wp c w Q) -> wp c w Q.
Proof. intros Hc db Hdb. apply Hc; [by eapply Rep_valid|done]. Qed.

Lemma wp_refines {E A} (c : st KyveraDb E A) s w (Q : res E A -> World -> Prop) :
  refines c s -> Q (s w).2 (s w).1 -> wp c w Q.
Proof. intros Hr HQ. eapply wp_mono; [|apply Hr]. intros r w' He. by rewrite <-He in HQ. Qed.

Lemma wp_ret {E A} (a : A) w (Q : res E A -> World -> Prop) : Q (Ok a) w -> wp (mret a) w Q.
Proof. intros HQ db Hdb. exists w. done. Qed.
Lemma wp_lift {E A} (r : res E A) w Q : Q r w -> wp (st_lift r) w Q.
Proof. intros HQ db Hdb. exists w. done. Qed.
Lemma wp_fail {E A} (e : E) w (Q : res E A -> World -> Prop) : Q (Err e) w -> wp (st_fail e) w Q.
Proof. intros HQ db Hdb. exists w. done. Qed.

Lemma wp_bind {E A B} (c : st KyveraDb E B) (f : B -> st KyveraDb E A) w Q :
  wp c w (fun r w' =>
    match r with Ok b => wp (f b) w' Q | Err e => Q (Err e) w' | Panic => Q Panic w' end) ->
  wp (c ≫= f) w Q.
Proof.
  intros Hc db Hdb. destruct (Hc db Hdb) as (w' & Hw & HQ). unfold mbind, st_bind.
  destruct (c db) as [db' [b|e|]]; cbn in *; [|by eauto..]. by apply HQ.
Qed.

Lemma wp_map_err {E F A} (f : E -> F) (c : st KyveraDb E A) w Q :
  wp c w (fun r w' => Q (map_err f r) w') -> wp (st_map_err f c) w Q.
Proof.
  intros Hc db Hdb. destruct (Hc db Hdb) as (w' & Hw & HQ). unfold st_map_err.
  destruct (c db) as [db' r]. cbn in *. eauto.
Qed.

Lemma refines_ret {E A} (a : A) : refines (E:=E) (mret a) (mret a : st World E A).
Proof. intros w. by apply wp_ret. Qed.
Lemma refines_bind {E A B} (c : st KyveraDb E B) (f : B -> st KyveraDb E A) s g :
  refines c s -> (forall b, refines (f b) (g b)) -> refines (c ≫= f) (s ≫= g : st World E A).
Proof.
  intros Hc Hf w. apply wp_bind. eapply wp_refines; [exact Hc|].
  unfold mbind, st_bind. destruct (s w) as [w' [b|e|]]; cbn; [apply Hf|done..].
Qed.

(** A loop refines the loop of what its body refines. *)
Lemma refines_for {E X} (l : list X) (body : X -> st KyveraDb E unit) (s : X -> st World E unit) :
  (forall x, x ∈ l -> refines (body x) (s x)) -> refines (st_for l body) (st_for l s).
Proof.
  induction l as [|x l IH]; intros Hb; cbn [st_for]; [apply refines_ret|].
  apply refines_bind; [apply Hb; by left|]. intros _. apply IH. intros y Hy. apply Hb. by right.
Qed.
Lemma refines_fold {E X Y} (l : list X) (acc : Y) (body : Y -> X -> st KyveraDb E Y) s :
  (forall y x, x ∈ l -> refines (body y x) (s y x)) ->
  refines (st_fold l acc body) (st_fold l acc s : st World E Y).
Proof.
  revert acc. induction l as [|x l IH]; intros acc Hb; cbn [st_fold]; [apply refines_ret|].
  apply refines_bind; [apply Hb; by left|]. intros y. apply IH. intros z u Hu. apply Hb. by right.
Qed.

(** ** Trees other than the accounts *)

Lemma wp_write n k v w (Q : res string unit -> World -> Prop) :
  n <> Accounts -> Q (Ok tt) (set_raw n (<[k:=v]> (w_raw n w)) w) -> wp (write n k v) w Q.
Proof.
  intros Hn HQ db (Hon & Hraw & Hacc). unfold write.
  pose proof (tree_insert_result (get_tree n db) k v (Hon n)) as Hr.
  pose proof (tree_insert_contents (get_tree n db) k v (Hon n)) as Hc.
  pose proof (tree_insert_online (get_tree n db) k v (Hon n)) as Ho.
  destruct (tree_insert _ _ _) as [t r]. cbn in *. subst r.
  exists (set_raw n (<[k:=v]> (w_raw n w)) w). split; [|done]. split_and!.
  - intros m. destruct (decide (n = m)) as [<-|]; [by rewrite get_set_tree|].
    by rewrite get_set_tree_ne.
  - intros m Hm. destruct (decide (n = m)) as [<-|Hne].
    + rewrite get_set_tree, Hc, Hraw by done. by destruct w, n.
    + rewrite get_set_tree_ne by done. rewrite Hraw by done. by destruct w, n, m.
  - destruct db, w, n; done.
Qed.

Lemma wp_read n k w Q : n <> Accounts -> Q (Ok (w_raw n w !! k)) w -> wp (read n k) w Q.
Proof.
  intros Hn HQ db Hdb. exists w. split; [done|]. destruct Hdb as (Hon & Hraw & _).
  unfold read. cbn. rewrite tree_get_ok, Hraw by done. exact HQ.
Qed.

Lemma wp_exists n k w Q :
  n <> Accounts -> Q (Ok (bool_decide (is_Some (w_raw n w !! k)))) w -> wp (exists_ n k) w Q.
Proof.
  intros Hn HQ db Hdb. exists w. split; [done|]. destruct Hdb as (Hon & Hraw & _).
  unfold exists_. cbn. rewrite tree_contains_ok, Hraw by done. exact HQ.
Qed.

Lemma wp_delete n k w (Q : res string unit -> World -> Prop) :
  n <> Accounts -> Q (Ok tt) (set_raw n (base.delete k (w_raw n w)) w) -> wp (delete n k) w Q.
Proof.
  intros Hn HQ db (Hon & Hraw & Hacc). unfold delete.
  pose proof (tree_remove_result (get_tree n db) k (Hon n)) as Hr.
  pose proof (tree_remove_contents (get_tree n db) k (Hon n)) as Hc.
  pose proof (tree_remove_online (get_tree n db) k (Hon n)) as Ho.
  destruct (tree_remove _ _) as [t r]. cbn in *. subst r.
  exists (set_raw n (base.delete k (w_raw n w)) w). split; [|done]. split_and!.
  - intros m. destruct (decide (n = m)) as [<-|]; [by rewrite get_set_tree|].
    by rewrite get_set_tree_ne.
  - intros m Hm. destruct (decide (n = m)) as [<-|Hne].
    + rewrite get_set_tree, Hc, Hraw by done. by destruct w, n.
    + rewrite get_set_tree_ne by done. rewrite Hraw by done. by destruct w, n, m.
  - destruct db, w, n; done.
Qed.

Lemma wp_scan {E} n p w (Q : res E _ -> World -> Prop) :
  n <> Accounts ->
  Q (Ok (map Ok (filter (fun kv => starts_with p kv.1 = true) (sorted_entries (w_raw n w))))) w ->
  wp (scan_tree n p) w Q.
Proof.
  intros Hn HQ db Hdb. exists w. split; [done|]. destruct Hdb as (Hon & Hraw & _).
  unfold scan_tree, st_gets. cbn. rewrite tree_scan_ok, Hraw by done. exact HQ.
Qed.

Lemma Rep_count n db w : n <> Accounts -> Rep db w -> count n db = Z.of_nat (size (w_raw n w)).
Proof. intros Hn (Hon & Hraw & _). unfold count. by rewrite tree_len_ok, Hraw. Qed.
(** A database just created represents the empty world. *)
Lemma open_temp_Rep : exists db, open_temp = Ok db /\ Rep db empty_world.
Proof.
  destruct temporary_fresh as (d & Hd & Hf). unfold open_temp, open_trees. rewrite Hd.
  destruct (open_tree_fresh d "blocks_by_hash" Hf) as (bh & Hbh & ? & ?).
  destruct (open_tree_fresh d "blocks_by_height" Hf) as (bt & Hbt & ? & ?).
  destruct (open_tree_fresh d "accounts" Hf) as (ac & Hac & ? & Hc).
  destruct (open_tree_fresh d "transactions" Hf) as (tx & Htx & ? & ?).
  destruct (open_tree_fresh d "metadata" Hf) as (md & Hmd & ? & ?).
  cbn. rewrite Hbh, Hbt, Hac, Htx, Hmd. cbn. eexists. split; [done|]. split_and!.
  - by intros [].
  - by intros [].
  - intros k. cbn. by rewrite Hc, !lookup_empty.
Qed.

(** The entries of the accounts tree, in the order of the addresses. *)
Lemma Rep_iter_accounts db w : Rep db w ->
  Forall2 (fun item a => exists b, item = Ok (acc_address a, b) /\ from_slice b = Ok a)
    (tree_iter (accounts db)) (sorted_accounts (w_accounts w)).
Proof.
  intros (Hon & _ & Hacc). rewrite tree_iter_ok by apply (Hon Accounts).
  unfold sorted_accounts, sorted_entries. apply Forall2_fmap_l, Forall2_fmap_r.
  refine (list.Forall2_impl _ _ _ _ (sorted_keys (contents (accounts db)) (w_accounts w) _) _).
  - intros k. specialize (Hacc k). destruct (w_accounts w !! k).
    + destruct Hacc as (_ & b & -> & _). naive_solver.
    + rewrite Hacc. by split; intros [].
  - intros [k b] [k' a]. cbn. intros (<- & Hb & Ha). specialize (Hacc k). rewrite Ha in Hacc.
    destruct Hacc as ((Hk & _) & b' & Hb' & Hs). exists b. subst k. split; [done|]. congruence.
Qed.
End world.
