(* ===== verification/AccountStore.v ===== *)
(** * The account store (src/storage/account_store.rs)

    Every operation of the module on the [accounts] tree, the function on
    worlds each one implements, and the refinement theorem for any sequence of
    them.  [supply] is the sum of what the accounts hold. *)
From S2P Require Import Prelude Text Types Extern InMemory Db World.

Section account_store.
  Context `{Build} `{Sled} `{!Serde Account}.

Definition save_account (account : Account) : st KyveraDb string unit :=
  serialized ←? map_err (fun e => "Failed to serialize account: " +:+ e) (to_vec account);
  write Accounts (acc_address account) serialized.

Definition get_account (address : string) : st KyveraDb string (option Account) :=
  data ← read Accounts address;
  match data with
  | None => mret None
  | Some bytes =>
    account ←? map_err (fun e => "Failed to deserialize account: " +:+ e) (from_slice bytes);
    mret (Some account)
  end.

Definition get_or_create_account (address : string) : st KyveraDb string Account :=
  a ← get_account address;
  match a with Some account => mret account | None => mret (new_account address) end.

Definition get_balance (address : string) : st KyveraDb string Z :=
  a ← get_account address; mret (default 0 (acc_balance <$> a)).
Definition get_staked_balance (address : string) : st KyveraDb string Z :=
  a ← get_account address; mret (default 0 (acc_staked_balance <$> a)).
Definition get_nonce (address : string) : st KyveraDb string Z :=
  a ← get_account address; mret (default 0 (acc_nonce <$> a)).

Definition credit_account (address : string) (amount : Z) : st KyveraDb string unit :=
  account ← get_or_create_account address;
  balance ←? ok_or (checked_add_u64 (acc_balance account) amount)
    "Balance overflow — this should never happen";
  save_account (set_balance balance account).

Definition debit_account (address : string) (amount : Z) : st KyveraDb string unit :=
  account ← get_or_create_account address;
  if acc_balance account <? amount then
    st_fail ("Insufficient balance: " +:+ address +:+ " has " +:+ show_uint (acc_balance account)
      +:+ " but needs " +:+ show_uint amount)
  else
    balance ←? sub_u64 (acc_balance account) amount;
    save_account (set_balance balance account).

Definition increment_nonce (address : string) : st KyveraDb string unit :=
  account ← get_or_create_account address;
  nonce ←? add_u64 (acc_nonce account) 1;
  save_account (set_nonce nonce account).

Definition lock_stake (address : string) (amount : Z) : st KyveraDb string unit :=
  account ← get_or_create_account address;
  if acc_balance account <? amount then
    st_fail ("Insufficient balance to stake: has " +:+ show_uint (acc_balance account)
      +:+ " needs " +:+ show_uint amount)
  else
    balance ←? sub_u64 (acc_balance account) amount;
    staked ←? ok_or (checked_add_u64 (acc_staked_balance account) amount) "Staked balance overflow";
    save_account (update_validator_tier (set_staked_balance staked (set_balance balance account))).

Definition unlock_stake (address : string) (amount : Z) : st KyveraDb string unit :=
  account ← get_or_create_account address;
  if acc_staked_balance account <? amount then
    st_fail ("Insufficient staked balance: has " +:+ show_uint (acc_staked_balance account)
      +:+ " needs " +:+ show_uint amount)
  else
    staked ←? sub_u64 (acc_staked_balance account) amount;
    balance ←? ok_or (checked_add_u64 (acc_balance account) amount) "Balance overflow during unstake";
    save_account (update_validator_tier (set_balance balance (set_staked_balance staked account))).

(** One round of the loop of [get_validators]. *)
Definition validator_item (validators : list Account) (item : res string (string * string))
    : st KyveraDb string (list Account) :=
  kv ←? map_err (fun e => "Database iteration error: " +:+ e) item;
  account ←? map_err (fun e => "Failed to deserialize account: " +:+ e) (from_slice kv.2);
  mret (if is_validator account then validators ++ [account] else validators).
Definition get_validators : st KyveraDb string (list Account) :=
  items ← iter_tree Accounts; st_fold items [] validator_item.

Definition account_count (db : KyveraDb) : Z := count Accounts db.
End account_store.

(** ** What the operations do to a world *)

Definition credit_spec (address : string) (amount : Z) : st World string unit := fun w =>
  let a := account_at address w in
  match checked_add_u64 (acc_balance a) amount with
  | Some balance => (put_account (set_balance balance a) w, Ok tt)
  | None => (w, Err "Balance overflow — this should never happen")
  end.

Definition debit_spec (address : string) (amount : Z) : st World string unit := fun w =>
  let a := account_at address w in
  if acc_balance a <? amount then
    (w, Err ("Insufficient balance: " +:+ address +:+ " has " +:+ show_uint (acc_balance a)
      +:+ " but needs " +:+ show_uint amount))
  else (put_account (set_balance (acc_balance a - amount) a) w, Ok tt).

Definition increment_nonce_spec `{Build} (address : string) : st World string unit := fun w =>
  let a := account_at address w in
  match add_u64 (acc_nonce a) 1 with
  | Ok nonce => (put_account (set_nonce nonce a) w, Ok tt)
  | Err e => (w, Err e)
  | Panic => (w, Panic)
  end.

(** Moving [amount] from the spendable to the staked balance and back. *)
Definition stake (amount : Z) (a : Account) : Account :=
  update_validator_tier
    (set_staked_balance (acc_staked_balance a + amount) (set_balance (acc_balance a - amount) a)).

Definition lock_spec (address : string) (amount : Z) : st World string unit := fun w =>
  let a := account_at address w in
  if acc_balance a <? amount then
    (w, Err ("Insufficient balance to stake: has " +:+ show_uint (acc_balance a)
      +:+ " needs " +:+ show_uint amount))
  else if acc_staked_balance a + amount <=? u64_max then (put_account (stake amount a) w, Ok tt)
  else (w, Err "Staked balance overflow").

Definition unlock_spec (address : string) (amount : Z) : st World string unit := fun w =>
  let a := account_at address w in
  if acc_staked_balance a <? amount then
    (w, Err ("Insufficient staked balance: has " +:+ show_uint (acc_staked_balance a)
      +:+ " needs " +:+ show_uint amount))
  else if acc_balance a + amount <=? u64_max then (put_account (stake (- amount) a) w, Ok tt)
  else (w, Err "Balance overflow during unstake").

(** Every account holds the tier its stake qualifies for. *)
Definition tiers_consistent (w : World) : Prop :=
  forall k a, w_accounts w !! k = Some a -> tier_consistent a.

Lemma account_at_tier addr w : tiers_consistent w -> tier_consistent (account_at addr w).
Proof.
  intros Hw. unfold account_at. destruct (w_accounts w !! addr) as [a|] eqn:Ha; cbn; [by eapply Hw|done].
Qed.
Lemma put_account_tiers a w :
  tiers_consistent w -> tier_consistent a -> tiers_consistent (put_account a w).
Proof.
  intros Hw Ha k b. cbn. rewrite lookup_insert. case_decide; [by intros [= <-]|apply Hw].
Qed.

Section rules.
  Context `{Build} `{SledLaws} `{!Serde Account} `{!SerdeLaws Account}.

Lemma wp_get_account address w Q :
  Q (Ok (w_accounts w !! address)) w -> wp (get_account address) w Q.
Proof.
  intros HQ db Hdb. exists w. destruct Hdb as (Hon & Hraw & Hacc).
  unfold get_account, read, mbind, st_bind. cbn. rewrite (tree_get_ok _ _ (Hon Accounts)). cbn.
  specialize (Hacc address) as Ha. destruct (w_accounts w !! address) as [a|].
  - destruct Ha as (_ & b & Hb & Hs). change (get_tree Accounts db) with (accounts db).
    rewrite Hb. unfold st_lift. rewrite Hs. done.
  - change (get_tree Accounts db) with (accounts db). rewrite Ha. done.
Qed.

Lemma wp_save_account a w (Q : res string unit -> World -> Prop) :
  account_wf a -> Q (Ok tt) (put_account a w) -> wp (save_account a) w Q.
Proof.
  intros Hwf HQ db (Hon & Hraw & Hacc). exists (put_account a w).
  unfold save_account, mbind, st_bind, st_lift. destruct (to_vec_total a) as [b Hb].
  rewrite Hb. cbn. unfold write.
  pose proof (tree_insert_result (get_tree Accounts db) (acc_address a) b (Hon Accounts)) as Hr.
  pose proof (tree_insert_contents (get_tree Accounts db) (acc_address a) b (Hon Accounts)) as Hc.
  pose proof (tree_insert_online (get_tree Accounts db) (acc_address a) b (Hon Accounts)) as Ho.
  destruct (tree_insert _ _ _) as [t r]. cbn in *. subst r. split; [|done]. split_and!.
  - intros n. destruct (decide (n = Accounts)) as [->|]; [by rewrite get_set_tree|].
    by rewrite get_set_tree_ne.
  - intros n Hn. rewrite get_set_tree_ne by done. rewrite Hraw by done. by destruct n.
  - change (accounts (set_tree Accounts t db)) with (get_tree Accounts (set_tree Accounts t db)).
    rewrite get_set_tree, Hc. intros k. cbn. rewrite !lookup_insert.
    destruct (decide (acc_address a = k)) as [Hk|Hk].
    + split; [done|]. exists b. split; [done|]. by apply from_to_vec.
    + apply Hacc.
Qed.

Lemma wp_get_or_create_account address w Q :
  Q (Ok (account_at address w)) w -> wp (get_or_create_account address) w Q.
Proof.
  intros HQ. apply wp_bind, wp_get_account. unfold account_at in HQ.
  by destruct (w_accounts w !! address); apply wp_ret.
Qed.

(** The rules of the operations, as refinements of their specifications. *)
Lemma credit_account_refines address amount :
  is_u64 amount -> refines (credit_account address amount) (credit_spec address amount).
Proof.
  intros Hn w. apply wp_valid. intros Hw.
  destruct (account_at_valid address w Hw) as (_ & Hb & Hwf).
  apply wp_bind, wp_get_or_create_account. unfold credit_spec.
  destruct (checked_add_u64 _ _) as [b|] eqn:Hc; apply wp_bind, wp_lift; [|done].
  apply checked_add_Some in Hc as [-> Hc]. apply wp_save_account; [|done].
  unfold account_wf, is_u64 in *. cbn. intuition lia.
Qed.

Lemma debit_account_refines address amount :
  is_u64 amount -> refines (debit_account address amount) (debit_spec address amount).
Proof.
  intros Hn w. apply wp_valid. intros Hw.
  destruct (account_at_valid address w Hw) as (_ & Hb & Hwf). unfold is_u64 in *.
  apply wp_bind, wp_get_or_create_account. unfold debit_spec.
  destruct (Z.ltb_spec (acc_balance (account_at address w)) amount); [by apply wp_fail|].
  apply wp_bind, wp_lift. rewrite sub_u64_ok by lia.
  apply wp_save_account; [|done]. unfold account_wf, is_u64 in *. cbn. intuition lia.
Qed.

Lemma increment_nonce_refines address :
  refines (increment_nonce address) (increment_nonce_spec address).
Proof.
  intros w. apply wp_valid. intros Hw.
  destruct (account_at_valid address w Hw) as (_ & Hb & Hs & Hwf).
  apply wp_bind, wp_get_or_create_account. unfold increment_nonce_spec.
  apply wp_bind, wp_lift. destruct (add_u64 _ _) as [n| |] eqn:Ha; [|done..].
  apply unsigned_inv in Ha; [|done].
  apply wp_save_account; [|done]. unfold account_wf, is_u64 in *. cbn. intuition lia.
Qed.

Lemma lock_stake_refines address amount :
  is_u64 amount -> refines (lock_stake address amount) (lock_spec address amount).
Proof.
  intros Hn w. apply wp_valid. intros Hw.
  destruct (account_at_valid address w Hw) as (_ & Hb & Hs & Hwf). unfold is_u64 in *.
  apply wp_bind, wp_get_or_create_account. unfold lock_spec.
  destruct (Z.ltb_spec (acc_balance (account_at address w)) amount); [by apply wp_fail|].
  apply wp_bind, wp_lift. rewrite sub_u64_ok by lia. unfold checked_add_u64.
  destruct (Z.leb_spec (acc_staked_balance (account_at address w) + amount) u64_max);
    apply wp_bind, wp_lift; [|done].
  apply wp_save_account; [|done]. unfold account_wf, is_u64 in *. cbn. intuition lia.
Qed.

Lemma unlock_stake_refines address amount :
  is_u64 amount -> refines (unlock_stake address amount) (unlock_spec address amount).
Proof.
  intros Hn w. apply wp_valid. intros Hw.
  destruct (account_at_valid address w Hw) as (_ & Hb & Hs & Hwf). unfold is_u64 in *.
  apply wp_bind, wp_get_or_create_account. unfold unlock_spec.
  destruct (Z.ltb_spec (acc_staked_balance (account_at address w)) amount); [by apply wp_fail|].
  apply wp_bind, wp_lift. rewrite sub_u64_ok by lia. unfold checked_add_u64.
  destruct (Z.leb_spec (acc_balance (account_at address w) + amount) u64_max);
    apply wp_bind, wp_lift; [|done].
  apply wp_save_account; [|unfold stake; cbn].
  - unfold account_wf, is_u64 in *. cbn. intuition lia.
  - by rewrite Z.sub_opp_r.
Qed.
End rules.

Section queries.
Context `{Build} `{SledLaws} `{!Serde Account} `{!SerdeLaws Account}.

Lemma validator_fold items l acc db :
  Forall2 (fun item a => exists b, item = Ok (acc_address a, b) /\ from_slice b = Ok a) items l ->
  st_fold items acc validator_item db = (db, Ok (acc ++ filter (fun a => is_validator a = true) l)).
Proof.
  intros Hl. revert acc. induction Hl as [|item a items l (b & -> & Hb) Hl IH]; intros acc.
  - cbn. unfold mret, st_ret. by rewrite app_nil_r.
  - rewrite filter_cons. cbn [st_fold]. unfold mbind at 1, st_bind, validator_item.
    unfold st_lift, mbind, st_bind. cbn -[filter]. rewrite Hb. cbn -[filter]. rewrite IH.
    destruct (is_validator a); cbn -[filter]; [|done]. by rewrite <-app_assoc.
Qed.

(** The validators are the accounts with a tier, in the order of their
    addresses. *)
Lemma get_validators_run db w : Rep db w ->
  get_validators db = (db, Ok (filter (fun a => is_validator a = true) (sorted_accounts (w_accounts w)))).
Proof.
  intros Hdb. unfold get_validators, iter_tree, st_gets, mbind, st_bind.
  by rewrite (validator_fold _ _ _ _ (Rep_iter_accounts db w Hdb)).
Qed.

Lemma get_balance_refines address :
  refines (get_balance address) (fun w => (w, Ok (acc_balance (account_at address w)))).
Proof.
  intros w. apply wp_bind, wp_get_account, wp_ret. unfold account_at.
  by destruct (w_accounts w !! address).
Qed.
Lemma get_staked_balance_refines address :
  refines (get_staked_balance address) (fun w => (w, Ok (acc_staked_balance (account_at address w)))).
Proof.
  intros w. apply wp_bind, wp_get_account, wp_ret. unfold account_at.
  by destruct (w_accounts w !! address).
Qed.
Lemma get_nonce_refines address :
  refines (get_nonce address) (fun w => (w, Ok (acc_nonce (account_at address w)))).
Proof.
  intros w. apply wp_bind, wp_get_account, wp_ret. unfold account_at.
  by destruct (w_accounts w !! address).
Qed.
End queries.

(** ** Successful credits *)

Definition credit (addr : string) (n : Z) (w : World) : World :=
  put_account (set_balance (acc_balance (account_at addr w) + n) (account_at addr w)) w.
Definition credits (l : list (string * Z)) (w : World) : World :=
  foldl (fun w x => credit x.1 x.2 w) w l.
(** What the credits [l] give to an address. *)
Definition credited_to (addr : string) (l : list (string * Z)) : Z :=
  sumZ (map (fun x => if decide (x.1 = addr) then x.2 else 0) l).

Lemma credit_facts addr n w :
  valid w -> 0 <= n -> supply w + n <= u64_max ->
  valid (credit addr n w) /\ supply (credit addr n w) = supply w + n /\
  (forall x, acc_balance (account_at x (credit addr n w)) =
    acc_balance (account_at x w) + if decide (addr = x) then n else 0) /\
  (forall x, acc_staked_balance (account_at x (credit addr n w)) = acc_staked_balance (account_at x w)) /\
  (tiers_consistent w -> tiers_consistent (credit addr n w)) /\
  w_metadata (credit addr n w) = w_metadata w.
Proof.
  intros Hw Hn Hs. destruct (account_at_valid addr w Hw) as (Ha & Hwf). unfold credit.
  pose proof (holdings_le_supply addr w Hw). unfold holdings, account_wf, is_u64 in *. split_and!.
  - apply put_account_valid; [done|]. unfold account_wf, is_u64. cbn. lia.
  - rewrite supply_put. unfold holdings. cbn. rewrite Ha. lia.
  - intros x. rewrite account_at_put. cbn. rewrite Ha. case_decide; subst; cbn; lia.
  - intros x. rewrite account_at_put. cbn. rewrite Ha. by case_decide; subst.
  - intros Ht. apply put_account_tiers; [done|]. exact (account_at_tier addr w Ht).
  - by destruct w.
Qed.

Lemma credits_facts l w :
  valid w -> Forall (fun x => 0 <= x.2) l -> supply w + sumZ l.*2 <= u64_max ->
  valid (credits l w) /\ supply (credits l w) = supply w + sumZ l.*2 /\
  (forall x, acc_balance (account_at x (credits l w)) = acc_balance (account_at x w) + credited_to x l) /\
  (forall x, acc_staked_balance (account_at x (credits l w)) = acc_staked_balance (account_at x w)) /\
  (tiers_consistent w -> tiers_consistent (credits l w)) /\
  w_metadata (credits l w) = w_metadata w.
Proof.
  intros Hw Hl. revert w Hw. induction Hl as [|[addr n] l Hp Hl IH]; intros w Hw Hs.
  { unfold credited_to. cbn. split_and!; try done; intros; lia. }
  assert (0 <= sumZ l.*2) by by apply sumZ_nonneg, Forall_fmap. cbn [fmap list_fmap snd sumZ] in *.
  destruct (credit_facts addr n w) as (Hv & Hsu & Hb & Hst & Ht & Hm); [done|lia|lia|].
  destruct (IH (credit addr n w)) as (Hv' & Hsu' & Hb' & Hst' & Ht' & Hm'); [done|lia|].
  change (credits ((addr, n) :: l) w) with (credits l (credit addr n w)).
  split_and!; [done|lia| | |auto|congruence].
  - intros x. rewrite Hb', Hb. unfold credited_to. cbn. lia.
  - intros x. by rewrite Hst', Hst.
Qed.

(** ** Sequences of operations *)

Inductive ledger_op :=
| Credit (address : string) (amount : Z)
| Debit (address : string) (amount : Z)
| Lock (address : string) (amount : Z)
| Unlock (address : string) (amount : Z)
| Increment (address : string).

Definition ledger_op_wf (op : ledger_op) : Prop :=
  match op with
  | Credit _ n | Debit _ n | Lock _ n | Unlock _ n => is_u64 n
  | Increment _ => True
  end.
Definition ledger_run `{Build} `{Sled} `{!Serde Account} (op : ledger_op) : st KyveraDb string unit :=
  match op with
  | Credit a n => credit_account a n
  | Debit a n => debit_account a n
  | Lock a n => lock_stake a n
  | Unlock a n => unlock_stake a n
  | Increment a => increment_nonce a
  end.
Definition ledger_spec `{Build} (op : ledger_op) : st World string unit :=
  match op with
  | Credit a n => credit_spec a n
  | Debit a n => debit_spec a n
  | Lock a n => lock_spec a n
  | Unlock a n => unlock_spec a n
  | Increment a => increment_nonce_spec a
  end.
(** Every operation is run whatever the outcome of the ones before it. *)
Fixpoint outcomes {S} (f : ledger_op -> st S string unit) (ops : list ledger_op) (s : S)
    : S * list (res string unit) :=
  match ops with
  | [] => (s, [])
  | op :: ops => let '(s, r) := f op s in let '(s, rs) := outcomes f ops s in (s, r :: rs)
  end.
(** What an operation with outcome [r] adds to the supply. *)
Definition minted (op : ledger_op) (r : res string unit) : Z :=
  match op, r with
  | Credit _ n, Ok _ => n
  | Debit _ n, Ok _ => - n
  | _, _ => 0
  end.

Lemma ledger_refines `{Build} `{SledLaws} `{!Serde Account} `{!SerdeLaws Account} op :
  ledger_op_wf op -> refines (ledger_run op) (ledger_spec op).
Proof.
  destruct op; cbn; auto using credit_account_refines, debit_account_refines,
    lock_stake_refines, unlock_stake_refines, increment_nonce_refines.
Qed.

(** The shape of a step: it changes at most the account of one address, keeps
    its tier right, and moves the supply by what it mints. *)
Lemma ledger_spec_step `{Build} op w :
  valid w -> tiers_consistent w ->
  let '(w', r) := ledger_spec op w in
  tiers_consistent w' /\ supply w' = supply w + minted op r.
Proof.
  intros Hw Ht.
  assert (forall addr a, acc_address a = acc_address (account_at addr w) -> tier_consistent a ->
    tiers_consistent (put_account a w) /\
    supply (put_account a w) = supply w + (holdings a - holdings (account_at addr w))) as Hput.
  { intros addr a Ha Hta. split; [by apply put_account_tiers|].
    rewrite supply_put, Ha. destruct (account_at_valid addr w Hw) as [-> _]. lia. }
  unfold tier_consistent in Hput.
  destruct op as [addr n|addr n|addr n|addr n|addr]; cbn;
    unfold credit_spec, debit_spec, lock_spec, unlock_spec, increment_nonce_spec;
    pose proof (account_at_tier addr w Ht) as Hta; repeat case_match; simplify_eq/=; try (split; [done|lia]);
    (edestruct (Hput addr) as [Htc Hsu]; [| |split; [exact Htc|rewrite Hsu]]; try done);
    unfold holdings; cbn; try lia.
  match goal with Hc : checked_add_u64 _ _ = _ |- _ => apply checked_add_Some in Hc as [-> _] end. lia.
Qed.

Section credit_rule.
Context `{Build} `{SledLaws} `{!Serde Account} `{!SerdeLaws Account}.

(** A credit that keeps the supply within 64 bits succeeds. *)
Lemma wp_credit addr n w (Q : res string unit -> World -> Prop) :
  is_u64 n -> supply w + n <= u64_max -> Q (Ok tt) (credit addr n w) ->
  wp (credit_account addr n) w Q.
Proof.
  intros Hn Hs HQ. apply wp_valid. intros Hw. eapply wp_refines; [by apply credit_account_refines|].
  destruct (account_at_valid addr w Hw) as (_ & Hb & Hst & _).
  pose proof (holdings_le_supply addr w Hw). unfold credit_spec, checked_add_u64, holdings, is_u64 in *.
  by rewrite (proj2 (Z.leb_le _ u64_max)) by lia.
Qed.
End credit_rule.

Section ledger_properties.
Context `{Build} `{SledLaws} `{!Serde Account} `{!SerdeLaws Account}.

(** C12: any sequence of credits, debits, stake locks and unlocks and nonce
    increments, failed ones included, has the outcomes and the final accounts
    that its specification gives; every account keeps the tier its stake
    qualifies for, and the supply moves by exactly what the successful credits
    and debits add and remove. *)
Theorem ledger_sequence ops db w :
  Rep db w -> tiers_consistent w -> Forall ledger_op_wf ops ->
  let '(db', rs) := outcomes ledger_run ops db in
  exists w', outcomes ledger_spec ops w = (w', rs) /\ Rep db' w' /\ tiers_consistent w' /\
    supply w' = supply w + sumZ (zip_with minted ops rs).
Proof.
  intros Hdb Ht Hops. revert db w Hdb Ht.
  induction Hops as [|op ops Hop _ IH]; intros db w Hdb Ht; cbn [outcomes].
  { exists w. cbn. split_and!; [done..|lia]. }
  pose proof (ledger_spec_step op w (Rep_valid _ _ Hdb) Ht) as Hstep.
  destruct (ledger_refines op Hop w db Hdb) as (w1 & Hdb1 & He). rewrite <-He in *.
  destruct Hstep as [Ht1 Hs1]. destruct (ledger_run op db) as [db1 r]. cbn in *.
  specialize (IH db1 w1 Hdb1 Ht1). destruct (outcomes ledger_run ops db1) as [db' rs].
  destruct IH as (w' & -> & ? & ? & Hs). exists w'. cbn. split_and!; [done..|]. lia.
Qed.

(** [get_validators] answers, without error, exactly the accounts that hold
    a tier, in the order of their addresses. *)
Theorem get_validators_exact db w :
  Rep db w -> tiers_consistent w ->
  get_validators db = (db, Ok (filter (fun a => is_validator a = true) (sorted_accounts (w_accounts w)))) /\
  forall a, a ∈ filter (fun a => is_validator a = true) (sorted_accounts (w_accounts w)) <->
    w_accounts w !! acc_address a = Some a /\ minimum_stake Igniter <= acc_staked_balance a.
Proof.
  intros Hdb Ht. split; [by apply get_validators_run|].
  intros a. rewrite list_elem_of_filter, elem_of_sorted_accounts by by eapply Rep_valid.
  unfold is_validator. pose proof (from_staked_balance_None (acc_staked_balance a)) as Hn.
  split.
  - intros [Hv Ha]. split; [done|]. rewrite (Ht _ _ Ha) in Hv.
    destruct (from_staked_balance _); [|done].
    destruct (Z.lt_ge_cases (acc_staked_balance a) (minimum_stake Igniter)); naive_solver lia.
  - intros [Ha Hs]. split; [|done]. rewrite (Ht _ _ Ha).
    destruct (from_staked_balance _); [done|]. destruct Hn as [Hn _]. specialize (Hn eq_refl). lia.
Qed.
End ledger_properties.

(** ** In-memory databases holding given accounts *)

Module MemWorld.
Import Mem.

Definition mem_db : KyveraDb := mkKyveraDb tt (∅ : gmap string string) (∅ : gmap string string)
  (∅ : gmap string string) (∅ : gmap string string) (∅ : gmap string string).
Definition db_with (l : list Account) : KyveraDb := foldr (fun a db => (save_account a db).1) mem_db l.
Definition world_with (l : list Account) : World := foldr put_account empty_world l.
Definition funded (addr : string) (balance staked nonce : Z) : Account :=
  mkAccount addr balance staked nonce (from_staked_balance staked) false 0.

Lemma mem_db_Rep : Rep mem_db empty_world.
Proof. split_and!; [done|by intros []|]. intros k. cbn. by rewrite !lookup_empty. Qed.
Lemma db_with_Rep l : Forall account_wf l -> Rep (db_with l) (world_with l).
Proof.
  induction 1 as [|a l Ha _ IH]; cbn [db_with world_with foldr]; [apply mem_db_Rep|].
  destruct (wp_save_account a (world_with l) (fun _ w' => w' = put_account a (world_with l)) Ha
    eq_refl _ IH) as (w' & Hw & ->). exact Hw.
Qed.
Lemma world_with_tiers l : Forall tier_consistent l -> tiers_consistent (world_with l).
Proof.
  induction 1 as [|a l Ha _ IH]; cbn [world_with foldr]; [intros k a; cbn; by rewrite lookup_empty|].
  by apply put_account_tiers.
Qed.
End MemWorld.

Module AccountStoreWitness.
Import Mem MemWorld.

Definition ops : list ledger_op :=
  [Credit "alice" 900000000000; Debit "alice" 900000000001; Lock "alice" 600000000000;
   Unlock "alice" 200000000000; Increment "alice"; Debit "alice" 100].
Lemma ledger_sequence_witness :
  let '(db', rs) := outcomes ledger_run ops (db_with [funded "bob" 7 0 0]) in
  exists w', outcomes ledger_spec ops (world_with [funded "bob" 7 0 0]) = (w', rs) /\ Rep db' w' /\
    tiers_consistent w' /\
    supply w' = supply (world_with [funded "bob" 7 0 0]) + sumZ (zip_with minted ops rs).
Proof.
  apply (ledger_sequence ops (db_with [funded "bob" 7 0 0]) (world_with [funded "bob" 7 0 0])).
  - apply db_with_Rep. by repeat constructor.
  - apply world_with_tiers. by repeat constructor.
  - by repeat constructor.
Defined.

Lemma get_validators_exact_witness :
  let l := [funded "val" 0 600000000000 0; funded "bob" 7 0 0] in
  let v := filter (fun a => is_validator a = true) (sorted_accounts (w_accounts (world_with l))) in
  get_validators (db_with l) = (db_with l, Ok v) /\
  forall a, a ∈ v <->
    w_accounts (world_with l) !! acc_address a = Some a /\
    minimum_stake Igniter <= acc_staked_balance a.
Proof.
  intros l v. apply (get_validators_exact (db_with l) (world_with l)).
  - apply db_with_Rep. by repeat constructor.
  - apply world_with_tiers. by repeat constructor.
Defined.
End AccountStoreWitness.
