(* ===== verification/TxStore.v ===== *)
(** * The transaction store (src/storage/tx_store.rs)

    Every function of the module.  A transaction is stored under its hash, and
    its hash is stored again under a key made of the sender and the zero-padded
    nonce.  [tx_index txs m] says that the tree [m] is what saving [txs] leaves;
    the theorems say what the queries answer from it. *)
From S2P Require Import Prelude Text Types Extern InMemory Db World.

Definition SENDER_PREFIX : string := "sender:".
Definition sender_key (sender : string) (nonce : Z) : string :=
  SENDER_PREFIX +:+ sender +:+ ":" +:+ show_padded 20 nonce.

Section tx_store.
Context `{Sled} `{!Serde Transaction}.

Definition save_transaction (tx : Transaction) : st KyveraDb string unit :=
  if is_empty (tx_hash tx) then st_fail "Cannot save transaction with empty hash"
  else
    serialized ←? map_err (fun e => "Failed to serialize transaction: " +:+ e) (to_vec tx);
    write Transactions (tx_hash tx) serialized;;
    write Transactions (sender_key (tx_sender tx) (tx_nonce tx)) (tx_hash tx).

Definition get_transaction (hash : string) : st KyveraDb string (option Transaction) :=
  data ← read Transactions hash;
  match data with
  | None => mret None
  | Some bytes =>
    tx ←? map_err (fun e => "Failed to deserialize transaction: " +:+ e) (from_slice bytes);
    mret (Some tx)
  end.

Definition transaction_exists (hash : string) : st KyveraDb string bool := exists_ Transactions hash.

(** One round of the loop of [get_transactions_by_sender]. *)
Definition sender_item (hashes : list string) (item : res string (string * string))
    : st KyveraDb string (list string) :=
  kv ←? map_err (fun e => "Scan error: " +:+ e) item;
  hash ←? map_err (fun e => "Invalid hash bytes: " +:+ e) (from_utf8 kv.2);
  mret (hashes ++ [hash]).
Definition get_transactions_by_sender (address : string) : st KyveraDb string (list string) :=
  items ← scan_tree Transactions (SENDER_PREFIX +:+ address);
  st_fold items [] sender_item.

Definition recent_item (transactions : list Transaction) (hash : string)
    : st KyveraDb string (list Transaction) :=
  tx ← get_transaction hash;
  mret (match tx with Some tx => transactions ++ [tx] | None => transactions end).
Definition get_recent_transactions_by_sender (address : string) (limit : nat)
    : st KyveraDb string (list Transaction) :=
  hashes ← get_transactions_by_sender address;
  st_fold (take limit (reverse hashes)) [] recent_item.

Definition is_primary (item : res string (string * string)) : bool :=
  match item with
  | Ok (k, _) => negb (starts_with SENDER_PREFIX (from_utf8_lossy k))
  | _ => false
  end.
Definition transaction_count (db : KyveraDb) : Z :=
  Z.of_nat (length (filter (fun r => is_primary r = true)
    (tree_scan_prefix (get_tree Transactions db) ""))).

Definition save_block_transactions (txs : list Transaction) : st KyveraDb string unit :=
  st_for txs save_transaction.
End tx_store.

(** ** Keys *)

Lemma sender_key_prefix a n : starts_with SENDER_PREFIX (sender_key a n) = true.
Proof. unfold sender_key. apply starts_with_app. Qed.
Lemma sender_key_inj a n a' n' :
  is_u64 n -> is_u64 n' -> sender_key a n = sender_key a' n' -> a = a' /\ n = n'.
Proof.
  unfold is_u64, u64_max, sender_key. intros Hn Hn' He%str_app_inj_l.
  apply str_app_inj_r in He as [-> He%str_app_inj_l].
  - split; [done|]. apply (show_padded_inj 20) in He; [done|lia..].
  - rewrite !str_app_cons, !str_app_nil_l. cbn [String.length].
    by rewrite !show_padded_length by lia.
Qed.
Lemma str_compare_app p a b : String.compare (p +:+ a) (p +:+ b) = String.compare a b.
Proof.
  induction p as [|c p IH]; [done|]. rewrite !str_app_cons. cbn. unfold Ascii.compare.
  by rewrite N.compare_refl.
Qed.
Lemma sender_key_le a n n' :
  is_u64 n -> is_u64 n' -> str_le (sender_key a n) (sender_key a n') <-> n <= n'.
Proof.
  unfold is_u64, u64_max, sender_key. intros. rewrite str_le_compare, !str_compare_app.
  rewrite (show_padded_compare 20) by lia. done.
Qed.

(** ** What a history of saved transactions leaves in the tree *)

(** A transaction the chain stores: a hash that is text, not empty, and no
    index key. *)
Definition tx_storable (tx : Transaction) : Prop :=
  tx_hash tx <> "" /\ utf8_valid (tx_hash tx) = true /\
  starts_with SENDER_PREFIX (tx_hash tx) = false /\ is_u64 (tx_nonce tx).
Definition sender_nonce (tx : Transaction) : string * Z := (tx_sender tx, tx_nonce tx).
(** No two transactions share a hash, or a sender and a nonce. *)
Definition tx_distinct (txs : list Transaction) : Prop :=
  NoDup (tx_hash <$> txs) /\ NoDup (sender_nonce <$> txs).

Definition tx_index `{!Serde Transaction} (txs : list Transaction) (m : gmap string string) : Prop :=
  forall k v, m !! k = Some v <->
    (exists tx, tx ∈ txs /\ k = tx_hash tx /\ to_vec tx = Ok v) \/
    (exists tx, tx ∈ txs /\ k = sender_key (tx_sender tx) (tx_nonce tx) /\ v = tx_hash tx).

(** The transactions of a sender in the order of their nonces. *)
Definition nonce_le (x y : Transaction) : Prop := tx_nonce x <= tx_nonce y.
#[export] Instance nonce_le_dec x y : Decision (nonce_le x y).
Proof. unfold nonce_le. apply _. Defined.
#[export] Instance nonce_le_total : Total nonce_le.
Proof. intros x y. unfold nonce_le. lia. Qed.
#[export] Instance nonce_le_trans : Transitive nonce_le.
Proof. intros x y z. unfold nonce_le. lia. Qed.
Definition sent_by (address : string) (txs : list Transaction) : list Transaction :=
  merge_sort nonce_le (filter (fun tx => tx_sender tx = address) txs).

(** The transactions a scan for an address hits, in the order of their keys: those
    whose index key starts with the address, which are the sender's own and
    those of every longer address that extends it. *)
Definition index_entry (tx : Transaction) : string * Transaction := (sender_key (tx_sender tx) (tx_nonce tx), tx).
Definition scan_hit (address : string) (tx : Transaction) : Prop :=
  starts_with (SENDER_PREFIX +:+ address) (sender_key (tx_sender tx) (tx_nonce tx)) = true.
#[export] Instance scan_hit_dec address tx : Decision (scan_hit address tx).
Proof. unfold scan_hit. apply _. Defined.
Definition hits (address : string) (txs : list Transaction) : list Transaction :=
  (merge_sort key_le (index_entry <$> filter (scan_hit address) txs)).*2.

Lemma hits_entries address txs :
  index_entry <$> hits address txs = merge_sort key_le (index_entry <$> filter (scan_hit address) txs).
Proof.
  unfold hits. rewrite <-list_fmap_compose.
  assert (forall l : list (string * Transaction), (forall e, e ∈ l -> e = index_entry e.2) ->
    index_entry ∘ snd <$> l = l) as Hid.
  { induction l as [|e l IH]; intros Hl; [done|]. cbn. f_equal; [symmetry; apply Hl; by left|].
    apply IH. intros; apply Hl; by right. }
  apply Hid. intros e. rewrite merge_sort_Permutation. by intros (t & -> & _)%list_elem_of_fmap.
Qed.
Lemma hits_perm address txs : hits address txs ≡ₚ filter (scan_hit address) txs.
Proof. unfold hits. rewrite merge_sort_Permutation, <-list_fmap_compose. cbn. by rewrite list_fmap_id. Qed.
Lemma elem_of_hits address txs t : t ∈ hits address txs <-> scan_hit address t /\ t ∈ txs.
Proof. by rewrite hits_perm, list_elem_of_filter. Qed.
Lemma own_hit t : scan_hit (tx_sender t) t.
Proof. unfold scan_hit, sender_key. rewrite <-str_app_assoc. apply starts_with_app. Qed.
(** Among addresses of one length a scan hits the sender's own transactions. *)
Lemma same_length_hit address t :
  String.length (tx_sender t) = String.length address -> scan_hit address t <-> tx_sender t = address.
Proof.
  intros Hl. split; [|intros <-; apply own_hit]. intros [r Hr]%starts_with_spec. unfold sender_key in Hr.
  rewrite str_app_assoc in Hr. by apply str_app_inj_l, str_app_inj in Hr as [? _].
Qed.

Section index_facts.
Context `{!Serde Transaction} `{!SerdeLaws Transaction}.

Lemma tx_distinct_app txs tx :
  tx_distinct (txs ++ [tx]) ->
  tx_distinct txs /\ forall t, t ∈ txs ->
    tx_hash t <> tx_hash tx /\ sender_nonce t <> sender_nonce tx.
Proof.
  unfold tx_distinct. rewrite !fmap_app, !NoDup_app. cbn.
  intros [(H1 & H2 & _) (H3 & H4 & _)]. split; [done|]. intros t Ht. split; intros He.
  - apply (H2 (tx_hash t)); [by apply list_elem_of_fmap_2|rewrite He; by left].
  - apply (H4 (sender_nonce t)); [by apply list_elem_of_fmap_2|rewrite He; by left].
Qed.

Lemma tx_index_empty : tx_index [] ∅.
Proof. intros k v. rewrite lookup_empty. set_solver. Qed.

(** Saving one more transaction extends the index. *)
Lemma tx_index_save txs tx m b :
  tx_index txs m -> tx_distinct (txs ++ [tx]) -> Forall tx_storable (txs ++ [tx]) ->
  to_vec tx = Ok b ->
  tx_index (txs ++ [tx])
    (<[sender_key (tx_sender tx) (tx_nonce tx) := tx_hash tx]> (<[tx_hash tx := b]> m)).
Proof.
  intros Hm Hd Hs Hb k v. apply Forall_app in Hs as [Hs Htx]. rewrite Forall_singleton in Htx.
  apply tx_distinct_app in Hd as [_ Hd].
  assert (forall t a n, t ∈ txs ++ [tx] -> sender_key a n <> tx_hash t) as Hkh.
  { intros t a n Ht He. pose proof (sender_key_prefix a n) as Hpre. rewrite He in Hpre.
    apply elem_of_app in Ht as [Ht|Ht%list_elem_of_singleton]; [|subst t; destruct Htx as (_ & _ & ? & _); congruence].
    rewrite Forall_forall in Hs. destruct (Hs t Ht) as (_ & _ & ? & _). congruence. }
  destruct Htx as (_ & _ & Hp & Hn).
  rewrite !lookup_insert.
  destruct (decide (sender_key _ _ = k)) as [<-|Hk1]; [|destruct (decide (tx_hash tx = k)) as [<-|Hk2]].
  - split; [intros [= <-]; right; exists tx; set_solver|].
    intros [(t & Ht & He & _)|(t & Ht & He & ->)]; [by destruct (Hkh t _ _ Ht He)|].
    apply elem_of_app in Ht as [Ht|Ht]; [|by apply list_elem_of_singleton in Ht as ->].
    rewrite Forall_forall in Hs. destruct (Hs t Ht) as (_ & _ & _ & ?).
    apply sender_key_inj in He as [He1 He2]; [|done..]. destruct (Hd t Ht). unfold sender_nonce in *. congruence.
  - split; [intros [= <-]; left; exists tx; set_solver|].
    intros [(t & Ht & He & Hv)|(t & Ht & He & ->)]; [|destruct (Hkh tx _ _ ltac:(set_solver) (eq_sym He))].
    apply elem_of_app in Ht as [Ht|Ht]; [|apply list_elem_of_singleton in Ht as ->; congruence].
    by destruct (Hd t Ht).
  - rewrite (Hm k v). set_solver.
Qed.

Lemma tx_index_get txs m t :
  tx_index txs m -> t ∈ txs -> exists b, m !! tx_hash t = Some b /\ from_slice b = Ok t.
Proof.
  intros Hm Ht. destruct (to_vec_total t) as [b Hb]. exists b. split; [|by apply from_to_vec].
  apply Hm. left. eauto.
Qed.

(** No two transactions have one index key. *)
Lemma index_key_inj txs t u :
  tx_distinct txs -> Forall tx_storable txs -> t ∈ txs -> u ∈ txs ->
  sender_key (tx_sender t) (tx_nonce t) = sender_key (tx_sender u) (tx_nonce u) -> t = u.
Proof.
  intros [_ Hd] Hs Ht Hu He. rewrite Forall_forall in Hs. destruct (Hs t Ht) as (_ & _ & _ & ?), (Hs u Hu) as (_ & _ & _ & ?).
  apply sender_key_inj in He as [? ?]; [|done..]. apply (NoDup_fmap_eq _ txs _ _ Hd Ht Hu). unfold sender_nonce. congruence.
Qed.
Lemma hits_NoDup address txs : tx_distinct txs -> NoDup (hits address txs).
Proof. intros [_ Hd]. rewrite hits_perm. apply NoDup_filter. by eapply NoDup_fmap_1. Qed.

(** The entries a scan for an address finds. *)
Lemma tx_index_scan txs m address :
  tx_index txs m -> tx_distinct txs -> Forall tx_storable txs ->
  filter (fun kv => starts_with (SENDER_PREFIX +:+ address) kv.1 = true) (sorted_entries m) =
  (fun t => (sender_key (tx_sender t) (tx_nonce t), tx_hash t)) <$> hits address txs.
Proof.
  intros Hm Hd Hs. apply sorted_entries_unique.
  - apply Sorted_filter; [apply _|apply sorted_entries_sorted].
  - change (fun t => (sender_key (tx_sender t) (tx_nonce t), tx_hash t)) with
      ((fun e : string * Transaction => (e.1, tx_hash e.2)) ∘ index_entry).
    rewrite list_fmap_compose, hits_entries. apply (Sorted_fmap_on key_le); [done|apply Sorted_merge_sort, _].
  - apply NoDup_fmap_fst; [|apply NoDup_filter; eapply NoDup_fmap_1, sorted_entries_NoDup].
    intros k v1 v2 [_ H1%elem_of_sorted_entries]%list_elem_of_filter
      [_ H2%elem_of_sorted_entries]%list_elem_of_filter. congruence.
  - apply NoDup_Permutation.
    + apply NoDup_filter. eapply NoDup_fmap_1, sorted_entries_NoDup.
    + apply NoDup_fmap_2_strong; [|by apply hits_NoDup].
      intros t u [_ Ht]%elem_of_hits [_ Hu]%elem_of_hits He%(f_equal fst). by apply (index_key_inj txs).
    + intros [k v]. rewrite list_elem_of_filter, elem_of_sorted_entries, list_elem_of_fmap. cbn.
      rewrite (Hm k v). split.
      * intros [Hp [(t & Ht & -> & _)|(t & Ht & -> & ->)]]; [|exists t; split; [done|]; by apply elem_of_hits].
        rewrite Forall_forall in Hs. destruct (Hs t Ht) as (_ & _ & Hn & _). apply starts_with_spec in Hp as [r Hr].
        rewrite Hr, str_app_assoc, starts_with_app in Hn. done.
      * intros (t & [= -> ->] & [Hh Ht]%elem_of_hits). split; [exact Hh|right; by exists t].
Qed.

(** Where all senders have the length of the address, the hits are the sender's
    transactions in the order of their nonces. *)
Lemma hits_sent_by txs address :
  tx_distinct txs -> Forall tx_storable txs ->
  (forall t, t ∈ txs -> String.length (tx_sender t) = String.length address) ->
  hits address txs = sent_by address txs.
Proof.
  intros Hd Hs Hl. assert (forall t, t ∈ sent_by address txs <-> tx_sender t = address /\ t ∈ txs) as Hin.
  { intros t. unfold sent_by. by rewrite merge_sort_Permutation, list_elem_of_filter. }
  assert (index_entry <$> hits address txs = index_entry <$> sent_by address txs) as He.
  2: { apply (f_equal (fmap snd)) in He. rewrite <-!list_fmap_compose in He. by rewrite !list_fmap_id in He. }
  assert (sent_by address txs ≡ₚ hits address txs) as Hp.
  { apply NoDup_Permutation; [|by apply hits_NoDup|].
    - unfold sent_by. rewrite merge_sort_Permutation. apply NoDup_filter. destruct Hd as [_ Hd]. by eapply NoDup_fmap_1.
    - intros t. rewrite Hin, elem_of_hits. split; intros [? Ht]; (split; [|done]); by apply (same_length_hit _ _ (Hl t Ht)). }
  apply sorted_entries_unique; [rewrite hits_entries; apply Sorted_merge_sort, _| | |by rewrite Hp].
  - apply (Sorted_fmap_on nonce_le); [|apply Sorted_merge_sort, _].
    intros t u [Ht1 Ht]%Hin [Hu1 Hu]%Hin Hle. unfold key_le, index_entry. cbn [fst]. rewrite Ht1, Hu1.
    rewrite Forall_forall in Hs. destruct (Hs t Ht) as (_ & _ & _ & ?), (Hs u Hu) as (_ & _ & _ & ?).
    by apply sender_key_le.
  - rewrite <-list_fmap_compose. apply NoDup_fmap_2_strong; [|by apply hits_NoDup].
    intros t u [_ Ht]%elem_of_hits [_ Hu]%elem_of_hits Hk. by apply (index_key_inj txs).
Qed.

(** The number of entries under a hash. *)
Lemma tx_index_count txs m :
  tx_index txs m -> tx_distinct txs -> Forall tx_storable txs ->
  length (filter (fun kv => starts_with SENDER_PREFIX kv.1 = false) (sorted_entries m)) = length txs.
Proof.
  intros Hm [Hd _] Hs. rewrite Forall_forall in Hs.
  rewrite <-(length_fmap tx_hash txs), <-(length_fmap fst (filter _ _)). apply Permutation_length.
  apply NoDup_Permutation; [|done|].
  - apply NoDup_fmap_fst; [|apply NoDup_filter; eapply NoDup_fmap_1, sorted_entries_NoDup].
    intros k v1 v2 [_ H1%elem_of_sorted_entries]%list_elem_of_filter
      [_ H2%elem_of_sorted_entries]%list_elem_of_filter. congruence.
  - intros k. rewrite !list_elem_of_fmap. split.
    + intros ([k' v] & -> & [Hp Hk%elem_of_sorted_entries]%list_elem_of_filter). cbn in *.
      apply Hm in Hk as [(t & ? & -> & _)|(t & _ & -> & _)]; [by eauto|].
      by rewrite sender_key_prefix in Hp.
    + intros (t & -> & Ht). destruct (to_vec_total t) as [b Hb]. exists (tx_hash t, b).
      split; [done|]. apply list_elem_of_filter. split; [by destruct (Hs t Ht) as (_ & _ & ? & _)|].
      apply elem_of_sorted_entries, Hm. left. eauto.
Qed.
End index_facts.

Section tx_rules.
Context `{SledLaws} `{!Serde Account} `{!Serde Transaction} `{!SerdeLaws Transaction}.

Lemma wp_save_transaction txs tx w (Q : res string unit -> World -> Prop) :
  tx_index txs (w_transactions w) -> tx_distinct (txs ++ [tx]) -> Forall tx_storable (txs ++ [tx]) ->
  (forall m, tx_index (txs ++ [tx]) m -> Q (Ok tt) (set_raw Transactions m w)) ->
  wp (save_transaction tx) w Q.
Proof.
  intros Hm Hd Hs HQ. unfold save_transaction. destruct (to_vec_total tx) as [b Hb].
  assert (is_empty (tx_hash tx) = false) as ->.
  { apply Forall_app in Hs as [_ Hs]. rewrite Forall_singleton in Hs.
    destruct Hs as (Hn & _). by destruct (tx_hash tx). }
  apply wp_bind, wp_lift. rewrite Hb. cbn.
  apply wp_bind, wp_write; [done|]. apply wp_write; [done|].
  destruct w as [ac bh bt tr md]. cbn in *. apply HQ. by apply tx_index_save.
Qed.

Lemma wp_save_block_transactions txs0 txs w (Q : res string unit -> World -> Prop) :
  tx_index txs0 (w_transactions w) -> tx_distinct (txs0 ++ txs) -> Forall tx_storable (txs0 ++ txs) ->
  (forall m, tx_index (txs0 ++ txs) m -> Q (Ok tt) (set_raw Transactions m w)) ->
  wp (save_block_transactions txs) w Q.
Proof.
  unfold save_block_transactions.
  revert txs0 w Q. induction txs as [|tx txs IH]; intros txs0 w Q Hm Hd Hs HQ; cbn [st_for].
  - apply wp_ret. rewrite app_nil_r in HQ. specialize (HQ _ Hm). by destruct w.
  - assert (txs0 ++ tx :: txs = (txs0 ++ [tx]) ++ txs) as Ha by by rewrite <-app_assoc.
    rewrite Ha in Hd, Hs, HQ.
    assert (tx_distinct (txs0 ++ [tx])) as Hd1.
    { unfold tx_distinct in *. rewrite !fmap_app, !NoDup_app in *. tauto. }
    apply wp_bind. eapply (wp_save_transaction txs0); [done|done|by apply Forall_app in Hs as [? _]|].
    intros m Hm'. apply (IH (txs0 ++ [tx])); [by destruct w|done|done|].
    intros m' Hm''. specialize (HQ m' Hm''). by destruct w.
Qed.

Lemma wp_get_transaction txs t w Q :
  tx_index txs (w_transactions w) -> t ∈ txs -> Q (Ok (Some t)) w -> wp (get_transaction (tx_hash t)) w Q.
Proof.
  intros Hm Ht HQ. destruct (tx_index_get _ _ _ Hm Ht) as (b & Hb & Hs).
  apply wp_bind, wp_read; [done|]. cbn. rewrite Hb. apply wp_bind, wp_lift. rewrite Hs. by apply wp_ret.
Qed.

Lemma sender_fold txs acc w (Q : res string (list string) -> World -> Prop) :
  Forall tx_storable txs -> Q (Ok (acc ++ (tx_hash <$> txs))) w ->
  wp (st_fold (map Ok ((fun t => (sender_key (tx_sender t) (tx_nonce t), tx_hash t)) <$> txs)) acc
    sender_item) w Q.
Proof.
  intros Hs. revert acc. induction Hs as [|t txs (_ & Hu & _) Hs IH]; intros acc HQ; cbn [st_fold map fmap list_fmap].
  - apply wp_ret. cbn in HQ. by rewrite app_nil_r in HQ.
  - apply wp_bind. unfold sender_item. apply wp_bind, wp_lift. cbn.
    apply wp_bind, wp_lift. rewrite from_utf8_valid by done. cbn. apply wp_ret, IH.
    by rewrite <-app_assoc.
Qed.

Lemma wp_get_transactions_by_sender txs address w Q :
  tx_index txs (w_transactions w) -> tx_distinct txs -> Forall tx_storable txs ->
  Q (Ok (tx_hash <$> hits address txs)) w -> wp (get_transactions_by_sender address) w Q.
Proof.
  intros Hm Hd Hs HQ. apply wp_bind, wp_scan; [done|].
  cbn [w_raw]. rewrite (tx_index_scan txs) by done. apply sender_fold; [|done].
  rewrite Forall_forall in *. intros t [_ Ht]%elem_of_hits. auto.
Qed.

Lemma recent_fold txs ts acc w (Q : res string (list Transaction) -> World -> Prop) :
  tx_index txs (w_transactions w) -> (forall t, t ∈ ts -> t ∈ txs) -> Q (Ok (acc ++ ts)) w ->
  wp (st_fold (tx_hash <$> ts) acc recent_item) w Q.
Proof.
  intros Hm. revert acc. induction ts as [|t ts IH]; intros acc Hts HQ; cbn [st_fold fmap list_fmap].
  - apply wp_ret. by rewrite app_nil_r in HQ.
  - apply wp_bind, wp_bind. apply (wp_get_transaction txs); [done|apply Hts; by left|]. apply wp_ret.
    apply IH; [intros u Hu; apply Hts; by right|]. by rewrite <-app_assoc.
Qed.

Lemma transaction_count_run txs w db :
  Rep db w -> tx_index txs (w_transactions w) -> tx_distinct txs -> Forall tx_storable txs ->
  transaction_count db = Z.of_nat (length txs).
Proof.
  intros (Hon & Hraw & _) Hm Hd Hs. unfold transaction_count. f_equal.
  rewrite tree_scan_ok by apply Hon. rewrite Hraw by done. cbn [w_raw].
  rewrite <-(tx_index_count txs (w_transactions w)) by done.
  generalize (sorted_entries (w_transactions w)). induction l as [|[k v] l IH]; [done|].
  rewrite !filter_cons. rewrite decide_True by (unfold starts_with; by destruct k).
  cbn [map]. rewrite !filter_cons. cbn [is_primary fst].
  assert (starts_with SENDER_PREFIX (from_utf8_lossy k) = starts_with SENDER_PREFIX k) as ->
    by by apply starts_with_lossy.
  destruct (starts_with SENDER_PREFIX k); cbn [negb];
    repeat case_decide; try done; cbn [length]; congruence.
Qed.

(** Saving the transactions of a block after any history succeeds and leaves
    the index of the longer history: each transaction under its hash, its hash
    under its sender and nonce, and nothing else. *)
Theorem save_block_transactions_index txs0 txs w :
  tx_index txs0 (w_transactions w) -> tx_distinct (txs0 ++ txs) -> Forall tx_storable (txs0 ++ txs) ->
  wp (save_block_transactions txs) w (fun r w' =>
    r = Ok tt /\ tx_index (txs0 ++ txs) (w_transactions w') /\
    w' = set_raw Transactions (w_transactions w') w).
Proof.
  intros. apply (wp_save_block_transactions txs0); [done..|]. intros m Hm. by destruct w.
Qed.

(** C31: from the index of a history in which no two transactions share a hash, or
    a sender and a nonce, and no hash is empty or an index key: a transaction is
    read back by its hash; the hashes for an address are those of the
    transactions whose index key the scan hits, in key order; the recent ones
    are the last of these, newest first; and the count is the number of
    transactions, the index entries left out.  Where all senders have the length
    of the address, the hits are the sender's transactions in the order of their
    nonces; otherwise those of longer addresses that extend it are among them. *)
Theorem history_queries txs w address limit :
  tx_index txs (w_transactions w) -> tx_distinct txs -> Forall tx_storable txs ->
  (forall t, t ∈ txs -> wp (get_transaction (tx_hash t)) w (fun r w' => r = Ok (Some t) /\ w' = w)) /\
  wp (get_transactions_by_sender address) w (fun r w' =>
    r = Ok (tx_hash <$> hits address txs) /\ w' = w) /\
  wp (get_recent_transactions_by_sender address limit) w (fun r w' =>
    r = Ok (take limit (reverse (hits address txs))) /\ w' = w) /\
  (forall db, Rep db w -> transaction_count db = Z.of_nat (length txs)) /\
  (forall t, t ∈ hits address txs <-> scan_hit address t /\ t ∈ txs) /\
  ((forall t, t ∈ txs -> String.length (tx_sender t) = String.length address) ->
    hits address txs = sent_by address txs).
Proof.
  intros Hm Hd Hs. split_and!.
  - intros t Ht. apply (wp_get_transaction txs); auto.
  - apply (wp_get_transactions_by_sender txs); auto.
  - apply wp_bind, (wp_get_transactions_by_sender txs); [done..|].
    rewrite <-fmap_reverse, <-fmap_take. apply (recent_fold txs); [done| |auto].
    intros t Ht. apply (elem_of_hits address). rewrite <-elem_of_reverse.
    eapply subseteq_take, Ht.
  - intros db Hdb. by eapply transaction_count_run.
  - apply elem_of_hits.
  - by apply hits_sent_by.
Qed.
End tx_rules.

Module TxStoreWitness.
Import Mem.

Definition tx (hash sender : string) (nonce : Z) : Transaction :=
  mkTransaction hash sender "kyv1dave" 5 1 nonce "sig" 1700000000000 Transfer "".
Definition txs : list Transaction := [tx "h2" "alice" 10; tx "h1" "alice" 9; tx "h3" "carol" 0].
Definition after : World :=
  let put t m := <[sender_key (tx_sender t) (tx_nonce t) := tx_hash t]>
    (<[tx_hash t := match to_vec t with Ok b => b | _ => "" end]> m) in
  set_raw Transactions (put (tx "h3" "carol" 0) (put (tx "h1" "alice" 9) (put (tx "h2" "alice" 10) ∅)))
    empty_world.

Lemma txs_distinct : tx_distinct txs.
Proof. split; vm_compute; repeat constructor; set_solver. Qed.
Lemma txs_storable : Forall tx_storable txs.
Proof. repeat constructor; done. Qed.
Lemma after_index : tx_index txs (w_transactions after).
Proof.
  pose proof txs_distinct as Hd. pose proof txs_storable as Hs.
  apply (tx_index_save [tx "h2" "alice" 10; tx "h1" "alice" 9] (tx "h3" "carol" 0)); [|done..].
  apply (tx_index_save [tx "h2" "alice" 10] (tx "h1" "alice" 9));
    [|split; vm_compute; repeat constructor; set_solver|repeat constructor; done|done].
  apply (tx_index_save [] (tx "h2" "alice" 10));
    [apply tx_index_empty|split; vm_compute; repeat constructor; set_solver|repeat constructor; done|done].
Qed.

Lemma save_block_transactions_index_witness :
  wp (save_block_transactions txs) empty_world (fun r w' =>
    r = Ok tt /\ tx_index ([] ++ txs) (w_transactions w') /\
    w' = set_raw Transactions (w_transactions w') empty_world).
Proof.
  apply (save_block_transactions_index [] txs empty_world).
  - apply tx_index_empty.
  - apply txs_distinct.
  - apply txs_storable.
Defined.

Lemma history_queries_witness :
  (forall t, t ∈ txs -> wp (get_transaction (tx_hash t)) after (fun r w' => r = Ok (Some t) /\ w' = after)) /\
  wp (get_transactions_by_sender "alice") after (fun r w' =>
    r = Ok (tx_hash <$> hits "alice" txs) /\ w' = after) /\
  wp (get_recent_transactions_by_sender "alice" 1) after (fun r w' =>
    r = Ok (take 1 (reverse (hits "alice" txs))) /\ w' = after) /\
  (forall db, Rep db after -> transaction_count db = Z.of_nat (length txs)) /\
  (forall t, t ∈ hits "alice" txs <-> scan_hit "alice" t /\ t ∈ txs) /\
  ((forall t, t ∈ txs -> String.length (tx_sender t) = String.length "alice") ->
    hits "alice" txs = sent_by "alice" txs).
Proof. exact (history_queries txs after "alice" 1 after_index txs_distinct txs_storable). Defined.
(** Here all senders have five letters. *)
Example alice_hits : tx_hash <$> hits "alice" txs = ["h1"; "h2"].
Proof. vm_compute. reflexivity. Qed.

(** The index prefix of a sender does not end in a separator: a query for an
    address answers the transactions of every longer address that extends it. *)
Example sender_prefix_overlap :
  (get_transactions_by_sender "alice"
    (save_block_transactions [tx "h1" "alice2" 0]
      (mkKyveraDb tt (∅ : gmap string string) (∅ : gmap string string)
        (∅ : gmap string string) (∅ : gmap string string) (∅ : gmap string string))).1).2 = Ok ["h1"].
Proof. vm_compute. reflexivity. Qed.
End TxStoreWitness.
