(* ===== verification/BlockProducer.v ===== *)
(** * Producing and validating blocks (src/chain/block_producer.rs)

    The chain tip, the three producers and [validate_block].  The clock is the
    argument [now_ms].  [accepts] is the step relation of a node that validates
    a block against its tip and advances to it. *)
From S2P Require Import Prelude Text Codec Types Extern InMemory Hash Merkle Mining.

Record ChainTip := mkChainTip {
  tip_hash : string;
  tip_height : Z;
  tip_timestamp : Z;
  tip_difficulty : Z;
  tip_epoch_index : Z;
  tip_total_work : Z;
}.
#[export] Instance ChainTip_eq_dec : EqDecision ChainTip.
Proof. solve_decision. Defined.
#[export] Instance ChainTip_codec : Codec ChainTip.
Proof.
  refine (iso_codec (fun t => (tip_hash t, tip_height t, tip_timestamp t, tip_difficulty t,
      tip_epoch_index t, tip_total_work t))
    (fun '(x1, x2, x3, x4, x5, x6) => mkChainTip x1 x2 x3 x4 x5 x6) _).
  by intros [].
Defined.

Inductive BlockError :=
| InvalidPreviousHash (expected got : string)
| InsufficientProofOfWork
| InvalidTimestamp
| InvalidMerkleRoot
| InvalidHeight
| MiningFailed.
#[export] Instance BlockError_eq_dec : EqDecision BlockError.
Proof. solve_decision. Defined.

(** [impl Display for BlockError]: the slices panic on a short hash. *)
Definition display_block_error {E} (e : BlockError) : res E string :=
  match e with
  | InvalidPreviousHash expected got =>
    x ← slice_to 8 expected; y ← slice_to 8 got;
    Ok ("Previous hash mismatch: expected " +:+ x +:+ ", got " +:+ y)
  | InsufficientProofOfWork => Ok "Block hash does not meet difficulty target"
  | InvalidTimestamp => Ok "Block timestamp is outside acceptable range"
  | InvalidMerkleRoot => Ok "Merkle root does not match transaction list"
  | InvalidHeight => Ok "Block height is not sequential"
  | MiningFailed => Ok "Mining did not find a solution within the attempt limit"
  end.

Definition genesis_hash : string := str_repeat 64 "0".
Definition genesis_tip : ChainTip := mkChainTip genesis_hash 0 0 1 0 0.

Definition advance `{Build} {E} (tip : ChainTip) (block : Block) : res E ChainTip :=
  let header := blk_header block in
  total_work ← add_u64 (tip_total_work tip) (hdr_difficulty header);
  Ok (mkChainTip (blk_hash block) (hdr_index header) (hdr_timestamp header) (hdr_difficulty header)
    (if hdr_is_epoch_block header then hdr_epoch_index header else tip_epoch_index tip) total_work).

Section block_producer.
Context `{Build} `{Sha3} `{HexCodec}.

(** The end of the three producers: mine the header, then assemble the block. *)
Definition finish_block (header : BlockHeader) (hashes : list string) (miner : string)
    (reward max_attempts : Z) : res BlockError Block :=
  mined ← ok_or (mine_block header max_attempts) MiningFailed;
  let header := set_hdr_nonce (mined_nonce mined) header in
  let block := new_block header hashes miner reward in
  Ok (set_blk_hash (mined_hash mined) block).

Definition produce_genesis_block (now_ms : Z) (miner_address : string) : res BlockError Block :=
  let header := new_header now_ms 0 (str_repeat 64 "0") (compute_merkle_root []) 1 true 0 in
  finish_block header [] miner_address GENESIS_BLOCK_REWARD u64_max.

Definition produce_micro_block (now_ms : Z) (txs : list Transaction) (tip : ChainTip)
    (miner_address : string) (max_attempts : Z) : res BlockError Block :=
  let tx_hashes := map tx_hash txs in
  let merkle_root := compute_merkle_root tx_hashes in
  index ← add_u64 (tip_height tip) 1;
  let header := new_header now_ms index (tip_hash tip) merkle_root (tip_difficulty tip) false
    (tip_epoch_index tip) in
  finish_block header tx_hashes miner_address 0 max_attempts.

Definition produce_epoch_block (now_ms : Z) (micro_block_hashes : list string) (tip : ChainTip)
    (miner_address state_root : string) (max_attempts : Z) : res BlockError Block :=
  next_epoch_index ← add_u64 (tip_epoch_index tip) 1;
  let reward := calculate_block_reward next_epoch_index in
  let merkle_root := compute_merkle_root micro_block_hashes in
  index ← add_u64 (tip_height tip) 1;
  let header := new_header now_ms index (tip_hash tip) merkle_root (tip_difficulty tip) true
    next_epoch_index in
  let header := set_hdr_state_root state_root header in
  finish_block header micro_block_hashes miner_address reward max_attempts.

Definition validate_block (now_ms : Z) (block : Block) (tip : ChainTip) (txs : list Transaction)
    : res BlockError unit :=
  let header := blk_header block in
  next ← add_u64 (tip_height tip) 1;
  if negb (hdr_index header =? next) then Err InvalidHeight
  else if negb (String.eqb (hdr_previous_hash header) (tip_hash tip)) then
    Err (InvalidPreviousHash (tip_hash tip) (hdr_previous_hash header))
  else if negb (verify_proof_of_work (blk_hash block) (hdr_difficulty header)) then
    Err InsufficientProofOfWork
  else if hdr_timestamp header <? tip_timestamp tip then Err InvalidTimestamp
  else
    limit ← add_i64 now_ms 120000;
    if limit <? hdr_timestamp header then Err InvalidTimestamp
    else if negb (String.eqb (hdr_merkle_root header) (compute_merkle_root (map tx_hash txs))) then
      Err InvalidMerkleRoot
    else if negb (String.eqb (hash_header header (hdr_nonce header)) (blk_hash block)) then
      Err InsufficientProofOfWork
    else Ok tt.
End block_producer.

(** ** What the producers return *)

(** A header that is a link of the chain after [tip] and its block's hash. *)
Definition sealed `{Sha3} `{HexCodec} (block : Block) : Prop :=
  blk_hash block = hash_header (blk_header block) (hdr_nonce (blk_header block)) /\
  verify_proof_of_work (blk_hash block) (hdr_difficulty (blk_header block)) = true.

Section producer_facts.
Context `{Build} `{Sha3} `{HexCodec}.

Lemma finish_block_inv header hashes miner reward max_attempts b :
  0 <= max_attempts -> finish_block header hashes miner reward max_attempts = Ok b ->
  sealed b /\ 0 <= hdr_nonce (blk_header b) < max_attempts /\
  blk_header b = set_hdr_nonce (hdr_nonce (blk_header b)) header /\
  blk_transaction_hashes b = hashes /\ blk_block_reward b = reward /\ blk_producer_address b = miner.
Proof.
  intros Hm. unfold finish_block. pose proof (mine_block_result header max_attempts Hm) as Hr.
  destruct (mine_block header max_attempts) as [m|]; [|done]. cbn. intros [= <-].
  destruct Hr as (? & Hh & _ & Hv & _). unfold sealed. cbn. by rewrite Hh in *.
Qed.

(** [finish_block] does not panic: it answers a block or [MiningFailed]. *)
Lemma finish_block_total header hashes miner reward max_attempts :
  (exists b, finish_block header hashes miner reward max_attempts = Ok b) \/
  finish_block header hashes miner reward max_attempts = Err MiningFailed.
Proof. unfold finish_block. destruct (mine_block _ _); cbn; eauto. Qed.

(** It answers [MiningFailed] only if no nonce solves the header. *)
Lemma finish_block_failed header hashes miner reward max_attempts :
  0 <= max_attempts -> finish_block header hashes miner reward max_attempts = Err MiningFailed ->
  forall n, 0 <= n < max_attempts -> meets_difficulty (hash_header header n) (hdr_difficulty header) = false.
Proof.
  intros Hm. unfold finish_block. pose proof (mine_block_result header max_attempts Hm) as Hr.
  by destruct (mine_block header max_attempts) as [m|].
Qed.

(** What [validate_block] checks. *)
Definition valid_link (now_ms : Z) (block : Block) (tip : ChainTip) (txs : list Transaction) : Prop :=
  let header := blk_header block in
  hdr_index header = tip_height tip + 1 /\
  hdr_previous_hash header = tip_hash tip /\
  tip_timestamp tip <= hdr_timestamp header <= now_ms + 120000 /\
  hdr_merkle_root header = compute_merkle_root (map tx_hash txs) /\
  sealed block.

Lemma validate_block_ok now_ms block tip txs :
  is_u64 (tip_height tip) -> tip_height tip < u64_max -> is_i64 now_ms -> now_ms + 120000 <= i64_max ->
  validate_block now_ms block tip txs = Ok tt <-> valid_link now_ms block tip txs.
Proof.
  unfold is_u64, is_i64. intros Hh Hlt Hnow Hnow2. unfold validate_block, valid_link, sealed.
  rewrite add_u64_ok by lia. cbn [mbind res_bind].
  destruct (Z.eqb_spec (hdr_index (blk_header block)) (tip_height tip + 1)); cbn [negb]; [|naive_solver].
  destruct (String.eqb_spec (hdr_previous_hash (blk_header block)) (tip_hash tip)); cbn [negb]; [|naive_solver].
  destruct (verify_proof_of_work _ _); cbn [negb]; [|naive_solver].
  destruct (Z.ltb_spec (hdr_timestamp (blk_header block)) (tip_timestamp tip)); [naive_solver lia|].
  unfold add_i64. rewrite signed64_ok by (unfold is_i64; lia). cbn [mbind res_bind].
  destruct (Z.ltb_spec (now_ms + 120000) (hdr_timestamp (blk_header block))); [naive_solver lia|].
  destruct (String.eqb_spec (hdr_merkle_root (blk_header block)) (compute_merkle_root (map tx_hash txs)));
    cbn [negb]; [|naive_solver].
  destruct (String.eqb_spec (hash_header (blk_header block) (hdr_nonce (blk_header block)))
    (blk_hash block)); cbn [negb]; naive_solver.
Qed.

(** [validate_block] does not panic while the clock and the height have room. *)
Lemma validate_block_no_panic now_ms block tip txs :
  is_u64 (tip_height tip) -> tip_height tip < u64_max -> is_i64 now_ms -> now_ms + 120000 <= i64_max ->
  validate_block now_ms block tip txs <> Panic.
Proof.
  intros Hh Hlt Hnow Hnow2.
  unfold validate_block, is_u64, is_i64 in *. rewrite add_u64_ok by lia. cbn [mbind res_bind].
  unfold add_i64. rewrite signed64_ok by (unfold is_i64; lia). cbn [mbind res_bind].
  by repeat case_match.
Qed.

Lemma advance_inv {E} tip block tip' :
  advance (E:=E) tip block = Ok tip' ->
  tip_hash tip' = blk_hash block /\ tip_height tip' = hdr_index (blk_header block) /\
  tip_timestamp tip' = hdr_timestamp (blk_header block) /\
  tip_difficulty tip' = hdr_difficulty (blk_header block) /\
  add_u64 (E:=E) (tip_total_work tip) (hdr_difficulty (blk_header block)) = Ok (tip_total_work tip').
Proof. intros (w & Hw & [= <-])%res_bind_Ok. done. Qed.

(** ** Chains of accepted blocks *)

(** A node that validates the blocks it receives one after the other, each with
    its transactions and the clock at its arrival, and advances its tip. *)
Definition accept_chain (tip : ChainTip) (l : list (Z * Block * list Transaction))
    : res BlockError ChainTip :=
  res_fold l tip (fun tip '(now_ms, block, txs) =>
    validate_block now_ms block tip txs ;; advance tip block).

Fixpoint linked (hash : string) (height timestamp : Z) (blocks : list Block) : Prop :=
  match blocks with
  | [] => True
  | b :: blocks =>
    hdr_previous_hash (blk_header b) = hash /\ hdr_index (blk_header b) = height + 1 /\
    timestamp <= hdr_timestamp (blk_header b) /\ sealed b /\
    linked (blk_hash b) (height + 1) (hdr_timestamp (blk_header b)) blocks
  end.

Definition chain_blocks (l : list (Z * Block * list Transaction)) : list Block :=
  map (fun '(_, b, _) => b) l.
Definition chain_work (blocks : list Block) : Z := sumZ (map (fun b => hdr_difficulty (blk_header b)) blocks).
(** The ranges of what a block and the clock hold when it arrives. *)
Definition arrival_wf (x : Z * Block * list Transaction) : Prop :=
  let '(now_ms, b, _) := x in
  is_i64 now_ms /\ now_ms + 120000 <= i64_max /\ is_u32 (hdr_difficulty (blk_header b)).

Lemma accept_chain_inv l tip tip' :
  0 <= tip_height tip -> tip_height tip + Z.of_nat (length l) <= u64_max ->
  0 <= tip_total_work tip -> tip_total_work tip + Z.of_nat (length l) * u32_max <= u64_max ->
  Forall arrival_wf l -> accept_chain tip l = Ok tip' ->
  linked (tip_hash tip) (tip_height tip) (tip_timestamp tip) (chain_blocks l) /\
  tip_height tip' = tip_height tip + Z.of_nat (length l) /\
  tip_total_work tip' = tip_total_work tip + chain_work (chain_blocks l) /\
  tip_hash tip' = default (tip_hash tip) (blk_hash <$> list.last (chain_blocks l)).
Proof.
  unfold u32_max. intros Hh Hlen Hw Hwork Hl. revert tip Hh Hlen Hw Hwork.
  induction Hl as [|[[now_ms b] txs] l (Hn & Hn2 & Hd) Hl IH]; intros tip Hh Hlen Hw Hwork.
  { cbn. intros [= <-]. split_and!; [done|lia..|done]. }
  cbn [length] in Hlen, Hwork. rewrite Nat2Z.inj_succ in Hlen, Hwork.
  unfold accept_chain. cbn [res_fold]. intros (tip1 & ([] & Hv & Ha)%res_bind_Ok & Hrest)%res_bind_Ok.
  apply validate_block_ok in Hv as (Hi & Hp & Ht & Hm & Hs); [|unfold is_u64; lia|lia|done..].
  apply advance_inv in Ha as (Hhash & Hheight & Htime & _ & Hadd). unfold is_u32 in Hd.
  rewrite add_u64_ok in Hadd by (unfold u32_max in *; lia). unfold u32_max in Hd. injection Hadd as Hadd.
  apply (IH tip1) in Hrest as (Hlk & Hh' & Hw' & Hhash'); [|lia..].
  rewrite Hhash, Hheight, Htime, Hi in Hlk. cbn [chain_blocks map linked length chain_work sumZ].
  fold (chain_blocks l). fold (chain_work (chain_blocks l)). split_and!; try done; try lia.
  rewrite Hhash', last_cons, Hhash. by destruct (list.last (chain_blocks l)).
Qed.
End producer_facts.

Section producer_properties.
Context `{Build} `{Sha3} `{HexCodec}.

(** C28: a block is accepted exactly when it extends the tip by one height and
    names its hash, its time lies between the tip's and two minutes from now,
    its Merkle root is the one of its transactions, and its hash is the hash of
    its header and meets its own difficulty. *)
Theorem validate_block_exact now_ms block tip txs :
  is_u64 (tip_height tip) -> tip_height tip < u64_max -> is_i64 now_ms -> now_ms + 120000 <= i64_max ->
  validate_block now_ms block tip txs <> Panic /\
  (validate_block now_ms block tip txs = Ok tt <-> valid_link now_ms block tip txs).
Proof.
  intros. split; [by apply validate_block_no_panic|by apply validate_block_ok].
Qed.

(** A micro block the producer mines on a tip is accepted by every node with
    the same tip and transactions whose clock is not more than two minutes
    behind. *)
Theorem micro_block_accepted made_ms now_ms txs tip miner max_attempts block :
  is_u64 (tip_height tip) -> tip_height tip < u64_max -> 0 <= max_attempts ->
  is_i64 now_ms -> now_ms + 120000 <= i64_max -> tip_timestamp tip <= made_ms <= now_ms + 120000 ->
  produce_micro_block made_ms txs tip miner max_attempts = Ok block ->
  validate_block now_ms block tip txs = Ok tt.
Proof.
  unfold is_u64. intros Hh Hlt Hmax Hn Hn2 Ht. unfold produce_micro_block.
  rewrite add_u64_ok by lia. cbn [mbind res_bind]. intros Hf.
  apply finish_block_inv in Hf as (Hs & _ & He & _); [|done]. apply validate_block_ok; [done..|].
  unfold valid_link. rewrite He. by cbn.
Qed.

(** An epoch block the producer mines passes a node's validation if and only
    if the Merkle root of the transactions that node checks it against is the
    root of the micro block hashes it commits to: validated with the
    transactions of its epoch it is rejected, unless the roots coincide. *)
Theorem epoch_block_accepted_iff made_ms now_ms hashes tip miner root max_attempts block txs :
  is_u64 (tip_height tip) -> tip_height tip < u64_max -> tip_epoch_index tip < u64_max ->
  is_u64 (tip_epoch_index tip) -> 0 <= max_attempts ->
  is_i64 now_ms -> now_ms + 120000 <= i64_max -> tip_timestamp tip <= made_ms <= now_ms + 120000 ->
  produce_epoch_block made_ms hashes tip miner root max_attempts = Ok block ->
  blk_block_reward block = calculate_block_reward (tip_epoch_index tip + 1) /\
  (validate_block now_ms block tip txs = Ok tt <->
    compute_merkle_root (map tx_hash txs) = compute_merkle_root hashes).
Proof.
  unfold is_u64. intros Hh Hlt Hel He Hmax Hn Hn2 Ht. unfold produce_epoch_block.
  rewrite !add_u64_ok by lia. cbn [mbind res_bind]. intros Hf.
  apply finish_block_inv in Hf as (Hs & _ & Heq & _ & Hr & _); [|done]. split; [done|].
  rewrite validate_block_ok by done. unfold valid_link. rewrite Heq. cbn. naive_solver.
Qed.

(** C6: a node that starts from the genesis tip and accepts a sequence of blocks
    holds a chain: heights count up from one, every block names the hash of the
    one before, times do not decrease, every hash is the hash of its header and
    meets its difficulty; the tip's height is the number of blocks and its work
    the sum of their difficulties. *)
Theorem accepted_chain l tip' :
  Forall arrival_wf l -> Z.of_nat (length l) <= u32_max -> accept_chain genesis_tip l = Ok tip' ->
  linked genesis_hash 0 0 (chain_blocks l) /\
  tip_height tip' = Z.of_nat (length l) /\
  tip_total_work tip' = chain_work (chain_blocks l) /\
  tip_hash tip' = default genesis_hash (blk_hash <$> list.last (chain_blocks l)).
Proof.
  intros Hl Hlen Ha. apply accept_chain_inv in Ha; [exact Ha|cbn..|exact Hl];
    unfold u32_max, u64_max in *; lia.
Qed.
End producer_properties.

Module BlockProducerWitness.
Import Mem.

Definition tx : Transaction :=
  mkTransaction (str_repeat 64 "a") "alice" "bob" 5 1 0 "sig" 1000 Transfer "".
Definition first_block : Block := Eval vm_compute in
  match produce_micro_block 1000 [tx] genesis_tip "miner" 1000 with
  | Ok b => b | _ => new_block (new_header 0 0 "" "" 0 false 0) [] "" 0 end.
Definition epoch_block : Block := Eval vm_compute in
  match produce_epoch_block 1000 [str_repeat 64 "b"] genesis_tip "miner" "root" 1000 with
  | Ok b => b | _ => new_block (new_header 0 0 "" "" 0 false 0) [] "" 0 end.

Lemma validate_block_exact_witness :
  validate_block 2000 first_block genesis_tip [tx] <> Panic /\
  (validate_block 2000 first_block genesis_tip [tx] = Ok tt <-> valid_link 2000 first_block genesis_tip [tx]).
Proof. apply (validate_block_exact 2000 first_block genesis_tip [tx]); concrete. Defined.

Lemma micro_block_accepted_witness : validate_block 2000 first_block genesis_tip [tx] = Ok tt.
Proof.
  apply (micro_block_accepted 1000 2000 [tx] genesis_tip "miner" 1000 first_block);
    concrete.
Defined.

Lemma epoch_block_accepted_iff_witness :
  blk_block_reward epoch_block = calculate_block_reward 1 /\
  (validate_block 2000 epoch_block genesis_tip [tx] = Ok tt <->
    compute_merkle_root (map tx_hash [tx]) = compute_merkle_root [str_repeat 64 "b"]).
Proof.
  apply (epoch_block_accepted_iff 1000 2000 [str_repeat 64 "b"] genesis_tip "miner" "root" 1000
    epoch_block [tx]); concrete.
Defined.
(** There the roots differ, and the block is rejected. *)
Example epoch_block_rejected :
  validate_block 2000 epoch_block genesis_tip [tx] = Err InvalidMerkleRoot.
Proof. vm_compute. reflexivity. Qed.

Definition first_tip : ChainTip := Eval vm_compute in
  match accept_chain genesis_tip [(2000, first_block, [tx])] with Ok tip => tip | _ => genesis_tip end.
Lemma accepted_chain_witness :
  linked genesis_hash 0 0 [first_block] /\
  tip_height first_tip = 1 /\
  tip_total_work first_tip = chain_work [first_block] /\
  tip_hash first_tip = blk_hash first_block.
Proof.
  apply (accepted_chain [(2000, first_block, [tx])] first_tip); [constructor; [|constructor]|..];
    concrete.
Defined.
End BlockProducerWitness.
