(* ===== verification/Lineage.v ===== *)
(** * What the hash of a tip stands for

    Two nodes that accepted blocks ([BlockProducer.accept_chain]) and whose tips
    have one height and one hash accepted the same blocks.  [chain_collision]
    compares two sequences of arrivals from the tip down and returns the first
    two different texts it finds that have one hash: header texts, or nodes of
    the Merkle trees. *)
From S2P Require Import Prelude Text Types Extern InMemory Hash Merkle Mining BlockProducer.

(** ** What a header commits to *)

(** The text hashed for the header of a block. *)
Definition block_text (b : Block) : string :=
  let h := blk_header b in
  header_preimage (hdr_index h) (hdr_timestamp h) (hdr_previous_hash h) (hdr_merkle_root h)
    (hdr_nonce h) (hdr_difficulty h) (hdr_is_epoch_block h) (hdr_epoch_index h) (hdr_state_root h).

(** Thirteen digits: the milliseconds of the years 2001 to 2286. *)
Definition this_era (b : Block) : Prop := 10 ^ 12 <= hdr_timestamp (blk_header b) < 10 ^ 13.

(** The fields have no separators, but the height is known, timestamps of one
    length cannot shift, and hashes have 64 characters. *)
Lemma header_text_binds b b' :
  this_era b -> this_era b' -> hdr_index (blk_header b) = hdr_index (blk_header b') ->
  is_node (hdr_previous_hash (blk_header b)) -> is_node (hdr_previous_hash (blk_header b')) ->
  String.length (hdr_merkle_root (blk_header b)) = String.length (hdr_merkle_root (blk_header b')) ->
  block_text b = block_text b' ->
  hdr_timestamp (blk_header b) = hdr_timestamp (blk_header b') /\
  hdr_previous_hash (blk_header b) = hdr_previous_hash (blk_header b') /\
  hdr_merkle_root (blk_header b) = hdr_merkle_root (blk_header b').
Proof.
  unfold this_era, is_node, block_text, header_preimage, show_int. intros Ht Ht' Hi Hp Hp' Hm. rewrite Hi.
  intros He%str_app_inj_l. assert (0 <= 10 ^ 12) by done.
  rewrite !(proj2 (Z.ltb_ge _ 0)) in He by lia.
  apply str_app_inj in He as [Hts He]; [|by rewrite !(show_uint_length 12)].
  apply str_app_inj in He as [Hprev He]; [|congruence].
  apply str_app_inj in He as [Hroot _]; [|congruence].
  split_and!; [|done..]. by apply show_uint_inj; [lia..|].
Qed.

(** ** Arrivals *)

Notation Arrival := (Z * Block * list Transaction)%type.
Definition block_of (x : Arrival) : Block := x.1.2.
Definition txs_of (x : Arrival) : list Transaction := x.2.

(** The same block as far as the hashes reach: hash, height, time, predecessor,
    Merkle root, and, if they came with equally many transactions, the
    transaction hashes.  (The header does not say how many there are.) *)
Record same_block (x x' : Arrival) : Prop := {
  same_hash : blk_hash (block_of x) = blk_hash (block_of x');
  same_height : hdr_index (blk_header (block_of x)) = hdr_index (blk_header (block_of x'));
  same_time : hdr_timestamp (blk_header (block_of x)) = hdr_timestamp (blk_header (block_of x'));
  same_predecessor : hdr_previous_hash (blk_header (block_of x)) = hdr_previous_hash (blk_header (block_of x'));
  same_root : hdr_merkle_root (blk_header (block_of x)) = hdr_merkle_root (blk_header (block_of x'));
  same_transactions : length (txs_of x) = length (txs_of x') ->
    map tx_hash (txs_of x) = map tx_hash (txs_of x');
}.

(** Newest blocks first. *)
Fixpoint chain_collision `{Sha3} `{HexCodec} (l l' : list Arrival) : option (string * string) :=
  match l, l' with
  | x :: l, x' :: l' =>
    match node_collision (block_text (block_of x)) (block_text (block_of x')) with
    | Some xy => Some xy
    | None =>
      match
        if decide (length (txs_of x) = length (txs_of x'))
        then merkle_collision (length (txs_of x)) (map tx_hash (txs_of x)) (map tx_hash (txs_of x'))
        else None
      with
      | Some xy => Some xy
      | None => chain_collision l l'
      end
    end
  | _, _ => None
  end.

Section lineage.
Context `{Build} `{Sha3Laws} `{HexLaws}.

Lemma chain_collision_sound l l' xy : chain_collision l l' = Some xy -> is_collision xy.
Proof.
  revert l'. induction l as [|x l IH]; intros [|x' l']; try done. cbn.
  destruct (node_collision _ _) eqn:Hn; [intros [= <-]; by eapply node_collision_sound|].
  case_decide; [|apply IH].
  destruct (merkle_collision _ _ _) eqn:Hm; [intros [= <-]; by eapply merkle_collision_sound|apply IH].
Qed.

Lemma linked_snoc bs b hash n ts :
  linked hash n ts (bs ++ [b]) <->
  linked hash n ts bs /\
  hdr_previous_hash (blk_header b) = default hash (blk_hash <$> list.last bs) /\
  hdr_index (blk_header b) = n + Z.of_nat (length bs) + 1 /\
  default ts ((fun p => hdr_timestamp (blk_header p)) <$> list.last bs) <= hdr_timestamp (blk_header b) /\ sealed b.
Proof.
  revert hash n ts. induction bs as [|p bs IH]; intros hash n ts; cbn [app linked].
  { cbn. rewrite Z.add_0_r. tauto. }
  rewrite IH, last_cons. cbn [length]. rewrite Nat2Z.inj_succ.
  destruct (list.last bs); cbn; replace (n + 1 + Z.of_nat (length bs) + 1) with (n + Z.succ (Z.of_nat (length bs)) + 1) by lia;
    tauto.
Qed.

(** The hash of the last block, or the hash the chain starts from. *)
Definition last_hash (hash : string) (bs : list Block) : string := default hash (blk_hash <$> list.last bs).

Lemma sealed_hash b : sealed b -> blk_hash b = sha3_256_hex (block_text b).
Proof. by intros [-> _]. Qed.
Lemma last_hash_node hash n ts bs : is_node hash -> linked hash n ts bs -> is_node (last_hash hash bs).
Proof.
  intros Hh. unfold last_hash. destruct bs as [|b bs _] using rev_ind; [done|]. rewrite last_snoc.
  intros (_ & _ & _ & _ & Hs)%linked_snoc. cbn. rewrite sealed_hash by done. apply sha3_256_hex_length.
Qed.

(** An accepted block carries the Merkle root of its transactions. *)
Definition root_committed (x : Arrival) : Prop :=
  hdr_merkle_root (blk_header (block_of x)) = compute_merkle_root (map tx_hash (txs_of x)).

Lemma accept_chain_roots l tip tip' :
  Forall arrival_wf l -> 0 <= tip_height tip -> tip_height tip + Z.of_nat (length l) <= u64_max ->
  accept_chain tip l = Ok tip' -> Forall root_committed l.
Proof.
  intros Hl. revert tip. induction Hl as [|[[now_ms b] txs] l (Hn & Hn2 & Hd) Hl IH]; intros tip Hh Hlen; [constructor|].
  cbn [length] in Hlen. unfold accept_chain. cbn [res_fold].
  intros (tip1 & ([] & Hv & Ha)%res_bind_Ok & Hrest)%res_bind_Ok.
  apply validate_block_ok in Hv as (Hi & _ & _ & Hm & _); [|unfold is_u64; lia|lia|done..].
  apply advance_inv in Ha as (_ & Hheight & _). constructor; [exact Hm|].
  apply (IH tip1); [lia..|exact Hrest].
Qed.

(** What the agreement below needs of what arrived: a timestamp of this era and
    transaction hashes of 64 characters. *)
Definition regular_arrival (x : Arrival) : Prop :=
  this_era (block_of x) /\ Forall is_node (map tx_hash (txs_of x)).

(** One step from the tip down: blocks of one hash, without a collision. *)
Lemma same_block_by_hash x x' :
  regular_arrival x -> regular_arrival x' -> root_committed x -> root_committed x' ->
  sealed (block_of x) -> sealed (block_of x') ->
  hdr_index (blk_header (block_of x)) = hdr_index (blk_header (block_of x')) ->
  is_node (hdr_previous_hash (blk_header (block_of x))) -> is_node (hdr_previous_hash (blk_header (block_of x'))) ->
  blk_hash (block_of x) = blk_hash (block_of x') ->
  node_collision (block_text (block_of x)) (block_text (block_of x')) = None ->
  (length (txs_of x) = length (txs_of x') ->
    merkle_collision (length (txs_of x)) (map tx_hash (txs_of x)) (map tx_hash (txs_of x')) = None) ->
  same_block x x'.
Proof.
  intros [He Hn] [He' Hn'] Hr Hr' Hs Hs' Hi Hp Hp' Hh Hnc Hmc. unfold root_committed in Hr, Hr'.
  apply node_collision_None in Hnc; [|by rewrite <-!sealed_hash].
  apply header_text_binds in Hnc as (Ht & Hprev & Hroot); [|done..|].
  2: { pose proof (merkle_root_is_node _ Hn). pose proof (merkle_root_is_node _ Hn'). unfold is_node in *. congruence. }
  split; [done..|]. intros Hlen. specialize (Hmc Hlen).
  rewrite Hr, Hr' in Hroot. destruct (txs_of x) as [|t txs]; [by destruct (txs_of x')|].
  apply (merkle_collision_complete (length (t :: txs))); [by rewrite !length_map| |done..].
  rewrite length_map. cbn. lia.
Qed.

Lemma chain_blocks_snoc l x : chain_blocks (l ++ [x]) = chain_blocks l ++ [block_of x].
Proof. unfold chain_blocks. rewrite map_app. by destruct x as [[? ?] ?]. Qed.

(** Without a collision, chains of one height with one last hash are the same. *)
Lemma chain_collision_complete hash n ts ts' l l' :
  is_node hash -> linked hash n ts (chain_blocks l) -> linked hash n ts' (chain_blocks l') ->
  Forall regular_arrival l -> Forall regular_arrival l' -> Forall root_committed l -> Forall root_committed l' ->
  length l = length l' -> last_hash hash (chain_blocks l) = last_hash hash (chain_blocks l') ->
  chain_collision (reverse l) (reverse l') = None -> Forall2 same_block l l'.
Proof.
  intros Hh. revert l'. induction l as [|x l IH] using rev_ind; intros l' Hl Hl' Ha Ha' Hr Hr' Hlen Hlast;
    destruct l' as [|x' l' _] using rev_ind; rewrite ?length_app in Hlen; cbn in Hlen; try lia; [constructor|].
  rewrite !reverse_snoc. cbn [chain_collision]. rewrite !chain_blocks_snoc in *.
  apply linked_snoc in Hl as (Hl & Hp & Hi & _ & Hs), Hl' as (Hl' & Hp' & Hi' & _ & Hs').
  fold (last_hash hash (chain_blocks l)) in Hp. fold (last_hash hash (chain_blocks l')) in Hp'.
  apply Forall_app in Ha as [Ha Hax%Forall_inv], Ha' as [Ha' Hax'%Forall_inv].
  apply Forall_app in Hr as [Hr Hrx%Forall_inv], Hr' as [Hr' Hrx'%Forall_inv].
  unfold last_hash in Hlast. rewrite !last_snoc in Hlast. cbn in Hlast.
  destruct (node_collision _ _) eqn:Hnc; [done|]. intros Hc.
  assert (length (txs_of x) = length (txs_of x') ->
    merkle_collision (length (txs_of x)) (map tx_hash (txs_of x)) (map tx_hash (txs_of x')) = None) as Hmc.
  { intros He. rewrite decide_True in Hc by done. by destruct (merkle_collision _ _ _). }
  assert (chain_collision (reverse l) (reverse l') = None) as Hrest.
  { case_decide; [|done]. by destruct (merkle_collision _ _ _). }
  assert (same_block x x') as Hsame.
  { apply same_block_by_hash; try done.
    - rewrite Hi, Hi'. unfold chain_blocks. rewrite !length_map. lia.
    - rewrite Hp. by eapply last_hash_node.
    - rewrite Hp'. by eapply last_hash_node. }
  apply Forall2_app; [|constructor; [done|constructor]]. apply IH; try done; [lia|].
  rewrite <-Hp, <-Hp'. apply Hsame.
Qed.
End lineage.

(** ** Properties *)

Section lineage_properties.
Context `{Build} `{Sha3Laws} `{HexLaws}.

(** C3: the hash of a tip stands for everything behind it: two nodes that started
    from the genesis tip, whatever each of them accepted since, and whose tips
    have one height and one hash, accepted the same blocks in the same order:
    the same hashes, times, predecessors and Merkle roots, and the same
    transaction hashes in every block that came to both with equally many
    transactions; or else [chain_collision] computes from what arrived two
    different texts with one SHA3 hash.  (For timestamps of thirteen digits and
    transaction hashes of 64 characters: the fields of a header are hashed
    without separators.) *)
Theorem accepted_chains_agree l l' tip tip' :
  Forall arrival_wf l -> Forall arrival_wf l' -> Forall regular_arrival l -> Forall regular_arrival l' ->
  Z.of_nat (length l) <= u32_max -> Z.of_nat (length l') <= u32_max ->
  accept_chain genesis_tip l = Ok tip -> accept_chain genesis_tip l' = Ok tip' ->
  tip_height tip = tip_height tip' -> tip_hash tip = tip_hash tip' ->
  match chain_collision (reverse l) (reverse l') with
  | Some xy => is_collision xy
  | None => Forall2 same_block l l'
  end.
Proof.
  intros Hw Hw' Ha Ha' Hlen Hlen' Hacc Hacc' Hheight Hhash.
  destruct (chain_collision _ _) as [xy|] eqn:Hc; [by eapply chain_collision_sound|].
  unfold u32_max in Hlen, Hlen'.
  pose proof Hacc as Hroots. apply accept_chain_roots in Hroots; [|done|cbn; unfold u64_max; lia..].
  pose proof Hacc' as Hroots'. apply accept_chain_roots in Hroots'; [|done|cbn; unfold u64_max; lia..].
  apply accept_chain_inv in Hacc as (Hl & Hh & _ & Hlast); [|cbn; unfold u32_max, u64_max; lia..|done].
  apply accept_chain_inv in Hacc' as (Hl' & Hh' & _ & Hlast'); [|cbn; unfold u32_max, u64_max; lia..|done].
  eapply (chain_collision_complete genesis_hash); try done; [lia|].
  unfold last_hash. change (tip_hash genesis_tip) with genesis_hash in *. congruence.
Qed.
End lineage_properties.

Module LineageWitness.
Import Mem.

(** Payments whose hashes have 64 characters, in two blocks that reach one node
    at once and the other later. *)
Definition pay_tx (n sender : string) (nonce : Z) : Transaction :=
  mkTransaction (str_repeat 63 "a" +:+ n) sender "shop" 5 1000 nonce "sig" 1000 Transfer "".
Definition t1 : Transaction := Eval vm_compute in pay_tx "1" "alice" 0.
Definition t2 : Transaction := Eval vm_compute in pay_tx "2" "alice" 1.
Definition t3 : Transaction := Eval vm_compute in pay_tx "3" "carol" 0.
Definition mined (made_ms : Z) (txs : list Transaction) (tip : ChainTip) : Block :=
  match produce_micro_block made_ms txs tip "miner" 1000 with
  | Ok b => b | _ => new_block (new_header 0 0 "" "" 0 false 0) [] "" 0 end.
Definition tip_after (l : list (Z * Block * list Transaction)) : ChainTip :=
  match accept_chain genesis_tip l with Ok tip => tip | _ => genesis_tip end.
Definition b1 : Block := Eval vm_compute in mined 1700000001000 [t1] genesis_tip.
Definition b2 : Block := Eval vm_compute in
  mined 1700000002000 [t2; t3] (tip_after [(1700000001000, b1, [t1])]).
Definition prompt : list (Z * Block * list Transaction) :=
  [(1700000001000, b1, [t1]); (1700000002000, b2, [t2; t3])].
Definition late : list (Z * Block * list Transaction) :=
  [(1700000060000, b1, [t1]); (1700000060000, b2, [t2; t3])].
Definition their_tip : ChainTip := Eval vm_compute in tip_after prompt.

Lemma arrivals_wf : Forall arrival_wf prompt /\ Forall arrival_wf late.
Proof. split; repeat (constructor; [concrete|]); constructor. Qed.
Lemma arrivals_regular : Forall regular_arrival prompt /\ Forall regular_arrival late.
Proof.
  split; repeat (constructor; [split; [concrete|repeat constructor]|]); constructor.
Qed.
Lemma accepted_chains_agree_witness :
  match chain_collision (reverse prompt) (reverse late) with
  | Some xy => is_collision xy
  | None => Forall2 same_block prompt late
  end.
Proof.
  apply (accepted_chains_agree prompt late their_tip their_tip);
    [apply arrivals_wf|apply arrivals_wf|apply arrivals_regular|apply arrivals_regular|concrete..].
Defined.
(** No collision here. *)
Example no_collision : chain_collision (reverse prompt) (reverse late) = None.
Proof. vm_compute. reflexivity. Qed.
End LineageWitness.
