(* ===== verification/BlockStore.v ===== *)
(** * The block store (src/storage/block_store.rs)

    Blocks under their hash, hashes under the big-endian height, and the chain
    tip in the metadata.  [block_index bs h t] says that the two trees are what
    saving the blocks [bs], in this order, leaves. *)
From S2P Require Import Prelude Text Types Extern InMemory Hash Merkle Mining BlockProducer Db World.

Definition CHAIN_TIP_KEY : string := "chain_tip".

Section block_store.
Context `{Sled} `{!Serde Block} `{!Serde ChainTip}.

Definition save_block (block : Block) : st KyveraDb string unit :=
  serialized ←? map_err (fun e => "Failed to serialize block: " +:+ e) (to_vec block);
  write BlocksByHash (blk_hash block) serialized;;
  let height_key := u64_to_be_bytes (hdr_index (blk_header block)) in
  write BlocksByHeight height_key (blk_hash block).

Definition get_block_by_hash (hash : string) : st KyveraDb string (option Block) :=
  data ← read BlocksByHash hash;
  match data with
  | None => mret None
  | Some bytes =>
    block ←? map_err (fun e => "Failed to deserialize block: " +:+ e) (from_slice bytes);
    mret (Some block)
  end.

Definition get_block_by_height (height : Z) : st KyveraDb string (option Block) :=
  let height_key := u64_to_be_bytes height in
  hash_bytes ← read BlocksByHeight height_key;
  match hash_bytes with
  | None => mret None
  | Some hash_bytes =>
    hash ←? map_err (fun e => "Invalid hash bytes: " +:+ e) (from_utf8 hash_bytes);
    get_block_by_hash hash
  end.

Definition block_exists (hash : string) : st KyveraDb string bool := exists_ BlocksByHash hash.

Definition save_chain_tip (tip : ChainTip) : st KyveraDb string unit :=
  serialized ←? map_err (fun e => "Failed to serialize chain tip: " +:+ e) (to_vec tip);
  set_metadata CHAIN_TIP_KEY serialized.

Definition load_chain_tip : st KyveraDb string (option ChainTip) :=
  data ← get_metadata CHAIN_TIP_KEY;
  match data with
  | None => mret None
  | Some bytes =>
    tip ←? map_err (fun e => "Failed to deserialize chain tip: " +:+ e) (from_slice bytes);
    mret (Some tip)
  end.

Definition block_count (db : KyveraDb) : Z := count BlocksByHash db.
End block_store.

(** ** What a sequence of saved blocks leaves *)

(** The last block of the sequence with [f b = x]. *)
Definition last_with {X} `{EqDecision X} (f : Block -> X) (x : X) (bs : list Block) : option Block :=
  list.last (filter (fun b => f b = x) bs).

Lemma last_with_snoc {X} `{EqDecision X} (f : Block -> X) x bs b :
  last_with f x (bs ++ [b]) = if decide (f b = x) then Some b else last_with f x bs.
Proof.
  unfold last_with. rewrite filter_app, filter_cons, filter_nil.
  case_decide; [by rewrite last_snoc|by rewrite app_nil_r].
Qed.

Definition serialize `{!Serde Block} (b : Block) : option string :=
  match to_vec b with Ok v => Some v | _ => None end.

Definition block_index `{!Serde Block} (bs : list Block) (by_hash by_height : gmap string string) : Prop :=
  (forall h, by_hash !! h = last_with blk_hash h bs ≫= serialize) /\
  (forall n, is_u64 n -> by_height !! u64_to_be_bytes n = blk_hash <$> last_with height n bs).

Definition block_storable (b : Block) : Prop := utf8_valid (blk_hash b) = true /\ is_u64 (height b).

Section block_rules.
Context `{SledLaws} `{!Serde Account} `{!Serde Block} `{!SerdeLaws Block}
  `{!Serde ChainTip} `{!SerdeLaws ChainTip}.

Lemma serialize_total b : exists v, serialize b = Some v /\ to_vec b = Ok v.
Proof. destruct (to_vec_total b) as [v Hv]. exists v. unfold serialize. by rewrite Hv. Qed.

Lemma block_index_empty : block_index [] ∅ ∅.
Proof. split; intros; by rewrite lookup_empty. Qed.

Lemma block_index_save bs b v by_hash by_height :
  block_index bs by_hash by_height -> is_u64 (height b) -> to_vec b = Ok v ->
  block_index (bs ++ [b]) (<[blk_hash b := v]> by_hash)
    (<[u64_to_be_bytes (height b) := blk_hash b]> by_height).
Proof.
  intros [Hh Ht] Hb Hv. split.
  - intros h. rewrite last_with_snoc, lookup_insert, Hh. case_decide; [|done].
    cbn. unfold serialize. by rewrite Hv.
  - intros n Hn. rewrite last_with_snoc, lookup_insert, (Ht n Hn).
    destruct (decide (height b = n)) as [->|Hne]; [by rewrite decide_True|].
    rewrite decide_False; [done|]. intros He. by apply Hne, u64_be_inj.
Qed.

Lemma wp_save_block bs b w (Q : res string unit -> World -> Prop) :
  block_index bs (w_blocks_by_hash w) (w_blocks_by_height w) -> block_storable b ->
  (forall mh mt, block_index (bs ++ [b]) mh mt ->
    Q (Ok tt) (set_raw BlocksByHeight mt (set_raw BlocksByHash mh w))) ->
  wp (save_block b) w Q.
Proof.
  intros Hi [_ Hb] HQ. destruct (to_vec_total b) as [v Hv].
  apply wp_bind, wp_lift. rewrite Hv. cbn. apply wp_bind, wp_write; [done|]. apply wp_write; [done|].
  destruct w. cbn in *. apply HQ. by apply block_index_save.
Qed.

Lemma wp_get_block_by_hash bs h w Q :
  block_index bs (w_blocks_by_hash w) (w_blocks_by_height w) ->
  Q (Ok (last_with blk_hash h bs)) w -> wp (get_block_by_hash h) w Q.
Proof.
  intros [Hh _] HQ. apply wp_bind, wp_read; [done|]. cbn. rewrite Hh.
  destruct (last_with blk_hash h bs) as [b|]; cbn; [|by apply wp_ret].
  destruct (serialize_total b) as (v & -> & Hv). apply wp_bind, wp_lift.
  rewrite (from_to_vec b v Hv). by apply wp_ret.
Qed.

Lemma last_with_in {X} `{EqDecision X} (f : Block -> X) x bs b :
  last_with f x bs = Some b -> f b = x /\ b ∈ bs.
Proof. intros Hl%last_Some_elem_of. by apply list_elem_of_filter in Hl. Qed.

Lemma wp_get_block_by_height bs n w Q :
  block_index bs (w_blocks_by_hash w) (w_blocks_by_height w) -> Forall block_storable bs -> is_u64 n ->
  Q (Ok (last_with height n bs ≫= fun b => last_with blk_hash (blk_hash b) bs)) w ->
  wp (get_block_by_height n) w Q.
Proof.
  intros Hi Hs Hn HQ. apply wp_bind, wp_read; [done|]. cbn [w_raw]. rewrite (proj2 Hi) by done.
  destruct (last_with height n bs) as [b|] eqn:Hb; cbn; [|by apply wp_ret].
  apply last_with_in in Hb as [_ Hin]. rewrite Forall_forall in Hs. destruct (Hs b Hin) as [Hu _].
  apply wp_bind, wp_lift. rewrite from_utf8_valid by done. cbn. by apply (wp_get_block_by_hash bs).
Qed.

Lemma wp_save_blocks bs0 bs w (Q : res string unit -> World -> Prop) :
  block_index bs0 (w_blocks_by_hash w) (w_blocks_by_height w) -> Forall block_storable bs ->
  (forall mh mt, block_index (bs0 ++ bs) mh mt ->
    Q (Ok tt) (set_raw BlocksByHeight mt (set_raw BlocksByHash mh w))) ->
  wp (st_for bs save_block) w Q.
Proof.
  intros Hi Hs. revert bs0 w Q Hi. induction Hs as [|b bs Hb Hs IH]; intros bs0 w Q Hi HQ; cbn [st_for].
  - apply wp_ret. rewrite app_nil_r in HQ. specialize (HQ _ _ Hi). by destruct w.
  - apply wp_bind. apply (wp_save_block bs0); [done..|]. intros mh mt Hi'.
    apply (IH (bs0 ++ [b])); [by destruct w|]. intros mh' mt'. rewrite <-app_assoc. intros Hi''.
    specialize (HQ mh' mt' Hi''). by destruct w.
Qed.
Lemma wp_load_no_tip w Q :
  w_metadata w !! CHAIN_TIP_KEY = None -> Q (Ok None) w -> wp load_chain_tip w Q.
Proof. intros Hn HQ. apply wp_bind, wp_read; [done|]. cbn. rewrite Hn. by apply wp_ret. Qed.
Lemma wp_load_tip tip v w Q :
  w_metadata w !! CHAIN_TIP_KEY = Some v -> to_vec tip = Ok v -> Q (Ok (Some tip)) w ->
  wp load_chain_tip w Q.
Proof.
  intros Hv Ht HQ. apply wp_bind, wp_read; [done|]. cbn. rewrite Hv. apply wp_bind, wp_lift.
  rewrite (from_to_vec tip v Ht). by apply wp_ret.
Qed.
Lemma wp_save_tip tip w (Q : res string unit -> World -> Prop) :
  (forall v, to_vec tip = Ok v -> Q (Ok tt) (set_raw Metadata (<[CHAIN_TIP_KEY := v]> (w_metadata w)) w)) ->
  wp (save_chain_tip tip) w Q.
Proof.
  intros HQ. destruct (to_vec_total tip) as [v Hv]. apply wp_bind, wp_lift. rewrite Hv. cbn.
  apply wp_write; [done|]. by apply HQ.
Qed.
Lemma NoDup_last_with {X} `{EqDecision X} (f : Block -> X) bs b :
  NoDup (f <$> bs) -> b ∈ bs -> last_with f (f b) bs = Some b.
Proof.
  intros Hnd Hb. destruct (last_with f (f b) bs) as [c|] eqn:Hc.
  - apply last_with_in in Hc as [He Hc]. f_equal. by eapply NoDup_fmap_eq.
  - apply last_None in Hc. exfalso. by apply (filter_nil_not_elem_of _ _ _ Hc eq_refl).
Qed.
End block_rules.

Section block_properties.
Context `{SledLaws} `{!Serde Account} `{!Serde Block} `{!SerdeLaws Block}
  `{!Serde ChainTip} `{!SerdeLaws ChainTip}.

(** C32: after any sequence of saves a hash gives the last block saved with that
    hash, and a height the last block saved at that height, also after blocks
    of a competing branch have replaced others: with distinct hashes, exactly
    that block.  (From empty trees, for hashes that are text and heights of 64
    bits.) *)
Theorem saved_blocks_found bs w :
  w_blocks_by_hash w = ∅ -> w_blocks_by_height w = ∅ ->
  Forall block_storable bs -> NoDup (blk_hash <$> bs) ->
  wp (st_for bs save_block) w (fun r w' => r = Ok tt /\
    (forall h, wp (get_block_by_hash h) w' (fun r w'' => r = Ok (last_with blk_hash h bs) /\ w'' = w')) /\
    (forall n, is_u64 n ->
      wp (get_block_by_height n) w' (fun r w'' => r = Ok (last_with height n bs) /\ w'' = w')) /\
    w_accounts w' = w_accounts w /\ w_transactions w' = w_transactions w /\ w_metadata w' = w_metadata w).
Proof.
  intros Hh Ht Hs Hnd. apply (wp_save_blocks []); [rewrite Hh, Ht; apply block_index_empty|done|].
  intros mh mt Hi. cbn in Hi. split_and!; [done| | |by destruct w..].
  - intros h. apply (wp_get_block_by_hash bs); [by destruct w|done].
  - intros n Hn. apply (wp_get_block_by_height bs); [by destruct w|done..|].
    destruct (last_with height n bs) as [b|] eqn:Hb; [|done]. cbn.
    apply last_with_in in Hb as [_ Hb]. by rewrite NoDup_last_with.
Qed.

(** A node that saves its tip and restarts loads the tip it saved; a node
    that has saved none loads none. *)
Theorem chain_tip_roundtrip tip w :
  wp (save_chain_tip tip ;; load_chain_tip) w (fun r w' =>
    r = Ok (Some tip) /\ forall k, k <> CHAIN_TIP_KEY -> w_metadata w' !! k = w_metadata w !! k) /\
  (w_metadata w !! CHAIN_TIP_KEY = None ->
    wp load_chain_tip w (fun r w' => r = Ok None /\ w' = w)).
Proof.
  split.
  - apply wp_bind, wp_save_tip. intros v Hv. destruct w as [ac bh bt tr md]. cbn.
    apply (wp_load_tip tip v); [apply lookup_insert_eq|done|].
    split; [done|]. intros k Hk. cbn. by rewrite lookup_insert_ne.
  - intros Hn. by apply wp_load_no_tip.
Qed.
End block_properties.

Module BlockStoreWitness.
Import Mem.

Definition blk (hash : string) (index : Z) : Block :=
  mkBlock (mkBlockHeader index 1000 "prev" "root" 0 1 false 0 "") [] hash "" "miner" 0.
(** Two blocks compete at height 1; the branch of the second one wins. *)
Definition blks : list Block := [blk "a1" 1; blk "b1" 1; blk "b2" 2].

Lemma saved_blocks_found_witness :
  wp (st_for blks save_block) empty_world (fun r w' => r = Ok tt /\
    (forall h, wp (get_block_by_hash h) w' (fun r w'' => r = Ok (last_with blk_hash h blks) /\ w'' = w')) /\
    (forall n, is_u64 n ->
      wp (get_block_by_height n) w' (fun r w'' => r = Ok (last_with height n blks) /\ w'' = w')) /\
    w_accounts w' = w_accounts empty_world /\ w_transactions w' = w_transactions empty_world /\
    w_metadata w' = w_metadata empty_world).
Proof.
  apply (saved_blocks_found blks empty_world); [done|done|repeat constructor; done|].
  vm_compute. repeat constructor; set_solver.
Defined.
Example competing_block_wins : last_with height 1 blks = Some (blk "b1" 1).
Proof. vm_compute. reflexivity. Qed.

Lemma chain_tip_roundtrip_witness :
  wp (save_chain_tip genesis_tip ;; load_chain_tip) empty_world (fun r w' =>
    r = Ok (Some genesis_tip) /\
    forall k, k <> CHAIN_TIP_KEY -> w_metadata w' !! k = w_metadata empty_world !! k) /\
  (w_metadata empty_world !! CHAIN_TIP_KEY = None ->
    wp load_chain_tip empty_world (fun r w' => r = Ok None /\ w' = empty_world)).
Proof. apply (chain_tip_roundtrip genesis_tip empty_world). Defined.
End BlockStoreWitness.
