(* ===== verification/StateTrie.v ===== *)
(** * The state trie (src/storage/state_trie.rs)

    State roots, snapshots with rollback, and the transition function
    [apply_transaction].  [transition] is the function on worlds that
    [apply_transaction] implements; the theorems on supply, nonces, atomicity
    and rollback are about both. *)
From S2P Require Import Prelude Text Codec Types Extern InMemory Hash Db World AccountStore.

Definition STATE_ROOT_KEY : string := "state_root".
Definition SNAPSHOT_COUNT_KEY : string := "snapshot_count".
(** The address [apply_fee_split] credits. *)
Definition fee_treasury : string :=
  "kyv10000000000000000000000000000000000000000000000000000treasury00".

Record StateSnapshot := mkStateSnapshot {
  snap_block_height : Z;
  snap_state_root : string;
  snap_modified_accounts : list (string * option Account);
}.
#[export] Instance StateSnapshot_eq_dec : EqDecision StateSnapshot.
Proof. solve_decision. Defined.
#[export] Instance StateSnapshot_codec : Codec StateSnapshot.
Proof.
  refine (iso_codec (fun s => (snap_block_height s, snap_state_root s, snap_modified_accounts s))
    (fun '(x1, x2, x3) => mkStateSnapshot x1 x2 x3) _).
  by intros [].
Defined.

Section state_trie.
Context `{Build} `{Sha3} `{HexCodec} `{Sled} `{!Serde Account} `{!Serde StateSnapshot}.

Definition empty_state_root : string := sha3_256_hex "kyvera-empty-state".

(** One round of the loop of [compute_state_root]. *)
Definition root_item (account_hashes : list string) (item : res string (string * string))
    : st KyveraDb string (list string) :=
  kv ←? map_err (fun e => "State trie iteration error: " +:+ e) item;
  address ←? map_err (fun e => "Invalid address key: " +:+ e) (from_utf8 kv.1);
  account ←? map_err (fun e => "Failed to deserialize account: " +:+ e) (from_slice (A:=Account) kv.2);
  account_json ←? map_err (fun e => "Failed to serialize account: " +:+ e) (to_vec account);
  mret (account_hashes ++ [sha3_256_hex (address +:+ account_json)]).
Definition compute_state_root : st KyveraDb string string :=
  items ← iter_tree Accounts;
  account_hashes ← st_fold items [] root_item;
  match account_hashes with
  | [] => mret empty_state_root
  | _ => mret (sha3_256_hex (str_concat (merge_sort str_le account_hashes)))
  end.

Definition save_state_root (root : string) : st KyveraDb string unit :=
  set_metadata STATE_ROOT_KEY root.
Definition load_state_root : st KyveraDb string (option string) :=
  data ← get_metadata STATE_ROOT_KEY;
  match data with
  | None => mret None
  | Some bytes =>
    root ←? map_err (fun e => "Invalid state root bytes: " +:+ e) (from_utf8 bytes);
    mret (Some root)
  end.

Definition get_snapshot_count : st KyveraDb string Z :=
  data ← get_metadata SNAPSHOT_COUNT_KEY;
  match data with
  | None => mret 0
  | Some bytes =>
    s ←? map_err (fun e => "Invalid snapshot count: " +:+ e) (from_utf8 bytes);
    st_lift (map_err (fun e => "Invalid snapshot count format: " +:+ e) (parse_u64 s))
  end.

Definition snapshot_item (modified : list (string * option Account)) (address : string)
    : st KyveraDb string (list (string * option Account)) :=
  account ← get_account address; mret (modified ++ [(address, account)]).
Definition take_snapshot (block_height : Z) (affected_addresses : list string)
    : st KyveraDb string StateSnapshot :=
  root ← load_state_root;
  let current_root := default empty_state_root root in
  modified_accounts ← st_fold affected_addresses [] snapshot_item;
  mret (mkStateSnapshot block_height current_root modified_accounts).

Definition snapshot_key (count : Z) : string := "snapshot:" +:+ show_padded 20 count.
Definition save_snapshot (snapshot : StateSnapshot) : st KyveraDb string unit :=
  serialized ←? map_err (fun e => "Failed to serialize snapshot: " +:+ e) (to_vec snapshot);
  count ← get_snapshot_count;
  set_metadata (snapshot_key count) serialized;;
  set_metadata SNAPSHOT_COUNT_KEY (show_uint count).

Definition restore_item (entry : string * option Account) : st KyveraDb string unit :=
  let '(address, pre_state) := entry in
  match pre_state with
  | Some account => save_account account
  | None => delete Accounts address
  end.
Definition rollback_to_snapshot (snapshot : StateSnapshot) : st KyveraDb string unit :=
  st_for (snap_modified_accounts snapshot) restore_item;;
  save_state_root (snap_state_root snapshot).

Definition apply_fee_split (fee : Z) : st KyveraDb string unit :=
  let treasury_share := fee / 10 in
  if 0 <? treasury_share then credit_account fee_treasury treasury_share else mret tt.

Definition nonce_mismatch (expected got : Z) : string :=
  "Nonce mismatch: expected " +:+ show_uint expected +:+ " got " +:+ show_uint got.

Definition apply_transfer (tx : Transaction) : st KyveraDb string unit :=
  sender ← get_or_create_account (tx_sender tx);
  total_cost ←? ok_or (checked_add_u64 (tx_amount tx) (tx_fee tx)) "Transaction cost overflow";
  if acc_balance sender <? total_cost then
    st_fail ("Insufficient balance: " +:+ tx_sender tx +:+ " has " +:+ show_uint (acc_balance sender)
      +:+ " but needs " +:+ show_uint total_cost)
  else if negb (acc_nonce sender =? tx_nonce tx) then
    st_fail (nonce_mismatch (acc_nonce sender) (tx_nonce tx))
  else
    balance ←? sub_u64 (acc_balance sender) total_cost;
    nonce ←? add_u64 (acc_nonce sender) 1;
    save_account (set_nonce nonce (set_balance balance sender));;
    receiver ← get_or_create_account (tx_receiver tx);
    balance ←? ok_or (checked_add_u64 (acc_balance receiver) (tx_amount tx)) "Receiver balance overflow";
    save_account (set_balance balance receiver);;
    apply_fee_split (tx_fee tx).

Definition apply_stake_lock (tx : Transaction) : st KyveraDb string unit :=
  account ← get_or_create_account (tx_sender tx);
  total_cost ←? ok_or (checked_add_u64 (tx_amount tx) (tx_fee tx)) "Stake cost overflow";
  if acc_balance account <? total_cost then
    st_fail ("Insufficient balance to stake: has " +:+ show_uint (acc_balance account)
      +:+ " needs " +:+ show_uint total_cost)
  else if negb (acc_nonce account =? tx_nonce tx) then
    st_fail (nonce_mismatch (acc_nonce account) (tx_nonce tx))
  else
    balance ←? sub_u64 (acc_balance account) total_cost;
    staked ←? ok_or (checked_add_u64 (acc_staked_balance account) (tx_amount tx)) "Staked balance overflow";
    nonce ←? add_u64 (acc_nonce account) 1;
    save_account (update_validator_tier
      (set_nonce nonce (set_staked_balance staked (set_balance balance account))));;
    apply_fee_split (tx_fee tx).

Definition apply_stake_unlock (tx : Transaction) : st KyveraDb string unit :=
  account ← get_or_create_account (tx_sender tx);
  if acc_staked_balance account <? tx_amount tx then
    st_fail ("Insufficient staked balance: has " +:+ show_uint (acc_staked_balance account)
      +:+ " needs " +:+ show_uint (tx_amount tx))
  else if acc_balance account <? tx_fee tx then
    st_fail ("Insufficient balance for fee: has " +:+ show_uint (acc_balance account)
      +:+ " needs " +:+ show_uint (tx_fee tx))
  else if negb (acc_nonce account =? tx_nonce tx) then
    st_fail (nonce_mismatch (acc_nonce account) (tx_nonce tx))
  else
    staked ←? sub_u64 (acc_staked_balance account) (tx_amount tx);
    balance ←? ok_or (checked_add_u64 (acc_balance account) (tx_amount tx)) "Balance overflow during unstake";
    balance ←? sub_u64 balance (tx_fee tx);
    nonce ←? add_u64 (acc_nonce account) 1;
    save_account (update_validator_tier
      (set_nonce nonce (set_balance balance (set_staked_balance staked account))));;
    apply_fee_split (tx_fee tx).

Definition apply_fee_only (tx : Transaction) : st KyveraDb string unit :=
  sender ← get_or_create_account (tx_sender tx);
  if acc_balance sender <? tx_fee tx then st_fail "Insufficient balance for fee"
  else if negb (acc_nonce sender =? tx_nonce tx) then
    st_fail (nonce_mismatch (acc_nonce sender) (tx_nonce tx))
  else
    balance ←? sub_u64 (acc_balance sender) (tx_fee tx);
    nonce ←? add_u64 (acc_nonce sender) 1;
    save_account (set_nonce nonce (set_balance balance sender));;
    apply_fee_split (tx_fee tx).

Definition apply_transaction (tx : Transaction) : st KyveraDb string unit :=
  match tx_transaction_type tx with
  | Transfer => apply_transfer tx
  | StakeLock => apply_stake_lock tx
  | StakeUnlock => apply_stake_unlock tx
  | ContractDeploy | ContractCall => apply_fee_only tx
  end.
End state_trie.

(** ** The transition function *)

Definition tx_wf (tx : Transaction) : Prop :=
  is_u64 (tx_amount tx) /\ is_u64 (tx_fee tx) /\ is_u64 (tx_nonce tx).

(** The first check of the sender's account [a] that fails. *)
Definition sender_error (tx : Transaction) (a : Account) : option string :=
  let cost := tx_amount tx + tx_fee tx in
  let wrong_nonce :=
    if acc_nonce a =? tx_nonce tx then None else Some (nonce_mismatch (acc_nonce a) (tx_nonce tx)) in
  match tx_transaction_type tx with
  | Transfer =>
    if u64_max <? cost then Some "Transaction cost overflow"
    else if acc_balance a <? cost then
      Some ("Insufficient balance: " +:+ tx_sender tx +:+ " has " +:+ show_uint (acc_balance a)
        +:+ " but needs " +:+ show_uint cost)
    else wrong_nonce
  | StakeLock =>
    if u64_max <? cost then Some "Stake cost overflow"
    else if acc_balance a <? cost then
      Some ("Insufficient balance to stake: has " +:+ show_uint (acc_balance a)
        +:+ " needs " +:+ show_uint cost)
    else if wrong_nonce is Some e then Some e
    else if u64_max <? acc_staked_balance a + tx_amount tx then Some "Staked balance overflow"
    else None
  | StakeUnlock =>
    if acc_staked_balance a <? tx_amount tx then
      Some ("Insufficient staked balance: has " +:+ show_uint (acc_staked_balance a)
        +:+ " needs " +:+ show_uint (tx_amount tx))
    else if acc_balance a <? tx_fee tx then
      Some ("Insufficient balance for fee: has " +:+ show_uint (acc_balance a)
        +:+ " needs " +:+ show_uint (tx_fee tx))
    else if wrong_nonce is Some e then Some e
    else if u64_max <? acc_balance a + tx_amount tx then Some "Balance overflow during unstake"
    else None
  | ContractDeploy | ContractCall =>
    if acc_balance a <? tx_fee tx then Some "Insufficient balance for fee" else wrong_nonce
  end.

(** The sender's account after its checks pass, with the next nonce [n]. *)
Definition sender_after (tx : Transaction) (n : Z) (a : Account) : Account :=
  let paid := set_nonce n (set_balance (acc_balance a - tx_fee tx) a) in
  match tx_transaction_type tx with
  | Transfer => set_balance (acc_balance paid - tx_amount tx) paid
  | StakeLock => stake (tx_amount tx) paid
  | StakeUnlock => stake (- tx_amount tx) paid
  | ContractDeploy | ContractCall => paid
  end.

(** Adding [amount] to the balance of an address, or failing with [msg]. *)
Definition pay (msg address : string) (amount : Z) : st World string unit := fun w =>
  let a := account_at address w in
  if acc_balance a + amount <=? u64_max then
    (put_account (set_balance (acc_balance a + amount) a) w, Ok tt)
  else (w, Err msg).
Definition pay_receiver (tx : Transaction) : st World string unit :=
  if is_transfer tx then pay "Receiver balance overflow" (tx_receiver tx) (tx_amount tx) else mret tt.
Definition pay_treasury (tx : Transaction) : st World string unit :=
  if 0 <? tx_fee tx / 10 then
    pay "Balance overflow — this should never happen" fee_treasury (tx_fee tx / 10)
  else mret tt.

Definition transition `{Build} (tx : Transaction) : st World string unit := fun w =>
  let a := account_at (tx_sender tx) w in
  match sender_error tx a with
  | Some e => (w, Err e)
  | None =>
    match add_u64 (acc_nonce a) 1 with
    | Ok n => (pay_receiver tx ;; pay_treasury tx) (put_account (sender_after tx n a) w)
    | Err e => (w, Err e)
    | Panic => (w, Panic)
    end
  end.

Lemma pay_bind msg addr n (k : st World string unit) w :
  (pay msg addr n ;; k) w =
  if acc_balance (account_at addr w) + n <=? u64_max
  then k (put_account (set_balance (acc_balance (account_at addr w) + n) (account_at addr w)) w)
  else (w, Err msg).
Proof. unfold mbind, st_bind, pay. by destruct (_ <=? u64_max). Qed.

Section trie_rules.
Context `{Build} `{Sha3} `{HexCodec} `{SledLaws} `{!Serde Account} `{!SerdeLaws Account}.

Lemma apply_fee_split_refines tx : tx_wf tx -> refines (apply_fee_split (tx_fee tx)) (pay_treasury tx).
Proof.
  intros (_ & Hf & _). unfold apply_fee_split, pay_treasury.
  destruct (Z.ltb_spec 0 (tx_fee tx / 10)); [|apply refines_ret].
  intros w. eapply wp_refines; [apply credit_account_refines|].
  - unfold is_u64 in *. pose proof (Z.div_le_upper_bound (tx_fee tx) 10 (tx_fee tx)). lia.
  - unfold credit_spec, pay, checked_add_u64. by destruct (_ <=? u64_max).
Qed.

(** The ending of the four handlers: save the sender, pay the treasury. *)
Lemma wp_finish tx a w :
  tx_wf tx -> account_wf a -> is_transfer tx = false ->
  wp (save_account a ;; apply_fee_split (tx_fee tx)) w (fun r w' =>
    (w', r) = (pay_receiver tx ;; pay_treasury tx) (put_account a w)).
Proof.
  intros Htx Ha Ht. apply wp_bind, wp_save_account; [done|].
  eapply wp_refines; [by apply apply_fee_split_refines|]. unfold pay_receiver. rewrite Ht.
  symmetry. exact (surjective_pairing _).
Qed.

Lemma apply_transfer_refines tx :
  tx_wf tx -> tx_transaction_type tx = Transfer -> refines (apply_transfer tx) (transition tx).
Proof.
  intros (Ha & Hf & Hn) Ht w. apply wp_valid. intros Hw. unfold transition, sender_error, sender_after.
  rewrite Ht. destruct (account_at_valid (tx_sender tx) w Hw) as (Haddr & Hb & Hs & Hno & Hl).
  apply wp_bind, wp_get_or_create_account. apply wp_bind, wp_lift. unfold checked_add_u64, is_u64 in *.
  destruct (Z.leb_spec (tx_amount tx + tx_fee tx) u64_max), (Z.ltb_spec u64_max (tx_amount tx + tx_fee tx));
    try lia; [|done]. cbn [ok_or].
  destruct (Z.ltb_spec (acc_balance (account_at (tx_sender tx) w)) (tx_amount tx + tx_fee tx)); [by apply wp_fail|].
  destruct (acc_nonce _ =? tx_nonce tx); cbn [negb]; [|by apply wp_fail].
  apply wp_bind, wp_lift. rewrite sub_u64_ok by lia. apply wp_bind, wp_lift.
  destruct (add_u64 (acc_nonce _) 1) as [n|e|] eqn:Hadd; [|done..]. apply unsigned_inv in Hadd; [|done].
  apply wp_bind, wp_save_account; [unfold account_wf, is_u64; cbn; lia|].
  set (w1 := put_account _ w). set (w1' := put_account _ w).
  assert (w1' = w1) as Hw1.
  { unfold w1', w1, set_balance, set_nonce. cbn. do 2 f_equal. lia. }
  rewrite Hw1. clearbody w1. apply wp_valid. intros Hw1v.
  destruct (account_at_valid (tx_receiver tx) w1 Hw1v) as (_ & Hrb & Hrest). unfold is_u64 in *.
  apply wp_bind, wp_get_or_create_account. apply wp_bind, wp_lift.
  unfold pay_receiver, is_transfer. rewrite Ht, bool_decide_true, pay_bind by done.
  destruct (Z.leb_spec (acc_balance (account_at (tx_receiver tx) w1) + tx_amount tx) u64_max); [|done].
  cbn [ok_or]. apply wp_bind, wp_save_account; [unfold account_wf, is_u64; cbn; naive_solver lia|].
  by apply (apply_fee_split_refines tx).
Qed.

Lemma apply_stake_lock_refines tx :
  tx_wf tx -> tx_transaction_type tx = StakeLock -> refines (apply_stake_lock tx) (transition tx).
Proof.
  intros Htx Ht w. apply wp_valid. intros Hw. unfold transition, sender_error, sender_after.
  pose proof Htx as (Ha & Hf & Hn).
  rewrite Ht. destruct (account_at_valid (tx_sender tx) w Hw) as (Haddr & Hb & Hs & Hno & Hl).
  apply wp_bind, wp_get_or_create_account. apply wp_bind, wp_lift. unfold checked_add_u64, is_u64 in *.
  destruct (Z.leb_spec (tx_amount tx + tx_fee tx) u64_max), (Z.ltb_spec u64_max (tx_amount tx + tx_fee tx));
    try lia; [|done]. cbn [ok_or].
  destruct (Z.ltb_spec (acc_balance (account_at (tx_sender tx) w)) (tx_amount tx + tx_fee tx)); [by apply wp_fail|].
  destruct (acc_nonce _ =? tx_nonce tx); cbn [negb]; [|by apply wp_fail].
  apply wp_bind, wp_lift. rewrite sub_u64_ok by lia. apply wp_bind, wp_lift.
  destruct (Z.leb_spec (acc_staked_balance (account_at (tx_sender tx) w) + tx_amount tx) u64_max),
    (Z.ltb_spec u64_max (acc_staked_balance (account_at (tx_sender tx) w) + tx_amount tx));
    try lia; [|done]. cbn [ok_or]. apply wp_bind, wp_lift.
  destruct (add_u64 (acc_nonce _) 1) as [n|e|] eqn:Hadd; [|done..]. apply unsigned_inv in Hadd; [|done].
  eapply wp_mono; [|apply (wp_finish tx); [done|unfold account_wf, is_u64; cbn; lia|]].
  - cbn beta. intros r w' ->.
    apply (f_equal (fun a => (pay_receiver tx ;; pay_treasury tx) (put_account a w))).
    unfold stake, update_validator_tier, set_validator_tier, set_balance, set_nonce. cbn. f_equal; lia.
  - unfold is_transfer. by rewrite Ht.
Qed.

Lemma apply_stake_unlock_refines tx :
  tx_wf tx -> tx_transaction_type tx = StakeUnlock -> refines (apply_stake_unlock tx) (transition tx).
Proof.
  intros Htx Ht w. apply wp_valid. intros Hw. unfold transition, sender_error, sender_after.
  pose proof Htx as (Ha & Hf & Hn).
  rewrite Ht. destruct (account_at_valid (tx_sender tx) w Hw) as (Haddr & Hb & Hs & Hno & Hl).
  apply wp_bind, wp_get_or_create_account. unfold checked_add_u64, is_u64 in *.
  destruct (Z.ltb_spec (acc_staked_balance (account_at (tx_sender tx) w)) (tx_amount tx)); [by apply wp_fail|].
  destruct (Z.ltb_spec (acc_balance (account_at (tx_sender tx) w)) (tx_fee tx)); [by apply wp_fail|].
  destruct (acc_nonce _ =? tx_nonce tx); cbn [negb]; [|by apply wp_fail].
  apply wp_bind, wp_lift. rewrite sub_u64_ok by lia. apply wp_bind, wp_lift.
  destruct (Z.leb_spec (acc_balance (account_at (tx_sender tx) w) + tx_amount tx) u64_max),
    (Z.ltb_spec u64_max (acc_balance (account_at (tx_sender tx) w) + tx_amount tx));
    try lia; [|done]. cbn [ok_or]. apply wp_bind, wp_lift. rewrite sub_u64_ok by lia. apply wp_bind, wp_lift.
  destruct (add_u64 (acc_nonce _) 1) as [n|e|] eqn:Hadd; [|done..]. apply unsigned_inv in Hadd; [|done].
  eapply wp_mono; [|apply (wp_finish tx); [done|unfold account_wf, is_u64; cbn; lia|]].
  - cbn beta. intros r w' ->.
    apply (f_equal (fun a => (pay_receiver tx ;; pay_treasury tx) (put_account a w))).
    unfold stake, update_validator_tier, set_validator_tier, set_balance, set_nonce. cbn.
    rewrite !Z.add_opp_r. f_equal; lia.
  - unfold is_transfer. by rewrite Ht.
Qed.

Lemma apply_fee_only_refines tx :
  tx_wf tx -> tx_transaction_type tx = ContractDeploy \/ tx_transaction_type tx = ContractCall ->
  refines (apply_fee_only tx) (transition tx).
Proof.
  intros Htx Ht w. apply wp_valid. intros Hw. pose proof Htx as (Ha & Hf & Hn).
  assert (transition tx w = let a := account_at (tx_sender tx) w in
    if acc_balance a <? tx_fee tx then (w, Err "Insufficient balance for fee")
    else if acc_nonce a =? tx_nonce tx then
      match add_u64 (acc_nonce a) 1 with
      | Ok n => (pay_receiver tx ;; pay_treasury tx)
          (put_account (set_nonce n (set_balance (acc_balance a - tx_fee tx) a)) w)
      | Err e => (w, Err e)
      | Panic => (w, Panic)
      end
    else (w, Err (nonce_mismatch (acc_nonce a) (tx_nonce tx)))) as ->.
  { unfold transition, sender_error, sender_after. cbv zeta.
    destruct Ht as [-> | ->]; (destruct (_ <? tx_fee tx); [done|]); by destruct (_ =? tx_nonce tx). }
  destruct (account_at_valid (tx_sender tx) w Hw) as (Haddr & Hb & Hs & Hno & Hl).
  apply wp_bind, wp_get_or_create_account. unfold is_u64 in *. cbv zeta.
  destruct (Z.ltb_spec (acc_balance (account_at (tx_sender tx) w)) (tx_fee tx)); [by apply wp_fail|].
  destruct (acc_nonce _ =? tx_nonce tx); cbn [negb]; [|by apply wp_fail].
  apply wp_bind, wp_lift. rewrite sub_u64_ok by lia. apply wp_bind, wp_lift.
  destruct (add_u64 (acc_nonce _) 1) as [n|e|] eqn:Hadd; [|done..]. apply unsigned_inv in Hadd; [|done].
  apply (wp_finish tx); [done|unfold account_wf, is_u64; cbn; lia|].
  unfold is_transfer. by destruct Ht as [-> | ->].
Qed.

Lemma apply_transaction_refines tx : tx_wf tx -> refines (apply_transaction tx) (transition tx).
Proof.
  intros Htx. unfold apply_transaction. destruct (tx_transaction_type tx) eqn:Ht;
    auto using apply_transfer_refines, apply_stake_lock_refines, apply_stake_unlock_refines,
      apply_fee_only_refines.
Qed.
End trie_rules.

(** ** Facts about the transition function *)

Definition kept_nonces (w w' : World) : Prop :=
  forall x, acc_nonce (account_at x w') = acc_nonce (account_at x w).

Lemma pay_facts msg addr n w w' r :
  valid w -> 0 <= n -> pay msg addr n w = (w', r) ->
  valid w' /\ (tiers_consistent w -> tiers_consistent w') /\ kept_nonces w w' /\
  (forall k, k <> addr -> w_accounts w' !! k = w_accounts w !! k) /\
  match r with
  | Ok _ => supply w' = supply w + n
  | Err _ => w' = w /\ u64_max < supply w + n
  | Panic => False
  end.
Proof.
  intros Hw Hn. unfold pay. cbv zeta.
  destruct (account_at_valid addr w Hw) as (Ha & Hwf). pose proof (holdings_le_supply addr w Hw).
  unfold holdings, account_wf, is_u64 in *.
  destruct (Z.leb_spec (acc_balance (account_at addr w) + n) u64_max); intros [= <- <-].
  - split_and!.
    + apply put_account_valid; [done|]. unfold account_wf, is_u64. cbn. lia.
    + intros Ht. apply put_account_tiers; [done|]. exact (account_at_tier addr w Ht).
    + intros x. rewrite account_at_put. cbn. rewrite Ha. by case_decide; subst.
    + intros k Hk. cbn. rewrite lookup_insert_ne; [done|]. congruence.
    + rewrite supply_put. unfold holdings. cbn. rewrite Ha. lia.
  - split_and!; try done. lia.
Qed.

Lemma pay_receiver_facts tx w w' r :
  valid w -> tx_wf tx -> pay_receiver tx w = (w', r) ->
  valid w' /\ (tiers_consistent w -> tiers_consistent w') /\ kept_nonces w w' /\
  (forall k, k <> tx_receiver tx -> w_accounts w' !! k = w_accounts w !! k) /\
  let amount := if is_transfer tx then tx_amount tx else 0 in
  match r with
  | Ok _ => supply w' = supply w + amount
  | Err _ => w' = w /\ u64_max < supply w + amount
  | Panic => False
  end.
Proof.
  unfold tx_wf, is_u64. intros Hw Htx. unfold pay_receiver. destruct (is_transfer tx).
  - apply pay_facts; [done|lia].
  - intros [= <- <-]. split_and!; try done. lia.
Qed.

Lemma pay_treasury_facts tx w w' r :
  valid w -> tx_wf tx -> pay_treasury tx w = (w', r) ->
  valid w' /\ (tiers_consistent w -> tiers_consistent w') /\ kept_nonces w w' /\
  (forall k, k <> fee_treasury -> w_accounts w' !! k = w_accounts w !! k) /\
  match r with
  | Ok _ => supply w' = supply w + tx_fee tx / 10
  | Err _ => w' = w /\ u64_max < supply w + tx_fee tx / 10
  | Panic => False
  end.
Proof.
  intros Hw (_ & Hf & _). pose proof (Z.div_pos (tx_fee tx) 10 (proj1 Hf) ltac:(lia)).
  unfold pay_treasury. destruct (Z.ltb_spec 0 (tx_fee tx / 10)).
  - by apply pay_facts.
  - intros [= <- <-]. split_and!; try done. lia.
Qed.

(** What the checks of the sender establish. *)
Lemma sender_ok tx a n :
  tx_wf tx -> account_wf a -> is_u64 n -> sender_error tx a = None ->
  acc_nonce a = tx_nonce tx /\ account_wf (sender_after tx n a) /\
  (tier_consistent a -> tier_consistent (sender_after tx n a)) /\
  holdings (sender_after tx n a) =
    holdings a - tx_fee tx - (if is_transfer tx then tx_amount tx else 0) /\
  acc_nonce (sender_after tx n a) = n /\ acc_address (sender_after tx n a) = acc_address a.
Proof.
  unfold tx_wf, account_wf, is_u64, sender_error, sender_after, is_transfer, holdings, tier_consistent.
  intros Htx Ha Hn.
  destruct (tx_transaction_type tx); cbn -[from_staked_balance];
    repeat match goal with
    | |- context [?x <? ?y] => destruct (Z.ltb_spec x y); try (intros; discriminate)
    | |- context [?x =? ?y] => destruct (Z.eqb_spec x y); try (intros; discriminate)
    end; intros _; split_and!; first [done|lia|case_bool_decide; first [done|lia]].
Qed.

Lemma sender_nonce_ok tx a :
  sender_error tx a = None -> acc_nonce a = tx_nonce tx.
Proof.
  unfold sender_error.
  destruct (tx_transaction_type tx); repeat match goal with
    | |- context [?x <? ?y] => destruct (Z.ltb_spec x y); try (intros; discriminate)
    | |- context [?x =? ?y] => destruct (Z.eqb_spec x y); try (intros; discriminate)
    end; done.
Qed.

(** The part of the supply a transaction destroys. *)
Definition burned (tx : Transaction) : Z := tx_fee tx - tx_fee tx / 10.
Lemma burned_nonneg tx : tx_wf tx -> 0 <= burned tx.
Proof. intros (_ & Hf & _). unfold is_u64 in Hf. unfold burned. pose proof (Z.div_le_upper_bound (tx_fee tx) 10 (tx_fee tx)). lia. Qed.

Lemma add_one_changes `{Build} {E} n m : is_u64 n -> add_u64 (E:=E) n 1 = Ok m -> is_u64 m /\ m <> n.
Proof.
  unfold is_u64. intros Hn Ha. split; [by eapply unsigned_inv|]. intros ->. revert Ha.
  unfold add_u64, unsigned. destruct (Z.leb_spec 0 (n + 1)), (Z.leb_spec (n + 1) u64_max); cbn;
    try (intros [= ?]; lia); try lia. destruct overflow_checks; [done|].
  assert (n = u64_max) as -> by lia. done.
Qed.

(** The world after the sender is charged. *)
Lemma sender_step tx n w :
  valid w -> tx_wf tx -> is_u64 n -> sender_error tx (account_at (tx_sender tx) w) = None ->
  let w1 := put_account (sender_after tx n (account_at (tx_sender tx) w)) w in
  valid w1 /\ (tiers_consistent w -> tiers_consistent w1) /\
  supply w1 = supply w - tx_fee tx - (if is_transfer tx then tx_amount tx else 0) /\
  acc_nonce (account_at (tx_sender tx) w1) = n /\
  (forall x, x <> tx_sender tx -> account_at x w1 = account_at x w) /\
  (forall k, k <> tx_sender tx -> w_accounts w1 !! k = w_accounts w !! k).
Proof.
  intros Hw Htx Hn He w1. destruct (account_at_valid (tx_sender tx) w Hw) as (Haddr & Hwf).
  destruct (sender_ok tx _ n Htx Hwf Hn He) as (_ & Hwf' & Htier & Hhold & Hn' & Haddr').
  unfold w1. split_and!.
  - by apply put_account_valid.
  - intros Ht. apply put_account_tiers; [done|]. by apply Htier, account_at_tier.
  - rewrite supply_put, Haddr', Haddr. lia.
  - by rewrite account_at_put, Haddr', Haddr, decide_True.
  - intros x Hx. by rewrite account_at_put, Haddr', Haddr, decide_False.
  - intros k Hk. cbn. rewrite Haddr', Haddr. by rewrite lookup_insert_ne.
Qed.

Lemma add_one_panic `{Build} {E} n :
  is_u64 n -> add_u64 (E:=E) n 1 = Panic -> overflow_checks = true /\ n = u64_max.
Proof.
  unfold is_u64, add_u64, unsigned. intros Hn.
  destruct (Z.leb_spec 0 (n + 1)), (Z.leb_spec (n + 1) u64_max); cbn; try done; try lia.
  destruct overflow_checks; [|done]. intros _. split; [done|lia].
Qed.

Lemma transition_facts `{Build} tx w w' r :
  valid w -> tx_wf tx -> transition tx w = (w', r) ->
  valid w' /\ (tiers_consistent w -> tiers_consistent w') /\
  (forall k, k <> tx_sender tx -> k <> tx_receiver tx -> k <> fee_treasury ->
    w_accounts w' !! k = w_accounts w !! k) /\
  match r with
  | Ok _ =>
    supply w' = supply w - burned tx /\
    acc_nonce (account_at (tx_sender tx) w) = tx_nonce tx /\
    add_u64 (E:=string) (tx_nonce tx) 1 = Ok (acc_nonce (account_at (tx_sender tx) w')) /\
    forall x, x <> tx_sender tx -> acc_nonce (account_at x w') = acc_nonce (account_at x w)
  | Err _ => w' = w \/ u64_max < supply w
  | Panic => w' = w /\ overflow_checks = true /\ acc_nonce (account_at (tx_sender tx) w) = u64_max
  end.
Proof.
  intros Hw Htx. unfold transition. cbv zeta.
  destruct (account_at_valid (tx_sender tx) w Hw) as (_ & _ & _ & Han & _).
  destruct (sender_error tx _) as [e|] eqn:He; [intros [= <- <-]; split_and!; auto|].
  pose proof (sender_nonce_ok tx _ He) as Hno.
  destruct (add_u64 _ 1) as [n|e|] eqn:Hadd; [|by apply unsigned_no_err in Hadd|].
  2: { intros [= <- <-]. apply add_one_panic in Hadd as [? ?]; [|done]. by split_and!. }
  destruct (sender_step tx n w Hw Htx ltac:(by eapply unsigned_inv) He) as
    (Hw1 & Ht1 & Hs1 & Hn1 & Ho1 & Hk1).
  set (w1 := put_account _ w) in *.
  assert (0 <= tx_amount tx /\ tx_fee tx / 10 <= tx_fee tx /\ 0 <= tx_fee tx) as (Ha0 & Hf10 & Hf0).
  { destruct Htx as (? & ? & _). unfold is_u64 in *. split_and!; try lia. apply Z.div_le_upper_bound; lia. }
  unfold mbind, st_bind. destruct (pay_receiver tx w1) as [w2 r2] eqn:H2.
  apply pay_receiver_facts in H2 as (Hw2 & Ht2 & Hk2 & Ho2 & Hr2); [|done..].
  cbv zeta in Hr2. destruct r2 as [[]|e2|]; [| |done].
  2: { destruct Hr2 as [-> Hov]. intros [= <- <-]. split_and!; auto. right. case_match; lia. }
  intros H3. apply pay_treasury_facts in H3 as (Hw3 & Ht3 & Hk3 & Ho3 & Hr3); [|done..].
  split_and!; auto.
  { intros k ???. by rewrite Ho3, Ho2, Hk1. }
  destruct r as [[]|e3|]; [| |done].
  - unfold burned. split_and!; [case_match; lia|done|by rewrite <-Hno, (Hk3 _), (Hk2 _), Hn1|].
    intros x Hx. rewrite (Hk3 x), (Hk2 x). by rewrite Ho1.
  - right. destruct Hr3 as [_ Hov]. case_match; lia.
Qed.

(** ** Computations on the accounts alone

    What they do to the accounts and what they answer depends on the accounts
    alone, and they leave the other trees as they are. *)
Class Local {E A} (s : st World E A) : Prop :=
  local w w0 : s (set_accounts (w_accounts w) w0) = (set_accounts (w_accounts (s w).1) w0, (s w).2).

#[export] Instance local_ret {E A} (a : A) : Local (mret a : st World E A).
Proof. done. Qed.
#[export] Instance local_bind {E A B} (s : st World E A) (k : A -> st World E B) :
  Local s -> (forall a, Local (k a)) -> Local (s ≫= k).
Proof.
  intros Hs Hk w w0. rewrite !st_bind_run, Hs. destruct (s w) as [w1 [a|e|]]; [|done..]. apply Hk.
Qed.
#[export] Instance local_for {E X} (l : list X) (body : X -> st World E unit) :
  (forall x, Local (body x)) -> Local (st_for l body).
Proof. intros Hb. induction l as [|x l IH]; cbn [st_for]; apply _. Qed.
#[export] Instance local_pay msg addr n : Local (pay msg addr n).
Proof.
  intros w w0. unfold pay. cbv zeta. change (account_at addr (set_accounts (w_accounts w) w0)) with (account_at addr w).
  by case_match.
Qed.
#[export] Instance local_pays tx : Local (pay_receiver tx ;; pay_treasury tx).
Proof. unfold pay_receiver, pay_treasury. destruct (is_transfer tx), (0 <? _); apply _. Qed.
#[export] Instance local_transition `{Build} tx : Local (transition tx).
Proof.
  intros w w0. unfold transition. cbv zeta.
  change (account_at (tx_sender tx) (set_accounts (w_accounts w) w0)) with (account_at (tx_sender tx) w).
  destruct (sender_error _ _); [done|]. destruct (add_u64 _ _) as [n|e|]; [|done..].
  exact (local_pays tx (put_account (sender_after tx n (account_at (tx_sender tx) w)) w) w0).
Qed.
Lemma local_frame {E A} (s : st World E A) `{!Local s} w : (s w).1 = set_accounts (w_accounts (s w).1) w.
Proof. pose proof (local (s:=s) w w) as Hl. rewrite set_accounts_id in Hl. by rewrite Hl at 1. Qed.
(** On worlds with the same accounts they do the same. *)
Lemma local_same {E A} (s : st World E A) `{!Local s} w w' :
  w_accounts w = w_accounts w' -> w_accounts (s w).1 = w_accounts (s w').1 /\ (s w).2 = (s w').2.
Proof.
  intros Hw. pose proof (local (s:=s) w w') as Hl. rewrite Hw, set_accounts_id in Hl. by rewrite Hl.
Qed.

(** Only the sender's stake changes, and by a lock exactly by its amount. *)
Lemma pay_stake msg addr n w x :
  valid w -> acc_staked_balance (account_at x (pay msg addr n w).1) = acc_staked_balance (account_at x w).
Proof.
  intros Hw. destruct (account_at_valid addr w Hw) as [Haddr _]. unfold pay. case_match; [|done].
  cbn [fst]. rewrite account_at_put. cbn. rewrite Haddr. case_decide; by subst.
Qed.
Lemma transition_locks `{Build} tx w w' :
  valid w -> tx_wf tx -> tx_transaction_type tx = StakeLock -> transition tx w = (w', Ok tt) ->
  acc_staked_balance (account_at (tx_sender tx) w') = acc_staked_balance (account_at (tx_sender tx) w) + tx_amount tx.
Proof.
  intros Hw Htx Hty. unfold transition. cbv zeta. destruct (sender_error tx _) as [e|] eqn:He; [done|].
  destruct (add_u64 _ 1) as [n|e|] eqn:Hadd; [|done..].
  destruct (sender_step tx n w Hw Htx ltac:(by eapply unsigned_inv) He) as (Hw1 & _).
  destruct (account_at_valid (tx_sender tx) w Hw) as [Haddr _].
  assert (acc_address (sender_after tx n (account_at (tx_sender tx) w)) = tx_sender tx) as Ha
    by (unfold sender_after; by rewrite Hty).
  assert (acc_staked_balance (sender_after tx n (account_at (tx_sender tx) w)) =
    acc_staked_balance (account_at (tx_sender tx) w) + tx_amount tx) as Hs by (unfold sender_after; by rewrite Hty).
  set (w1 := put_account _ w) in *.
  assert (acc_staked_balance (account_at (tx_sender tx) w1) =
    acc_staked_balance (account_at (tx_sender tx) w) + tx_amount tx) as Hs1.
  { unfold w1. by rewrite account_at_put, Ha, decide_True. }
  rewrite st_bind_run. unfold pay_receiver, is_transfer. rewrite Hty. rewrite bool_decide_false by done. unfold pay_treasury. cbn.
  pose proof (pay_stake "Balance overflow — this should never happen" fee_treasury (tx_fee tx / 10) w1 (tx_sender tx) Hw1) as Hp.
  destruct (0 <? tx_fee tx / 10); [|intros [= <-]; exact Hs1].
  intros Hpay. rewrite Hpay in Hp. cbn in Hp. congruence.
Qed.

(** ** Sequences of transactions *)

Definition nonces_of (addr : string) (txs : list Transaction) : list Z :=
  tx_nonce <$> filter (fun tx => tx_sender tx = addr) txs.

Lemma transitions_frame `{Build} txs w :
  valid w -> Forall tx_wf txs ->
  let '(w', r) := st_for txs transition w in
  valid w' /\
  forall k, (forall tx, tx ∈ txs -> k <> tx_sender tx /\ k <> tx_receiver tx) -> k <> fee_treasury ->
    w_accounts w' !! k = w_accounts w !! k.
Proof.
  intros Hw Htxs. revert w Hw. induction Htxs as [|tx txs Htx Htxs IH]; intros w Hw; [done|].
  cbn [st_for]. unfold mbind, st_bind. destruct (transition tx w) as [w1 r1] eqn:H1.
  apply transition_facts in H1 as (Hw1 & _ & Hf & _); [|done..].
  assert (forall k, (forall t, t ∈ tx :: txs -> k <> tx_sender t /\ k <> tx_receiver t) -> k <> fee_treasury ->
    w_accounts w1 !! k = w_accounts w !! k) as Hf1.
  { intros k Hk Hkt. destruct (Hk tx) as [? ?]; [by left|]. by apply Hf. }
  destruct r1 as [[]|e|]; [|by split..]. specialize (IH w1 Hw1).
  destruct (st_for txs transition w1) as [w' r]. destruct IH as [Hw' Hf']. split; [done|].
  intros k Hk Hkt. rewrite Hf', Hf1; [done..| |done]. intros t Ht. apply Hk. by right.
Qed.

Lemma transitions_accounting `{Build} txs w w' :
  valid w -> Forall tx_wf txs ->
  (forall x, acc_nonce (account_at x w) + Z.of_nat (length txs) <= u64_max) ->
  st_for txs transition w = (w', Ok tt) ->
  valid w' /\ (tiers_consistent w -> tiers_consistent w') /\
  supply w' = supply w - sumZ (map burned txs) /\
  forall x, nonces_of x txs = seqZ (acc_nonce (account_at x w)) (Z.of_nat (length (nonces_of x txs))) /\
    acc_nonce (account_at x w') = acc_nonce (account_at x w) + Z.of_nat (length (nonces_of x txs)).
Proof.
  intros Hw Htxs. revert w Hw. induction Htxs as [|tx txs Htx Htxs IH]; intros w Hw Hn.
  { intros [= <-]. cbn. split_and!; try done; try lia. intros x. split; [done|lia]. }
  cbn [st_for]. unfold mbind, st_bind. destruct (transition tx w) as [w1 [[]|e|]] eqn:H1; [|done..].
  apply transition_facts in H1 as (Hw1 & Ht1 & _ & Hs1 & Hno & Hadd & Ho); [|done..]. intros Hrest.
  cbn [length] in Hn. destruct (account_at_valid (tx_sender tx) w Hw) as (_ & _ & _ & Hrange & _).
  unfold is_u64 in Hrange.
  pose proof (Hn (tx_sender tx)) as Hn0. rewrite add_u64_ok in Hadd by lia. injection Hadd as Hadd.
  assert (forall x, acc_nonce (account_at x w1) =
    acc_nonce (account_at x w) + if decide (tx_sender tx = x) then 1 else 0) as Hx.
  { intros x. case_decide as Hd; [subst; lia|]. rewrite Ho by congruence. lia. }
  destruct (IH w1 Hw1) as (Hw' & Ht' & Hs' & Hx'); [|done|].
  { intros x. rewrite Hx. specialize (Hn x). case_decide; lia. }
  split_and!; [done|by auto|cbn; lia|]. intros x. destruct (Hx' x) as [Hl Hnx]. rewrite Hx in *.
  unfold nonces_of in *. rewrite filter_cons. destruct (decide (tx_sender tx = x)) as [<-|Hd].
  - cbn [fmap list_fmap length]. rewrite Nat2Z.inj_succ, seqZ_cons, Z.pred_succ by lia. split; [|lia].
    f_equal; [lia|]. rewrite Hl at 1. f_equal; lia.
  - rewrite Z.add_0_r in *. split; [exact Hl|lia].
Qed.

(** ** The state root *)

Section root.
Context `{Sha3} `{HexCodec} `{!Serde Account}.

Definition account_json (a : Account) : string := match to_vec a with Ok b => b | _ => "" end.
Definition leaf_preimage (a : Account) : string := acc_address a +:+ account_json a.
(** The text whose digest is the root of the accounts [l]. *)
Definition root_preimage (l : list Account) : string :=
  match l with
  | [] => "kyvera-empty-state"
  | _ => str_concat (merge_sort str_le (map (fun a => sha3_256_hex (leaf_preimage a)) l))
  end.
Definition root_of (w : World) : string := sha3_256_hex (root_preimage (sorted_accounts (w_accounts w))).

Definition addresses_utf8 (w : World) : Prop :=
  forall k a, w_accounts w !! k = Some a -> utf8_valid k = true.

Lemma str_concat_inj (l1 l2 : list string) n :
  (0 < n)%nat -> Forall (fun s => String.length s = n) l1 -> Forall (fun s => String.length s = n) l2 ->
  str_concat l1 = str_concat l2 -> l1 = l2.
Proof.
  intros Hn H1. revert l2. induction H1 as [|x l1 Hx H1 IH]; intros l2 H2.
  - destruct H2 as [|y l2 Hy]; [done|]. cbn. intros He. apply (f_equal String.length) in He.
    rewrite str_length_app in He. cbn in He. lia.
  - destruct H2 as [|y l2 Hy H2]; cbn; intros He.
    + apply (f_equal String.length) in He. rewrite str_length_app in He. cbn in He. lia.
    + apply str_app_inj in He as [-> He]; [|congruence]. f_equal. by apply IH.
Qed.

Lemma merge_sort_perm_inj (l1 l2 : list string) :
  merge_sort str_le l1 = merge_sort str_le l2 -> l1 ≡ₚ l2.
Proof. intros He. by rewrite <-(merge_sort_Permutation str_le l1), He, merge_sort_Permutation. Qed.
End root.

Section root_rules.
Context `{Build} `{Sha3Laws} `{HexLaws} `{SledLaws} `{!Serde Account} `{!SerdeLaws Account}.

Lemma root_fold db items l acc :
  Forall2 (fun item a => exists b, item = Ok (acc_address a, b) /\ from_slice b = Ok a) items l ->
  Forall (fun a => utf8_valid (acc_address a) = true) l ->
  st_fold items acc root_item db = (db, Ok (acc ++ map (fun a => sha3_256_hex (leaf_preimage a)) l)).
Proof.
  intros Hl. revert acc. induction Hl as [|item a items l (b & -> & Hb) Hl IH]; intros acc Hu.
  - cbn. unfold mret, st_ret. by rewrite app_nil_r.
  - apply Forall_cons in Hu as [Hu1 Hu]. destruct (to_vec_total a) as [v Hv].
    cbn [st_fold]. unfold mbind at 1, st_bind, root_item. unfold st_lift, mbind, st_bind. cbn [map_err].
    cbn [fst snd]. rewrite from_utf8_valid, Hb by done. cbn [map_err]. rewrite Hv. cbn [map_err mret st_ret].
    unfold mret, st_ret. rewrite IH by done. cbn [map]. rewrite <-app_assoc.
    assert (leaf_preimage a = acc_address a +:+ v) as -> by (unfold leaf_preimage, account_json; by rewrite Hv). done.
Qed.

Lemma leaf_preimage_inj a b :
  String.length (acc_address a) = String.length (acc_address b) ->
  leaf_preimage a = leaf_preimage b -> a = b.
Proof.
  unfold leaf_preimage, account_json. intros Hl He. destruct (str_app_inj _ _ _ _ Hl He) as [_ Hj].
  destruct (to_vec_total a) as [x Hx], (to_vec_total b) as [y Hy]. rewrite Hx, Hy in Hj. subst y.
  apply from_to_vec in Hx, Hy. congruence.
Qed.

Lemma sha3_256_hex_inj x y : sha3_256_hex x = sha3_256_hex y -> sha3_256_digest x = sha3_256_digest y.
Proof. apply hex_encode_inj. Qed.

Lemma leaf_hashes_length l :
  Forall (fun s => String.length s = 64%nat)
    (merge_sort str_le (map (fun a => sha3_256_hex (leaf_preimage a)) l)).
Proof.
  rewrite merge_sort_Permutation. apply Forall_map. apply Forall_forall. intros a _.
  apply sha3_256_hex_length.
Qed.

(** Equal root preimages come from the same leaf hashes. *)
Lemma root_preimage_leaves l1 l2 :
  root_preimage l1 = root_preimage l2 ->
  map (fun a => sha3_256_hex (leaf_preimage a)) l1 ≡ₚ map (fun a => sha3_256_hex (leaf_preimage a)) l2.
Proof.
  assert (forall l a, str_concat (merge_sort str_le (map (fun a => sha3_256_hex (leaf_preimage a)) (a :: l)))
    <> "kyvera-empty-state") as Hne.
  { intros l a He. pose proof (leaf_hashes_length (a :: l)) as Hl.
    pose proof (Permutation_length (merge_sort_Permutation str_le
      (map (fun a => sha3_256_hex (leaf_preimage a)) (a :: l)))) as Hlen.
    destruct (merge_sort str_le _) as [|x xs]; [done|]. apply Forall_cons in Hl as [Hx _].
    apply (f_equal String.length) in He. cbn [str_concat] in He. rewrite str_length_app, Hx in He.
    cbn in He. lia. }
  destruct l1 as [|a l1], l2 as [|b l2]; [done|intros He; by destruct (Hne l2 b)|
    intros He; by destruct (Hne l1 a)|].
  intros He. apply merge_sort_perm_inj. eapply (str_concat_inj _ _ 64); [lia|apply leaf_hashes_length..|].
  exact He.
Qed.

Lemma same_leaves l1 l2 a n :
  (forall b, b ∈ l1 \/ b ∈ l2 -> String.length (acc_address b) = n) ->
  (forall x y, x ∈ map leaf_preimage l1 -> y ∈ map leaf_preimage l2 ->
    sha3_256_digest x = sha3_256_digest y -> x = y) ->
  map (fun a => sha3_256_hex (leaf_preimage a)) l1 ≡ₚ map (fun a => sha3_256_hex (leaf_preimage a)) l2 ->
  a ∈ l1 -> a ∈ l2.
Proof.
  intros Hn Hinj Hp Ha.
  assert (sha3_256_hex (leaf_preimage a) ∈ map (fun a => sha3_256_hex (leaf_preimage a)) l2) as Hin.
  { rewrite <-Hp. by apply (list_elem_of_fmap_2 (fun a => sha3_256_hex (leaf_preimage a))). }
  apply (list_elem_of_fmap (fun a => sha3_256_hex (leaf_preimage a))) in Hin as (b & He & Hb).
  apply sha3_256_hex_inj, Hinj in He; [|by apply (list_elem_of_fmap_2 leaf_preimage)..].
  apply leaf_preimage_inj in He as ->; [done|]. rewrite !Hn; auto.
Qed.

Lemma compute_state_root_run db w :
  Rep db w -> addresses_utf8 w -> compute_state_root db = (db, Ok (root_of w)).
Proof.
  intros Hdb Hu. unfold compute_state_root, iter_tree, st_gets. unfold mbind, st_bind.
  rewrite (root_fold db _ (sorted_accounts (w_accounts w)) []).
  - cbn [app]. unfold root_of, root_preimage, empty_state_root.
    by destruct (sorted_accounts (w_accounts w)).
  - by apply Rep_iter_accounts.
  - apply Forall_forall. intros a Ha. apply elem_of_sorted_accounts in Ha; [|by eapply Rep_valid].
    by eapply Hu.
Qed.
Lemma wp_compute_state_root w Q :
  addresses_utf8 w -> Q (Ok (root_of w)) w -> wp compute_state_root w Q.
Proof.
  intros Hu HQ db Hdb. exists w. rewrite (compute_state_root_run db w) by done. done.
Qed.
End root_rules.

(** ** Snapshots *)

Section snapshot_rules.
Context `{Build} `{Sha3} `{HexCodec} `{SledLaws} `{!Serde Account} `{!SerdeLaws Account}.

Definition recorded_root (w : World) : string := default empty_state_root (w_metadata w !! STATE_ROOT_KEY).
Definition recorded_root_utf8 (w : World) : Prop :=
  forall b, w_metadata w !! STATE_ROOT_KEY = Some b -> utf8_valid b = true.

Lemma wp_load_state_root w Q :
  recorded_root_utf8 w -> Q (Ok (w_metadata w !! STATE_ROOT_KEY)) w -> wp load_state_root w Q.
Proof.
  intros Hu HQ. apply wp_bind, wp_read; [done|]. cbn.
  destruct (w_metadata w !! STATE_ROOT_KEY) as [b|] eqn:Hb; [|by apply wp_ret].
  apply wp_bind, wp_lift. rewrite from_utf8_valid by by apply Hu. by apply wp_ret.
Qed.

Lemma snapshot_fold addrs acc w (Q : res string _ -> World -> Prop) :
  Q (Ok (acc ++ map (fun a => (a, w_accounts w !! a)) addrs)) w ->
  wp (st_fold addrs acc snapshot_item) w Q.
Proof.
  revert acc. induction addrs as [|a addrs IH]; intros acc HQ; cbn [st_fold].
  - apply wp_ret. by rewrite app_nil_r in HQ.
  - apply wp_bind, wp_bind, wp_get_account, wp_ret, IH. by rewrite <-app_assoc.
Qed.

Definition snapshot_of (height : Z) (addrs : list string) (w : World) : StateSnapshot :=
  mkStateSnapshot height (recorded_root w) (map (fun a => (a, w_accounts w !! a)) addrs).

Lemma wp_take_snapshot height addrs w (Q : res string StateSnapshot -> World -> Prop) :
  recorded_root_utf8 w -> Q (Ok (snapshot_of height addrs w)) w ->
  wp (take_snapshot height addrs) w Q.
Proof.
  intros Hu HQ. apply wp_bind, wp_load_state_root; [done|].
  apply wp_bind, snapshot_fold. by apply wp_ret.
Qed.

Lemma wp_delete_account k w (Q : res string unit -> World -> Prop) :
  Q (Ok tt) (set_accounts (base.delete k (w_accounts w)) w) -> wp (delete Accounts k) w Q.
Proof.
  intros HQ db (Hon & Hraw & Hacc). exists (set_accounts (base.delete k (w_accounts w)) w). unfold delete.
  pose proof (tree_remove_result (get_tree Accounts db) k (Hon Accounts)) as Hr.
  pose proof (tree_remove_contents (get_tree Accounts db) k (Hon Accounts)) as Hc.
  pose proof (tree_remove_online (get_tree Accounts db) k (Hon Accounts)) as Ho.
  destruct (tree_remove _ _) as [t r]. cbn in *. subst r. split; [|done]. split_and!.
  - intros n. destruct (decide (n = Accounts)) as [->|]; [by rewrite get_set_tree|].
    by rewrite get_set_tree_ne.
  - intros n Hn. rewrite get_set_tree_ne by done. rewrite Hraw by done. by destruct n.
  - change (accounts (set_tree Accounts t db)) with (get_tree Accounts (set_tree Accounts t db)).
    rewrite get_set_tree, Hc. intros x. cbn. specialize (Hacc x).
    destruct (decide (k = x)) as [->|Hk]; [by rewrite !lookup_delete_eq|by rewrite !lookup_delete_ne].
Qed.

(** Restoring the entries [addrs] of the map [m]. *)
Lemma wp_restore (m : gmap string Account) addrs w (Q : res string unit -> World -> Prop) :
  (forall k a, m !! k = Some a -> acc_address a = k /\ account_wf a) ->
  (forall m', (forall k, m' !! k = if decide (k ∈ addrs) then m !! k else w_accounts w !! k) ->
    Q (Ok tt) (set_accounts m' w)) ->
  wp (st_for (map (fun a => (a, m !! a)) addrs) restore_item) w Q.
Proof.
  intros Hm. revert w. induction addrs as [|a addrs IH]; intros w HQ; cbn [map st_for].
  { apply wp_ret. destruct w as [ac bh bt tr md]. apply (HQ ac). intros k. rewrite decide_False; [done|set_solver]. }
  assert (forall m1, (forall k, m1 !! k = if decide (k = a) then m !! k else w_accounts w !! k) ->
    wp (st_for (map (fun a => (a, m !! a)) addrs) restore_item) (set_accounts m1 w) Q) as Hrest.
  { intros m1 Hk1. apply IH. intros m' Hk'. apply (HQ m').
    intros k. rewrite Hk'. cbn [w_accounts set_accounts]. rewrite Hk1. repeat case_decide; set_solver. }
  apply wp_bind. cbn [restore_item]. destruct (m !! a) as [acc|] eqn:Ha.
  - destruct (Hm a acc Ha) as [Haddr Hwf]. apply wp_save_account; [done|].
    apply Hrest. intros k. rewrite lookup_insert, Haddr. repeat case_decide; congruence.
  - apply wp_delete_account, Hrest. intros k. rewrite lookup_delete. repeat case_decide; congruence.
Qed.

Lemma wp_rollback height addrs w0 w (Q : res string unit -> World -> Prop) :
  valid w0 ->
  (forall m', (forall k, m' !! k = if decide (k ∈ addrs) then w_accounts w0 !! k else w_accounts w !! k) ->
    Q (Ok tt) (set_accounts m' (set_raw Metadata (<[STATE_ROOT_KEY := recorded_root w0]> (w_metadata w)) w))) ->
  wp (rollback_to_snapshot (snapshot_of height addrs w0)) w Q.
Proof.
  intros Hw0 HQ. apply wp_bind, (wp_restore (w_accounts w0)); [done|]. intros m' Hk.
  apply wp_write; [done|]. destruct w. by apply HQ.
Qed.

(** Rolling back after transactions that touch only the snapshot's addresses. *)
Lemma wp_rollback_transactions height addrs txs w (Q : res string unit -> World -> Prop) :
  valid w -> Forall tx_wf txs -> fee_treasury ∈ addrs ->
  (forall tx, tx ∈ txs -> tx_sender tx ∈ addrs /\ tx_receiver tx ∈ addrs) ->
  Q (Ok tt) (set_raw Metadata (<[STATE_ROOT_KEY := recorded_root w]> (w_metadata w)) w) ->
  wp (rollback_to_snapshot (snapshot_of height addrs w)) (st_for txs transition w).1 Q.
Proof.
  intros Hw Htxs Htr Haddrs HQ. pose proof (transitions_frame txs w Hw Htxs) as Hf.
  pose proof (local_frame (st_for txs transition) w) as Hl.
  destruct (st_for txs transition w) as [w2 r]. destruct Hf as [_ Hf]. cbn [fst] in *.
  apply wp_rollback; [done|]. intros m' Hk.
  assert (m' = w_accounts w) as ->.
  { apply map_eq. intros k. rewrite Hk. case_decide as Hin; [done|]. apply Hf.
    - intros tx Htx. destruct (Haddrs tx Htx). split; intros ->; done.
    - intros ->. done. }
  rewrite Hl. by destruct w.
Qed.

End snapshot_rules.

Section saved_snapshots.
Context `{SledLaws} `{!Serde Account} `{!Serde StateSnapshot} `{!SerdeLaws StateSnapshot}.

(** The counter of saved snapshots. *)
Definition snapshot_count_is (n : Z) (w : World) : Prop :=
  match w_metadata w !! SNAPSHOT_COUNT_KEY with
  | None => n = 0
  | Some b => b = show_uint n
  end.
Lemma wp_get_snapshot_count n w Q :
  is_u64 n -> snapshot_count_is n w -> Q (Ok n) w -> wp get_snapshot_count w Q.
Proof.
  unfold snapshot_count_is, is_u64. intros Hn Hc HQ. apply wp_bind, wp_read; [done|]. cbn [w_raw].
  destruct (w_metadata w !! SNAPSHOT_COUNT_KEY) as [b|]; [|subst n; by apply wp_ret].
  subst b. apply wp_bind, wp_lift. rewrite from_utf8_valid by (apply utf8_valid_show_uint; lia).
  cbn [map_err]. apply wp_lift. rewrite parse_show_uint by done. done.
Qed.
Lemma wp_save_snapshot n s w (Q : res string unit -> World -> Prop) :
  is_u64 n -> snapshot_count_is n w ->
  (forall v, to_vec s = Ok v -> Q (Ok tt) (set_raw Metadata
    (<[SNAPSHOT_COUNT_KEY := show_uint n]> (<[snapshot_key n := v]> (w_metadata w))) w)) ->
  wp (save_snapshot s) w Q.
Proof.
  intros Hn Hc HQ. destruct (to_vec_total s) as [v Hv]. apply wp_bind, wp_lift. rewrite Hv. cbn [map_err].
  apply wp_bind, (wp_get_snapshot_count n); [done..|]. apply wp_bind, wp_write; [done|].
  apply wp_write; [done|]. specialize (HQ v Hv). by destruct w.
Qed.
Definition snapshot_bytes (s : StateSnapshot) : option string :=
  match to_vec s with Ok v => Some v | _ => None end.
Lemma wp_save_snapshots ss w (Q : res string unit -> World -> Prop) :
  snapshot_count_is 0 w ->
  (forall w', snapshot_count_is 0 w' ->
    (forall k, k <> SNAPSHOT_COUNT_KEY -> k <> snapshot_key 0 -> w_metadata w' !! k = w_metadata w !! k) ->
    w_metadata w' !! snapshot_key 0 =
      match list.last ss with Some s => snapshot_bytes s | None => w_metadata w !! snapshot_key 0 end ->
    Q (Ok tt) w') ->
  wp (st_for ss save_snapshot) w Q.
Proof.
  revert w. induction ss as [|s ss IH]; intros w Hc HQ; cbn [st_for].
  - apply wp_ret, HQ; done.
  - apply wp_bind, (wp_save_snapshot 0); [done..|]. intros v Hv.
    assert (snapshot_key 0 <> SNAPSHOT_COUNT_KEY) as Hne by done.
    apply IH; [destruct w; unfold snapshot_count_is; cbn; by rewrite lookup_insert_eq|].
    intros w' Hc' Hk' Hs'. apply HQ; [done| |].
    + intros k Hk1 Hk2. rewrite Hk' by done. destruct w. cbn. by rewrite !lookup_insert_ne.
    + rewrite Hs', last_cons. destruct (list.last ss) as [u|]; [done|].
      destruct w as [ac bh bt tr md]. cbn [set_raw w_metadata]. rewrite lookup_insert_ne, lookup_insert_eq by done.
      unfold snapshot_bytes. by rewrite Hv.
Qed.
End saved_snapshots.

Section trie_properties.
Context `{Build} `{Sha3Laws} `{HexLaws} `{SledLaws} `{!Serde Account} `{!SerdeLaws Account}
  `{!Serde StateSnapshot} `{!SerdeLaws StateSnapshot}.

(** C1: [apply_transaction] implements the transition function on every type of
    transaction and every outcome: the same checks in the same order with the
    same messages, the same accounts afterwards, also when it fails halfway. *)
Theorem apply_transaction_refines_transition tx w :
  tx_wf tx -> wp (apply_transaction tx) w (fun r w' => (w', r) = transition tx w).
Proof. intros Htx. by apply apply_transaction_refines. Qed.

(** C11: a transaction destroys exactly the part of its fee that does not go to
    the treasury and creates nothing; it touches no account but the sender's,
    the receiver's and the treasury's, keeps every tier right, and when the
    supply fits 64 bits a rejected transaction changes nothing at all.  It
    panics only when the sender's nonce is the largest [u64]. *)
Theorem apply_transaction_supply tx w :
  tx_wf tx ->
  wp (apply_transaction tx) w (fun r w' =>
    (tiers_consistent w -> tiers_consistent w') /\
    (forall k, k <> tx_sender tx -> k <> tx_receiver tx -> k <> fee_treasury ->
      w_accounts w' !! k = w_accounts w !! k) /\
    match r with
    | Ok _ => supply w' = supply w - burned tx
    | Err _ => supply w <= u64_max -> w' = w
    | Panic => w' = w /\ acc_nonce (account_at (tx_sender tx) w) = u64_max
    end).
Proof.
  intros Htx. apply wp_valid. intros Hw. eapply wp_mono; [|by apply apply_transaction_refines].
  cbn beta. intros r w' He. symmetry in He.
  destruct (transition_facts _ _ _ _ Hw Htx He) as (_ & Ht & Hf & Hr). split_and!; [done..|].
  destruct r; [naive_solver|naive_solver lia|naive_solver].
Qed.

(** A transaction that has been applied cannot be applied again: the second
    attempt is rejected and changes nothing. *)
Theorem replay_rejected tx w :
  tx_wf tx ->
  wp (apply_transaction tx) w (fun r w' => r = Ok tt ->
    wp (apply_transaction tx) w' (fun r' w'' => w'' = w' /\ exists e, r' = Err e)).
Proof.
  intros Htx. apply wp_valid. intros Hw. eapply wp_mono; [|by apply apply_transaction_refines].
  cbn beta. intros r w' He ->. symmetry in He.
  destruct (transition_facts _ _ _ _ Hw Htx He) as (_ & _ & _ & _ & _ & Hadd & _).
  eapply wp_mono; [|by apply apply_transaction_refines]. cbn beta. unfold transition.
  apply add_one_changes in Hadd as [_ Hne]; [|by destruct Htx as (_ & _ & ?)].
  intros r w'' Hr. destruct (sender_error tx (account_at (tx_sender tx) w')) as [e|] eqn:Hs.
  - injection Hr as -> ->. eauto.
  - apply sender_nonce_ok in Hs. congruence.
Qed.

(** C5: when a sequence of transactions is applied without error, and the nonces
    have room in 64 bits, the nonces of
    each sender's transactions count up by one from the sender's nonce, and the
    supply is what it was less the fees that went to no one. *)
Theorem applied_sequence txs w :
  Forall tx_wf txs -> (forall x, acc_nonce (account_at x w) + Z.of_nat (length txs) <= u64_max) ->
  wp (st_for txs apply_transaction) w (fun r w' => r = Ok tt ->
    supply w' = supply w - sumZ (map burned txs) /\
    forall x,
      nonces_of x txs = seqZ (acc_nonce (account_at x w)) (Z.of_nat (length (nonces_of x txs))) /\
      acc_nonce (account_at x w') =
        acc_nonce (account_at x w) + Z.of_nat (length (nonces_of x txs))).
Proof.
  intros Htxs Hn. apply wp_valid. intros Hw.
  eapply wp_mono; [|apply (refines_for txs apply_transaction transition)].
  - cbn beta. intros r w' He ->. symmetry in He.
    by apply transitions_accounting in He as (_ & _ & ? & ?).
  - rewrite Forall_forall in Htxs. auto using apply_transaction_refines.
Qed.

(** C16: a block is undone by rolling back to the snapshot taken before it:
    however many of its transactions were applied and however the application
    ended, the whole state is again exactly as it was, accounts that did not
    exist included, with the state root recorded before. *)
Theorem rollback_undoes_block height addrs txs w :
  recorded_root_utf8 w -> Forall tx_wf txs -> fee_treasury ∈ addrs ->
  (forall tx, tx ∈ txs -> tx_sender tx ∈ addrs /\ tx_receiver tx ∈ addrs) ->
  wp (take_snapshot height addrs) w (fun r w1 => exists snapshot,
    r = Ok snapshot /\ w1 = w /\
    wp (st_for txs apply_transaction) w1 (fun _ w2 =>
      wp (rollback_to_snapshot snapshot) w2 (fun r w3 =>
        r = Ok tt /\ w3 = set_raw Metadata (<[STATE_ROOT_KEY := recorded_root w]> (w_metadata w)) w))).
Proof.
  intros Hu Htxs Htr Haddrs. apply wp_valid. intros Hw.
  apply wp_take_snapshot; [done|]. exists (snapshot_of height addrs w). split_and!; [done..|].
  eapply wp_mono; [|apply (refines_for txs apply_transaction transition)].
  2: { rewrite Forall_forall in Htxs. auto using apply_transaction_refines. }
  cbn beta. intros r2 w2 He. apply (f_equal fst) in He. cbn [fst] in He. rewrite He.
  by apply wp_rollback_transactions.
Qed.

(** C17: the state root depends only on the accounts, whatever the order in which
    they were written, and binds them: two states whose addresses have one
    length and which have the same root hold the same accounts, if the digest
    does not collide on the texts hashed for them. *)
Theorem state_root_binds w1 w2 db1 db2 n :
  Rep db1 w1 -> Rep db2 w2 -> addresses_utf8 w1 -> addresses_utf8 w2 ->
  let l1 := sorted_accounts (w_accounts w1) in
  let l2 := sorted_accounts (w_accounts w2) in
  (forall a, a ∈ l1 \/ a ∈ l2 -> String.length (acc_address a) = n) ->
  (forall x y, x ∈ root_preimage l1 :: map leaf_preimage l1 ->
    y ∈ root_preimage l2 :: map leaf_preimage l2 ->
    sha3_256_digest x = sha3_256_digest y -> x = y) ->
  (compute_state_root db1).2 = (compute_state_root db2).2 <-> w_accounts w1 = w_accounts w2.
Proof.
  intros Hd1 Hd2 Hu1 Hu2 l1 l2 Hn Hinj.
  rewrite (compute_state_root_run db1 w1), (compute_state_root_run db2 w2) by done. cbn [snd].
  split; [|unfold root_of; by intros ->].
  intros [= He%sha3_256_hex_inj%Hinj]; [|by left..].
  apply root_preimage_leaves in He. pose proof (Rep_valid _ _ Hd1). pose proof (Rep_valid _ _ Hd2).
  assert (forall a, a ∈ l1 <-> a ∈ l2) as Hl.
  { intros a. split.
    - apply (same_leaves l1 l2 a n); [done| |done]. intros x y Hx Hy. apply Hinj; by right.
    - apply (same_leaves l2 l1 a n); [naive_solver| |done].
      intros x y Hx Hy Hd. symmetry. apply Hinj; [by right|by right|done]. }
  apply map_eq. intros k. apply option_eq. intros a.
  assert (forall w, valid w -> w_accounts w !! k = Some a <-> acc_address a = k /\ a ∈ sorted_accounts (w_accounts w)) as Hs.
  { intros w Hw. rewrite elem_of_sorted_accounts by done. split.
    - intros Ha. by destruct (Hw k a Ha) as [-> _].
    - by intros [<- ?]. }
  rewrite !Hs by done. unfold l1, l2 in Hl. by rewrite Hl.
Qed.

(** The counter of snapshots stays at zero however many are saved: every
    snapshot is written over the one before, and only the last can be read. *)
Theorem snapshots_overwritten ss w :
  w_metadata w !! SNAPSHOT_COUNT_KEY = None ->
  wp (st_for ss save_snapshot) w (fun r w' =>
    r = Ok tt /\
    wp get_snapshot_count w' (fun r _ => r = Ok 0) /\
    (forall n, 0 < n <= u64_max -> w_metadata w' !! snapshot_key n = w_metadata w !! snapshot_key n) /\
    forall s, list.last ss = Some s ->
      exists v, w_metadata w' !! snapshot_key 0 = Some v /\ from_slice v = Ok s).
Proof.
  intros Hw. apply wp_save_snapshots; [unfold snapshot_count_is; by rewrite Hw|].
  intros w' Hc Hk Hs. split_and!; [done|by apply (wp_get_snapshot_count 0)| |].
  - intros n Hn. apply Hk; [done|]. unfold snapshot_key. intros He%str_app_inj_l.
    apply (show_padded_inj 20) in He; unfold u64_max in *; lia.
  - intros s Hl. rewrite Hs, Hl. destruct (to_vec_total s) as [v Hv]. exists v. split; [|by apply from_to_vec].
    unfold snapshot_bytes. by rewrite Hv.
Qed.
End trie_properties.

Module StateTrieWitness.
Import Mem MemWorld.

Definition send (nonce amount fee : Z) : Transaction :=
  mkTransaction "h" "alice" "bob" amount fee nonce "sig" 1000 Transfer "".
Definition lock_tx (nonce amount fee : Z) : Transaction :=
  mkTransaction "h" "alice" "alice" amount fee nonce "sig" 1000 StakeLock "".
Definition start : World := world_with [funded "alice" 900000000000 0 0].

Lemma send_wf nonce amount fee : is_u64 nonce -> is_u64 amount -> is_u64 fee -> tx_wf (send nonce amount fee).
Proof. done. Qed.
Lemma txs_wf : Forall tx_wf [send 0 100 50; lock_tx 1 600000000000 30].
Proof. repeat constructor; concrete. Qed.

Lemma apply_transaction_refines_transition_witness :
  wp (apply_transaction (send 0 100 50)) start (fun r w' => (w', r) = transition (send 0 100 50) start).
Proof. apply (apply_transaction_refines_transition (send 0 100 50) start). concrete. Defined.

Lemma apply_transaction_supply_witness :
  wp (apply_transaction (send 0 100 50)) start (fun r w' =>
    (tiers_consistent start -> tiers_consistent w') /\
    (forall k, k <> "alice" -> k <> "bob" -> k <> fee_treasury ->
      w_accounts w' !! k = w_accounts start !! k) /\
    match r with
    | Ok _ => supply w' = supply start - burned (send 0 100 50)
    | Err _ => supply start <= u64_max -> w' = start
    | Panic => w' = start /\ acc_nonce (account_at "alice" start) = u64_max
    end).
Proof. apply (apply_transaction_supply (send 0 100 50) start). concrete. Defined.

Lemma replay_rejected_witness :
  wp (apply_transaction (send 0 100 50)) start (fun r w' => r = Ok tt ->
    wp (apply_transaction (send 0 100 50)) w' (fun r' w'' => w'' = w' /\ exists e, r' = Err e)).
Proof. apply (replay_rejected (send 0 100 50) start). concrete. Defined.
(** The first application succeeds there. *)
Example first_applies : (transition (send 0 100 50) start).2 = Ok tt.
Proof. vm_compute. reflexivity. Qed.

Lemma applied_sequence_witness :
  let txs := [send 0 100 50; lock_tx 1 600000000000 30] in
  wp (st_for txs apply_transaction) start (fun r w' => r = Ok tt ->
    supply w' = supply start - sumZ (map burned txs) /\
    forall x,
      nonces_of x txs = seqZ (acc_nonce (account_at x start)) (Z.of_nat (length (nonces_of x txs))) /\
      acc_nonce (account_at x w') =
        acc_nonce (account_at x start) + Z.of_nat (length (nonces_of x txs))).
Proof.
  intros txs. apply (applied_sequence txs start).
  - apply txs_wf.
  - intros x. unfold start. cbn [world_with foldr]. rewrite account_at_put. case_decide; [done|].
    unfold account_at. cbn [empty_world w_accounts]. rewrite lookup_empty. done.
Defined.
Example sequence_applies :
  (st_for [send 0 100 50; lock_tx 1 600000000000 30] transition start).2 = Ok tt.
Proof. vm_compute. reflexivity. Qed.

Lemma rollback_undoes_block_witness :
  let txs := [send 0 100 50; lock_tx 1 600000000000 30; send 7 1 1] in
  wp (take_snapshot 5 ["alice"; "bob"; fee_treasury]) start (fun r w1 => exists snapshot,
    r = Ok snapshot /\ w1 = start /\
    wp (st_for txs apply_transaction) w1 (fun _ w2 =>
      wp (rollback_to_snapshot snapshot) w2 (fun r w3 =>
        r = Ok tt /\ w3 = set_raw Metadata (<[STATE_ROOT_KEY := recorded_root start]> (w_metadata start)) start))).
Proof.
  intros txs. apply (rollback_undoes_block 5 ["alice"; "bob"; fee_treasury] txs start).
  - intros b Hb. vm_compute in Hb. discriminate Hb.
  - repeat constructor; concrete.
  - set_solver.
  - intros tx Htx. unfold txs in Htx. set_solver.
Defined.

Lemma world_with_utf8 l :
  Forall (fun a => utf8_valid (acc_address a) = true) l -> addresses_utf8 (world_with l).
Proof.
  induction 1 as [|a l Ha _ IH]; intros k b; cbn; [by rewrite lookup_empty|].
  rewrite lookup_insert. case_decide as Hk; [intros [= <-]; by subst|apply IH].
Qed.
(** Two databases that received the same accounts in different orders. *)
Lemma state_root_binds_witness :
  let a := funded "alice" 5 0 0 in let b := funded "bobby" 7 0 0 in
  (compute_state_root (db_with [a; b])).2 = (compute_state_root (db_with [b; a])).2 <->
  w_accounts (world_with [a; b]) = w_accounts (world_with [b; a]).
Proof.
  intros a b. apply (state_root_binds (world_with [a; b]) (world_with [b; a])
    (db_with [a; b]) (db_with [b; a]) 5).
  - apply db_with_Rep. repeat constructor; concrete.
  - apply db_with_Rep. repeat constructor; concrete.
  - apply world_with_utf8. repeat constructor.
  - apply world_with_utf8. repeat constructor.
  - intros c Hc.
    assert (Forall (fun c => String.length (acc_address c) = 5%nat)
      (sorted_accounts (w_accounts (world_with [a; b])) ++ sorted_accounts (w_accounts (world_with [b; a]))))
      as Hf by (vm_compute; repeat constructor).
    rewrite Forall_forall in Hf. apply Hf. by apply elem_of_app.
  - set (l1 := sorted_accounts (w_accounts (world_with [a; b]))).
    set (l2 := sorted_accounts (w_accounts (world_with [b; a]))).
    assert (Forall (fun x => Forall (fun y => sha3_256_digest x = sha3_256_digest y -> x = y)
      (root_preimage l2 :: map leaf_preimage l2)) (root_preimage l1 :: map leaf_preimage l1)) as Hf
      by (refine (bool_decide_unpack _ _); vm_compute; exact I).
    intros x y Hx Hy. rewrite Forall_forall in Hf. specialize (Hf x Hx).
    rewrite Forall_forall in Hf. by apply Hf.
Defined.

Lemma snapshots_overwritten_witness :
  let s1 := mkStateSnapshot 1 "r1" [] in let s2 := mkStateSnapshot 2 "r2" [] in
  wp (st_for [s1; s2] save_snapshot) start (fun r w' =>
    r = Ok tt /\
    wp get_snapshot_count w' (fun r _ => r = Ok 0) /\
    (forall n, 0 < n <= u64_max -> w_metadata w' !! snapshot_key n = w_metadata start !! snapshot_key n) /\
    forall s, list.last [s1; s2] = Some s ->
      exists v, w_metadata w' !! snapshot_key 0 = Some v /\ from_slice v = Ok s).
Proof.
  intros s1 s2. apply (snapshots_overwritten [s1; s2] start). vm_compute. reflexivity.
Defined.

(** A receiver whose balance would overflow leaves a transfer half applied: it
    is rejected, but the sender has paid. *)
Example overflowing_transfer :
  let w := world_with [funded "alice" 1000 0 0; funded "bob" u64_max 0 0] in
  let '(w', r) := transition (send 0 100 50) w in
  r = Err "Receiver balance overflow" /\ acc_balance (account_at "alice" w') = 850.
Proof. vm_compute. split; reflexivity. Qed.
End StateTrieWitness.
