(* ===== verification/Coinbase.v ===== *)
(** * Coinbase transactions and the mined supply (src/consensus/coinbase.rs)

    Building, applying and verifying the transaction that pays a block's reward,
    and the sum of all rewards.  [calculate_mined_supply] loops once per epoch;
    its model gives the loop [epoch + 2] rounds and answers [None] if it is then
    still running. *)
From S2P Require Import Prelude Text Types Extern InMemory Hash Mining Db World AccountStore.

Definition COINBASE_SENDER : string :=
  "kyv10000000000000000000000000000000000000000000000000000coinbase0".

Section coinbase.
Context `{Build} `{Sha3} `{HexCodec} `{Sled} `{!Serde Account}.

(** The hash a coinbase of the block and epoch must carry. *)
Definition coinbase_hash (block_hash : string) (epoch_block_height : Z) : string :=
  sha3_256_hex ("coinbase:" +:+ block_hash +:+ ":" +:+ show_uint epoch_block_height).

Definition build_coinbase (now_ms : Z) (miner_address : string) (epoch_block_height : Z)
    (block_hash : string) : Transaction :=
  let reward := calculate_block_reward epoch_block_height in
  let tx := new_transaction now_ms COINBASE_SENDER miner_address reward 0 epoch_block_height Transfer "" in
  set_tx_signature "coinbase" (set_tx_hash (coinbase_hash block_hash epoch_block_height) tx).

Definition apply_coinbase (coinbase : Transaction) (validator_fee_share : Z) : st KyveraDb string unit :=
  if negb (String.eqb (tx_sender coinbase) COINBASE_SENDER) then st_fail "Not a coinbase transaction"
  else
    (if 0 <? tx_amount coinbase then credit_account (tx_receiver coinbase) (tx_amount coinbase)
     else mret tt);;
    (if 0 <? validator_fee_share then credit_account (tx_receiver coinbase) validator_fee_share
     else mret tt).

Definition calculate_validator_fee_share {E} (total_fees_collected : Z) : res E Z :=
  x ← mul_u64 total_fees_collected 40; Ok (x / 100).

Definition verify_coinbase (coinbase : Transaction) (epoch_block_height : Z) (block_hash : string) : bool :=
  if negb (String.eqb (tx_sender coinbase) COINBASE_SENDER) then false
  else if negb (tx_amount coinbase =? calculate_block_reward epoch_block_height) then false
  else if negb (tx_nonce coinbase =? epoch_block_height) then false
  else if negb (String.eqb (tx_hash coinbase) (coinbase_hash block_hash epoch_block_height)) then false
  else true.

(** One round of [while height <= epoch_block_height]. *)
Definition supply_step {E} (epoch_block_height : Z) (s : Z * Z) : Z * Z + res E Z :=
  let '(total, height) := s in
  if height <=? epoch_block_height then
    let total := saturating_add_u64 total (calculate_block_reward height) in
    match add_u64 (E:=E) height 1 with
    | Ok height => inl (total, height)
    | Err e => inr (Err e)
    | Panic => inr Panic
    end
  else inr (Ok total).
Definition calculate_mined_supply {E} (epoch_block_height : Z) : option (res E Z) :=
  match loop_pos (supply_step epoch_block_height) (Z.to_pos (epoch_block_height + 2)) (0, 0) with
  | inr r => Some r
  | inl _ => None
  end.
End coinbase.

(** ** The sum of the rewards *)

(** The rewards of the epochs below [h]. *)
Definition rewards_below (h : Z) : Z := sumZ (map calculate_block_reward (seqZ 0 h)).
Definition interval_reward (k : Z) : Z := GENESIS_BLOCK_REWARD / 2 ^ k.
(** Twice the rewards of the first interval. *)
Definition mined_cap : Z := 2 * HALVING_INTERVAL * GENESIS_BLOCK_REWARD.

Lemma seqZ_snoc m n : 0 <= n -> seqZ m (n + 1) = seqZ m n ++ [m + n].
Proof. intros Hn. rewrite seqZ_app by lia. done. Qed.
Lemma rewards_below_succ h : 0 <= h -> rewards_below (h + 1) = rewards_below h + calculate_block_reward h.
Proof.
  intros Hh. unfold rewards_below. rewrite seqZ_snoc, map_app, sumZ_app, Z.add_0_l by done.
  cbn [map sumZ]. lia.
Qed.

Lemma interval_reward_half k : 0 <= k -> 0 <= interval_reward (k + 1) /\ 2 * interval_reward (k + 1) <= interval_reward k.
Proof.
  intros Hk. unfold interval_reward.
  assert (0 < 2 ^ k) by (apply Z.pow_pos_nonneg; lia).
  rewrite Z.pow_add_r, <-Z.div_div by lia. change (2 ^ 1) with 2.
  assert (0 <= GENESIS_BLOCK_REWARD / 2 ^ k) by (apply Z.div_pos; [done|lia]).
  pose proof (Z.mul_div_le (GENESIS_BLOCK_REWARD / 2 ^ k) 2 ltac:(lia)).
  pose proof (Z.div_pos (GENESIS_BLOCK_REWARD / 2 ^ k) 2 ltac:(lia) ltac:(lia)). lia.
Qed.

(** The rewards so far and twice what is left of the interval stay below the
    cap: the invariant of the sum. *)
Lemma rewards_below_bound h :
  0 <= h < HALVING_INTERVAL * (u32_max + 1) ->
  0 <= rewards_below h /\
  rewards_below h + (2 * HALVING_INTERVAL - h mod HALVING_INTERVAL) * interval_reward (h / HALVING_INTERVAL)
    <= mined_cap.
Proof.
  intros [Hh Hlt]. revert Hlt. pattern h. apply natlike_ind; [|clear h Hh; intros h Hh IH Hlt|done].
  { intros _. vm_compute. split; intros ?; discriminate. }
  specialize (IH ltac:(lia)). rewrite <-Z.add_1_r in *. rewrite rewards_below_succ by done.
  rewrite block_reward_scheduled by lia. change (scheduled_reward h) with (interval_reward (h / HALVING_INTERVAL)).
  pose proof (Z.div_pos h HALVING_INTERVAL Hh ltac:(done)) as Hq.
  pose proof (Z.mod_pos_bound h HALVING_INTERVAL ltac:(done)) as Hm.
  pose proof (Z.div_mod h HALVING_INTERVAL ltac:(done)) as Hdm.
  destruct (interval_reward_half (h / HALVING_INTERVAL) Hq) as [Hr0 Hr].
  set (q := h / HALVING_INTERVAL) in *. set (m := h mod HALVING_INTERVAL) in *.
  assert (0 <= interval_reward q) by lia.
  destruct (Z.eq_dec (m + 1) HALVING_INTERVAL) as [Hlast|Hlast].
  - assert ((h + 1) / HALVING_INTERVAL = q + 1) as ->.
    { symmetry. apply (Z.div_unique_pos _ _ _ 0); [done|lia]. }
    assert ((h + 1) mod HALVING_INTERVAL = 0) as ->.
    { symmetry. apply (Z.mod_unique_pos _ _ (q + 1)); [done|lia]. }
    unfold HALVING_INTERVAL in *. nia.
  - assert ((h + 1) / HALVING_INTERVAL = q) as ->.
    { symmetry. apply (Z.div_unique_pos _ _ _ (m + 1)); lia. }
    assert ((h + 1) mod HALVING_INTERVAL = m + 1) as ->.
    { symmetry. apply (Z.mod_unique_pos _ _ q); lia. }
    unfold HALVING_INTERVAL in *. nia.
Qed.
Lemma rewards_below_range h :
  0 <= h < HALVING_INTERVAL * (u32_max + 1) -> 0 <= rewards_below h <= mined_cap.
Proof.
  intros Hh. destruct (rewards_below_bound h Hh) as [H0 H1].
  pose proof (Z.mod_pos_bound h HALVING_INTERVAL ltac:(done)).
  assert (0 <= interval_reward (h / HALVING_INTERVAL)).
  { unfold interval_reward. apply Z.div_pos; [done|]. apply Z.pow_pos_nonneg; [lia|].
    apply Z.div_pos; [lia|done]. }
  unfold HALVING_INTERVAL in *. nia.
Qed.

Lemma mined_supply_loop `{Build} {E} e :
  0 <= e < HALVING_INTERVAL * (u32_max + 1) - 1 ->
  calculate_mined_supply (E:=E) e = Some (Ok (rewards_below (e + 1))).
Proof.
  intros He. unfold calculate_mined_supply.
  destruct (loop_pos_rule (supply_step (E:=E) e)
    (fun '(total, height) => 0 <= height <= e + 1 /\ total = rewards_below height)
    (fun r => r = Ok (rewards_below (e + 1))) (fun s => e + 1 - s.2)
    (Z.to_pos (e + 2)) (0, 0)) as (r & -> & ->); [split; [lia|done]|cbn [snd]; lia| |done].
  intros [total height] [Hh ->]. cbn [snd]. split; [lia|]. unfold supply_step.
  unfold HALVING_INTERVAL, u32_max in He.
  destruct (Z.leb_spec height e); [|by replace height with (e + 1) by lia].
  rewrite add_u64_ok by (unfold u64_max; lia). cbn [snd]. split; [|lia]. split; [lia|].
  unfold saturating_add_u64. rewrite <-rewards_below_succ by lia. apply Z.min_l.
  destruct (rewards_below_range (height + 1)) as [_ Hb]; [unfold HALVING_INTERVAL, u32_max; lia|].
  etrans; [exact Hb|]. done.
Qed.

Lemma verify_coinbase_true `{Sha3} `{HexCodec} coinbase epoch hash :
  verify_coinbase coinbase epoch hash = true <->
  tx_sender coinbase = COINBASE_SENDER /\ tx_amount coinbase = calculate_block_reward epoch /\
  tx_nonce coinbase = epoch /\ tx_hash coinbase = coinbase_hash hash epoch.
Proof.
  unfold verify_coinbase.
  destruct (String.eqb_spec (tx_sender coinbase) COINBASE_SENDER); cbn [negb]; [|naive_solver].
  destruct (Z.eqb_spec (tx_amount coinbase) (calculate_block_reward epoch)); cbn [negb]; [|naive_solver].
  destruct (Z.eqb_spec (tx_nonce coinbase) epoch); cbn [negb]; [|naive_solver].
  destruct (String.eqb_spec (tx_hash coinbase) (coinbase_hash hash epoch)); cbn [negb]; naive_solver.
Qed.

(** At the last epoch a [u64] can name, the increment after the last round
    overflows. *)
Lemma mined_supply_overflow `{Build} {E} :
  overflow_checks = true -> calculate_mined_supply (E:=E) u64_max = Some Panic.
Proof.
  intros Hc. unfold calculate_mined_supply.
  destruct (loop_pos_rule (supply_step (E:=E) u64_max) (fun s => 0 <= s.2 <= u64_max)
    (fun r => r = Panic) (fun s => u64_max - s.2) (Z.to_pos (u64_max + 2)) (0, 0)) as (r & -> & ->);
    [done|done| |done].
  intros [total height] Hh. cbn [snd] in Hh. split; [cbn; lia|]. unfold supply_step.
  rewrite (proj2 (Z.leb_le height u64_max)) by lia.
  destruct (Z.eq_dec height u64_max) as [->|Hne].
  - unfold add_u64. by rewrite unsigned_panic by (done || lia).
  - rewrite add_u64_ok by lia. cbn. lia.
Qed.

Section coinbase_properties.
Context `{Build} `{Sha3} `{HexCodec} `{SledLaws} `{!Serde Account} `{!SerdeLaws Account}.

(** C27: for every epoch before the halving counter leaves 32 bits,
    [calculate_mined_supply] ends and returns the sum of the rewards of all
    epochs so far, without saturating; mining never creates more than
    29,000,000 KYV, although 900,000,000 are allocated to it. *)
Theorem mined_supply_bounded e :
  0 <= e < HALVING_INTERVAL * (u32_max + 1) - 1 ->
  calculate_mined_supply (E:=string) e = Some (Ok (sumZ (map calculate_block_reward (seqZ 0 (e + 1))))) /\
  0 <= sumZ (map calculate_block_reward (seqZ 0 (e + 1))) <= 29000000 * KYV_UNITS.
Proof.
  intros He. split; [by apply mined_supply_loop|]. apply (rewards_below_range (e + 1)). lia.
Qed.

(** A coinbase is accepted for a block exactly when it comes from the
    coinbase address, pays the scheduled reward, carries the epoch as its nonce
    and the hash derived from the block and the epoch; the one the producer
    builds is accepted, and for no other epoch. *)
Theorem coinbase_exact now_ms miner epoch hash coinbase :
  (verify_coinbase coinbase epoch hash = true <->
    tx_sender coinbase = COINBASE_SENDER /\ tx_amount coinbase = calculate_block_reward epoch /\
    tx_nonce coinbase = epoch /\ tx_hash coinbase = coinbase_hash hash epoch) /\
  verify_coinbase (build_coinbase now_ms miner epoch hash) epoch hash = true /\
  (forall epoch' hash', epoch' <> epoch ->
    verify_coinbase (build_coinbase now_ms miner epoch hash) epoch' hash' = false).
Proof.
  split_and!.
  - apply verify_coinbase_true.
  - by apply verify_coinbase_true.
  - intros epoch' hash' Hne. apply not_true_is_false. rewrite verify_coinbase_true. cbn. naive_solver.
Qed.

(** What the receiver of a coinbase is credited. *)
Definition coinbase_credit (coinbase : Transaction) (share : Z) (w : World) : World :=
  let a := account_at (tx_receiver coinbase) w in
  if (tx_amount coinbase =? 0) && (share =? 0) then w
  else put_account (set_balance (acc_balance a + tx_amount coinbase + share) a) w.

Lemma wp_credit_opt addr n w (Q : res string unit -> World -> Prop) :
  is_u64 n -> supply w + n <= u64_max ->
  Q (Ok tt) (if n =? 0 then w
    else put_account (set_balance (acc_balance (account_at addr w) + n) (account_at addr w)) w) ->
  wp (if 0 <? n then credit_account addr n else mret tt) w Q.
Proof.
  unfold is_u64. intros Hn Hs HQ. apply wp_valid. intros Hw.
  destruct (Z.ltb_spec 0 n), (Z.eqb_spec n 0); try lia; [|by apply wp_ret].
  by apply wp_credit.
Qed.

Lemma wp_apply_coinbase coinbase share w (Q : res string unit -> World -> Prop) :
  tx_sender coinbase = COINBASE_SENDER -> is_u64 (tx_amount coinbase) -> is_u64 share ->
  supply w + tx_amount coinbase + share <= u64_max ->
  Q (Ok tt) (coinbase_credit coinbase share w) -> wp (apply_coinbase coinbase share) w Q.
Proof.
  intros Hsend Ha Hsh Hs HQ. apply wp_valid. intros Hw. unfold apply_coinbase.
  rewrite Hsend, String.eqb_refl. cbn [negb]. unfold is_u64 in *.
  apply wp_bind, wp_credit_opt; [done|lia|]. destruct (account_at_valid (tx_receiver coinbase) w Hw) as [Haddr _].
  apply wp_credit_opt; [done| |].
  - case_match; [lia|]. rewrite supply_put. cbn. rewrite Haddr. unfold holdings. cbn. lia.
  - unfold coinbase_credit in HQ. destruct (Z.eqb_spec (tx_amount coinbase) 0) as [Hz|Hz]; cbn in HQ.
    + destruct (Z.eqb_spec share 0); [done|]. rewrite Hz, Z.add_0_r in HQ. exact HQ.
    + destruct (Z.eqb_spec share 0) as [->|]; [by rewrite Z.add_0_r in HQ|].
      rewrite account_at_put. cbn. rewrite Haddr, decide_True by done.
      unfold put_account, set_accounts in *. cbn in *. rewrite insert_insert_eq.
      exact HQ.
Qed.

Lemma coinbase_credit_facts coinbase share w :
  valid w -> is_u64 (tx_amount coinbase) -> is_u64 share ->
  supply w + tx_amount coinbase + share <= u64_max ->
  valid (coinbase_credit coinbase share w) /\
  supply (coinbase_credit coinbase share w) = supply w + tx_amount coinbase + share.
Proof.
  unfold is_u64. intros Hw Ha Hsh Hs. unfold coinbase_credit.
  destruct (Z.eqb_spec (tx_amount coinbase) 0), (Z.eqb_spec share 0); cbn [andb]; [split; [done|lia]|..];
    rewrite <-Z.add_assoc;
    destruct (credit_facts (tx_receiver coinbase) (tx_amount coinbase + share) w) as (Hv & Hsu & _);
    try lia; try done; split; try done; unfold credit in Hsu; lia.
Qed.

Lemma coinbase_credit_frame coinbase share w :
  (tiers_consistent w -> tiers_consistent (coinbase_credit coinbase share w)) /\
  w_metadata (coinbase_credit coinbase share w) = w_metadata w.
Proof.
  unfold coinbase_credit. destruct (_ && _); [done|]. split; [|done].
  intros Ht. apply put_account_tiers; [done|]. exact (account_at_tier (tx_receiver coinbase) w Ht).
Qed.

(** Applying a coinbase credits its receiver with the reward and the fee
    share and changes nothing else, as long as the new supply fits 64 bits; a
    transaction from any other sender is rejected without effect. *)
Theorem apply_coinbase_credits coinbase share w :
  is_u64 (tx_amount coinbase) -> is_u64 share -> supply w + tx_amount coinbase + share <= u64_max ->
  wp (apply_coinbase coinbase share) w (fun r w' =>
    if decide (tx_sender coinbase = COINBASE_SENDER) then
      r = Ok tt /\ supply w' = supply w + tx_amount coinbase + share /\
      acc_balance (account_at (tx_receiver coinbase) w') =
        acc_balance (account_at (tx_receiver coinbase) w) + tx_amount coinbase + share /\
      forall k, k <> tx_receiver coinbase -> w_accounts w' !! k = w_accounts w !! k
    else r = Err "Not a coinbase transaction" /\ w' = w).
Proof.
  intros Ha Hsh Hs. apply wp_valid. intros Hw. case_decide as Hsend.
  - apply wp_apply_coinbase; [done..|]. unfold coinbase_credit.
    destruct (account_at_valid (tx_receiver coinbase) w Hw) as [Haddr _].
    destruct (Z.eqb_spec (tx_amount coinbase) 0), (Z.eqb_spec share 0); cbn [andb];
      (split_and!; [done|..]);
      rewrite ?supply_put, ?account_at_put; cbn; rewrite ?Haddr, ?decide_True by done; unfold holdings; cbn;
      try lia; intros k Hk; rewrite ?lookup_insert_ne by congruence; done.
  - unfold apply_coinbase. destruct (String.eqb_spec (tx_sender coinbase) COINBASE_SENDER); [done|].
    by apply wp_fail.
Qed.
End coinbase_properties.

Module CoinbaseWitness.
Import Mem MemWorld.

Lemma mined_supply_bounded_witness :
  calculate_mined_supply (E:=string) 2 = Some (Ok (sumZ (map calculate_block_reward (seqZ 0 3)))) /\
  0 <= sumZ (map calculate_block_reward (seqZ 0 3)) <= 29000000 * KYV_UNITS.
Proof. apply (mined_supply_bounded 2). concrete. Defined.

Definition cb : Transaction := build_coinbase 1000 "miner" 7 "blockhash".
Lemma apply_coinbase_credits_witness :
  wp (apply_coinbase cb 40) empty_world (fun r w' =>
    if decide (tx_sender cb = COINBASE_SENDER) then
      r = Ok tt /\ supply w' = supply empty_world + tx_amount cb + 40 /\
      acc_balance (account_at (tx_receiver cb) w') =
        acc_balance (account_at (tx_receiver cb) empty_world) + tx_amount cb + 40 /\
      forall k, k <> tx_receiver cb -> w_accounts w' !! k = w_accounts empty_world !! k
    else r = Err "Not a coinbase transaction" /\ w' = empty_world).
Proof. apply (apply_coinbase_credits cb 40 empty_world); concrete. Defined.
End CoinbaseWitness.
