(* ===== verification/Genesis.v ===== *)
(** * The genesis of the chain (src/consensus/genesis.rs)

    The protocol constants, [initialize_chain] and [verify_genesis_integrity].
    The messages [initialize_chain] prints are not modelled. *)
From S2P Require Import Prelude Text Types Extern InMemory Hash Merkle Mining BlockProducer Db World.
From S2P Require Import AccountStore BlockStore StateTrie.

Definition TOTAL_SUPPLY : Z := 1500000000000000000.
Definition MINING_ALLOCATION : Z := 900000000000000000.
Definition ECOSYSTEM_ALLOCATION : Z := 225000000000000000.
Definition FOUNDER_ALLOCATION : Z := 150000000000000000.
Definition COMMUNITY_ALLOCATION : Z := 150000000000000000.
Definition TREASURY_ALLOCATION : Z := 75000000000000000.
Definition ECOSYSTEM_ADDRESS : string :=
  "kyv10000000000000000000000000000000000000000000000000ecosystem00".
Definition FOUNDER_ADDRESS : string :=
  "kyv10000000000000000000000000000000000000000000000000000founder00".
Definition COMMUNITY_ADDRESS : string :=
  "kyv100000000000000000000000000000000000000000000000000community00".
Definition TREASURY_ADDRESS : string :=
  "kyv10000000000000000000000000000000000000000000000000000treasury00".
Definition GENESIS_MINER : string := FOUNDER_ADDRESS.

Section genesis.
Context `{Build} `{Sha3} `{HexCodec} `{Sled} `{!Serde Account} `{!Serde Block} `{!Serde ChainTip}.

Definition apply_genesis_allocations : st KyveraDb string unit :=
  credit_account ECOSYSTEM_ADDRESS ECOSYSTEM_ALLOCATION;;
  credit_account FOUNDER_ADDRESS FOUNDER_ALLOCATION;;
  credit_account COMMUNITY_ADDRESS COMMUNITY_ALLOCATION;;
  credit_account TREASURY_ADDRESS TREASURY_ALLOCATION;;
  e1 ←? add_u64 ECOSYSTEM_ALLOCATION FOUNDER_ALLOCATION;
  e2 ←? add_u64 e1 COMMUNITY_ALLOCATION;
  expected ←? add_u64 e2 TREASURY_ALLOCATION;
  expected_with_mining ←? add_u64 expected MINING_ALLOCATION;
  if negb (expected_with_mining =? TOTAL_SUPPLY) then
    st_fail ("Genesis allocation error: allocations sum to " +:+ show_uint expected_with_mining
      +:+ " but total supply is " +:+ show_uint TOTAL_SUPPLY)
  else mret tt.

(** [r.map_err(|e| format!("Failed to produce genesis block: {}", e))] *)
Definition genesis_block_or_message (r : res BlockError Block) : res string Block :=
  match r with
  | Ok b => Ok b
  | Err e => s ← display_block_error e; Err ("Failed to produce genesis block: " +:+ s)
  | Panic => Panic
  end.

Definition initialize_chain (now_ms : Z) : st KyveraDb string ChainTip :=
  existing ← load_chain_tip;
  match existing with
  | Some tip =>
    st_fail ("Chain already initialized at height " +:+ show_uint (tip_height tip)
      +:+ ". Cannot re-initialize without wiping the database.")
  | None =>
    genesis ←? genesis_block_or_message (produce_genesis_block now_ms GENESIS_MINER);
    apply_genesis_allocations;;
    credit_account GENESIS_MINER GENESIS_BLOCK_REWARD;;
    save_block genesis;;
    state_root ← compute_state_root;
    save_state_root state_root;;
    tip ←? advance genesis_tip genesis;
    save_chain_tip tip;;
    mret tip
  end.

Definition verify_genesis_integrity : st KyveraDb string bool :=
  genesis ← get_block_by_height 0;
  match genesis with
  | None => mret false
  | Some block =>
    let header := blk_header block in
    if negb (hdr_index header =? 0) || negb (hdr_is_epoch_block header) then mret false
    else if negb (String.eqb (hdr_previous_hash header) (str_repeat 64 "0")) then mret false
    else if negb (String.eqb (blk_producer_address block) GENESIS_MINER) then mret false
    else mret true
  end.
End genesis.

(** The accounts of the genesis state. *)
Definition genesis_accounts : gmap string Account :=
  let fund addr n := <[addr := set_balance n (new_account addr)]> in
  fund ECOSYSTEM_ADDRESS ECOSYSTEM_ALLOCATION (fund FOUNDER_ADDRESS (FOUNDER_ALLOCATION + GENESIS_BLOCK_REWARD)
    (fund COMMUNITY_ADDRESS COMMUNITY_ALLOCATION (fund TREASURY_ADDRESS TREASURY_ALLOCATION ∅))).
Definition genesis_world : World := set_accounts genesis_accounts empty_world.

Lemma genesis_utf8 w : w_accounts w = genesis_accounts -> addresses_utf8 w.
Proof.
  intros Hw k a. rewrite Hw. unfold genesis_accounts. rewrite !lookup_insert.
  repeat (case_decide; [intros _; subst k; reflexivity|]). by rewrite lookup_empty.
Qed.

Section genesis_rules.
Context `{Build} `{Sha3Laws} `{HexLaws} `{SledLaws} `{!Serde Account} `{!SerdeLaws Account}
  `{!Serde Block} `{!SerdeLaws Block} `{!Serde ChainTip} `{!SerdeLaws ChainTip}.

Lemma wp_credit_ok addr n w (Q : res string unit -> World -> Prop) :
  is_u64 n -> acc_balance (account_at addr w) + n <= u64_max ->
  Q (Ok tt) (put_account (set_balance (acc_balance (account_at addr w) + n) (account_at addr w)) w) ->
  wp (credit_account addr n) w Q.
Proof.
  intros Hn Hb HQ. eapply wp_refines; [by apply credit_account_refines|]. unfold credit_spec, checked_add_u64.
  by rewrite (proj2 (Z.leb_le _ _) Hb).
Qed.

(** The allocations and the miner's reward, on a state without accounts. *)
Lemma wp_genesis_accounts {A} (k : st KyveraDb string A) w Q :
  w_accounts w = ∅ -> wp k (set_accounts genesis_accounts w) Q ->
  wp (apply_genesis_allocations ;; credit_account GENESIS_MINER GENESIS_BLOCK_REWARD ;; k) w Q.
Proof.
  intros Hw HQ. destruct w as [ac bh bt tr md]. cbn in Hw. subst ac.
  apply wp_bind. unfold apply_genesis_allocations.
  repeat (apply wp_bind, wp_credit_ok; [concrete|concrete|]).
  repeat (apply wp_bind, wp_lift; rewrite add_u64_ok by concrete).
  apply wp_ret. apply wp_bind, wp_credit_ok; [concrete|concrete|].
  eassert (set_accounts genesis_accounts _ = _) as <-; [|exact HQ].
  vm_compute. reflexivity.
Qed.

Lemma genesis_block_inv now_ms g :
  produce_genesis_block now_ms GENESIS_MINER = Ok g ->
  hdr_index (blk_header g) = 0 /\ hdr_is_epoch_block (blk_header g) = true /\
  hdr_previous_hash (blk_header g) = str_repeat 64 "0" /\ blk_producer_address g = GENESIS_MINER /\
  utf8_valid (blk_hash g) = true /\
  advance (E:=string) genesis_tip g = Ok (mkChainTip (blk_hash g) 0 now_ms 1 0 1).
Proof.
  unfold produce_genesis_block. intros Hf.
  apply finish_block_inv in Hf as ((Hh & _) & _ & He & _ & _ & Hp); [|done].
  split_and!; [by rewrite He..|done|rewrite Hh; apply sha3_256_hex_utf8|].
  unfold advance. rewrite He. cbn. done.
Qed.

Lemma wp_verify_genesis g w Q :
  hdr_index (blk_header g) = 0 -> hdr_is_epoch_block (blk_header g) = true ->
  hdr_previous_hash (blk_header g) = str_repeat 64 "0" -> blk_producer_address g = GENESIS_MINER ->
  utf8_valid (blk_hash g) = true ->
  block_index [g] (w_blocks_by_hash w) (w_blocks_by_height w) ->
  Q (Ok true) w -> wp verify_genesis_integrity w Q.
Proof.
  intros Hi He Hp Hm Hu Hb HQ. apply wp_bind, (wp_get_block_by_height [g]); [done| |done|].
  { constructor; [|constructor]. split; [done|]. unfold height. rewrite Hi. done. }
  assert (last_with height 0 [g] = Some g) as ->.
  { unfold last_with. rewrite filter_cons, decide_True by done. done. }
  cbn [mbind option_bind].
  assert (last_with blk_hash (blk_hash g) [g] = Some g) as ->.
  { unfold last_with. by rewrite filter_cons, decide_True. }
  rewrite Hi, He, Hp, Hm. cbn [Z.eqb negb orb]. rewrite !String.eqb_refl. cbn [negb]. by apply wp_ret.
Qed.
Definition first_tip (g : Block) (now_ms : Z) : ChainTip := mkChainTip (blk_hash g) 0 now_ms 1 0 1.
Lemma wp_initialize now_ms g (Q : res string ChainTip -> World -> Prop) :
  produce_genesis_block now_ms GENESIS_MINER = Ok g ->
  (forall mh mt v, block_index [g] mh mt -> to_vec (first_tip g now_ms) = Ok v ->
    Q (Ok (first_tip g now_ms)) (mkWorld genesis_accounts mh mt ∅
      (<[CHAIN_TIP_KEY := v]> (<[STATE_ROOT_KEY := root_of genesis_world]> ∅)))) ->
  wp (initialize_chain now_ms) empty_world Q.
Proof.
  intros Hg HQ. destruct (genesis_block_inv now_ms g Hg) as (Hi & _ & _ & _ & Hu & Hadv).
  apply wp_bind, wp_load_no_tip; [done|]. rewrite Hg. apply wp_bind, wp_lift. cbn [genesis_block_or_message].
  apply wp_genesis_accounts; [done|].
  apply wp_bind, (wp_save_block []); [apply block_index_empty|split; [done|unfold height; by rewrite Hi]|].
  intros mh mt Hidx. cbn [app] in Hidx. apply wp_bind, wp_compute_state_root; [by apply genesis_utf8|].
  apply wp_bind, wp_write; [done|]. apply wp_bind, wp_lift. rewrite Hadv.
  apply wp_bind, wp_save_tip. intros v Hv. apply wp_ret. by apply HQ.
Qed.
End genesis_rules.

Section genesis_properties.
Context `{Build} `{Sha3Laws} `{HexLaws} `{SledLaws} `{!Serde Account} `{!SerdeLaws Account}
  `{!Serde Block} `{!SerdeLaws Block} `{!Serde ChainTip} `{!SerdeLaws ChainTip}.

End genesis_properties.

Module GenesisWitness.
Import Mem.

Definition genesis_block : Block := Eval vm_compute in
  match produce_genesis_block 1700000000000 GENESIS_MINER with
  | Ok b => b | _ => new_block (new_header 0 0 "" "" 0 false 0) [] "" 0 end.
End GenesisWitness.
