(* ===== verification/Staking.v ===== *)
(** * Unbonding (src/consensus/staking.rs)

    Requests to unstake and their release once the unbonding period is over.
    [Pending P w] says that the metadata of [w] holds exactly the pending
    withdrawals [P], each under its key. *)
From S2P Require Import Prelude Text Codec Types Extern InMemory Db World AccountStore.

Definition UNBONDING_PERIOD_EPOCHS : Z := 10.
Definition PENDING_UNSTAKE_PREFIX : string := "pending_unstake:".

Record PendingUnstake := mkPendingUnstake {
  pu_address : string;
  pu_amount : Z;
  pu_request_epoch : Z;
  pu_unlock_epoch : Z;
}.
#[export] Instance PendingUnstake_eq_dec : EqDecision PendingUnstake.
Proof. solve_decision. Defined.
#[export] Instance PendingUnstake_codec : Codec PendingUnstake.
Proof.
  refine (iso_codec (fun p => (pu_address p, pu_amount p, pu_request_epoch p, pu_unlock_epoch p))
    (fun '(x1, x2, x3, x4) => mkPendingUnstake x1 x2 x3 x4) _).
  by intros [].
Defined.

Definition pending_key (p : PendingUnstake) : string :=
  PENDING_UNSTAKE_PREFIX +:+ show_padded 20 (pu_unlock_epoch p) +:+ ":" +:+ pu_address p +:+ ":" +:+
  show_padded 20 (pu_request_epoch p).

Section staking.
Context `{Build} `{Sled} `{!Serde Account} `{!Serde PendingUnstake}.

Definition save_pending_unstake (pending : PendingUnstake) : st KyveraDb string unit :=
  serialized ←? map_err (fun e => "Failed to serialize pending unstake: " +:+ e) (to_vec pending);
  set_metadata (pending_key pending) serialized.

Definition request_unstake (address : string) (amount current_epoch : Z)
    : st KyveraDb string PendingUnstake :=
  found ← get_account address;
  account ←? ok_or found ("No account found for " +:+ address);
  if acc_staked_balance account <? amount then
    st_fail ("Insufficient staked balance: has " +:+ show_uint (acc_staked_balance account)
      +:+ " needs " +:+ show_uint amount)
  else
    staked ←? sub_u64 (acc_staked_balance account) amount;
    save_account (update_validator_tier (set_staked_balance staked account));;
    unlock_epoch ←? add_u64 current_epoch UNBONDING_PERIOD_EPOCHS;
    let pending := mkPendingUnstake address amount current_epoch unlock_epoch in
    save_pending_unstake pending;;
    mret pending.

(** One round of the loop of [get_pending_unstakes]. *)
Definition pending_item (address : string) (results : list PendingUnstake)
    (item : res string (string * string)) : st KyveraDb string (list PendingUnstake) :=
  kv ←? map_err (fun e => "Scan error: " +:+ e) item;
  pending ←? map_err (fun e => "Deserialize error: " +:+ e) (from_slice (A:=PendingUnstake) kv.2);
  mret (if String.eqb (pu_address pending) address then results ++ [pending] else results).
Definition get_pending_unstakes (address : string) : st KyveraDb string (list PendingUnstake) :=
  items ← scan_tree Metadata PENDING_UNSTAKE_PREFIX;
  st_fold items [] (pending_item address).

(** One round of the first loop of [process_matured_unstakes]. *)
Definition mature_item (current_epoch : Z) (acc : Z * list string)
    (item : res string (string * string)) : st KyveraDb string (Z * list string) :=
  let '(total_processed, keys_to_remove) := acc in
  kv ←? map_err (fun e => "Scan error: " +:+ e) item;
  pending ←? map_err (fun e => "Deserialize error: " +:+ e) (from_slice (A:=PendingUnstake) kv.2);
  if pu_unlock_epoch pending <=? current_epoch then
    credit_account (pu_address pending) (pu_amount pending);;
    mret (saturating_add_u64 total_processed (pu_amount pending), keys_to_remove ++ [kv.1])
  else mret (total_processed, keys_to_remove).

(** [db.metadata.remove(&key)] of the second loop. *)
Definition remove_pending (key : string) : st KyveraDb string unit := fun db =>
  let '(t, r) := tree_remove (get_tree Metadata db) key in
  (set_tree Metadata t db,
   map_err (fun e => "Failed to remove pending unstake entry: " +:+ e) (map_ok (fun _ => tt) r)).

Definition process_matured_unstakes (current_epoch : Z) : st KyveraDb string Z :=
  items ← scan_tree Metadata PENDING_UNSTAKE_PREFIX;
  acc ← st_fold items (0, []) (mature_item current_epoch);
  st_for acc.2 remove_pending;;
  mret acc.1.
End staking.

(** ** The pending withdrawals a world holds *)

Definition is_pending_key (k : string) : Prop := starts_with PENDING_UNSTAKE_PREFIX k = true.

Definition Pending `{!Serde PendingUnstake} (P : gmap string PendingUnstake) (w : World) : Prop :=
  forall k, match P !! k with
  | Some p => k = pending_key p /\ is_u64 (pu_amount p) /\
      exists b, w_metadata w !! k = Some b /\ from_slice b = Ok p
  | None => is_pending_key k -> w_metadata w !! k = None
  end.

(** The records in the order of their keys. *)
Definition records (P : gmap string PendingUnstake) : list PendingUnstake :=
  (merge_sort key_le (map_to_list P)).*2.
Definition total_amount (l : list PendingUnstake) : Z := sumZ (map pu_amount l).
Definition unbonding (P : gmap string PendingUnstake) : Z := total_amount (records P).
Definition matured (epoch : Z) (P : gmap string PendingUnstake) : gmap string PendingUnstake :=
  filter (fun kp => pu_unlock_epoch kp.2 <= epoch) P.
Definition unmatured (epoch : Z) (P : gmap string PendingUnstake) : gmap string PendingUnstake :=
  filter (fun kp => ~ pu_unlock_epoch kp.2 <= epoch) P.

Lemma pending_key_prefix p : is_pending_key (pending_key p).
Proof. unfold is_pending_key, pending_key. apply starts_with_app. Qed.

Lemma records_perm (P : gmap string PendingUnstake) : records P ≡ₚ (map_to_list P).*2.
Proof. unfold records. by rewrite merge_sort_Permutation. Qed.
Lemma total_amount_perm l1 l2 : l1 ≡ₚ l2 -> total_amount l1 = total_amount l2.
Proof. unfold total_amount. induction 1; cbn in *; lia. Qed.
Lemma unbonding_insert k p (P : gmap string PendingUnstake) :
  unbonding (<[k := p]> P) = unbonding P - default 0 (pu_amount <$> P !! k) + pu_amount p.
Proof.
  unfold unbonding. rewrite !(total_amount_perm _ _ (records_perm _)).
  assert (forall Q : gmap string PendingUnstake, Q !! k = None ->
    total_amount (map_to_list (<[k:=p]> Q)).*2 = pu_amount p + total_amount (map_to_list Q).*2) as Hnew.
  { intros Q HQ. rewrite (total_amount_perm _ ((map_to_list Q).*2 ++ [p])).
    - unfold total_amount. rewrite map_app, sumZ_app. cbn. lia.
    - rewrite map_to_list_insert by done. cbn. by rewrite Permutation_app_comm. }
  destruct (P !! k) as [q|] eqn:Hq; cbn.
  - rewrite <-(insert_delete_eq P k p). rewrite Hnew by apply lookup_delete_eq.
    assert (total_amount (map_to_list P).*2 =
      pu_amount q + total_amount (map_to_list (base.delete k P)).*2) as ->; [|lia].
    rewrite (total_amount_perm _ (q :: (map_to_list (base.delete k P)).*2)); [done|].
    rewrite <-(insert_delete_id P k q Hq) at 1. rewrite map_to_list_insert; [done|apply lookup_delete_eq].
  - rewrite Hnew by done. lia.
Qed.
Lemma unbonding_split epoch P : unbonding P = unbonding (matured epoch P) + unbonding (unmatured epoch P).
Proof.
  unfold unbonding, records, matured, unmatured. rewrite <-!sorted_filter.
  generalize (merge_sort key_le (map_to_list P)). intros l. unfold total_amount.
  induction l as [|[k p] l IH]; [done|]. rewrite !filter_cons. cbn [fmap list_fmap snd map sumZ].
  repeat case_decide; try tauto; cbn [fmap list_fmap snd map sumZ]; rewrite IH; lia.
Qed.

(** ** Crediting released withdrawals *)

Definition payouts (l : list PendingUnstake) : list (string * Z) :=
  map (fun p => (pu_address p, pu_amount p)) l.
Definition credit_all (l : list PendingUnstake) (w : World) : World := credits (payouts l) w.
(** What a list of withdrawals releases to an address. *)
Definition released_to (addr : string) (l : list PendingUnstake) : Z := credited_to addr (payouts l).

Lemma payouts_total l : sumZ (payouts l).*2 = total_amount l.
Proof. unfold total_amount. induction l as [|p l IH]; [done|]. cbn. f_equal. exact IH. Qed.
Lemma credit_all_facts l w :
  valid w -> Forall (fun p => is_u64 (pu_amount p)) l -> supply w + total_amount l <= u64_max ->
  valid (credit_all l w) /\ supply (credit_all l w) = supply w + total_amount l /\
  (forall x, acc_balance (account_at x (credit_all l w)) = acc_balance (account_at x w) + released_to x l) /\
  (forall x, acc_staked_balance (account_at x (credit_all l w)) = acc_staked_balance (account_at x w)) /\
  (tiers_consistent w -> tiers_consistent (credit_all l w)) /\
  w_metadata (credit_all l w) = w_metadata w.
Proof.
  intros Hw Hl Hs. pose proof (credits_facts (payouts l) w) as Hc. rewrite payouts_total in Hc.
  apply Hc; [done| |done].
  unfold payouts. apply Forall_map. eapply Forall_impl; [exact Hl|]. unfold is_u64. cbn. lia.
Qed.

Section staking_rules.
Context `{Build} `{SledLaws} `{!Serde Account} `{!SerdeLaws Account}
  `{!Serde PendingUnstake} `{!SerdeLaws PendingUnstake}.

Lemma Pending_insert P p v w :
  Pending P w -> is_u64 (pu_amount p) -> to_vec p = Ok v ->
  Pending (<[pending_key p := p]> P) (set_raw Metadata (<[pending_key p := v]> (w_metadata w)) w).
Proof.
  intros HP Hp Hv k. destruct w as [ac bh bt tr md]. cbn. rewrite !lookup_insert.
  case_decide as Hk; [|apply HP]. subst k. split_and!; [done|apply Hp..|].
  exists v. split; [done|]. by apply from_to_vec.
Qed.

(** The withdrawal a request creates, and the account after it. *)
Definition new_pending (address : string) (amount epoch : Z) : PendingUnstake :=
  mkPendingUnstake address amount epoch (epoch + UNBONDING_PERIOD_EPOCHS).
Definition unbonded (amount : Z) (a : Account) : Account :=
  update_validator_tier (set_staked_balance (acc_staked_balance a - amount) a).

(** The request step by step.  The stake is saved before the unlock epoch is
    computed: if that sum overflows and panics, the amount is gone from the
    stake and no withdrawal is recorded. *)
Lemma wp_request_unstake_any address amount epoch w (Q : res string PendingUnstake -> World -> Prop) :
  is_u64 amount ->
  match w_accounts w !! address with
  | None => Q (Err ("No account found for " +:+ address)) w
  | Some a =>
    if acc_staked_balance a <? amount then
      Q (Err ("Insufficient staked balance: has " +:+ show_uint (acc_staked_balance a)
        +:+ " needs " +:+ show_uint amount)) w
    else
      let w1 := put_account (unbonded amount a) w in
      match add_u64 (E:=string) epoch UNBONDING_PERIOD_EPOCHS with
      | Ok unlock => forall v, let p := mkPendingUnstake address amount epoch unlock in
          to_vec p = Ok v -> Q (Ok p) (set_raw Metadata (<[pending_key p := v]> (w_metadata w1)) w1)
      | Err e => Q (Err e) w1
      | Panic => Q Panic w1
      end
  end ->
  wp (request_unstake address amount epoch) w Q.
Proof.
  unfold is_u64. intros Ha HQ. apply wp_valid. intros Hw.
  apply wp_bind, wp_get_account, wp_bind, wp_lift.
  destruct (w_accounts w !! address) as [a|] eqn:Hacc; cbn [ok_or]; [|exact HQ].
  destruct (Hw _ _ Hacc) as (_ & Hb & Hs & Hn & Hl). unfold is_u64 in *.
  destruct (Z.ltb_spec (acc_staked_balance a) amount); [by apply wp_fail|].
  apply wp_bind, wp_lift. rewrite sub_u64_ok by lia.
  apply wp_bind, wp_save_account; [unfold account_wf, is_u64; cbn; lia|].
  apply wp_bind, wp_lift. fold (unbonded amount a). cbv zeta in HQ. revert HQ.
  destruct (add_u64 epoch UNBONDING_PERIOD_EPOCHS) as [unlock|e|]; intros HQ; [|exact HQ..].
  destruct (to_vec_total (mkPendingUnstake address amount epoch unlock)) as [v Hv].
  apply wp_bind, wp_bind, wp_lift. rewrite Hv.
  cbn [map_err]. apply wp_write; [done|]. apply wp_ret. by apply HQ.
Qed.

Lemma wp_request_unstake P address amount epoch w (Q : res string PendingUnstake -> World -> Prop) :
  Pending P w -> is_u64 amount -> is_u64 epoch -> epoch + UNBONDING_PERIOD_EPOCHS <= u64_max ->
  (forall v, to_vec (new_pending address amount epoch) = Ok v ->
    match w_accounts w !! address with
    | None => Q (Err ("No account found for " +:+ address)) w
    | Some a =>
      if acc_staked_balance a <? amount then
        Q (Err ("Insufficient staked balance: has " +:+ show_uint (acc_staked_balance a)
          +:+ " needs " +:+ show_uint amount)) w
      else
        let w1 := put_account (unbonded amount a) w in
        let p := new_pending address amount epoch in
        Q (Ok p) (set_raw Metadata (<[pending_key p := v]> (w_metadata w1)) w1)
    end) ->
  wp (request_unstake address amount epoch) w Q.
Proof.
  unfold is_u64. intros HP Ha He Hov HQ. apply wp_request_unstake_any; [done|].
  rewrite add_u64_ok by (unfold UNBONDING_PERIOD_EPOCHS in *; lia).
  destruct (to_vec_total (new_pending address amount epoch)) as [v Hv]. specialize (HQ v Hv).
  destruct (w_accounts w !! address) as [a|]; [|exact HQ]. case_match; [exact HQ|].
  intros w1 v' p' Hv'. change p' with (new_pending address amount epoch) in *. rewrite Hv in Hv'. by injection Hv' as <-.
Qed.

(** The entries a scan for pending withdrawals finds. *)
Lemma pending_items P w :
  Pending P w ->
  Forall2 (fun kv kp => kv.1 = kp.1 /\ from_slice kv.2 = Ok kp.2 /\ is_u64 (pu_amount kp.2))
    (filter (fun kv => starts_with PENDING_UNSTAKE_PREFIX kv.1 = true) (sorted_entries (w_metadata w)))
    (merge_sort key_le (map_to_list P)).
Proof.
  intros HP. unfold sorted_entries. rewrite sorted_filter.
  refine (list.Forall2_impl _ _ _ _ (sorted_keys _ P _) _).
  - intros k. specialize (HP k). rewrite <-!not_eq_None_Some, map_lookup_filter_None. cbn.
    destruct (P !! k) as [p|].
    + destruct HP as (-> & _ & b & Hb & _). split; [done|]. intros _ [Hn|Hn]; [congruence|].
      by apply (Hn b Hb), pending_key_prefix.
    + split; [|done]. intros Hn. destruct (w_metadata w !! k) as [b|] eqn:Hb; [|by destruct Hn; left].
      destruct Hn. right. intros x _ Hpre. by specialize (HP Hpre).
  - intros [k b] [k' p]. cbn. intros (<- & Hb & Hp). apply map_lookup_filter_Some in Hb as [Hb _].
    specialize (HP k). rewrite Hp in HP. destruct HP as (_ & Hu & b' & Hb' & Hs). split_and!; [done| |apply Hu..].
    congruence.
Qed.

Definition mature_entries (epoch : Z) (L : list (string * PendingUnstake)) : list (string * PendingUnstake) :=
  filter (fun kp => pu_unlock_epoch kp.2 <= epoch) L.

Lemma mature_fold epoch items L total keys w (Q : res string (Z * list string) -> World -> Prop) :
  Forall2 (fun kv kp => kv.1 = kp.1 /\ from_slice kv.2 = Ok kp.2 /\ is_u64 (pu_amount kp.2)) items L ->
  valid w -> 0 <= total ->
  supply w + total_amount (mature_entries epoch L).*2 <= u64_max ->
  total + total_amount (mature_entries epoch L).*2 <= u64_max ->
  Q (Ok (total + total_amount (mature_entries epoch L).*2, keys ++ (mature_entries epoch L).*1))
    (credit_all (mature_entries epoch L).*2 w) ->
  wp (st_fold (map Ok items) (total, keys) (mature_item epoch)) w Q.
Proof.
  intros HL. revert total keys w. unfold mature_entries.
  induction HL as [|[k b] [k' p] items L (Hk & Hb & Hp) HL IH]; intros total keys w Hw Ht Hs Htot HQ.
  { cbn in HQ. rewrite Z.add_0_r, app_nil_r in HQ. by apply wp_ret. }
  cbn in Hk, Hb. subst k'. rewrite filter_cons in HQ, Hs, Htot. cbn [snd] in *. unfold is_u64 in Hp.
  cbn [map st_fold]. apply wp_bind. unfold mature_item. apply wp_bind, wp_lift. cbn [map_err snd fst].
  apply wp_bind, wp_lift. rewrite Hb. cbn [map_err].
  assert (0 <= total_amount (filter (fun kp => pu_unlock_epoch kp.2 <= epoch) L).*2) as Hpos.
  { apply sumZ_nonneg, Forall_map, Forall_fmap. apply Forall_forall. intros x [_ Hx]%list_elem_of_filter.
    apply list_elem_of_lookup in Hx as [i Hi].
    destruct (Forall2_lookup_r _ _ _ _ _ HL Hi) as (y & _ & _ & _ & ? & _). cbn. lia. }
  destruct (Z.leb_spec (pu_unlock_epoch p) epoch) as [Hle|Hgt].
  - rewrite decide_True in HQ, Hs, Htot by lia. cbn [fmap list_fmap snd fst] in *.
    unfold total_amount in HQ, Hs, Htot. cbn [map sumZ] in HQ, Hs, Htot.
    fold (total_amount (filter (fun kp => pu_unlock_epoch kp.2 <= epoch) L).*2) in *.
    destruct (credit_facts (pu_address p) (pu_amount p) w) as (Hv & Hsu & _); [done|lia|lia|].
    apply wp_bind, wp_credit; [unfold is_u64; lia|lia|].
    apply wp_ret. unfold saturating_add_u64. rewrite Z.min_l by lia.
    apply IH; [done|lia|lia|lia|].
    rewrite <-app_assoc, <-Z.add_assoc. exact HQ.
  - rewrite decide_False in HQ, Hs, Htot by lia. apply wp_ret, IH; done.
Qed.

Lemma wp_remove_pending k w (Q : res string unit -> World -> Prop) :
  Q (Ok tt) (set_raw Metadata (base.delete k (w_metadata w)) w) -> wp (remove_pending k) w Q.
Proof.
  intros HQ db Hdb.
  destruct (wp_delete Metadata k w (fun r w' => r = Ok tt /\
    w' = set_raw Metadata (base.delete k (w_metadata w)) w)) with (db := db) as (w' & Hw & Hr & ->); [done|done|done|].
  exists (set_raw Metadata (base.delete k (w_metadata w)) w). unfold remove_pending, delete in *.
  destruct (tree_remove _ _) as [t r]. cbn in *. split; [done|]. by destruct r.
Qed.

Lemma wp_remove_keys keys w (Q : res string unit -> World -> Prop) :
  (forall m, (forall k, m !! k = if decide (k ∈ keys) then None else w_metadata w !! k) ->
    Q (Ok tt) (set_raw Metadata m w)) ->
  wp (st_for keys remove_pending) w Q.
Proof.
  revert w. induction keys as [|k keys IH]; intros w HQ; cbn [st_for].
  - apply wp_ret. specialize (HQ (w_metadata w)). destruct w. apply HQ. intros x.
    by rewrite decide_False by set_solver.
  - apply wp_bind, wp_remove_pending, IH. intros m Hm. destruct w as [ac bh bt tr md]. apply (HQ m).
    intros x. rewrite Hm. cbn. rewrite lookup_delete. repeat case_decide; set_solver.
Qed.

Lemma mature_records epoch P :
  (mature_entries epoch (merge_sort key_le (map_to_list P))).*2 = records (matured epoch P).
Proof. unfold mature_entries, records, matured. by rewrite sorted_filter. Qed.
Lemma elem_of_mature_keys epoch P k :
  k ∈ (mature_entries epoch (merge_sort key_le (map_to_list P))).*1 <->
  exists p, P !! k = Some p /\ pu_unlock_epoch p <= epoch.
Proof.
  rewrite list_elem_of_fmap. unfold mature_entries. split.
  - intros ([k' p] & -> & [Hp Hin]%list_elem_of_filter). rewrite merge_sort_Permutation in Hin.
    apply elem_of_map_to_list in Hin. eauto.
  - intros (p & Hp & Hle). exists (k, p). split; [done|]. apply list_elem_of_filter.
    by rewrite merge_sort_Permutation, elem_of_map_to_list.
Qed.

Lemma Pending_unmatured epoch P w w' :
  Pending P w ->
  (forall k, w_metadata w' !! k =
    if decide (k ∈ (mature_entries epoch (merge_sort key_le (map_to_list P))).*1) then None
    else w_metadata w !! k) ->
  Pending (unmatured epoch P) w'.
Proof.
  intros HP Hm k. rewrite Hm. specialize (HP k). unfold unmatured. rewrite map_lookup_filter.
  case_decide as Hin; rewrite elem_of_mature_keys in Hin.
  - destruct Hin as (p & -> & Hle). cbn. by rewrite option_guard_False by tauto.
  - destruct (P !! k) as [p|]; cbn; [|done].
    rewrite option_guard_True by (cbn; intros ?; apply Hin; eauto). exact HP.
Qed.

Lemma records_u64 P w : Pending P w -> Forall (fun p => is_u64 (pu_amount p)) (records P).
Proof.
  intros HP. apply Forall_fmap, Forall_forall. intros [k p] Hin. rewrite merge_sort_Permutation in Hin.
  apply elem_of_map_to_list in Hin. specialize (HP k). rewrite Hin in HP. tauto.
Qed.
Lemma unbonding_nonneg P w : Pending P w -> 0 <= unbonding P.
Proof.
  intros HP. apply sumZ_nonneg, Forall_map. eapply Forall_impl; [by apply (records_u64 P w)|].
  unfold is_u64. cbn. lia.
Qed.
Lemma unmatured_nonneg epoch P w : Pending P w -> 0 <= unbonding (unmatured epoch P).
Proof.
  intros HP. apply sumZ_nonneg, Forall_map, Forall_fmap. unfold unmatured. rewrite <-sorted_filter.
  apply Forall_forall. intros x [_ Hx]%list_elem_of_filter. pose proof (records_u64 P w HP) as Hr.
  unfold records in Hr. rewrite Forall_fmap, Forall_forall in Hr. destruct (Hr x Hx). cbn in *. lia.
Qed.
Lemma matured_u64 epoch P w : Pending P w -> Forall (fun p => is_u64 (pu_amount p)) (records (matured epoch P)).
Proof.
  intros HP. rewrite <-mature_records. apply records_u64 in HP. unfold records in HP.
  apply Forall_fmap. unfold mature_entries. apply Forall_forall. intros x [_ Hx]%list_elem_of_filter.
  rewrite Forall_fmap, Forall_forall in HP. by apply HP.
Qed.

Lemma wp_process_matured P epoch w (Q : res string Z -> World -> Prop) :
  Pending P w -> supply w + unbonding (matured epoch P) <= u64_max ->
  (forall m, Pending (unmatured epoch P) (set_raw Metadata m w) ->
    (forall k, ~ is_pending_key k -> m !! k = w_metadata w !! k) ->
    Q (Ok (unbonding (matured epoch P))) (set_raw Metadata m (credit_all (records (matured epoch P)) w))) ->
  wp (process_matured_unstakes epoch) w Q.
Proof.
  intros HP Hs HQ. apply wp_valid. intros Hw. pose proof (supply_nonneg w Hw).
  apply wp_bind, wp_scan; [done|]. apply wp_bind.
  eapply mature_fold; [by apply pending_items|done|done|rewrite mature_records; exact Hs| |];
    rewrite mature_records; [unfold unbonding in Hs; lia|].
  rewrite Z.add_0_l, app_nil_l. cbn [fst snd]. apply wp_bind, wp_remove_keys. intros m Hm.
  apply wp_ret, HQ.
  - apply (Pending_unmatured _ _ w); [done|]. intros k. rewrite <-(proj2 (proj2 (proj2 (proj2 (proj2
      (credit_all_facts (records (matured epoch P)) w Hw (matured_u64 _ _ _ HP) Hs)))))).
    by destruct w.
  - intros k Hk. rewrite Hm, decide_False.
    + by destruct (credit_all_facts (records (matured epoch P)) w Hw (matured_u64 _ _ _ HP) Hs)
        as (_ & _ & _ & _ & _ & ->).
    + rewrite elem_of_mature_keys. intros (p & Hp & _). specialize (HP k). rewrite Hp in HP.
      destruct HP as (-> & _). apply Hk, pending_key_prefix.
Qed.
End staking_rules.

(** The address has an account with at least [amount] staked. *)
Definition can_unstake (address : string) (amount : Z) (w : World) : bool :=
  match w_accounts w !! address with
  | Some a => amount <=? acc_staked_balance a
  | None => false
  end.

Section staking_properties.
Context `{Build} `{SledLaws} `{!Serde Account} `{!SerdeLaws Account}
  `{!Serde PendingUnstake} `{!SerdeLaws PendingUnstake}.

(** C33: an accepted request takes the amount out of the stake at once, demotes
    the account to the tier of what is left, leaves its balance alone and
    records the withdrawal ten epochs ahead; if the account has no other
    withdrawal requested in this epoch, nothing is lost: supply and pending
    withdrawals together keep their sum.  A request for more than the stake, or
    by nobody, changes nothing. *)
Theorem request_unstake_exact P address amount epoch w :
  Pending P w -> is_u64 amount -> is_u64 epoch -> epoch + UNBONDING_PERIOD_EPOCHS <= u64_max ->
  let p := new_pending address amount epoch in
  wp (request_unstake address amount epoch) w (fun r w' =>
    if can_unstake address amount w then
      r = Ok p /\ Pending (<[pending_key p := p]> P) w' /\
      account_at address w' = unbonded amount (account_at address w) /\
      tier_consistent (account_at address w') /\
      (P !! pending_key p = None -> supply w' + unbonding (<[pending_key p := p]> P) = supply w + unbonding P)
    else w' = w /\ exists e, r = Err e).
Proof.
  intros HP Ha He Hov p. apply wp_valid. intros Hw. apply (wp_request_unstake P); [done..|]. intros v Hv.
  unfold can_unstake. destruct (w_accounts w !! address) as [a|] eqn:Hacc; [|eauto].
  destruct (Z.ltb_spec (acc_staked_balance a) amount), (Z.leb_spec amount (acc_staked_balance a));
    try lia; [eauto|].
  assert (account_at address w = a) as Hat by (unfold account_at; by rewrite Hacc).
  destruct (Hw _ _ Hacc) as [Haddr _]. cbv zeta. split_and!; [done| | | |].
  - destruct w. by apply Pending_insert.
  - rewrite Hat. unfold account_at. destruct w. cbn. by rewrite Haddr, lookup_insert_eq.
  - unfold account_at. destruct w. cbn. rewrite Haddr, lookup_insert_eq. cbn.
    apply update_validator_tier_consistent.
  - intros Hnew. rewrite unbonding_insert, Hnew. cbn [default fmap option_fmap option_map from_option].
    assert (forall m w1, supply (set_raw Metadata m w1) = supply w1) as Hsup by (by intros m []).
    rewrite Hsup, supply_put. cbn [acc_address unbonded update_validator_tier set_validator_tier set_staked_balance].
    rewrite Haddr, Hat. unfold holdings, unbonded. cbn. lia.
Qed.

(** C20: an epoch releases exactly the withdrawals whose time has come: each
    address receives the sum of its own, the rest stay pending, stakes do not
    change, and supply and pending withdrawals together keep their sum. *)
Theorem matured_released P epoch w :
  Pending P w -> supply w + unbonding P <= u64_max ->
  wp (process_matured_unstakes epoch) w (fun r w' =>
    r = Ok (unbonding (matured epoch P)) /\
    Pending (unmatured epoch P) w' /\
    (forall x, acc_balance (account_at x w') =
      acc_balance (account_at x w) + released_to x (records (matured epoch P))) /\
    (forall x, acc_staked_balance (account_at x w') = acc_staked_balance (account_at x w)) /\
    supply w' + unbonding (unmatured epoch P) = supply w + unbonding P /\
    forall k, ~ is_pending_key k -> w_metadata w' !! k = w_metadata w !! k).
Proof.
  intros HP Hs. apply wp_valid. intros Hw. pose proof (unbonding_split epoch P) as Hsplit.
  pose proof (unmatured_nonneg epoch P w HP) as Hpos.
  apply (wp_process_matured P); [done|lia|]. intros m Hm Hk.
  destruct (credit_all_facts (records (matured epoch P)) w Hw (matured_u64 _ _ _ HP)) as
    (_ & Hsu & Hb & Hst & _ & Hmd); [fold (unbonding (matured epoch P)); lia|].
  assert (forall w1 x, account_at x (set_raw Metadata m w1) = account_at x w1 /\
    supply (set_raw Metadata m w1) = supply w1) as Hset by (by intros []).
  split_and!; [done| | | | |].
  - intros k. specialize (Hm k). by destruct w, (credit_all _ _).
  - intros x. by rewrite (proj1 (Hset _ x)), Hb.
  - intros x. by rewrite (proj1 (Hset _ x)), Hst.
  - rewrite (proj2 (Hset _ "")), Hsu. fold (unbonding (matured epoch P)). lia.
  - intros k Hkk. rewrite <-(Hk k Hkk). by destruct (credit_all _ _).
Qed.

(** A second request by the same address in the same epoch is stored over
    the first one: both amounts leave the stake, but only the second is still
    pending, and the first is gone for good. *)
Theorem second_request_overwrites P address a1 a2 epoch w :
  Pending P w -> is_u64 a1 -> is_u64 a2 -> is_u64 epoch -> epoch + UNBONDING_PERIOD_EPOCHS <= u64_max ->
  is_Some (w_accounts w !! address) -> a1 + a2 <= acc_staked_balance (account_at address w) ->
  let p2 := new_pending address a2 epoch in
  P !! pending_key p2 = None ->
  wp (request_unstake address a1 epoch ;; request_unstake address a2 epoch) w (fun r w' =>
    r = Ok p2 /\ Pending (<[pending_key p2 := p2]> P) w' /\
    supply w' + unbonding (<[pending_key p2 := p2]> P) = supply w + unbonding P - a1).
Proof.
  intros HP Ha1 Ha2 He Hov [a Hacc] Hle p2 Hnew. apply wp_valid. intros Hw.
  assert (account_at address w = a) as Hat by (unfold account_at; by rewrite Hacc). rewrite Hat in Hle.
  destruct (Hw _ _ Hacc) as [Haddr Hwf]. unfold is_u64 in Ha1, Ha2.
  apply wp_bind, (wp_request_unstake P); [done..|]. intros v1 Hv1. rewrite Hacc.
  rewrite (proj2 (Z.ltb_ge (acc_staked_balance a) a1)) by lia.
  set (p1 := new_pending address a1 epoch) in *. assert (pending_key p1 = pending_key p2) as Hkey by done.
  apply (wp_request_unstake (<[pending_key p1 := p1]> P)); [by destruct w; apply Pending_insert|done..|].
  intros v2 Hv2. fold p2 in Hv2 |- *. destruct w as [ac bh bt tr md]. cbn in Hacc |- *.
  rewrite Haddr, lookup_insert_eq. cbn.
  rewrite (proj2 (Z.ltb_ge (acc_staked_balance a - a1) a2)) by lia. split_and!; [done| |].
  - pose proof (Pending_insert _ p1 v1 _ HP Ha1 Hv1) as HP1.
    pose proof (Pending_insert _ p2 v2 _ HP1 Ha2 Hv2) as HP2. rewrite Hkey, insert_insert_eq in HP2.
    exact HP2.
  - rewrite unbonding_insert, Hnew. cbn. unfold supply. cbn. rewrite Haddr, insert_insert_eq, supply_insert, Hacc.
    cbn. unfold holdings. cbn. lia.
Qed.
End staking_properties.

Module StakingWitness.
Import Mem MemWorld.

Definition start : World := world_with [funded "val" 5 600000000000 0].
Lemma start_pending : Pending ∅ start.
Proof. intros k. rewrite lookup_empty. done. Qed.
Definition one : PendingUnstake := new_pending "val" 7 3.
Definition one_bytes : string := match to_vec one with Ok v => v | _ => "" end.
Definition pending_start : World := set_raw Metadata (<[pending_key one := one_bytes]> ∅) start.
Lemma one_pending : Pending (<[pending_key one := one]> ∅) pending_start.
Proof. apply (Pending_insert ∅ one one_bytes start); [apply start_pending|concrete|done]. Qed.

Lemma request_unstake_exact_witness :
  let p := new_pending "val" 200000000000 4 in
  wp (request_unstake "val" 200000000000 4) start (fun r w' =>
    if can_unstake "val" 200000000000 start then
      r = Ok p /\ Pending (<[pending_key p := p]> ∅) w' /\
      account_at "val" w' = unbonded 200000000000 (account_at "val" start) /\
      tier_consistent (account_at "val" w') /\
      ((∅ : gmap string PendingUnstake) !! pending_key p = None ->
        supply w' + unbonding (<[pending_key p := p]> ∅) = supply start + unbonding ∅)
    else w' = start /\ exists e, r = Err e).
Proof.
  apply (request_unstake_exact ∅ "val" 200000000000 4 start); [apply start_pending|concrete..].
Defined.

Lemma matured_released_witness :
  let P := <[pending_key one := one]> ∅ in
  wp (process_matured_unstakes 13) pending_start (fun r w' =>
    r = Ok (unbonding (matured 13 P)) /\
    Pending (unmatured 13 P) w' /\
    (forall x, acc_balance (account_at x w') =
      acc_balance (account_at x pending_start) + released_to x (records (matured 13 P))) /\
    (forall x, acc_staked_balance (account_at x w') = acc_staked_balance (account_at x pending_start)) /\
    supply w' + unbonding (unmatured 13 P) = supply pending_start + unbonding P /\
    forall k, ~ is_pending_key k -> w_metadata w' !! k = w_metadata pending_start !! k).
Proof.
  intros P. apply (matured_released P 13 pending_start); [apply one_pending|concrete].
Defined.
(** The withdrawal matures at epoch 13 and not before. *)
Example matures_at_13 :
  unbonding (matured 13 (<[pending_key one := one]> ∅)) = 7 /\
  unbonding (matured 12 (<[pending_key one := one]> ∅)) = 0.
Proof. vm_compute. split; reflexivity. Qed.

Lemma second_request_overwrites_witness :
  let p2 := new_pending "val" 30 4 in
  wp (request_unstake "val" 20 4 ;; request_unstake "val" 30 4) start (fun r w' =>
    r = Ok p2 /\ Pending (<[pending_key p2 := p2]> ∅) w' /\
    supply w' + unbonding (<[pending_key p2 := p2]> ∅) = supply start + unbonding ∅ - 20).
Proof.
  apply (second_request_overwrites ∅ "val" 20 30 4 start);
    [apply start_pending|concrete..|vm_compute; eauto|concrete|concrete].
Defined.
End StakingWitness.
