(* ===== verification/Validators.v ===== *)
(** * Validator rewards and slashing (src/consensus/validators.rs) *)
From S2P Require Import Prelude Text Types Extern InMemory Hash Mining Db World AccountStore.
From S2P Require Import StateTrie Coinbase Genesis.

Definition MINOR_SLASH_BPS : Z := 100.
Definition MAJOR_SLASH_BPS : Z := 1000.

Definition calculate_validator_weight (account : Account) : Z :=
  let bonus_bps := default 0 (reward_bonus_bps <$> acc_validator_tier account) in
  let bonus := saturating_mul_u64 (acc_staked_balance account) bonus_bps / 10000 in
  saturating_add_u64 (acc_staked_balance account) bonus.

Section validators.
Context `{Build} `{Sled} `{!Serde Account}.

Definition get_active_validator_set : st KyveraDb string (list Account) := get_validators.

(** [weights.iter().map(|(_, w)| *w as u128).sum()] *)
Definition sum_weights {E} (weights : list (string * Z)) : res E Z :=
  res_fold weights 0 (fun acc x => add_u128 acc x.2).

(** One round of the loop of [distribute_validator_rewards]. *)
Definition reward_item (total_share total_weight : Z) (distributed : Z) (x : string * Z)
    : st KyveraDb string Z :=
  let '(address, weight) := x in
  product ←? mul_u128 total_share weight;
  let share := as_u64 (product / total_weight) in
  if 0 <? share then
    credit_account address share;;
    mret (saturating_add_u64 distributed share)
  else mret distributed.

Definition distribute_validator_rewards (total_share : Z) : st KyveraDb string Z :=
  if total_share =? 0 then mret 0
  else
    validators ← get_active_validator_set;
    match validators with
    | [] => mret 0
    | _ =>
      let weights := map (fun v => (acc_address v, calculate_validator_weight v)) validators in
      total_weight ←? sum_weights weights;
      if total_weight =? 0 then mret 0
      else st_fold weights 0 (reward_item total_share total_weight)
    end.

Definition apply_epoch_rewards (coinbase : Transaction) (total_fees_collected : Z)
    : st KyveraDb string unit :=
  apply_coinbase coinbase 0;;
  validator_share ←? calculate_validator_fee_share total_fees_collected;
  distributed ← distribute_validator_rewards validator_share;
  let leftover := saturating_sub_u64 validator_share distributed in
  if 0 <? leftover then credit_account TREASURY_ADDRESS leftover else mret tt.

Definition slash_validator (address : string) (slash_bps : Z) : st KyveraDb string Z :=
  found ← get_account address;
  account ←? ok_or found ("No account found for " +:+ address);
  if acc_staked_balance account =? 0 then st_fail (address +:+ " has no staked balance to slash")
  else
    let slash_amount := saturating_mul_u64 (acc_staked_balance account) slash_bps / 10000 in
    if slash_amount =? 0 then mret 0
    else
      staked ←? sub_u64 (acc_staked_balance account) slash_amount;
      save_account (update_validator_tier (set_staked_balance staked account));;
      credit_account TREASURY_ADDRESS slash_amount;;
      mret slash_amount.
End validators.

(** ** Shares *)

(** The active validators of a world with their weights. *)
Definition weights_of (w : World) : list (string * Z) :=
  map (fun v => (acc_address v, calculate_validator_weight v))
    (filter (fun a => is_validator a = true) (sorted_accounts (w_accounts w))).
Definition total_weight (l : list (string * Z)) : Z := sumZ l.*2.
(** What a pool of [share] pays to each of them. *)
Definition shares (share : Z) (l : list (string * Z)) : list (string * Z) :=
  map (fun x => (x.1, share * x.2 / total_weight l)) l.

Lemma saturating_add_range a b : is_u64 a -> 0 <= b -> a <= saturating_add_u64 a b <= u64_max.
Proof. unfold is_u64, saturating_add_u64. lia. Qed.

Lemma weight_range a : account_wf a -> acc_staked_balance a <= calculate_validator_weight a <= u64_max.
Proof.
  intros (_ & Hs & _). unfold calculate_validator_weight. apply saturating_add_range; [done|].
  apply Z.div_pos; [|lia]. unfold saturating_mul_u64, is_u64 in *.
  assert (0 <= default 0 (reward_bonus_bps <$> acc_validator_tier a)); [|apply Z.min_glb; unfold u64_max; nia].
  by destruct (acc_validator_tier a) as [[]|].
Qed.

(** Where the bonus does not overflow 64 bits the weight is the documented one. *)
Lemma weight_exact a t :
  0 <= acc_staked_balance a -> acc_staked_balance a * 3500 <= u64_max -> acc_validator_tier a = Some t ->
  calculate_validator_weight a = acc_staked_balance a + acc_staked_balance a * reward_bonus_bps t / 10000.
Proof.
  intros H0 Hs Ht. unfold calculate_validator_weight. rewrite Ht. cbn [default fmap option_fmap option_map].
  unfold saturating_mul_u64, saturating_add_u64.
  assert (0 <= reward_bonus_bps t <= 3500) by (destruct t; done).
  change (from_option id 0 (Some (reward_bonus_bps t))) with (reward_bonus_bps t).
  rewrite (Z.min_l (acc_staked_balance a * reward_bonus_bps t)) by nia. apply Z.min_l.
  assert (acc_staked_balance a * reward_bonus_bps t / 10000 <= acc_staked_balance a); [|unfold u64_max in *; lia].
  apply Z.div_le_upper_bound; nia.
Qed.

Lemma shares_sum_loop share T l :
  0 <= share -> 0 < T -> Forall (fun x => 0 <= x.2) l ->
  let s := sumZ (map (fun x => share * x.2 / T) l) in
  0 <= s /\ T * s <= share * total_weight l /\ share * total_weight l <= T * s + Z.of_nat (length l) * (T - 1).
Proof.
  intros Hs HT Hl. induction Hl as [|[a x] l Hx Hl IH]; [unfold total_weight; cbn; lia|].
  unfold total_weight in *. cbn [map fmap list_fmap sumZ snd length] in *. destruct IH as (H0 & H1 & H2).
  pose proof (Z.div_mod (share * x) T ltac:(lia)). pose proof (Z.mod_pos_bound (share * x) T HT).
  assert (0 <= share * x / T) by (apply Z.div_pos; nia).
  rewrite Nat2Z.inj_succ. split_and!; nia.
Qed.

(** The parts of a pool: none is lost but the rounding, less than one unit per
    validator. *)
Lemma shares_sum share l :
  0 <= share -> 0 < total_weight l -> Forall (fun x => 0 <= x.2) l ->
  0 <= sumZ (shares share l).*2 <= share /\
  share < sumZ (shares share l).*2 + Z.of_nat (length l).
Proof.
  intros Hs HT Hl. destruct (shares_sum_loop share (total_weight l) l Hs HT Hl) as (H0 & H1 & H2).
  assert ((shares share l).*2 = map (fun x => share * x.2 / total_weight l) l) as ->.
  { unfold shares. generalize (total_weight l). intros T. clear. induction l as [|x l IH]; [done|].
    cbn. f_equal. exact IH. }
  assert (0 < Z.of_nat (length l)) by (destruct l; [unfold total_weight in HT; cbn in HT; lia|cbn; lia]).
  split; [split; [done|]|]; nia.
Qed.

(** What a pool pays: the shares that are not zero. *)
Definition payments (share : Z) (w : World) : list (string * Z) :=
  filter (fun x => 0 < x.2) (shares share (weights_of w)).

Lemma filter_positive_sum (l : list (string * Z)) :
  Forall (fun x => 0 <= x.2) l ->
  sumZ (filter (fun x => 0 < x.2) l).*2 = sumZ l.*2 /\
  forall addr, credited_to addr (filter (fun x => 0 < x.2) l) = credited_to addr l.
Proof.
  induction 1 as [|[a x] l Hx Hl [IH1 IH2]]; [done|]. rewrite filter_cons. cbn [snd] in *.
  case_decide; cbn [fmap list_fmap snd sumZ]; (split; [lia|intros addr; unfold credited_to in *;
    cbn [map fst snd sumZ]; rewrite <-IH2; try case_decide; lia]).
Qed.

Lemma weight_le_twice a : account_wf a -> calculate_validator_weight a <= 2 * acc_staked_balance a.
Proof.
  intros (_ & Hs & _). unfold calculate_validator_weight, saturating_mul_u64, saturating_add_u64, is_u64 in *.
  set (b := default 0 (reward_bonus_bps <$> acc_validator_tier a)).
  assert (0 <= b <= 10000) by (unfold b; destruct (acc_validator_tier a) as [[]|]; cbn; lia).
  assert (Z.min (acc_staked_balance a * b) u64_max / 10000 <= acc_staked_balance a); [|lia].
  apply Z.div_le_upper_bound; nia.
Qed.

Lemma weights_range w : valid w ->
  Forall (fun x => 0 <= x.2 <= u64_max) (weights_of w) /\ 0 <= total_weight (weights_of w) <= 2 * supply w.
Proof.
  intros Hw. assert (Forall account_wf (sorted_accounts (w_accounts w))) as Hwf.
  { apply Forall_forall. intros a Ha. apply elem_of_sorted_accounts in Ha; [|done]. by apply Hw in Ha as [_ ?]. }
  rewrite supply_sorted. unfold weights_of, total_weight.
  induction Hwf as [|a l Ha Hl [IH1 IH2]]; [split; [constructor|cbn; lia]|]. rewrite filter_cons.
  pose proof (weight_range a Ha). pose proof (weight_le_twice a Ha). destruct Ha as (Hb & Hs & _).
  unfold holdings, is_u64 in *. case_decide; cbn [map fmap list_fmap snd sumZ]; (split; [|lia]).
  - constructor; [cbn; lia|done].
  - done.
Qed.

Section validator_rules.
Context `{Build} `{Sha3} `{HexCodec} `{SledLaws} `{!Serde Account} `{!SerdeLaws Account}.

Lemma sum_weights_ok {E} (l : list (string * Z)) acc :
  0 <= acc -> Forall (fun x => 0 <= x.2) l -> acc + sumZ l.*2 <= u128_max ->
  res_fold l acc (fun acc x => add_u128 (E:=E) acc x.2) = Ok (acc + sumZ l.*2).
Proof.
  intros Ha Hl. revert acc Ha. induction Hl as [|[a x] l Hx Hl IH]; intros acc Ha Hs; cbn [res_fold].
  - cbn. f_equal. lia.
  - cbn [fmap list_fmap snd sumZ] in *. assert (0 <= sumZ l.*2) by by apply sumZ_nonneg, Forall_fmap.
    unfold add_u128. rewrite unsigned_ok by lia. cbn [mbind res_bind]. rewrite IH by lia. f_equal. lia.
Qed.

Definition pays (share T : Z) (L : list (string * Z)) : list (string * Z) :=
  filter (fun x => 0 < x.2) (map (fun x => (x.1, share * x.2 / T)) L).
Lemma reward_fold share T L dist w (Q : res string Z -> World -> Prop) :
  is_u64 share -> 0 < T -> Forall (fun x => 0 <= x.2 <= u64_max /\ x.2 <= T) L ->
  0 <= dist -> supply w + sumZ (pays share T L).*2 <= u64_max -> dist + sumZ (pays share T L).*2 <= u64_max ->
  Q (Ok (dist + sumZ (pays share T L).*2)) (credits (pays share T L) w) ->
  wp (st_fold L dist (reward_item share T)) w Q.
Proof.
  unfold is_u64. intros Hsh HT HL. revert dist w.
  induction HL as [|[addr x] L [Hx HxT] HL IH]; intros dist w Hd Hs Hds HQ; unfold pays in *.
  { cbn in HQ. rewrite Z.add_0_r in HQ. by apply wp_ret. }
  cbn [fst snd] in *. cbn [map fst snd] in HQ, Hs, Hds. rewrite filter_cons in HQ, Hs, Hds. cbn [snd] in *.
  set (rest := filter (fun x => 0 < x.2) (map (fun x => (x.1, share * x.2 / T)) L)) in *.
  assert (0 <= sumZ rest.*2).
  { apply sumZ_nonneg, Forall_fmap, Forall_forall. intros y [Hy _]%list_elem_of_filter. cbn. lia. }
  assert (0 <= share * x / T <= share) as Hq.
  { split; [apply Z.div_pos; nia|]. apply Z.div_le_upper_bound; nia. }
  apply wp_valid. intros Hw. cbn [st_fold reward_item]. apply wp_bind, wp_bind, wp_lift.
  unfold mul_u128. rewrite unsigned_ok by (unfold u128_max, u64_max in *; nia).
  assert (as_u64 (share * x / T) = share * x / T) as -> by (apply Z.mod_small; lia).
  destruct (Z.ltb_spec 0 (share * x / T)) as [Hpos|Hzero].
  - rewrite decide_True in HQ, Hs, Hds by done. cbn [fmap list_fmap snd sumZ] in *.
    apply wp_bind, wp_credit; [unfold is_u64; lia|lia|]. apply wp_ret.
    destruct (credit_facts addr (share * x / T) w) as (_ & Hsu & _); [done|lia|lia|].
    unfold saturating_add_u64. rewrite Z.min_l by lia. apply IH; [lia..|].
    rewrite <-Z.add_assoc. exact HQ.
  - rewrite decide_False in HQ, Hs, Hds by lia. by apply wp_ret, IH.
Qed.

Lemma wp_distribute share w (Q : res string Z -> World -> Prop) :
  is_u64 share -> supply w + share <= u64_max ->
  Q (Ok (sumZ (payments share w).*2)) (credits (payments share w) w) ->
  wp (distribute_validator_rewards share) w Q.
Proof.
  unfold is_u64. intros Hsh Hs HQ. apply wp_valid. intros Hw. destruct (weights_range w Hw) as [Hx [HT0 HT]].
  assert (forall l, Forall (fun x : string * Z => x.2 = 0) l -> filter (fun x : string * Z => 0 < x.2) l = []) as Hz.
  { intros l Hl. apply elem_of_nil_inv. intros x [Hp Hin]%list_elem_of_filter.
    rewrite Forall_forall in Hl. specialize (Hl x Hin). lia. }
  unfold distribute_validator_rewards. destruct (Z.eqb_spec share 0) as [->|Hne].
  { apply wp_ret. unfold payments in HQ. rewrite Hz in HQ; [exact HQ|]. apply Forall_map, Forall_forall.
    intros x _. cbn. by rewrite Zdiv_0_l. }
  apply wp_bind. intros db Hdb. exists w. unfold get_active_validator_set.
  rewrite (get_validators_run db w Hdb). cbn [fst snd]. split; [done|].
  fold (weights_of w). unfold payments, shares in *. unfold weights_of in *.
  destruct (filter (fun a => is_validator a = true) (sorted_accounts (w_accounts w))) as [|v vs];
    [by apply wp_ret|].
  set (l := map (fun v => (acc_address v, calculate_validator_weight v)) (v :: vs)) in *.
  apply wp_bind, wp_lift. unfold sum_weights. rewrite sum_weights_ok;
    [|lia|eapply Forall_impl; [exact Hx|cbn; lia]|unfold total_weight, u128_max, u64_max in *; lia].
  rewrite Z.add_0_l. fold (total_weight l). destruct (Z.eqb_spec (total_weight l) 0) as [Hz0|Hz0].
  { apply wp_ret. rewrite Hz0, Hz in HQ; [exact HQ|]. apply Forall_map, Forall_forall.
    intros x _. apply Zdiv_0_r. }
  destruct (shares_sum share l) as [[Hs0 Hs1] _]; [lia|lia|eapply Forall_impl; [exact Hx|cbn; lia]|].
  assert (Forall (fun x => 0 <= x.2) (shares share l)) as Hnn.
  { apply Forall_map. eapply Forall_impl; [exact Hx|]. intros x Hxr. cbn beta in Hxr. cbn [snd]. apply Z.div_pos; [apply Z.mul_nonneg_nonneg; lia|lia]. }
  destruct (filter_positive_sum _ Hnn) as [Hfs _]. unfold shares in Hfs, Hs0, Hs1.
  fold (pays share (total_weight l) l) in Hfs, HQ.
  apply reward_fold; [done|lia| |lia|lia|lia|].
  - apply Forall_forall. intros x Hin. rewrite Forall_forall in Hx. split; [by apply Hx|].
    apply (elem_of_sumZ l.*2); [apply Forall_fmap, Forall_forall; intros y Hy; apply Hx, Hy|].
    by apply list_elem_of_fmap_2.
  - by rewrite Z.add_0_l.
Qed.

(** The account after [n] of its stake is slashed. *)
Definition slashed (n : Z) (a : Account) : Account :=
  update_validator_tier (set_staked_balance (acc_staked_balance a - n) a).

Lemma slashed_facts a w n :
  valid w -> w_accounts w !! acc_address a = Some a -> 0 <= n <= acc_staked_balance a ->
  valid (put_account (slashed n a) w) /\ supply (put_account (slashed n a) w) = supply w - n /\
  (forall x, acc_balance (account_at x (put_account (slashed n a) w)) = acc_balance (account_at x w)) /\
  (forall x, acc_staked_balance (account_at x (put_account (slashed n a) w)) =
    acc_staked_balance (account_at x w) - if decide (acc_address a = x) then n else 0) /\
  (tiers_consistent w -> tiers_consistent (put_account (slashed n a) w)).
Proof.
  intros Hw Ha Hn. destruct (Hw _ _ Ha) as (_ & Hb & Hs & Hno & Hl).
  assert (account_at (acc_address a) w = a) as Hat by (unfold account_at; by rewrite Ha).
  unfold is_u64 in *. split_and!.
  - apply put_account_valid; [done|]. unfold account_wf, is_u64. cbn. lia.
  - rewrite supply_put. cbn. rewrite Hat. unfold holdings. cbn. lia.
  - intros x. rewrite account_at_put. cbn. case_decide; [subst x; by rewrite Hat|done].
  - intros x. rewrite account_at_put. cbn. case_decide; [subst x; by rewrite Hat|lia].
  - intros Ht. by apply put_account_tiers.
Qed.
End validator_rules.

(** The parts of a pool add up to no more than the pool. *)
Lemma pool_facts share w :
  valid w -> 0 <= share ->
  let pool := shares share (weights_of w) in
  Forall (fun x => 0 <= x.2) (payments share w) /\
  sumZ (payments share w).*2 = sumZ pool.*2 /\
  (forall x, credited_to x (payments share w) = credited_to x pool) /\
  0 <= sumZ pool.*2 <= share /\
  (0 < total_weight (weights_of w) -> share < sumZ pool.*2 + Z.of_nat (length (weights_of w))).
Proof.
  intros Hw Hsh pool. destruct (weights_range w Hw) as [Hx [HT _]].
  assert (Forall (fun x => 0 <= x.2) (weights_of w)) as Hx0 by (eapply Forall_impl; [exact Hx|cbn; lia]).
  assert (Forall (fun x => 0 <= x.2) pool) as Hnn.
  { apply Forall_map. eapply Forall_impl; [exact Hx0|]. intros x Hxr. cbn beta in Hxr. cbn [snd].
    destruct (Z.eq_dec (total_weight (weights_of w)) 0) as [->|]; [by rewrite Zdiv_0_r|].
    apply Z.div_pos; [apply Z.mul_nonneg_nonneg|]; lia. }
  destruct (filter_positive_sum pool Hnn) as [Hsum Hto]. fold (payments share w) in Hsum, Hto.
  split_and!; [|done|done|by apply sumZ_nonneg, Forall_fmap| |].
  - apply Forall_forall. intros x [Hp _]%list_elem_of_filter. lia.
  - destruct (Z.eq_dec (total_weight (weights_of w)) 0) as [Hz0|];
      [|apply (shares_sum share (weights_of w)); [lia|lia|done]].
    unfold pool, shares. rewrite Hz0. generalize (weights_of w). intros l.
    assert (sumZ (map (fun x : string * Z => (x.1, share * x.2 / 0)) l).*2 = 0) as ->; [|done].
    induction l as [|x l IH]; [done|]. cbn [map fmap list_fmap snd sumZ].
    rewrite Zdiv_0_r. cbn in IH |- *. by rewrite IH.
  - intros HTp. by apply (shares_sum share (weights_of w)).
Qed.

(** A stake too large for its product with the slash rate: the amount slashed
    is cut to a ten-thousandth of the largest [u64], less than the rate asks. *)
Lemma slash_saturates staked bps :
  0 <= staked -> u64_max + 10000 <= staked * bps ->
  saturating_mul_u64 staked bps / 10000 = u64_max / 10000 /\ u64_max / 10000 < staked * bps / 10000.
Proof.
  intros Hs Hb. unfold saturating_mul_u64. rewrite Z.min_r by lia. split; [done|].
  apply Z.lt_le_trans with ((u64_max + 10000) / 10000); [done|]. apply Z.div_le_mono; lia.
Qed.

(** The validators' share of any fees is in range. *)
Lemma fee_share_range `{Build} {E} fees share : calculate_validator_fee_share (E:=E) fees = Ok share -> is_u64 share.
Proof.
  unfold calculate_validator_fee_share. intros (x & Hx & [= <-])%res_bind_Ok.
  apply unsigned_inv in Hx; [|done]. unfold is_u64. split; [apply Z.div_pos; lia|]. apply Z.div_le_upper_bound; lia.
Qed.

Section validator_runs.
Context `{Build} `{Sha3} `{HexCodec} `{SledLaws} `{!Serde Account} `{!SerdeLaws Account}.

(** The world after the rewards of an epoch: the coinbase, the parts of the
    validators, and the rest of the fee share to the treasury. *)
Definition rewarded (coinbase : Transaction) (share : Z) (w : World) : World :=
  let w1 := coinbase_credit coinbase 0 w in
  let pool := payments share w1 in
  let leftover := share - sumZ pool.*2 in
  if 0 <? leftover then credit TREASURY_ADDRESS leftover (credits pool w1) else credits pool w1.

(** The rewards step by step.  The coinbase is credited before the fee share is
    computed: if that product overflows and panics, the reward has been paid. *)
Lemma wp_epoch_rewards_any coinbase fees w (Q : res string unit -> World -> Prop) :
  tx_sender coinbase = COINBASE_SENDER -> is_u64 (tx_amount coinbase) ->
  match calculate_validator_fee_share (E:=string) fees with
  | Ok share => supply w + tx_amount coinbase + share <= u64_max /\ Q (Ok tt) (rewarded coinbase share w)
  | Err e => supply w + tx_amount coinbase <= u64_max /\ Q (Err e) (coinbase_credit coinbase 0 w)
  | Panic => supply w + tx_amount coinbase <= u64_max /\ Q Panic (coinbase_credit coinbase 0 w)
  end -> wp (apply_epoch_rewards coinbase fees) w Q.
Proof.
  intros Hsend Ha HQ. apply wp_valid. intros Hw. unfold apply_epoch_rewards.
  destruct (calculate_validator_fee_share fees) as [share|e|] eqn:Hshare.
  2-3: (destruct HQ as [Hs HQ]; apply wp_bind, wp_apply_coinbase; [done..|lia|]; by apply wp_bind, wp_lift).
  destruct HQ as [Hs HQ]. unfold rewarded in HQ.
  set (w1 := coinbase_credit coinbase 0 w) in *. set (pool := payments share w1) in *.
  pose proof (fee_share_range _ _ Hshare) as Hsh. unfold is_u64 in Hsh.
  destruct (coinbase_credit_facts coinbase 0 w) as [Hw1 Hsu1]; [done..|lia|]. fold w1 in Hw1, Hsu1.
  apply wp_bind, wp_apply_coinbase; [done..|lia|]. fold w1.
  apply wp_bind, wp_lift. apply wp_bind, wp_distribute; [done|lia|]. fold pool.
  destruct (pool_facts share w1 Hw1) as (Hnn & Hsum & _ & Hle & _); [lia|]. fold pool in Hnn, Hsum.
  destruct (credits_facts pool w1) as (_ & Hsu2 & _); [done|done|lia|].
  unfold saturating_sub_u64. rewrite Z.max_l by lia.
  destruct (Z.ltb_spec 0 (share - sumZ pool.*2)) as [Hpos|Hzero]; [|by apply wp_ret].
  apply wp_credit; [unfold is_u64; lia|lia|done].
Qed.
Lemma wp_epoch_rewards coinbase fees w (Q : res string unit -> World -> Prop) :
  tx_sender coinbase = COINBASE_SENDER -> is_u64 (tx_amount coinbase) ->
  0 <= fees -> fees * 40 <= u64_max -> supply w + tx_amount coinbase + fees * 40 / 100 <= u64_max ->
  Q (Ok tt) (rewarded coinbase (fees * 40 / 100) w) -> wp (apply_epoch_rewards coinbase fees) w Q.
Proof.
  intros Hsend Ha Hf Hf40 Hs HQ. apply wp_epoch_rewards_any; [done..|].
  unfold calculate_validator_fee_share. by rewrite mul_u64_ok by lia.
Qed.
Lemma rewarded_facts coinbase share w :
  valid w -> is_u64 (tx_amount coinbase) -> 0 <= share -> supply w + tx_amount coinbase + share <= u64_max ->
  let w1 := coinbase_credit coinbase 0 w in
  let pool := payments share w1 in
  let w' := rewarded coinbase share w in
  supply w' = supply w + tx_amount coinbase + share /\
  (forall x, acc_balance (account_at x w') = acc_balance (account_at x w1) + credited_to x pool +
    if decide (TREASURY_ADDRESS = x) then share - sumZ pool.*2 else 0) /\
  (forall x, acc_staked_balance (account_at x w') = acc_staked_balance (account_at x w1)) /\
  (tiers_consistent w -> tiers_consistent w') /\ w_metadata w' = w_metadata w.
Proof.
  intros Hw Ha Hsh Hs w1 pool w'.
  destruct (coinbase_credit_facts coinbase 0 w) as (Hw1 & Hsu1); [done..|concrete|lia|].
  destruct (coinbase_credit_frame coinbase 0 w) as [Ht1 Hm1]. fold w1 in Hw1, Hsu1, Ht1, Hm1.
  destruct (pool_facts share w1 Hw1 Hsh) as (Hnn & Hsum & _ & Hle & _). fold pool in Hnn, Hsum. rewrite <-Hsum in Hle.
  destruct (credits_facts pool w1) as (Hw2 & Hsu2 & Hb2 & Hst2 & Ht2 & Hm2); [done|done|lia|].
  unfold w', rewarded. fold w1 pool.
  destruct (Z.ltb_spec 0 (share - sumZ pool.*2)) as [Hpos|Hzero].
  - destruct (credit_facts TREASURY_ADDRESS (share - sumZ pool.*2) (credits pool w1)) as
      (_ & Hsu3 & Hb3 & Hst3 & Ht3 & Hm3); [done|lia|lia|].
    split_and!; [lia|intros x; rewrite Hb3, Hb2; lia|intros x; by rewrite Hst3, Hst2|by auto|congruence].
  - split_and!; [lia| |done|by auto|congruence]. intros x. rewrite Hb2. case_decide; lia.
Qed.

(** What slashing takes: the rate of the stake, in 64 bits that saturate. *)
Definition slash_cut (a : Account) (bps : Z) : Z := saturating_mul_u64 (acc_staked_balance a) bps / 10000.
Lemma slash_cut_range a bps :
  0 <= acc_staked_balance a -> 0 <= bps <= 10000 -> 0 <= slash_cut a bps <= acc_staked_balance a.
Proof.
  intros Hs Hb. unfold slash_cut, saturating_mul_u64.
  split; [apply Z.div_pos; [apply Z.min_glb; unfold u64_max; nia|lia]|].
  apply Z.div_le_upper_bound; [lia|]. etrans; [apply Z.le_min_l|]. nia.
Qed.

(** The world after a slash, [w] itself if nothing is taken. *)
Definition after_slash (a : Account) (n : Z) (w : World) : World :=
  if n =? 0 then w else credit TREASURY_ADDRESS n (put_account (slashed n a) w).
Lemma wp_slash address bps w (Q : res string Z -> World -> Prop) :
  supply w <= u64_max -> 0 <= bps -> bps <= 10000 \/ overflow_checks = true ->
  match w_accounts w !! address with
  | None => Q (Err ("No account found for " +:+ address)) w
  | Some a =>
    if acc_staked_balance a =? 0 then Q (Err (address +:+ " has no staked balance to slash")) w
    else if slash_cut a bps <=? acc_staked_balance a then Q (Ok (slash_cut a bps)) (after_slash a (slash_cut a bps) w)
    else Q Panic w
  end -> wp (slash_validator address bps) w Q.
Proof.
  intros Hs Hb0 Hbps HQ. apply wp_valid. intros Hw. unfold slash_validator.
  apply wp_bind, wp_get_account, wp_bind, wp_lift.
  destruct (w_accounts w !! address) as [a|] eqn:Hacc; cbn [ok_or]; [|done].
  destruct (Hw _ _ Hacc) as (Haddr & Hb & Hst & Hrest). unfold is_u64 in Hst.
  destruct (Z.eqb_spec (acc_staked_balance a) 0) as [Hz|Hz]; [by apply wp_fail|].
  cbv zeta. fold (slash_cut a bps).
  assert (0 <= slash_cut a bps) as Hn0.
  { unfold slash_cut, saturating_mul_u64. apply Z.div_pos; [apply Z.min_glb; unfold u64_max; nia|lia]. }
  pose proof (slash_cut_range a bps) as Hcut. set (n := slash_cut a bps) in *. unfold after_slash in HQ.
  destruct (Z.leb_spec n (acc_staked_balance a)) as [Hle|Hgt].
  - destruct (Z.eqb_spec n 0) as [Hc|Hc]; [apply wp_ret; by rewrite Hc in HQ|].
    apply wp_bind, wp_lift. rewrite sub_u64_ok by lia. rewrite <-Haddr in Hacc.
    destruct (slashed_facts a w n Hw Hacc) as (Hw1 & Hsu1 & _); [lia|].
    apply wp_bind, wp_save_account; [by apply (Hw1 (acc_address a)), lookup_insert_eq|].
    fold (slashed n a). apply wp_bind, wp_credit; [unfold is_u64; lia|lia|]. by apply wp_ret.
  - destruct Hbps as [Hbps|Hc]; [lia|]. destruct (Z.eqb_spec n 0); [lia|]. apply wp_bind, wp_lift.
    unfold sub_u64. rewrite unsigned_panic by (done || lia). exact HQ.
Qed.
Lemma after_slash_facts address a n w :
  valid w -> w_accounts w !! address = Some a -> 0 <= n <= acc_staked_balance a -> supply w <= u64_max ->
  let w' := after_slash a n w in
  supply w' = supply w /\ (tiers_consistent w -> tiers_consistent w') /\ w_metadata w' = w_metadata w /\
  acc_staked_balance (account_at address w') = acc_staked_balance a - n /\
  (forall x, acc_balance (account_at x w') =
    acc_balance (account_at x w) + if decide (TREASURY_ADDRESS = x) then n else 0).
Proof.
  intros Hw Hacc Hn Hs w'. unfold w', after_slash.
  destruct (Hw _ _ Hacc) as (Haddr & _). assert (account_at address w = a) as Hat by (unfold account_at; by rewrite Hacc).
  destruct (Z.eqb_spec n 0) as [->|Hne].
  { rewrite Hat. split_and!; [done..|lia|]. intros x. case_decide; lia. }
  rewrite <-Haddr in Hacc.
  destruct (slashed_facts a w n Hw Hacc Hn) as (Hw1 & Hsu1 & Hb1 & Hst1 & Ht1).
  destruct (credit_facts TREASURY_ADDRESS n (put_account (slashed n a) w)) as
    (_ & Hsu2 & Hb2 & Hst2 & Ht2 & Hm2); [done|lia|lia|].
  split_and!; [lia|by auto|by rewrite Hm2| |].
  - rewrite Hst2, Hst1, Hat, Haddr, decide_True by done. done.
  - intros x. by rewrite Hb2, Hb1.
Qed.
End validator_runs.

Section validator_properties.
Context `{Build} `{Sha3} `{HexCodec} `{SledLaws} `{!Serde Account} `{!SerdeLaws Account}.

(** C18: a fee pool is split among the active validators in proportion to their
    weights, rounded down: each balance grows by exactly its validator's part,
    no stake changes, what is reported as distributed is what was credited, and
    fewer units than there are validators are left over.  (While the supply fits
    64 bits.) *)
Theorem rewards_proportional share w :
  is_u64 share -> supply w + share <= u64_max ->
  let pool := shares share (weights_of w) in
  wp (distribute_validator_rewards share) w (fun r w' =>
    r = Ok (sumZ pool.*2) /\
    (forall x, acc_balance (account_at x w') = acc_balance (account_at x w) + credited_to x pool) /\
    (forall x, acc_staked_balance (account_at x w') = acc_staked_balance (account_at x w)) /\
    supply w' = supply w + sumZ pool.*2 /\
    (0 < total_weight (weights_of w) ->
      0 <= share - sumZ pool.*2 < Z.of_nat (length (weights_of w)))).
Proof.
  intros Hsh Hs pool. apply wp_valid. intros Hw. apply wp_distribute; [done..|].
  destruct (pool_facts share w Hw) as (Hnn & Hsum & Hto & Hle & Hround); [apply Hsh|].
  fold pool in Hsum, Hto, Hle, Hround.
  destruct (credits_facts (payments share w) w) as (_ & Hsu & Hb & Hst & _ & _); [done|done|lia|].
  rewrite Hsum in Hsu |- *. split_and!; [done| |done|done|].
  - intros x. by rewrite Hb, Hto.
  - intros HTp. specialize (Hround HTp). lia.
Qed.

(** C19: an epoch pays out the block reward and 40% of the fees and nothing else:
    the reward to the producer, the fee share to the validators by weight, and
    what rounding leaves, or all of it when nobody stakes, to the treasury. *)
Theorem epoch_rewards_conserved coinbase fees w :
  tx_sender coinbase = COINBASE_SENDER -> is_u64 (tx_amount coinbase) ->
  0 <= fees -> fees * 40 <= u64_max -> supply w + tx_amount coinbase + fees * 40 / 100 <= u64_max ->
  let w1 := coinbase_credit coinbase 0 w in
  let pool := payments (fees * 40 / 100) w1 in
  wp (apply_epoch_rewards coinbase fees) w (fun r w' =>
    r = Ok tt /\
    supply w' = supply w + tx_amount coinbase + fees * 40 / 100 /\
    (forall x, acc_balance (account_at x w') = acc_balance (account_at x w1) + credited_to x pool +
      if decide (TREASURY_ADDRESS = x) then fees * 40 / 100 - sumZ pool.*2 else 0) /\
    (forall x, acc_staked_balance (account_at x w') = acc_staked_balance (account_at x w1))).
Proof.
  intros Hsend Ha Hf Hf40 Hs w1 pool. apply wp_valid. intros Hw. apply wp_epoch_rewards; [done..|].
  destruct (rewarded_facts coinbase (fees * 40 / 100) w) as (Hsu & Hb & Hst & _); [done|done|apply Z.div_pos; lia|done|].
  by split_and!.
Qed.

(** C34: slashing takes [stake * rate / 10000], rounded down, of a product that is
    cut off at the largest [u64], so that a stake above 2^64 / rate loses less
    than its part ([slash_saturates]).  The amount moves to the treasury, nothing
    is created or destroyed, and the account is demoted to the tier of what is
    left.  A stake of zero, or no account, is rejected without effect; a rate
    that asks for more than the stake panics without effect in a build with
    overflow checks. *)
Theorem slash_exact address bps w :
  tiers_consistent w -> supply w <= u64_max -> is_u64 bps -> bps <= 10000 \/ overflow_checks = true ->
  let staked := acc_staked_balance (account_at address w) in
  let cut := Z.min (staked * bps) u64_max / 10000 in
  wp (slash_validator address bps) w (fun r w' =>
    if staked =? 0 then w' = w /\ exists e, r = Err e
    else if cut <=? staked then
      r = Ok cut /\ supply w' = supply w /\ tiers_consistent w' /\
      acc_staked_balance (account_at address w') = staked - cut /\
      forall x, acc_balance (account_at x w') =
        acc_balance (account_at x w) + if decide (TREASURY_ADDRESS = x) then cut else 0
    else r = Panic /\ w' = w).
Proof.
  intros Ht Hs Hb0 Hbps staked cut. unfold is_u64 in Hb0. apply wp_valid. intros Hw. apply wp_slash; [done|lia|done|].
  subst cut staked. destruct (w_accounts w !! address) as [a|] eqn:Hacc.
  2: { unfold account_at. rewrite Hacc. cbn. eauto. }
  assert (account_at address w = a) as Hat by (unfold account_at; by rewrite Hacc). rewrite Hat in *.
  destruct (Hw _ _ Hacc) as (_ & _ & Hst & _). unfold is_u64 in Hst.
  destruct (Z.eqb_spec (acc_staked_balance a) 0); [eauto|].
  change (Z.min (acc_staked_balance a * bps) u64_max / 10000) with (slash_cut a bps).
  destruct (Z.leb_spec (slash_cut a bps) (acc_staked_balance a)) as [Hle|]; [|done].
  assert (0 <= slash_cut a bps).
  { unfold slash_cut, saturating_mul_u64. apply Z.div_pos; [apply Z.min_glb; unfold u64_max; nia|lia]. }
  destruct (after_slash_facts address a (slash_cut a bps) w) as (? & ? & _ & ? & ?); [done..|].
  split_and!; auto.
Qed.
End validator_properties.

Module ValidatorsWitness.
Import Mem MemWorld.

Definition start : World :=
  world_with [funded "igniter" 0 500000000000 0; funded "nexus" 10 25000000000000 0; funded "user" 9 0 0].

Lemma rewards_proportional_witness :
  let pool := shares 1000 (weights_of start) in
  wp (distribute_validator_rewards 1000) start (fun r w' =>
    r = Ok (sumZ pool.*2) /\
    (forall x, acc_balance (account_at x w') = acc_balance (account_at x start) + credited_to x pool) /\
    (forall x, acc_staked_balance (account_at x w') = acc_staked_balance (account_at x start)) /\
    supply w' = supply start + sumZ pool.*2 /\
    (0 < total_weight (weights_of start) ->
      0 <= 1000 - sumZ pool.*2 < Z.of_nat (length (weights_of start)))).
Proof. apply (rewards_proportional 1000 start); concrete. Defined.
(** There the parts are 14 and 985, and one unit is left. *)
Example shares_there : shares 1000 (weights_of start) = [("igniter", 14); ("nexus", 985)].
Proof. vm_compute. reflexivity. Qed.

Definition cb : Transaction :=
  mkTransaction "h" COINBASE_SENDER "miner" 50000000000 0 1 "coinbase" 1000 Transfer "".
Lemma epoch_rewards_conserved_witness :
  let w1 := coinbase_credit cb 0 start in
  let pool := payments (2500 * 40 / 100) w1 in
  wp (apply_epoch_rewards cb 2500) start (fun r w' =>
    r = Ok tt /\
    supply w' = supply start + tx_amount cb + 2500 * 40 / 100 /\
    (forall x, acc_balance (account_at x w') = acc_balance (account_at x w1) + credited_to x pool +
      if decide (TREASURY_ADDRESS = x) then 2500 * 40 / 100 - sumZ pool.*2 else 0) /\
    (forall x, acc_staked_balance (account_at x w') = acc_staked_balance (account_at x w1))).
Proof. apply (epoch_rewards_conserved cb 2500 start); concrete. Defined.

Lemma slash_exact_witness :
  let staked := acc_staked_balance (account_at "nexus" start) in
  let cut := Z.min (staked * MAJOR_SLASH_BPS) u64_max / 10000 in
  wp (slash_validator "nexus" MAJOR_SLASH_BPS) start (fun r w' =>
    if staked =? 0 then w' = start /\ exists e, r = Err e
    else if cut <=? staked then
      r = Ok cut /\ supply w' = supply start /\ tiers_consistent w' /\
      acc_staked_balance (account_at "nexus" w') = staked - cut /\
      forall x, acc_balance (account_at x w') =
        acc_balance (account_at x start) + if decide (TREASURY_ADDRESS = x) then cut else 0
    else r = Panic /\ w' = start).
Proof.
  apply (slash_exact "nexus" MAJOR_SLASH_BPS start); [|concrete|concrete|by left].
  apply world_with_tiers. by repeat constructor.
Defined.
(** A stake of 100 million KYV is slashed by 1.8 percent at the rate of ten, and
    weighs less than two percent more than a stake without a bonus. *)
Example large_stake :
  let a := funded "founder" 0 100000000000000000 0 in
  slash_cut a MAJOR_SLASH_BPS = 1844674407370955 /\
  acc_validator_tier a = Some Nexus /\ calculate_validator_weight a = 101844674407370955.
Proof. vm_compute. done. Qed.
End ValidatorsWitness.
