(* ===== verification/Node.v ===== *)
(** * The ledger of a running node

    The operations that move value composed into one state machine: the
    transactions of blocks (storage/state_trie.rs), the rewards of an epoch and
    slashing (consensus/validators.rs), requests to unstake and their release
    (consensus/staking.rs), from the genesis allocations on
    (consensus/genesis.rs).  The invariants are of every database the machine
    can reach. *)
From S2P Require Import Prelude Text Types Extern InMemory Hash Merkle Mining Db World AccountStore.
From S2P Require Import BlockProducer BlockStore StateTrie Coinbase Genesis Staking Validators.

Inductive node_op :=
| ApplyTransaction (tx : Transaction)
| EpochRewards (coinbase : Transaction) (total_fees_collected : Z)
| RequestUnstake (address : string) (amount current_epoch : Z)
| ReleaseMatured (current_epoch : Z)
| SlashValidator (address : string) (slash_bps : Z).

(** The arguments have the types of the source.  In a build without overflow
    checks a slash is at most the whole stake (a larger one would wrap). *)
Definition node_op_wf `{Build} (op : node_op) : Prop :=
  match op with
  | ApplyTransaction tx => tx_wf tx
  | EpochRewards coinbase fees => is_u64 (tx_amount coinbase) /\ is_u64 fees
  | RequestUnstake _ amount epoch => is_u64 amount /\ is_u64 epoch
  | ReleaseMatured epoch => is_u64 epoch
  | SlashValidator _ bps => is_u64 bps /\ (bps <= 10000 \/ overflow_checks = true)
  end.

Section node.
Context `{Build} `{Sled} `{!Serde Account} `{!Serde PendingUnstake}.

Definition node_run (op : node_op) : st KyveraDb string unit :=
  match op with
  | ApplyTransaction tx => apply_transaction tx
  | EpochRewards coinbase fees => apply_epoch_rewards coinbase fees
  | RequestUnstake address amount epoch => request_unstake address amount epoch;; mret tt
  | ReleaseMatured epoch => process_matured_unstakes epoch;; mret tt
  | SlashValidator address bps => slash_validator address bps;; mret tt
  end.
End node.

(** What an operation may create: the block reward and the validators' share of
    the fees, which is what the source computes (nothing, if that overflows and
    panics). *)
Definition created `{Build} (op : node_op) : Z :=
  match op with
  | EpochRewards coinbase fees =>
    tx_amount coinbase + match calculate_validator_fee_share (E:=string) fees with Ok share => share | _ => 0 end
  | _ => 0
  end.

(** When an operation on a sound ledger panics: a sum, product or difference
    leaves 64 bits. *)
Definition overflows (op : node_op) (w : World) : Prop :=
  match op with
  | ApplyTransaction tx => acc_nonce (account_at (tx_sender tx) w) = u64_max
  | EpochRewards _ fees => u64_max < fees * 40
  | RequestUnstake _ _ epoch => u64_max < epoch + UNBONDING_PERIOD_EPOCHS
  | ReleaseMatured _ => False
  | SlashValidator address bps =>
    let a := account_at address w in acc_staked_balance a < slash_cut a bps
  end.
(** What a panic leaves behind: an epoch's miner has been paid before the fees
    are multiplied, and an unstaked amount is gone before the unlock epoch is
    added up. *)
Definition left_behind (op : node_op) (w : World) : gmap string Account :=
  match op with
  | EpochRewards coinbase _ => w_accounts (coinbase_credit coinbase 0 w)
  | RequestUnstake address amount _ => w_accounts (put_account (unbonded amount (account_at address w)) w)
  | _ => w_accounts w
  end.

(** ** A step *)

(** A sound ledger: the tiers are right, the pending withdrawals are [P], and
    no more than [budget] is held or being withdrawn. *)
Definition sound `{!Serde PendingUnstake} (budget : Z) (P : gmap string PendingUnstake) (w : World) : Prop :=
  tiers_consistent w /\ Pending P w /\ supply w + unbonding P <= budget.

Section node_rules.
Context `{Build} `{Sha3} `{HexCodec} `{SledLaws} `{!Serde Account} `{!SerdeLaws Account}
  `{!Serde PendingUnstake} `{!SerdeLaws PendingUnstake}.

Lemma Pending_metadata P w w' : w_metadata w' = w_metadata w -> Pending P w -> Pending P w'.
Proof. intros Hm HP k. specialize (HP k). by rewrite Hm. Qed.

(** What every step of a sound ledger does. *)
Definition step_ok (op : node_op) (budget : Z) (w : World) (r : res string unit) (w' : World) : Prop :=
  (exists P', sound budget P' w') /\
  match r with
  | Ok _ => True
  | Err _ => w_accounts w' = w_accounts w /\ w_metadata w' = w_metadata w
  | Panic => overflow_checks = true /\ overflows op w /\
      w_accounts w' = left_behind op w /\ w_metadata w' = w_metadata w
  end.
Lemma step_refused op P budget w e : sound budget P w -> step_ok op budget w (Err e) w.
Proof. intros Hs. split; [by exists P|done]. Qed.

Lemma apply_step P tx budget w :
  sound budget P w -> tx_wf tx -> budget <= u64_max ->
  wp (apply_transaction tx) w (step_ok (ApplyTransaction tx) budget w).
Proof.
  intros (Ht & HP & Hs) Htx Hb. apply wp_valid. intros Hw. eapply wp_mono; [|by apply apply_transaction_refines].
  cbn beta. intros r w' He. symmetry in He. pose proof (local_frame (transition tx) w) as Hm. rewrite He in Hm.
  apply (f_equal w_metadata) in Hm. cbn in Hm.
  destruct (transition_facts _ _ _ _ Hw Htx He) as (_ & Ht' & _ & Hr).
  pose proof (unbonding_nonneg P w HP) as Hu. pose proof (burned_nonneg tx Htx) as Hburn.
  destruct r as [[]|e|].
  - split; [|done]. exists P. split_and!; [by apply Ht'|by eapply Pending_metadata|lia].
  - destruct Hr as [->|Hov]; [|lia]. by apply (step_refused _ P).
  - destruct Hr as (-> & Hc & Hn). split; [by exists P|done].
Qed.

Lemma rewards_step P coinbase fees budget w :
  sound budget P w -> node_op_wf (EpochRewards coinbase fees) ->
  budget + created (EpochRewards coinbase fees) <= u64_max ->
  wp (apply_epoch_rewards coinbase fees) w
    (step_ok (EpochRewards coinbase fees) (budget + created (EpochRewards coinbase fees)) w).
Proof.
  intros (Ht & HP & Hs) (Ha & Hf) Hb. cbn [created] in *. apply wp_valid. intros Hw.
  pose proof (unbonding_nonneg P w HP) as Hu. pose proof (fee_share_range (E:=string) fees) as Hsh.
  destruct (decide (tx_sender coinbase = COINBASE_SENDER)) as [Hsend|Hsend].
  - apply wp_epoch_rewards_any; [done..|].
    destruct (calculate_validator_fee_share fees) as [share|e|] eqn:Hshare.
    + specialize (Hsh share eq_refl). unfold is_u64 in Hsh. split; [lia|].
      destruct (rewarded_facts coinbase share w) as (Hsu & _ & _ & Ht' & Hm); [done..|lia|lia|].
      split; [|done]. exists P. split_and!; [by apply Ht'|by eapply Pending_metadata|lia].
    + unfold calculate_validator_fee_share in Hshare.
      destruct (mul_u64 fees 40) eqn:Hmul; [done|by apply unsigned_no_err in Hmul|done].
    + assert (overflow_checks = true /\ u64_max < fees * 40) as [Hc Hov].
      { unfold calculate_validator_fee_share in Hshare. unfold is_u64 in Hf.
        destruct (mul_u64 fees 40) eqn:Hmul; [done|done|]. apply unsigned_panic_inv in Hmul as [? ?]. split; [done|lia]. }
      split; [lia|]. destruct (coinbase_credit_frame coinbase 0 w) as [Ht' Hm].
      destruct (coinbase_credit_facts coinbase 0 w) as [Hw1 Hsu1]; [done..|concrete|lia|].
      split; [|done]. exists P. split_and!; [by apply Ht'|by eapply Pending_metadata|lia].
  - apply wp_bind. unfold apply_coinbase. destruct (String.eqb_spec (tx_sender coinbase) COINBASE_SENDER); [done|].
    apply wp_fail, (step_refused _ P). split_and!; [done..|]. unfold is_u64 in Ha, Hsh.
    destruct (calculate_validator_fee_share fees) as [share|e|]; [specialize (Hsh share eq_refl)|..]; lia.
Qed.

Lemma unstake_step P address amount epoch budget w :
  sound budget P w -> node_op_wf (RequestUnstake address amount epoch) ->
  wp (request_unstake address amount epoch;; mret tt) w (step_ok (RequestUnstake address amount epoch) budget w).
Proof.
  intros Hsound (Ha & He). pose proof Hsound as (Ht & HP & Hs). apply wp_valid. intros Hw.
  apply wp_bind, wp_request_unstake_any; [done|].
  destruct (w_accounts w !! address) as [a|] eqn:Hacc; [|by apply (step_refused _ P)].
  destruct (Z.ltb_spec (acc_staked_balance a) amount); [by apply (step_refused _ P)|].
  destruct (Hw _ _ Hacc) as [Haddr _]. unfold is_u64 in Ha.
  assert (account_at address w = a) as Hat by (unfold account_at; by rewrite Hacc).
  set (w1 := put_account (unbonded amount a) w).
  assert (tiers_consistent w1) as Ht1 by (apply put_account_tiers; [done|]; apply update_validator_tier_consistent).
  assert (supply w1 = supply w - amount) as Hs1.
  { unfold w1. rewrite supply_put. cbn [acc_address unbonded update_validator_tier set_validator_tier
      set_staked_balance]. rewrite Haddr, Hat. unfold holdings, unbonded. cbn. lia. }
  destruct (add_u64 epoch UNBONDING_PERIOD_EPOCHS) as [unlock|e|] eqn:Hadd; [|by apply unsigned_no_err in Hadd|].
  - intros w1' v p Hv. subst w1'. apply wp_ret. split; [|done]. exists (<[pending_key p := p]> P).
    assert (forall m, supply (set_raw Metadata m w1) = supply w1 /\
      (tiers_consistent w1 -> tiers_consistent (set_raw Metadata m w1))) as Hset by by intros m; destruct w.
    split_and!; [by apply Hset|destruct w; by apply Pending_insert|].
    rewrite (proj1 (Hset _)), unbonding_insert, Hs1. cbn [pu_amount p].
    assert (0 <= default 0 (pu_amount <$> P !! pending_key p)) as Hold; [|lia].
    specialize (HP (pending_key p)). destruct (P !! _) as [q|]; [|done].
    destruct HP as (_ & Hq & _). unfold is_u64 in Hq. cbn. lia.
  - apply unsigned_panic_inv in Hadd as [Hc Hov]. unfold is_u64 in He. split.
    + exists P. split_and!; [done|by destruct w|lia].
    + split_and!; [done| | |by destruct w].
      * unfold overflows, UNBONDING_PERIOD_EPOCHS in *. lia.
      * cbn [left_behind]. by rewrite Hat.
Qed.

Lemma release_step P epoch budget w :
  sound budget P w -> budget <= u64_max ->
  wp (process_matured_unstakes epoch;; mret tt) w (step_ok (ReleaseMatured epoch) budget w).
Proof.
  intros (Ht & HP & Hs) Hb. apply wp_valid. intros Hw. pose proof (unbonding_split epoch P) as Hsplit.
  pose proof (unmatured_nonneg epoch P w HP) as Hpos.
  apply wp_bind, (wp_process_matured P); [done|lia|]. intros m Hm _. apply wp_ret. split; [|done].
  destruct (credit_all_facts (records (matured epoch P)) w Hw (matured_u64 _ _ _ HP)) as
    (_ & Hsu & _ & _ & Ht' & _); [fold (unbonding (matured epoch P)); lia|].
  exists (unmatured epoch P).
  assert (forall w1, supply (set_raw Metadata m w1) = supply w1 /\
    (tiers_consistent w1 -> tiers_consistent (set_raw Metadata m w1))) as Hset by by intros [].
  split_and!.
  - by apply Hset, Ht'.
  - intros k. specialize (Hm k). by destruct w, (credit_all _ _).
  - rewrite (proj1 (Hset _)), Hsu. fold (unbonding (matured epoch P)). lia.
Qed.

Lemma slash_step P address bps budget w :
  sound budget P w -> node_op_wf (SlashValidator address bps) -> budget <= u64_max ->
  wp (slash_validator address bps;; mret tt) w (step_ok (SlashValidator address bps) budget w).
Proof.
  intros Hsound [Hb0 Hbps] Hb. pose proof Hsound as (Ht & HP & Hs). unfold is_u64 in Hb0.
  apply wp_valid. intros Hw. pose proof (unbonding_nonneg P w HP) as Hu.
  apply wp_bind, wp_slash; [lia|lia|done|].
  destruct (w_accounts w !! address) as [a|] eqn:Hacc; [|by apply (step_refused _ P)].
  assert (account_at address w = a) as Hat by (unfold account_at; by rewrite Hacc).
  case_match; [by apply (step_refused _ P)|]. destruct (Hw _ _ Hacc) as (_ & _ & Hst & _). unfold is_u64 in Hst.
  destruct (Z.leb_spec (slash_cut a bps) (acc_staked_balance a)) as [Hle|Hgt].
  - apply wp_ret. split; [|done]. assert (0 <= slash_cut a bps).
    { unfold slash_cut, saturating_mul_u64. apply Z.div_pos; [apply Z.min_glb; unfold u64_max; nia|lia]. }
    destruct (after_slash_facts address a (slash_cut a bps) w) as (Hsu & Ht' & Hm & _); [done..|lia|].
    exists P. split_and!; [by apply Ht'|by eapply Pending_metadata|lia].
  - destruct Hbps as [Hbps|Hc]; [pose proof (slash_cut_range a bps); lia|]. split; [by exists P|].
    split_and!; [done| |done|done]. cbn [overflows]. by rewrite Hat.
Qed.

Lemma node_step P op budget w :
  sound budget P w -> node_op_wf op -> budget + created op <= u64_max ->
  wp (node_run op) w (step_ok op (budget + created op) w).
Proof.
  intros Hsound Hop Hb. destruct op as [tx|coinbase fees|address amount epoch|epoch|address bps];
    cbn [node_run]; [|by apply (rewards_step P)|..]; cbn [created] in *; rewrite Z.add_0_r in *.
  - by apply (apply_step P).
  - by apply (unstake_step P).
  - by apply (release_step P).
  - by apply (slash_step P).
Qed.
End node_rules.

(** ** The databases a node can reach *)

Definition GENESIS_SUPPLY : Z := TOTAL_SUPPLY - MINING_ALLOCATION + GENESIS_BLOCK_REWARD.

Section reachable.
Context `{Build} `{Sha3} `{HexCodec} `{SledLaws} `{!Serde Account} `{!Serde PendingUnstake} `{!Serde Block} `{!Serde ChainTip}.

(** From a fresh database that was initialized, by operations with any arguments
    and any outcome, refused and panicking ones included, as long as what was
    created keeps the supply within 64 bits. *)
Inductive node_reachable : KyveraDb -> Z -> Prop :=
| node_start now_ms g db :
    Rep db empty_world -> produce_genesis_block now_ms GENESIS_MINER = Ok g ->
    node_reachable (initialize_chain now_ms db).1 0
| node_does op n db :
    node_reachable db n -> node_op_wf op -> GENESIS_SUPPLY + n + created op <= u64_max ->
    node_reachable (node_run op db).1 (n + created op).
End reachable.

(** A list of operations, run one after the other. *)
Definition run_ops `{Build} `{Sled} `{!Serde Account} `{!Serde PendingUnstake} (ops : list node_op) (db : KyveraDb)
    : KyveraDb := fold_left (fun db op => (node_run op db).1) ops db.
Lemma created_nonneg `{Build} op : node_op_wf op -> 0 <= created op.
Proof.
  destruct op as [|coinbase fees|?|?|?]; cbn; try done. unfold is_u64. intros ([Ha _] & _).
  pose proof (fee_share_range (E:=string) fees) as Hsh.
  destruct (calculate_validator_fee_share fees) as [share|e|]; [specialize (Hsh share eq_refl) as [? _]|..]; lia.
Qed.
Lemma run_reachable `{Build} `{Sha3} `{HexCodec} `{SledLaws} `{!Serde Account} `{!Serde PendingUnstake} `{!Serde Block}
    `{!Serde ChainTip} ops db n :
  node_reachable db n -> Forall node_op_wf ops -> GENESIS_SUPPLY + n + sumZ (map created ops) <= u64_max ->
  node_reachable (run_ops ops db) (n + sumZ (map created ops)).
Proof.
  intros Hdb Hops. revert db n Hdb. induction Hops as [|op ops Hop Hops IH]; intros db n Hdb Hs.
  { cbn. by rewrite Z.add_0_r. }
  cbn [map sumZ run_ops fold_left] in *. fold (run_ops ops (node_run op db).1). rewrite Z.add_assoc.
  assert (0 <= sumZ (map created ops)).
  { apply sumZ_nonneg, Forall_map. eapply Forall_impl; [exact Hops|apply created_nonneg]. }
  apply IH; [by apply node_does; [| |lia]|lia].
Qed.

Section node_properties.
Context `{Build} `{Sha3Laws} `{HexLaws} `{SledLaws} `{!Serde Account} `{!SerdeLaws Account}
  `{!Serde PendingUnstake} `{!SerdeLaws PendingUnstake} `{!Serde Block} `{!SerdeLaws Block}
  `{!Serde ChainTip} `{!SerdeLaws ChainTip}.

Lemma genesis_sound mh mt v :
  sound GENESIS_SUPPLY ∅ (mkWorld genesis_accounts mh mt ∅
    (<[CHAIN_TIP_KEY := v]> (<[STATE_ROOT_KEY := root_of genesis_world]> ∅))).
Proof.
  split_and!; [|intros k; rewrite lookup_empty|by vm_compute].
  - intros k a. cbn [w_accounts]. unfold genesis_accounts. rewrite !lookup_insert.
    repeat (case_decide; [intros [= <-]; concrete|]). by rewrite lookup_empty.
  - intros Hk. cbn [w_metadata]. rewrite !lookup_insert_ne; [done|intros <-; discriminate Hk..].
Qed.

Lemma reachable_sound db n :
  node_reachable db n -> exists w P, Rep db w /\ sound (GENESIS_SUPPLY + n) P w.
Proof.
  induction 1 as [now_ms g db Hdb Hg|op n db _ (w & P & Hdb & Hs) Hop Hb].
  - destruct (wp_initialize now_ms g (fun _ w => sound GENESIS_SUPPLY ∅ w) Hg) with (db := db) as (w & Hw & Hs);
      [intros mh mt v _ _; apply genesis_sound|done|].
    exists w, ∅. by rewrite Z.add_0_r.
  - destruct (node_step P op _ w Hs Hop Hb db Hdb) as (w' & Hw' & (P' & Hs') & _).
    exists w', P'. by rewrite Z.add_assoc.
Qed.

(** C9: every database a node can reach is well typed: whatever is stored as an
    account decodes to one of the address it is stored under, its numbers in
    the range of their Rust types and its tier the one its stake qualifies
    for, and whatever is stored as a pending withdrawal decodes to one with
    that key. *)
Theorem reachable_typed db n :
  node_reachable db n ->
  (forall k v, contents (accounts db) !! k = Some v ->
    exists a, from_slice v = Ok a /\ acc_address a = k /\ account_wf a /\ tier_consistent a) /\
  (forall k v, contents (metadata db) !! k = Some v -> is_pending_key k ->
    exists p, from_slice v = Ok p /\ k = pending_key p /\ is_u64 (pu_amount p)).
Proof.
  intros (w & P & (_ & Hraw & Hacc) & Ht & HP & _)%reachable_sound. split; intros k v Hv.
  - specialize (Hacc k). destruct (w_accounts w !! k) as [a|] eqn:Ha; [|congruence].
    destruct Hacc as ((Hk & Hwf) & b & Hb & Hd). exists a. split_and!; [congruence|done|done|by eapply Ht].
  - intros Hk. specialize (HP k). change (metadata db) with (get_tree Metadata db) in Hv. rewrite Hraw in Hv by done. cbn in Hv.
    destruct (P !! k) as [p|]; [|by rewrite HP in Hv].
    destruct HP as (Hkp & Hp & b & Hb & Hd). exists p. split_and!; [congruence|done|apply Hp..].
Qed.

(** C2: nothing is created but the rewards: in every database that is reached from
    genesis by operations with any arguments and outcomes, while the genesis
    supply and what was created fit 64 bits, what the accounts hold and what is
    being withdrawn is at most the genesis supply and the rewards and fee shares
    paid so far. *)
Theorem reachable_supply db n :
  node_reachable db n ->
  exists w P, Rep db w /\ Pending P w /\ 0 <= supply w /\ 0 <= unbonding P /\
    supply w + unbonding P <= GENESIS_SUPPLY + n.
Proof.
  intros (w & P & Hdb & _ & HP & Hs)%reachable_sound. exists w, P. split_and!; [done..| | |done].
  - by eapply supply_nonneg, Rep_valid.
  - by eapply unbonding_nonneg.
Qed.

(** C10: what an operation that fails does to a database a node can reach.  If
    it returns an error, no account, pending withdrawal or other metadata has
    changed.  It panics only in a build with overflow checks, when a sum,
    product or difference leaves 64 bits; then the metadata have not changed,
    and the accounts neither, but for two partial writes: the epoch rewards have
    paid the miner when forty times the fees overflow, and a request to unstake
    has taken the amount, without a record of the withdrawal, when the epoch
    plus ten does. *)
Theorem failure_effects db n op :
  node_reachable db n -> node_op_wf op -> GENESIS_SUPPLY + n + created op <= u64_max ->
  let '(db', r) := node_run op db in
  exists w w', Rep db w /\ Rep db' w' /\
    match r with
    | Ok _ => True
    | Err _ => w_accounts w' = w_accounts w /\ w_metadata w' = w_metadata w
    | Panic => overflow_checks = true /\ overflows op w /\
        w_accounts w' = left_behind op w /\ w_metadata w' = w_metadata w
    end.
Proof.
  intros (w & P & Hdb & Hs)%reachable_sound Hop Hb.
  destruct (node_step P op _ w Hs Hop Hb db Hdb) as (w' & Hw' & _ & Hsame).
  destruct (node_run op db) as [db' r]. by exists w, w'.
Qed.
End node_properties.

Module NodeWitness.
Import Mem MemWorld.

(** Genesis, a reward, a stake locked and partly unlocked, a slash, and the
    release of what matured. *)
Definition tx (sender receiver : string) (amount nonce : Z) (ty : TransactionType) : Transaction :=
  mkTransaction "h" sender receiver amount 1000 nonce "sig" 1000 ty "".
Definition coinbase : Transaction := build_coinbase 1000 "miner" 1 "blockhash".
Definition ops : list node_op :=
  [ApplyTransaction (tx FOUNDER_ADDRESS "val" 900000000000 0 Transfer);
   ApplyTransaction (tx "val" "stake" 600000000000 0 StakeLock);
   EpochRewards coinbase 2000;
   RequestUnstake "val" 100000000000 1;
   SlashValidator "val" MAJOR_SLASH_BPS;
   ReleaseMatured 11].
Definition after_ops : KyveraDb := run_ops ops (initialize_chain 1700000000000 mem_db).1.
Definition paid : Z := 50000000000 + 800.


Lemma after_ops_reachable : node_reachable after_ops paid.
Proof.
  apply (run_reachable ops _ 0); [|by repeat (constructor; [first [concrete|split; [concrete|by left]]|]); constructor|concrete].
  apply (node_start 1700000000000 GenesisWitness.genesis_block); [apply mem_db_Rep|concrete].
Qed.
Lemma reachable_typed_witness :
  (forall k v, contents (accounts after_ops) !! k = Some v ->
    exists a, from_slice v = Ok a /\ acc_address a = k /\ account_wf a /\ tier_consistent a) /\
  (forall k v, contents (metadata after_ops) !! k = Some v -> is_pending_key k ->
    exists p, from_slice v = Ok p /\ k = pending_key p /\ is_u64 (pu_amount p)).
Proof. apply (reachable_typed after_ops paid after_ops_reachable). Defined.
Lemma reachable_supply_witness :
  exists w P, Rep after_ops w /\ Pending P w /\ 0 <= supply w /\ 0 <= unbonding P /\
    supply w + unbonding P <= GENESIS_SUPPLY + paid.
Proof. apply (reachable_supply after_ops paid after_ops_reachable). Defined.
(** A replay of the first transfer is refused. *)
Definition replay : node_op := ApplyTransaction (tx FOUNDER_ADDRESS "val" 900000000000 0 Transfer).
Lemma failure_effects_witness :
  let '(db', r) := node_run replay after_ops in
  exists w w', Rep after_ops w /\ Rep db' w' /\
    match r with
    | Ok _ => True
    | Err _ => w_accounts w' = w_accounts w /\ w_metadata w' = w_metadata w
    | Panic => overflow_checks = true /\ overflows replay w /\
        w_accounts w' = left_behind replay w /\ w_metadata w' = w_metadata w
    end.
Proof. apply (failure_effects after_ops paid replay after_ops_reachable); concrete. Defined.
(** The two panics that leave something behind: the miner has the reward although
    the fees were not shared out, and a stake is gone without a record. *)
Example rewards_half_applied :
  let '(db', r) := node_run (EpochRewards coinbase (u64_max / 40 + 1)) after_ops in
  r = Panic /\ (get_balance "miner" after_ops).2 = Ok 50000000000 /\ (get_balance "miner" db').2 = Ok 100000000000.
Proof. vm_compute. done. Qed.
Example unstake_half_applied :
  let '(db', r) := node_run (RequestUnstake "val" 50000000000 u64_max) after_ops in
  r = Panic /\ (get_staked_balance "val" after_ops).2 = Ok 450000000000 /\
  (get_staked_balance "val" db').2 = Ok 400000000000 /\ (get_pending_unstakes "val" db').2 = Ok [].
Proof. vm_compute. done. Qed.
Example outcomes_of_ops :
  map (fun i => is_ok (node_run (nth i ops replay) (run_ops (take i ops) (initialize_chain 1700000000000 mem_db).1)).2)
    (seq 0 6) = [true; true; true; true; true; true] /\
  is_ok (node_run replay after_ops).2 = false.
Proof. vm_compute. done. Qed.
End NodeWitness.
