(* ===== verification/Rules.v ===== *)
(** * The consensus rules (src/consensus/rules.rs)

    [validate_block_rules] with its checks in their order.  [acceptable] is
    what a block that passes them satisfies. *)
From S2P Require Import Prelude Text Types Extern InMemory Hash Merkle Mining BlockProducer Db World.
From S2P Require Import AccountStore StateTrie Coinbase.

Definition MAX_CLOCK_SKEW_MS : Z := 120000.
Definition MIN_MICRO_BLOCK_INTERVAL_MS : Z := 500.
Definition MIN_EPOCH_BLOCK_INTERVAL_MS : Z := 60000.
Definition MAX_TRANSACTIONS_PER_MICRO_BLOCK : Z := 1000.
Definition MAX_MICRO_BLOCKS_PER_EPOCH : Z := 10000.

Module Violation.
Inductive RuleViolation :=
| InvalidHeight (expected got : Z)
| InvalidPreviousHash (expected got : string)
| InvalidHash
| InsufficientProofOfWork (required : Z) (hash : string)
| InvalidTimestamp (reason : string)
| InvalidMerkleRoot
| BlockTooLarge (max got : Z)
| InvalidCoinbase (reason : string)
| DuplicateTransaction (hash : string)
| InvalidTransactionNonce (expected got : Z)
| InsufficientBalance (address : string) (required available : Z)
| MissingCoinbase
| UnexpectedCoinbase
| InvalidEpochIndex (expected got : Z)
| InvalidBlockReward (expected got : Z)
| InvalidStateRoot.

(** [impl Display for RuleViolation]: the slices panic on a short string. *)
Definition display {E} (v : RuleViolation) : res E string :=
  match v with
  | InvalidHeight expected got =>
    Ok ("Invalid height: expected " +:+ show_uint expected +:+ " got " +:+ show_uint got)
  | InvalidPreviousHash expected got =>
    x ← slice_to 8 expected; y ← slice_to 8 got;
    Ok ("Invalid previous hash: expected " +:+ x +:+ "... got " +:+ y +:+ "...")
  | InvalidHash => Ok "Block hash does not match header contents"
  | InsufficientProofOfWork required hash =>
    x ← slice_to 16 hash;
    Ok ("Hash " +:+ x +:+ " does not meet difficulty " +:+ show_uint required)
  | InvalidTimestamp reason => Ok ("Invalid timestamp: " +:+ reason)
  | InvalidMerkleRoot => Ok "Merkle root does not match transaction list"
  | BlockTooLarge max got =>
    Ok ("Block has " +:+ show_uint got +:+ " transactions, maximum is " +:+ show_uint max)
  | InvalidCoinbase reason => Ok ("Invalid coinbase: " +:+ reason)
  | DuplicateTransaction hash => x ← slice_to 16 hash; Ok ("Duplicate transaction: " +:+ x)
  | InvalidTransactionNonce expected got =>
    Ok ("Invalid nonce: expected " +:+ show_uint expected +:+ " got " +:+ show_uint got)
  | InsufficientBalance address required available =>
    x ← slice_to 12 address;
    Ok ("Insufficient balance at " +:+ x +:+ ": need " +:+ show_uint required +:+ " have "
      +:+ show_uint available)
  | MissingCoinbase => Ok "Epoch block is missing a coinbase transaction"
  | UnexpectedCoinbase => Ok "Micro block contains a coinbase transaction"
  | InvalidEpochIndex expected got =>
    Ok ("Invalid epoch index: expected " +:+ show_uint expected +:+ " got " +:+ show_uint got)
  | InvalidBlockReward expected got =>
    Ok ("Invalid block reward: expected " +:+ show_uint expected +:+ " got " +:+ show_uint got)
  | InvalidStateRoot => Ok "State root does not match computed state"
  end.
End Violation.
Notation RuleViolation := Violation.RuleViolation.

(** A check that fails with [v]. *)
Definition ensure (b : bool) (v : RuleViolation) : res RuleViolation unit :=
  if b then Ok tt else Err v.

Section rules.
Context `{Build} `{Sha3} `{HexCodec} `{Sled} `{!Serde Account}.

Definition check_height (block : Block) (tip : ChainTip) : res RuleViolation unit :=
  expected ← add_u64 (tip_height tip) 1;
  let got := hdr_index (blk_header block) in
  ensure (got =? expected) (Violation.InvalidHeight expected got).

Definition check_previous_hash (block : Block) (tip : ChainTip) : res RuleViolation unit :=
  let got := hdr_previous_hash (blk_header block) in
  ensure (String.eqb got (tip_hash tip)) (Violation.InvalidPreviousHash (tip_hash tip) got).

Definition check_previous_hash_genesis (block : Block) : res RuleViolation unit :=
  let zero_hash := str_repeat 64 "0" in
  let got := hdr_previous_hash (blk_header block) in
  ensure (String.eqb got zero_hash) (Violation.InvalidPreviousHash zero_hash got).

Definition check_block_size (block : Block) (txs : list Transaction) : res RuleViolation unit :=
  if hdr_is_epoch_block (blk_header block) then
    let got := Z.of_nat (length (blk_transaction_hashes block)) in
    ensure (got <=? MAX_MICRO_BLOCKS_PER_EPOCH) (Violation.BlockTooLarge MAX_MICRO_BLOCKS_PER_EPOCH got)
  else
    let got := Z.of_nat (length txs) in
    ensure (got <=? MAX_TRANSACTIONS_PER_MICRO_BLOCK)
      (Violation.BlockTooLarge MAX_TRANSACTIONS_PER_MICRO_BLOCK got).

Definition check_timestamp (now_ms : Z) (block : Block) (tip : ChainTip) : res RuleViolation unit :=
  let timestamp := hdr_timestamp (blk_header block) in
  limit ← add_i64 now_ms MAX_CLOCK_SKEW_MS;
  if limit <? timestamp then
    ahead ← sub_i64 timestamp now_ms;
    Err (Violation.InvalidTimestamp ("Block timestamp " +:+ show_int timestamp +:+ " is "
      +:+ show_int ahead +:+ "ms in the future"))
  else if (timestamp <=? tip_timestamp tip) && (0 <? tip_timestamp tip) then
    Err (Violation.InvalidTimestamp ("Block timestamp " +:+ show_int timestamp
      +:+ " is not after previous block timestamp " +:+ show_int (tip_timestamp tip)))
  else if 0 <? tip_timestamp tip then
    elapsed ← sub_i64 timestamp (tip_timestamp tip);
    let min_interval :=
      if hdr_is_epoch_block (blk_header block) then MIN_EPOCH_BLOCK_INTERVAL_MS
      else MIN_MICRO_BLOCK_INTERVAL_MS in
    if elapsed <? min_interval then
      Err (Violation.InvalidTimestamp ("Only " +:+ show_int elapsed +:+ "ms since last block, minimum is "
        +:+ show_int min_interval +:+ "ms"))
    else Ok tt
  else Ok tt.

Definition check_proof_of_work (block : Block) : res RuleViolation unit :=
  let difficulty := hdr_difficulty (blk_header block) in
  ensure (meets_difficulty (blk_hash block) difficulty)
    (Violation.InsufficientProofOfWork difficulty (blk_hash block)).

Definition check_block_hash (block : Block) : res RuleViolation unit :=
  let recomputed := hash_header (blk_header block) (hdr_nonce (blk_header block)) in
  ensure (String.eqb recomputed (blk_hash block)) Violation.InvalidHash.

Definition check_merkle_root (block : Block) (txs : list Transaction) : res RuleViolation unit :=
  let computed := compute_merkle_root (map tx_hash txs) in
  ensure (String.eqb computed (hdr_merkle_root (blk_header block))) Violation.InvalidMerkleRoot.

Definition check_epoch_index (block : Block) (tip : ChainTip) : res RuleViolation unit :=
  expected ← add_u64 (tip_epoch_index tip) 1;
  let got := hdr_epoch_index (blk_header block) in
  ensure (got =? expected) (Violation.InvalidEpochIndex expected got).

Definition check_block_reward (block : Block) : res RuleViolation unit :=
  let expected := calculate_block_reward (hdr_epoch_index (blk_header block)) in
  ensure (blk_block_reward block =? expected)
    (Violation.InvalidBlockReward expected (blk_block_reward block)).

Definition check_coinbase (block : Block) (txs : list Transaction) : res RuleViolation unit :=
  match txs with
  | [] => Err Violation.MissingCoinbase
  | coinbase :: _ =>
    if negb (String.eqb (tx_sender coinbase) COINBASE_SENDER) then Err Violation.MissingCoinbase
    else ensure (verify_coinbase coinbase (hdr_epoch_index (blk_header block)) (blk_hash block))
      (Violation.InvalidCoinbase "Coinbase hash, amount, or nonce is incorrect")
  end.

Fixpoint check_no_coinbase (txs : list Transaction) : res RuleViolation unit :=
  match txs with
  | [] => Ok tt
  | tx :: txs =>
    if String.eqb (tx_sender tx) COINBASE_SENDER then Err Violation.UnexpectedCoinbase
    else check_no_coinbase txs
  end.

Definition required (tx : Transaction) : Z :=
  match tx_transaction_type tx with
  | Transfer | StakeLock => saturating_add_u64 (tx_amount tx) (tx_fee tx)
  | StakeUnlock | ContractDeploy | ContractCall => tx_fee tx
  end.

(** One round of the loop of [check_transactions]. *)
Definition check_transaction (seen_hashes : gset string) (tx : Transaction)
    : st KyveraDb RuleViolation (gset string) :=
  if String.eqb (tx_sender tx) COINBASE_SENDER then mret seen_hashes
  else if bool_decide (tx_hash tx ∈ seen_hashes) then
    st_fail (Violation.DuplicateTransaction (tx_hash tx))
  else
    let seen_hashes := {[ tx_hash tx ]} ∪ seen_hashes in
    found ← st_map_err (fun _ => Violation.InsufficientBalance (tx_sender tx) 0 0)
      (get_account (tx_sender tx));
    match found with
    | None => mret seen_hashes
    | Some account =>
      if acc_balance account <? required tx then
        st_fail (Violation.InsufficientBalance (tx_sender tx) (required tx) (acc_balance account))
      else if negb (acc_nonce account =? tx_nonce tx) then
        st_fail (Violation.InvalidTransactionNonce (acc_nonce account) (tx_nonce tx))
      else mret seen_hashes
    end.
Definition check_transactions (txs : list Transaction) : st KyveraDb RuleViolation unit :=
  st_fold txs ∅ check_transaction;; mret tt.

Definition validate_block_rules (now_ms : Z) (block : Block) (txs : list Transaction) (tip : ChainTip)
    : st KyveraDb RuleViolation unit :=
  if hdr_index (blk_header block) =? 0 then
    st_lift (check_previous_hash_genesis block);;
    st_lift (check_proof_of_work block);;
    st_lift (check_block_hash block);;
    st_lift (check_merkle_root block txs)
  else
    st_lift (check_height block tip);;
    st_lift (check_previous_hash block tip);;
    st_lift (check_block_size block txs);;
    st_lift (check_timestamp now_ms block tip);;
    st_lift (check_proof_of_work block);;
    st_lift (check_block_hash block);;
    st_lift (check_merkle_root block txs);;
    (if hdr_is_epoch_block (blk_header block) then
      st_lift (check_epoch_index block tip);;
      st_lift (check_block_reward block);;
      st_lift (check_coinbase block txs)
    else st_lift (check_no_coinbase txs));;
    check_transactions txs.
End rules.

(** ** What the checks decide *)

(** [r] does not panic, and is [Ok] exactly when [P] holds. *)
Definition decides {E} (r : res E unit) (P : Prop) : Prop := r <> Panic /\ (r = Ok tt <-> P).

Definition min_interval (block : Block) : Z :=
  if hdr_is_epoch_block (blk_header block) then MIN_EPOCH_BLOCK_INTERVAL_MS else MIN_MICRO_BLOCK_INTERVAL_MS.
(** The transactions the checks do not skip. *)
Definition regular (txs : list Transaction) : list Transaction :=
  filter (fun tx => tx_sender tx <> COINBASE_SENDER) txs.
(** A sender without an account is not checked at all. *)
Definition affordable (w : World) (tx : Transaction) : Prop :=
  match w_accounts w !! tx_sender tx with
  | None => True
  | Some a => required tx <= acc_balance a /\ acc_nonce a = tx_nonce tx
  end.
Definition transactions_ok (w : World) (txs : list Transaction) : Prop :=
  NoDup (tx_hash <$> regular txs) /\ Forall (affordable w) (regular txs).

Section acceptable.
Context `{Sha3} `{HexCodec}.

(** The first transaction has to be the coinbase of the epoch.  The comments ask
    for exactly one, but nothing is asked of the others: one in the coinbase's
    name is skipped by the transaction checks ([regular]), whatever its amount
    and however often it comes. *)
Definition epoch_ok (block : Block) (txs : list Transaction) (tip : ChainTip) : Prop :=
  hdr_epoch_index (blk_header block) = tip_epoch_index tip + 1 /\
  blk_block_reward block = calculate_block_reward (hdr_epoch_index (blk_header block)) /\
  exists coinbase rest, txs = coinbase :: rest /\
    verify_coinbase coinbase (hdr_epoch_index (blk_header block)) (blk_hash block) = true.

Definition acceptable (now_ms : Z) (block : Block) (txs : list Transaction) (tip : ChainTip) (w : World) : Prop :=
  let header := blk_header block in
  if decide (hdr_index header = 0) then
    hdr_previous_hash header = genesis_hash /\ sealed block /\
    hdr_merkle_root header = compute_merkle_root (map tx_hash txs)
  else
    hdr_index header = tip_height tip + 1 /\ hdr_previous_hash header = tip_hash tip /\
    (if hdr_is_epoch_block header
     then Z.of_nat (length (blk_transaction_hashes block)) <= MAX_MICRO_BLOCKS_PER_EPOCH
     else Z.of_nat (length txs) <= MAX_TRANSACTIONS_PER_MICRO_BLOCK) /\
    hdr_timestamp header <= now_ms + MAX_CLOCK_SKEW_MS /\
    (0 < tip_timestamp tip -> tip_timestamp tip + min_interval block <= hdr_timestamp header) /\
    sealed block /\
    hdr_merkle_root header = compute_merkle_root (map tx_hash txs) /\
    (if hdr_is_epoch_block header then epoch_ok block txs tip
     else forall tx, tx ∈ txs -> tx_sender tx <> COINBASE_SENDER) /\
    transactions_ok w txs.

(** The ranges of the integers the checks compute with. *)
Definition rules_wf (now_ms : Z) (block : Block) (tip : ChainTip) : Prop :=
  0 <= tip_height tip < u64_max /\ 0 <= tip_epoch_index tip < u64_max /\
  is_i64 (hdr_timestamp (blk_header block)) /\ is_i64 (tip_timestamp tip) /\
  0 <= now_ms /\ now_ms + MAX_CLOCK_SKEW_MS <= i64_max.
End acceptable.

#[export] Instance decides_proper {E} (r : res E unit) : Proper (iff ==> iff) (decides r).
Proof. intros P P' HP. unfold decides. by rewrite HP. Qed.
Lemma decides_ensure b v P : (b = true <-> P) -> decides (ensure b v) P.
Proof. intros HP. rewrite <-HP. unfold ensure, decides. by destruct b. Qed.

Section checks.
Context `{Build} `{Sha3} `{HexCodec}.

Lemma check_height_decides block tip :
  0 <= tip_height tip < u64_max ->
  decides (check_height block tip) (hdr_index (blk_header block) = tip_height tip + 1).
Proof.
  intros Ht. unfold check_height. rewrite add_u64_ok by lia. apply decides_ensure, Z.eqb_eq.
Qed.
Lemma check_previous_hash_decides block tip :
  decides (check_previous_hash block tip) (hdr_previous_hash (blk_header block) = tip_hash tip).
Proof. apply decides_ensure, String.eqb_eq. Qed.
Lemma check_genesis_hash_decides block :
  decides (check_previous_hash_genesis block) (hdr_previous_hash (blk_header block) = genesis_hash).
Proof. apply decides_ensure, String.eqb_eq. Qed.
Lemma check_block_size_decides block txs :
  decides (check_block_size block txs)
    (if hdr_is_epoch_block (blk_header block)
     then Z.of_nat (length (blk_transaction_hashes block)) <= MAX_MICRO_BLOCKS_PER_EPOCH
     else Z.of_nat (length txs) <= MAX_TRANSACTIONS_PER_MICRO_BLOCK).
Proof.
  unfold check_block_size. destruct (hdr_is_epoch_block _); apply decides_ensure, Z.leb_le.
Qed.
Lemma check_timestamp_decides now_ms block tip :
  is_i64 (hdr_timestamp (blk_header block)) -> is_i64 (tip_timestamp tip) ->
  0 <= now_ms -> now_ms + MAX_CLOCK_SKEW_MS <= i64_max ->
  decides (check_timestamp now_ms block tip)
    (hdr_timestamp (blk_header block) <= now_ms + MAX_CLOCK_SKEW_MS /\
     (0 < tip_timestamp tip -> tip_timestamp tip + min_interval block <= hdr_timestamp (blk_header block))).
Proof.
  unfold is_i64, check_timestamp, decides. intros Hb Ht Hn Hs.
  assert (500 <= min_interval block) as Hmin by (unfold min_interval; by destruct (hdr_is_epoch_block _)).
  fold (min_interval block). set (ts := hdr_timestamp (blk_header block)) in *.
  unfold add_i64, sub_i64. unfold MAX_CLOCK_SKEW_MS in *. rewrite (signed64_ok (now_ms + 120000)) by (unfold is_i64, i64_min; lia).
  cbn [mbind res_bind].
  destruct (Z.ltb_spec (now_ms + 120000) ts).
  { rewrite signed64_ok by (unfold is_i64, i64_min; lia). split; [done|]. split; [done|lia]. }
  destruct (Z.leb_spec ts (tip_timestamp tip)), (Z.ltb_spec 0 (tip_timestamp tip)); cbn [andb].
  - split; [done|]. split; [done|lia].
  - split; [done|]. split; [lia|done].
  - rewrite signed64_ok by (unfold is_i64, i64_min, i64_max in *; lia). cbn [mbind res_bind].
    destruct (Z.ltb_spec (ts - tip_timestamp tip) (min_interval block)); naive_solver lia.
  - split; [done|]. split; [lia|done].
Qed.
Lemma check_seal_decides block :
  decides (check_proof_of_work block) (verify_proof_of_work (blk_hash block) (hdr_difficulty (blk_header block)) = true) /\
  decides (check_block_hash block) (blk_hash block = hash_header (blk_header block) (hdr_nonce (blk_header block))).
Proof.
  split; apply decides_ensure; [done|]. rewrite String.eqb_eq. done.
Qed.
Lemma check_merkle_root_decides block txs :
  decides (check_merkle_root block txs)
    (hdr_merkle_root (blk_header block) = compute_merkle_root (map tx_hash txs)).
Proof. apply decides_ensure. rewrite String.eqb_eq. done. Qed.
Lemma check_epoch_index_decides block tip :
  0 <= tip_epoch_index tip < u64_max ->
  decides (check_epoch_index block tip) (hdr_epoch_index (blk_header block) = tip_epoch_index tip + 1).
Proof.
  intros Ht. unfold check_epoch_index. rewrite add_u64_ok by lia. apply decides_ensure, Z.eqb_eq.
Qed.
Lemma check_block_reward_decides block :
  decides (check_block_reward block)
    (blk_block_reward block = calculate_block_reward (hdr_epoch_index (blk_header block))).
Proof. apply decides_ensure, Z.eqb_eq. Qed.
Lemma check_coinbase_decides block txs :
  decides (check_coinbase block txs) (exists coinbase rest, txs = coinbase :: rest /\
    verify_coinbase coinbase (hdr_epoch_index (blk_header block)) (blk_hash block) = true).
Proof.
  unfold check_coinbase, decides. destruct txs as [|cb rest]; [naive_solver|].
  unfold ensure. destruct (verify_coinbase cb _ _) eqn:Hv.
  - assert (tx_sender cb = COINBASE_SENDER) as ->; [|rewrite String.eqb_refl; naive_solver].
    unfold verify_coinbase in Hv. by destruct (String.eqb_spec (tx_sender cb) COINBASE_SENDER).
  - destruct (negb _); naive_solver congruence.
Qed.
Lemma check_no_coinbase_decides txs :
  decides (check_no_coinbase txs) (forall tx, tx ∈ txs -> tx_sender tx <> COINBASE_SENDER).
Proof.
  induction txs as [|tx txs [IH1 IH2]]; cbn [check_no_coinbase]; [split; [done|set_solver]|].
  destruct (String.eqb_spec (tx_sender tx) COINBASE_SENDER); unfold decides; set_solver.
Qed.
End checks.

Section rules_facts.
Context `{Build} `{Sha3} `{HexCodec} `{SledLaws} `{!Serde Account} `{!SerdeLaws Account}.

(** [c] leaves the world alone, does not panic, and is [Ok] exactly when [P]
    holds. *)
Definition judges {E} (c : st KyveraDb E unit) (w : World) (P : Prop) : Prop :=
  wp c w (fun r w' => w' = w /\ decides r P).

#[export] Instance judges_proper {E} (c : st KyveraDb E unit) w : Proper (iff ==> iff) (judges c w).
Proof.
  intros P P' HP. unfold judges. split; apply wp_mono; intros r w' [-> Hd]; (split; [done|]);
    [by rewrite <-HP|by rewrite HP].
Qed.
Lemma judges_lift {E} (r : res E unit) w P : decides r P -> judges (st_lift r) w P.
Proof. intros Hr. by apply wp_lift. Qed.
Lemma judges_seq {E} (c k : st KyveraDb E unit) w P P' :
  judges c w P -> judges k w P' -> judges (c ;; k) w (P /\ P').
Proof.
  intros Hc Hk. apply wp_bind. eapply wp_mono; [|exact Hc]. intros r w' [-> [Hn Hr]].
  destruct r as [[]|e|]; [|split; [done|split; [done|naive_solver]]|done].
  eapply wp_mono; [|exact Hk]. intros r w' [-> [Hn' Hr']]. split; [done|]. split; [done|]. naive_solver.
Qed.

Lemma check_transactions_fold txs seen w :
  wp (st_fold txs seen check_transaction) w (fun r w' => w' = w /\ r <> Panic /\
    (is_ok r = true <->
      (NoDup (tx_hash <$> regular txs) /\ forall tx, tx ∈ regular txs -> tx_hash tx ∉ seen) /\
      Forall (affordable w) (regular txs))).
Proof.
  revert seen. induction txs as [|tx txs IH]; intros seen; cbn [st_fold].
  { apply wp_ret. split_and!; try done. split; [|done]. intros _. split_and!; [constructor|set_solver|constructor]. }
  unfold regular. rewrite filter_cons. fold (regular txs). unfold check_transaction.
  destruct (String.eqb_spec (tx_sender tx) COINBASE_SENDER) as [Hcb|Hcb].
  { rewrite decide_False by auto. apply wp_bind, wp_ret, IH. }
  rewrite decide_True by done. cbn [fmap list_fmap].
  case_bool_decide as Hin.
  { apply wp_bind, wp_fail. split_and!; [done..|]. split; [done|]. intros [[_ Hn] _]. destruct (Hn tx); [by left|done]. }
  apply wp_bind, wp_bind, wp_map_err, wp_get_account. cbn [map_err].
  assert (Forall (affordable w) (tx :: regular txs) <-> affordable w tx /\ Forall (affordable w) (regular txs))
    as Hcons by apply Forall_cons.
  assert (affordable w tx -> wp (st_fold txs ({[tx_hash tx]} ∪ seen) check_transaction) w (fun r w' =>
    w' = w /\ r <> Panic /\ (is_ok r = true <->
      (NoDup (tx_hash tx :: (tx_hash <$> regular txs)) /\ forall t, t ∈ tx :: regular txs -> tx_hash t ∉ seen) /\
      Forall (affordable w) (tx :: regular txs)))) as Hrest.
  { intros Haff. eapply wp_mono; [|apply IH]. intros r w' (-> & Hn & Hr). split_and!; [done..|].
    rewrite Hr, Hcons, NoDup_cons, list_elem_of_fmap. clear -Haff Hin. set_solver. }
  unfold affordable at 1 in Hrest. destruct (w_accounts w !! tx_sender tx) as [a|] eqn:Ha; [|by apply wp_ret, Hrest].
  destruct (Z.ltb_spec (acc_balance a) (required tx)).
  { apply wp_fail. split_and!; [done..|]. split; [done|]. rewrite Hcons. unfold affordable at 1. rewrite Ha.
    intros (_ & [? _] & _). lia. }
  destruct (Z.eqb_spec (acc_nonce a) (tx_nonce tx)); cbn [negb]; [by apply wp_ret, Hrest|].
  apply wp_fail. split_and!; [done..|]. split; [done|]. rewrite Hcons. unfold affordable at 1. rewrite Ha.
  by intros (_ & [_ ?] & _).
Qed.
Lemma check_transactions_judges txs w : judges (check_transactions txs) w (transactions_ok w txs).
Proof.
  apply wp_bind. eapply wp_mono; [|apply check_transactions_fold]. intros r w' (-> & Hn & Hr).
  assert (is_ok r = true <-> transactions_ok w txs) as Hr'.
  { rewrite Hr. unfold transactions_ok. set_solver. }
  destruct r as [s|e|]; [|split; [done|]; split; [done|]; naive_solver|done].
  apply wp_ret. split; [done|]. split; [done|]. naive_solver.
Qed.

Lemma validate_block_rules_judges now_ms block txs tip w :
  rules_wf now_ms block tip ->
  judges (validate_block_rules now_ms block txs tip) w (acceptable now_ms block txs tip w).
Proof.
  intros (Hh & He & Hb & Ht & Hn & Hs). unfold validate_block_rules, acceptable, sealed.
  destruct (check_seal_decides block) as [Hpow Hhash].
  destruct (Z.eqb_spec (hdr_index (blk_header block)) 0) as [Hi|Hi]; [rewrite decide_True by done|rewrite decide_False by done].
  - eapply judges_proper; [|repeat (apply judges_seq; [apply judges_lift|]); [apply check_genesis_hash_decides|
      exact Hpow|exact Hhash|apply judges_lift, check_merkle_root_decides]]. tauto.
  - eapply judges_proper; [|repeat (apply judges_seq; [apply judges_lift|]);
      [by apply check_height_decides|apply check_previous_hash_decides|apply check_block_size_decides|
       by apply check_timestamp_decides|exact Hpow|exact Hhash|apply check_merkle_root_decides|]].
    2: { apply judges_seq; [|apply check_transactions_judges].
      assert (judges (if hdr_is_epoch_block (blk_header block) then
          st_lift (check_epoch_index block tip);; st_lift (check_block_reward block);;
          st_lift (check_coinbase block txs) else st_lift (check_no_coinbase txs)) w
        (if hdr_is_epoch_block (blk_header block) then epoch_ok block txs tip
         else forall tx, tx ∈ txs -> tx_sender tx <> COINBASE_SENDER)) as Hk; [|exact Hk].
      destruct (hdr_is_epoch_block _); [|apply judges_lift, check_no_coinbase_decides].
      repeat (apply judges_seq; [apply judges_lift|]); [by apply check_epoch_index_decides|
        apply check_block_reward_decides|apply judges_lift, check_coinbase_decides]. }
    tauto.
Qed.
End rules_facts.

Section rules_properties.
Context `{Build} `{Sha3} `{HexCodec} `{SledLaws} `{!Serde Account} `{!SerdeLaws Account}.

(** C8: while the counters of the tip and the clock leave room for the sums, the
    rules accept a block exactly when it satisfies [acceptable], never panic on
    it and never touch the state.  What they do not ask is in [acceptable] too:
    a block at height 0 is compared with no tip at all, a sender without an
    account is not checked, and an epoch block may hold further transactions in
    the coinbase's name behind the first, which nobody checks. *)
Theorem rules_exact now_ms block txs tip w :
  rules_wf now_ms block tip ->
  wp (validate_block_rules now_ms block txs tip) w (fun r w' =>
    w' = w /\ r <> Panic /\ (r = Ok tt <-> acceptable now_ms block txs tip w)).
Proof. apply validate_block_rules_judges. Qed.

(** An accepted epoch block is a fixed point of the digest: its hash is the
    digest of a header whose Merkle root is computed from the digest of a text
    that contains that same hash. *)
Theorem epoch_block_fixed_point now_ms block txs tip w db :
  rules_wf now_ms block tip -> Rep db w ->
  hdr_index (blk_header block) <> 0 -> hdr_is_epoch_block (blk_header block) = true ->
  (validate_block_rules now_ms block txs tip db).2 = Ok tt ->
  let header := blk_header block in
  blk_hash block = sha3_256_hex (header_preimage (hdr_index header) (hdr_timestamp header)
    (hdr_previous_hash header)
    (compute_merkle_root (sha3_256_hex ("coinbase:" +:+ blk_hash block +:+ ":" +:+
      show_uint (hdr_epoch_index header)) :: map tx_hash (tail txs)))
    (hdr_nonce header) (hdr_difficulty header) true (hdr_epoch_index header) (hdr_state_root header)).
Proof.
  intros Hwf Hdb Hi Hep Hok header.
  destruct (validate_block_rules_judges now_ms block txs tip w Hwf db Hdb) as (w' & _ & _ & _ & Hr).
  apply Hr in Hok. unfold acceptable in Hok. rewrite decide_False, Hep in Hok by done.
  destruct Hok as (_ & _ & _ & _ & _ & [Hh _] & Hm & (_ & _ & cb & rest & -> & Hcb) & _).
  apply verify_coinbase_true in Hcb as (_ & _ & _ & Hcb). subst header.
  rewrite Hh at 1. unfold hash_header, hash_block_header. rewrite Hm, Hep. cbn [map tail]. by rewrite Hcb.
Qed.

(** The rules let several transactions of one sender into a block only if
    they carry the same nonce, and of those only one can be applied: a block
    that passes the transaction checks and then applies without error has at
    most one transaction of each sender with an account. *)
Theorem one_transaction_per_sender txs w :
  Forall tx_wf txs ->
  (forall tx, tx ∈ txs -> tx_sender tx <> COINBASE_SENDER /\ is_Some (w_accounts w !! tx_sender tx)) ->
  (forall x, acc_nonce (account_at x w) + Z.of_nat (length txs) <= u64_max) ->
  wp (check_transactions txs) w (fun r w1 => r = Ok tt ->
    wp (st_for txs apply_transaction) w1 (fun r w2 => r = Ok tt -> NoDup (tx_sender <$> txs))).
Proof.
  intros Htxs Hknown Hn. apply wp_valid. intros Hw.
  eapply wp_mono; [|apply check_transactions_judges]. intros r w1 (-> & _ & Hr) Hok.
  apply Hr in Hok as [_ Haff].
  eapply wp_mono; [|apply (refines_for txs apply_transaction transition)].
  2: { rewrite Forall_forall in Htxs. auto using apply_transaction_refines. }
  cbn beta. intros r2 w2 He ->. symmetry in He.
  apply transitions_accounting in He as (_ & _ & _ & Hseq); [|done..].
  apply NoDup_fmap_filter. intros x. destruct (Hseq x) as [Hx _]. unfold nonces_of in Hx.
  rewrite length_fmap in Hx.
  destruct (filter (fun tx => tx_sender tx = x) txs) as [|t1 [|t2 l]] eqn:Hf; [cbn; lia..|].
  exfalso. assert (t2 ∈ filter (fun tx => tx_sender tx = x) txs) as Hin by (rewrite Hf; set_solver).
  apply list_elem_of_filter in Hin as [Hs Hin]. destruct (Hknown t2 Hin) as [Hcb [a Ha]].
  rewrite Forall_forall in Haff. assert (t2 ∈ regular txs) as Hreg by by apply list_elem_of_filter.
  specialize (Haff t2 Hreg). unfold affordable in Haff. rewrite Ha in Haff. destruct Haff as [_ Hno].
  apply (f_equal (.!! 1%nat)) in Hx. cbn [fmap list_fmap lookup list_lookup length] in Hx.
  rewrite lookup_seqZ_lt in Hx by lia. injection Hx as Hx.
  unfold account_at in Hx. rewrite <-Hs, Ha in Hx. cbn in Hx. lia.
Qed.
End rules_properties.

Module RulesWitness.
Import Mem MemWorld.

Definition tx : Transaction :=
  mkTransaction (str_repeat 64 "a") "alice" "bob" 5 1 0 "sig" 1000 Transfer "".
Definition start : World := world_with [funded "alice" 900 0 0].
Definition first_block : Block := Eval vm_compute in
  match produce_micro_block 1000 [tx] genesis_tip "miner" 1000 with
  | Ok b => b | _ => new_block (new_header 0 0 "" "" 0 false 0) [] "" 0 end.

Lemma rules_exact_witness :
  wp (validate_block_rules 2000 first_block [tx] genesis_tip) start (fun r w' =>
    w' = start /\ r <> Panic /\ (r = Ok tt <-> acceptable 2000 first_block [tx] genesis_tip start)).
Proof. apply (rules_exact 2000 first_block [tx] genesis_tip start). concrete. Defined.
(** The block passes the rules there, and without the account's money it does
    not. *)
Example first_block_passes :
  (validate_block_rules 2000 first_block [tx] genesis_tip (db_with [funded "alice" 900 0 0])).2 = Ok tt.
Proof. vm_compute. reflexivity. Qed.
Example first_block_unaffordable :
  (validate_block_rules 2000 first_block [tx] genesis_tip (db_with [funded "alice" 3 0 0])).2 =
    Err (Violation.InsufficientBalance "alice" 6 3).
Proof. vm_compute. reflexivity. Qed.

Lemma one_transaction_per_sender_witness :
  wp (check_transactions [tx]) start (fun r w1 => r = Ok tt ->
    wp (st_for [tx] apply_transaction) w1 (fun r w2 => r = Ok tt -> NoDup (tx_sender <$> [tx]))).
Proof.
  apply (one_transaction_per_sender [tx] start).
  - repeat constructor; concrete.
  - intros t Ht. apply list_elem_of_singleton in Ht as ->. split; [discriminate|]. vm_compute. eauto.
  - intros x. unfold start. cbn [world_with foldr]. rewrite account_at_put. case_decide; [done|].
    unfold account_at. cbn [empty_world w_accounts]. rewrite lookup_empty. done.
Defined.
End RulesWitness.

(** Under a digest that is constant, the fixed point is easy to find. *)
Module FixedPointWitness.
Import Mem MemWorld.
#[local] Instance zero_digest : Sha3 := fun _ => str_repeat 32 (String (of_byte 0) "").

Definition zero_hash : string := str_repeat 64 "0".
Definition epoch_block : Block :=
  mkBlock (mkBlockHeader 1 1000 (tip_hash genesis_tip) zero_hash 0 1 true 1 "root") [] zero_hash "" "miner"
    (calculate_block_reward 1).
Definition coinbase : Transaction := build_coinbase 1000 "miner" 1 zero_hash.

Lemma epoch_block_fixed_point_witness :
  zero_hash = sha3_256_hex (header_preimage 1 1000 (tip_hash genesis_tip)
    (compute_merkle_root (sha3_256_hex ("coinbase:" +:+ zero_hash +:+ ":" +:+ show_uint 1) :: [])) 0 1
    true 1 "root").
Proof.
  apply (epoch_block_fixed_point 2000 epoch_block [coinbase] genesis_tip (world_with []) (db_with []));
    [concrete|by apply db_with_Rep|concrete..].
Defined.
(** The same block passes with any number of further transactions in the
    coinbase's name, of any amount. *)
Definition impostor : Transaction :=
  mkTransaction "h" COINBASE_SENDER "mallory" 900000000000000000 0 7 "" 1000 Transfer "".
Example several_coinbases_pass :
  (validate_block_rules 2000 epoch_block [coinbase; impostor; impostor] genesis_tip (db_with [])).2 = Ok tt.
Proof. vm_compute. reflexivity. Qed.
End FixedPointWitness.
