(* ===== verification/Fees.v ===== *)
(** * Transaction fees (src/mempool/fees.rs)

    The minimum fees, the split of a fee between burn, validators and
    treasury, and the congestion multiplier on the floats of [Float]. *)
From S2P Require Import Prelude Types Float.

Definition FEE_TRANSFER : Z := 1000000.
Definition FEE_CONTRACT_CALL : Z := 5000000.
Definition FEE_CONTRACT_DEPLOY : Z := 100000000.
Definition FEE_DEFI : Z := 10000000.
Definition FEE_VALIDATOR_REGISTRATION : Z := 1000000000.
Definition FEE_STAKE_LOCK : Z := 1000000.
Definition FEE_STAKE_UNLOCK : Z := 1000000.
Definition BURN_SHARE_BPS : Z := 5000.
Definition VALIDATOR_SHARE_BPS : Z := 4000.
Definition TREASURY_SHARE_BPS : Z := 1000.

Definition minimum_fee (tx_type : TransactionType) : Z :=
  match tx_type with
  | Transfer => FEE_TRANSFER
  | ContractCall => FEE_CONTRACT_CALL
  | ContractDeploy => FEE_CONTRACT_DEPLOY
  | StakeLock => FEE_STAKE_LOCK
  | StakeUnlock => FEE_STAKE_UNLOCK
  end.
Definition fee_is_sufficient (tx : Transaction) : bool :=
  minimum_fee (tx_transaction_type tx) <=? tx_fee tx.

Section split.
Context `{Build}.

Definition calculate_burn_amount {E} (fee : Z) : res E Z :=
  x ← mul_u64 fee BURN_SHARE_BPS; Ok (x / 10000).
Definition calculate_validator_amount {E} (fee : Z) : res E Z :=
  x ← mul_u64 fee VALIDATOR_SHARE_BPS; Ok (x / 10000).
Definition calculate_treasury_amount {E} (fee : Z) : res E Z :=
  x ← mul_u64 fee TREASURY_SHARE_BPS; Ok (x / 10000).
Definition calculate_fee_split {E} (fee : Z) : res E (Z * Z * Z) :=
  burn ← calculate_burn_amount fee;
  validator ← calculate_validator_amount fee;
  treasury ← calculate_treasury_amount fee;
  let dust := saturating_sub_u64 (saturating_sub_u64 (saturating_sub_u64 fee burn) validator) treasury in
  burn ← add_u64 burn dust;
  Ok (burn, validator, treasury).

(** [transactions.iter().map(|tx| tx.fee).sum()] *)
Definition total_fees {E} (transactions : list Transaction) : res E Z :=
  res_fold transactions 0 (fun acc tx => add_u64 acc (tx_fee tx)).
End split.

(** ** The multiplier *)

(** The literals, which are exact. *)
Definition TARGET_UTILIZATION : f64 := Eval vm_compute in f64_of_Z 1 (-1).
Definition MAX_CHANGE_PER_EPOCH : f64 := Eval vm_compute in f64_of_Z 1 (-3).
Definition MIN_MULTIPLIER : f64 := Eval vm_compute in f64_of_Z 1 0.
Definition MAX_MULTIPLIER : f64 := Eval vm_compute in f64_of_Z 100 0.
Definition f64_two : f64 := Eval vm_compute in f64_of_Z 2 0.

Definition adjust_base_fee_multiplier (avg_utilization current_multiplier : f64) : f64 :=
  let delta := f64_mul (f64_mul (f64_sub avg_utilization TARGET_UTILIZATION) f64_two) MAX_CHANGE_PER_EPOCH in
  let new_multiplier := f64_mul current_multiplier (f64_add MIN_MULTIPLIER delta) in
  f64_clamp new_multiplier MIN_MULTIPLIER MAX_MULTIPLIER.
Definition effective_minimum_fee (tx_type : TransactionType) (multiplier : f64) : Z :=
  f64_to_u64 (f64_mul (f64_of_Z (minimum_fee tx_type) 0) multiplier).

(** ** The split *)

Section split_facts.
Context `{Build}.

(** A share is at most the exact one, wrapped or not. *)
Lemma share_bounds {E} fee bps x :
  0 <= fee -> 0 <= bps -> mul_u64 (E:=E) fee bps = Ok x -> 0 <= x <= fee * bps.
Proof.
  unfold mul_u64, unsigned. intros Hf Hb.
  destruct (Z.leb_spec 0 (fee * bps)), (Z.leb_spec (fee * bps) u64_max); cbn [andb];
    try (destruct overflow_checks; [done|]); intros [= <-]; try nia.
  split; [by apply Z.mod_pos_bound|]. apply Z.mod_le; [nia|done].
Qed.
End split_facts.

(** A valid multiplier between 1 and 100 has a full mantissa. *)
Definition in_range_multiplier (r : f64) : Prop :=
  valid_binary 53 1024 r = true /\ SFleb MIN_MULTIPLIER r = true /\ SFleb r MAX_MULTIPLIER = true.
Lemma multiplier_shape r :
  in_range_multiplier r -> exists m e, r = S754_finite false m e /\
    2 ^ 52 <= Zpos m < 2 ^ 53 /\ -52 <= e <= -46 /\ 2 ^ (- e) <= Zpos m <= 100 * 2 ^ (- e).
Proof.
  intros (Hv & Hlo & Hhi). destruct r as [[]|[]| |[] m e]; try done.
  apply SFleb_finite in Hlo, Hhi. unfold valid_binary, bounded, canonical_mantissa, fexp, emin in Hv.
  apply andb_true_iff in Hv as [Hc%Z.eqb_eq _].
  assert (Zpos (digits2_pos m) = 53) as Hd by lia. pose proof (digits2_bounds m) as Hb. rewrite Hd in Hb.
  exists m, e. split_and!; [done|lia..| |].
  - pose proof (Z.pow_le_mono_r 2 (- e) 52). lia.
  - destruct Hhi as [He|[-> Hm]]; [|lia]. pose proof (Z.pow_le_mono_r 2 47 (- e)). lia.
Qed.

Lemma clamp_bounds x :
  is_nan x = false ->
  SFleb MIN_MULTIPLIER (f64_clamp x MIN_MULTIPLIER MAX_MULTIPLIER) = true /\
  SFleb (f64_clamp x MIN_MULTIPLIER MAX_MULTIPLIER) MAX_MULTIPLIER = true.
Proof.
  intros Hx. unfold f64_clamp.
  destruct (SFltb x MIN_MULTIPLIER) eqn:Hlo; [done|].
  destruct (SFltb MAX_MULTIPLIER x) eqn:Hhi; [done|].
  by split; apply SFltb_false.
Qed.
Lemma clamp_nan x : is_nan (f64_clamp x MIN_MULTIPLIER MAX_MULTIPLIER) = is_nan x.
Proof. unfold f64_clamp. destruct x as [[]|[]| |[] m e]; try done; by repeat case_match. Qed.

(** ** Properties *)

Section split_properties.
Context `{Build}.

(** C35: the split never creates or loses a unit: whatever it returns adds up to
    the fee, in either kind of build.  Where 5,000 times the fee fits a u64,
    it returns 40% and 10%, rounded down, and burns the rest; above that a
    build with overflow checks panics. *)
Theorem fee_split_exact fee :
  is_u64 fee ->
  (fee * 5000 <= u64_max ->
    calculate_fee_split (E:=string) fee =
      Ok (fee - fee * 4 / 10 - fee / 10, fee * 4 / 10, fee / 10)) /\
  (u64_max < fee * 5000 -> overflow_checks = true -> calculate_fee_split (E:=string) fee = Panic) /\
  (forall burn validator treasury, calculate_fee_split (E:=string) fee = Ok (burn, validator, treasury) ->
    burn + validator + treasury = fee /\ 0 <= burn /\ 0 <= validator /\ 0 <= treasury).
Proof.
  unfold is_u64. intros Hfee.
  unfold calculate_fee_split, calculate_burn_amount, calculate_validator_amount, calculate_treasury_amount,
    BURN_SHARE_BPS, VALIDATOR_SHARE_BPS, TREASURY_SHARE_BPS, saturating_sub_u64.
  split_and!.
  - intros Hf. rewrite !mul_u64_ok by lia. cbn [mbind res_bind].
    replace (fee * 4000 / 10000) with (fee * 4 / 10) by (Z.div_mod_to_equations; lia).
    replace (fee * 1000 / 10000) with (fee / 10) by (Z.div_mod_to_equations; lia).
    assert (fee * 5000 / 10000 + fee * 4 / 10 + fee / 10 <= fee) by (Z.div_mod_to_equations; lia).
    assert (0 <= fee * 5000 / 10000 /\ 0 <= fee * 4 / 10 /\ 0 <= fee / 10) by (Z.div_mod_to_equations; lia).
    rewrite add_u64_ok by lia. cbn [mbind res_bind]. do 3 f_equal. lia.
  - intros Hf Hc. unfold mul_u64. rewrite (unsigned_panic u64_max (fee * 5000)); [done..|by right].
  - intros burn validator treasury Hs.
    apply res_bind_Ok in Hs as (b & Hb & Hs). apply res_bind_Ok in Hb as (xb & Hb & [= <-]).
    apply res_bind_Ok in Hs as (v & Hv & Hs). apply res_bind_Ok in Hv as (xv & Hv & [= <-]).
    apply res_bind_Ok in Hs as (t & Ht & Hs). apply res_bind_Ok in Ht as (xt & Ht & [= <-]).
    apply share_bounds in Hb, Hv, Ht; [|lia..]. apply res_bind_Ok in Hs as (c & Hc & [= <- <- <-]).
    assert (0 <= xb / 10000 /\ 0 <= xv / 10000 /\ 0 <= xt / 10000) by (Z.div_mod_to_equations; lia).
    assert (xb / 10000 + xv / 10000 + xt / 10000 <= fee) by (Z.div_mod_to_equations; lia).
    rewrite add_u64_ok in Hc by lia. injection Hc as <-. lia.
Qed.
End split_properties.

(** The multiplier that results from any utilisation is between 1 and 100,
    unless it is NaN. *)
Theorem multiplier_bounds utilization multiplier :
  let r := adjust_base_fee_multiplier utilization multiplier in
  is_nan r = false -> SFleb MIN_MULTIPLIER r = true /\ SFleb r MAX_MULTIPLIER = true.
Proof. intros r Hr. unfold r, adjust_base_fee_multiplier in *. rewrite clamp_nan in Hr. by apply clamp_bounds. Qed.

(** Under any multiplier between 1 and 100 the effective minimum fee lies
    between the protocol floor of the transaction type and 100 times that,
    rounding included. *)
Theorem effective_fee_bounds tx_type multiplier :
  in_range_multiplier multiplier ->
  minimum_fee tx_type <= effective_minimum_fee tx_type multiplier <= 100 * minimum_fee tx_type.
Proof.
  intros (m & e & -> & Hm & He & Hb)%multiplier_shape.
  assert (exists mb eb, f64_of_Z (minimum_fee tx_type) 0 = S754_finite false mb eb /\
    2 ^ 52 <= Zpos mb < 2 ^ 53 /\ -33 <= eb <= -26 /\ Zpos mb = minimum_fee tx_type * 2 ^ (- eb) /\
    0 < minimum_fee tx_type <= 100000000) as (mb & eb & Hf & Hmb & Heb & Hval & Hmin).
  { destruct tx_type; (eexists _, _; split; [vm_compute; reflexivity|]; concrete). }
  unfold effective_minimum_fee. rewrite Hf.
  assert (2 ^ (- (eb + e)) = 2 ^ (- eb) * 2 ^ (- e)) as Hp by (rewrite <-Z.pow_add_r by lia; f_equal; lia).
  pose proof (Z.pow_pos_nonneg 2 (- eb)).
  apply product_to_u64; rewrite ?Hp, ?Hval; [lia|lia|lia|nia|left; split; [lia|nia]].
Qed.

Module FeesWitness.
#[local] Instance checked : Build := {| overflow_checks := true |}.

Lemma fee_split_exact_witness :
  (9999999 * 5000 <= u64_max ->
    calculate_fee_split (E:=string) 9999999 =
      Ok (9999999 - 9999999 * 4 / 10 - 9999999 / 10, 9999999 * 4 / 10, 9999999 / 10)) /\
  (u64_max < 9999999 * 5000 -> overflow_checks = true -> calculate_fee_split (E:=string) 9999999 = Panic) /\
  (forall burn validator treasury, calculate_fee_split (E:=string) 9999999 = Ok (burn, validator, treasury) ->
    burn + validator + treasury = 9999999 /\ 0 <= burn /\ 0 <= validator /\ 0 <= treasury).
Proof. apply (fee_split_exact 9999999). concrete. Defined.
(** The largest fee the split accepts under overflow checks. *)
Example split_limit : is_ok (calculate_fee_split (E:=string) 3689348814741910) = true /\
  calculate_fee_split (E:=string) 3689348814741911 = Panic.
Proof. vm_compute. done. Qed.

(** 0.9 and 1.0: the multiplier rises by 10%. *)
Definition full : f64 := Eval vm_compute in SFdiv 53 1024 (f64_of_Z 9 0) (f64_of_Z 10 0).
Lemma multiplier_bounds_witness :
  let r := adjust_base_fee_multiplier full MIN_MULTIPLIER in
  SFleb MIN_MULTIPLIER r = true /\ SFleb r MAX_MULTIPLIER = true.
Proof. apply (multiplier_bounds full MIN_MULTIPLIER). concrete. Defined.
Lemma effective_fee_bounds_witness :
  minimum_fee Transfer <= effective_minimum_fee Transfer f64_two <= 100 * minimum_fee Transfer.
Proof. apply (effective_fee_bounds Transfer f64_two). concrete. Defined.
Example doubled : effective_minimum_fee Transfer f64_two = 2000000.
Proof. vm_compute. reflexivity. Qed.
(** At half utilisation the multiplier stays, and a NaN is not clamped. *)
Example stable : adjust_base_fee_multiplier TARGET_UTILIZATION f64_two = f64_two.
Proof. vm_compute. reflexivity. Qed.
Example nan_stays : adjust_base_fee_multiplier S754_nan f64_two = S754_nan.
Proof. vm_compute. reflexivity. Qed.
End FeesWitness.
