(* ===== verification/Mempool.v ===== *)
(** * The mempool (src/mempool/pool.rs)

    The pool of pending transactions with its fee index and its set of pending
    (sender, nonce) pairs.  [consistent] is what ties the three together; it
    holds of every pool reached from an empty one. *)
From S2P Require Import Prelude Text Types Extern InMemory Db World AccountStore.

Definition MAX_MEMPOOL_SIZE : Z := 50000.

Inductive MempoolError :=
| AlreadyExists
| DuplicateNonce (address : string) (nonce : Z)
| InsufficientBalance (address : string) (required available : Z)
| InvalidNonce (expected got : Z)
| PoolFullFeeTooLow
| MalformedTransaction (reason : string).

(** [impl Display for MempoolError]: the slices panic on a short address. *)
Definition display_mempool_error {E} (e : MempoolError) : res E string :=
  match e with
  | AlreadyExists => Ok "Transaction already in mempool"
  | DuplicateNonce address nonce =>
    x ← slice_to 12 address;
    Ok ("Sender " +:+ x +:+ " already has a pending transaction with nonce " +:+ show_uint nonce)
  | InsufficientBalance address required available =>
    x ← slice_to 12 address;
    Ok (x +:+ " cannot afford transaction: needs " +:+ show_uint required +:+ " has " +:+ show_uint available)
  | InvalidNonce expected got =>
    Ok ("Invalid nonce: expected " +:+ show_uint expected +:+ " got " +:+ show_uint got)
  | PoolFullFeeTooLow => Ok "Mempool is full and this transaction's fee is too low to evict anything"
  | MalformedTransaction reason => Ok ("Malformed transaction: " +:+ reason)
  end.

(** ** The fee index

    [BTreeMap<FeeKey, ()>]: a set of keys, iterated in the derived order of
    [FeeKey], by fee and then by hash. *)
Record FeeKey := mkFeeKey { fk_fee : Z; fk_hash : string }.
#[export] Instance FeeKey_eq_dec : EqDecision FeeKey.
Proof. solve_decision. Defined.
#[export] Instance FeeKey_countable : Countable FeeKey.
Proof.
  refine (inj_countable' (fun k => (fk_fee k, fk_hash k)) (fun '(f, h) => mkFeeKey f h) _). by intros [].
Defined.
Definition fee_key_le (x y : FeeKey) : Prop :=
  fk_fee x < fk_fee y \/ (fk_fee x = fk_fee y /\ str_le (fk_hash x) (fk_hash y)).
#[export] Instance fee_key_le_dec x y : Decision (fee_key_le x y).
Proof. unfold fee_key_le. apply _. Defined.
#[export] Instance fee_key_le_trans : Transitive fee_key_le.
Proof.
  intros [f1 h1] [f2 h2] [f3 h3]. unfold fee_key_le. cbn.
  intros [?|[? ?]] [?|[? ?]]; [left; lia..|]. right. split; [lia|by etransitivity].
Qed.
#[export] Instance fee_key_le_total : Total fee_key_le.
Proof.
  intros [f1 h1] [f2 h2]. unfold fee_key_le. cbn.
  destruct (Z.lt_trichotomy f1 f2) as [?|[->|?]]; [by left; left| |by right; left].
  destruct (total str_le h1 h2); [left|right]; by right.
Qed.

Record Mempool := mkMempool {
  mp_transactions : gmap string Transaction;
  mp_fee_index : gset FeeKey;
  mp_pending_nonces : gset (string * Z);
}.
(** [fee_index.keys()] *)
Definition index_keys (m : Mempool) : list FeeKey := merge_sort fee_key_le (elements (mp_fee_index m)).

Definition empty_pool : Mempool := mkMempool ∅ ∅ ∅.
Definition len (m : Mempool) : Z := Z.of_nat (size (mp_transactions m)).
Definition pool_is_empty (m : Mempool) : bool := bool_decide (mp_transactions m = ∅).
Definition contains (m : Mempool) (hash : string) : bool := bool_decide (is_Some (mp_transactions m !! hash)).
Definition get (m : Mempool) (hash : string) : option Transaction := mp_transactions m !! hash.

Definition validate_structure (tx : Transaction) : res MempoolError unit :=
  if is_empty (tx_hash tx) then Err (MalformedTransaction "empty hash")
  else if is_empty (tx_signature tx) then Err (MalformedTransaction "empty signature")
  else if is_empty (tx_sender tx) || is_empty (tx_receiver tx) then
    Err (MalformedTransaction "empty sender or receiver")
  else Ok tt.

Definition fee_key (tx : Transaction) : FeeKey := mkFeeKey (tx_fee tx) (tx_hash tx).
Definition nonce_key (tx : Transaction) : string * Z := (tx_sender tx, tx_nonce tx).

Definition insert (tx : Transaction) (m : Mempool) : Mempool :=
  mkMempool (<[tx_hash tx := tx]> (mp_transactions m)) ({[ fee_key tx ]} ∪ mp_fee_index m)
    ({[ nonce_key tx ]} ∪ mp_pending_nonces m).

Definition remove (hash : string) (m : Mempool) : Mempool * option Transaction :=
  match mp_transactions m !! hash with
  | None => (m, None)
  | Some tx =>
    (mkMempool (base.delete hash (mp_transactions m)) (mp_fee_index m ∖ {[ fee_key tx ]})
      (mp_pending_nonces m ∖ {[ nonce_key tx ]}), Some tx)
  end.
Definition remove_batch (hashes : list string) (m : Mempool) : Mempool :=
  fold_left (fun m hash => (remove hash m).1) hashes m.

Definition evict_for (incoming_fee : Z) : st Mempool MempoolError unit := fun m =>
  match index_keys m with
  | [] => (m, Ok tt)
  | lowest_key :: _ =>
    if incoming_fee <=? fk_fee lowest_key then (m, Err PoolFullFeeTooLow)
    else ((remove (fk_hash lowest_key) m).1, Ok tt)
  end.

Definition top_by_fee (limit : nat) (m : Mempool) : list Transaction :=
  omap (fun key => mp_transactions m !! fk_hash key) (take limit (reverse (index_keys m))).

Definition required (tx : Transaction) : Z :=
  match tx_transaction_type tx with
  | Transfer | StakeLock => saturating_add_u64 (tx_amount tx) (tx_fee tx)
  | StakeUnlock | ContractDeploy | ContractCall => tx_fee tx
  end.

(** [pending_nonces.iter().any(|(addr, _)| addr == &tx.sender)] *)
Definition has_other_pending (sender : string) (m : Mempool) : bool :=
  existsb (fun p => String.eqb p.1 sender) (elements (mp_pending_nonces m)).

Section pool.
Context `{Sled} `{!Serde Account}.

(** The database is read only. *)
Definition add_transaction (tx : Transaction) (db : KyveraDb) : st Mempool MempoolError unit :=
  st_lift (validate_structure tx);;
  m ← st_get;
  if contains m (tx_hash tx) then st_fail AlreadyExists
  else if bool_decide (nonce_key tx ∈ mp_pending_nonces m) then
    st_fail (DuplicateNonce (tx_sender tx) (tx_nonce tx))
  else
    found ←? map_err MalformedTransaction (get_account (tx_sender tx) db).2;
    let account := default (new_account (tx_sender tx)) found in
    if acc_balance account <? required tx then
      st_fail (InsufficientBalance (tx_sender tx) (required tx) (acc_balance account))
    else if negb (has_other_pending (tx_sender tx) m) && negb (tx_nonce tx =? acc_nonce account) then
      st_fail (InvalidNonce (acc_nonce account) (tx_nonce tx))
    else
      (if MAX_MEMPOOL_SIZE <=? len m then evict_for (tx_fee tx) else mret tt);;
      st_modify (insert tx).
End pool.

(** ** Consistency *)

Record consistent (m : Mempool) : Prop := {
  keyed h tx : mp_transactions m !! h = Some tx -> tx_hash tx = h /\ validate_structure tx = Ok tt;
  indexed k : k ∈ mp_fee_index m <-> exists tx, mp_transactions m !! fk_hash k = Some tx /\ fee_key tx = k;
  tracked p : p ∈ mp_pending_nonces m <-> exists h tx, mp_transactions m !! h = Some tx /\ nonce_key tx = p;
  distinct h1 h2 t1 t2 : mp_transactions m !! h1 = Some t1 -> mp_transactions m !! h2 = Some t2 ->
    nonce_key t1 = nonce_key t2 -> h1 = h2;
}.

Lemma empty_consistent : consistent empty_pool.
Proof.
  split; cbn; intros *; rewrite ?lookup_empty; try done; split; try set_solver;
    intros; destruct_and?; naive_solver (rewrite ?lookup_empty in *; done).
Qed.

Lemma insert_consistent tx m :
  consistent m -> validate_structure tx = Ok tt -> mp_transactions m !! tx_hash tx = None ->
  nonce_key tx ∉ mp_pending_nonces m -> consistent (insert tx m).
Proof.
  intros [Hk Hi Ht Hd] Hs Hh Hn. split; cbn.
  - intros h t. rewrite lookup_insert_Some. naive_solver.
  - intros [f h]. rewrite elem_of_union, elem_of_singleton, Hi. cbn.
    setoid_rewrite lookup_insert_Some. split.
    + intros [He|(t & Hl & He)]; [exists tx; unfold fee_key in *; naive_solver|].
      exists t. split; [|done]. right. split; [congruence|done].
    + intros (t & [[Hl ->]|[Hne Hl]] & He); [by left|right; eauto].
  - intros p. rewrite elem_of_union, elem_of_singleton, Ht. setoid_rewrite lookup_insert_Some. split.
    + intros [->|(h & t & Hl & He)]; [eauto 10|]. exists h, t. split; [|done]. right. split; [congruence|done].
    + intros (h & t & [[_ <-]|[Hne Hl]] & He); [by left|right; eauto].
  - intros h1 h2 t1 t2. rewrite !lookup_insert_Some.
    intros [[<- <-]|[? H1]] [[<- <-]|[? H2]] He; [done| | |eauto]; exfalso; apply Hn, Ht; eauto.
Qed.

Lemma remove_consistent h m : consistent m -> consistent (remove h m).1.
Proof.
  intros Hm. pose proof Hm as [Hk Hi Ht Hd]. unfold remove.
  destruct (mp_transactions m !! h) as [tx|] eqn:Hh; [|done]. destruct (Hk h tx Hh) as [Hhash _].
  split; cbn.
  - intros h' t. rewrite lookup_delete_Some. naive_solver.
  - intros [f h']. rewrite elem_of_difference, elem_of_singleton, Hi. cbn. setoid_rewrite lookup_delete_Some. split.
    + intros [(t & Hl & He) Hne]. exists t. split; [|done]. split; [|done]. intros <-. congruence.
    + intros (t & [Hne Hl] & He). split; [eauto|]. unfold fee_key. congruence.
  - intros p. rewrite elem_of_difference, elem_of_singleton, Ht. setoid_rewrite lookup_delete_Some. split.
    + intros [(h' & t & Hl & He) Hne]. exists h', t. split; [|done]. split; [|done]. intros <-. congruence.
    + intros (h' & t & [Hne Hl] & He). split; [eauto|]. intros Hp. apply Hne. apply (Hd h h' tx t); congruence.
  - intros h1 h2 t1 t2 [_ H1]%lookup_delete_Some [_ H2]%lookup_delete_Some. eauto.
Qed.
Lemma remove_transactions h m :
  mp_transactions (remove h m).1 = base.delete h (mp_transactions m) /\
  (remove h m).2 = mp_transactions m !! h.
Proof.
  unfold remove. destruct (mp_transactions m !! h) eqn:Hh; [done|]. by rewrite delete_id.
Qed.

(** ** The fee index *)

Lemma elem_of_index_keys m k : k ∈ index_keys m <-> k ∈ mp_fee_index m.
Proof. unfold index_keys. by rewrite merge_sort_Permutation, elem_of_elements. Qed.
Lemma index_keys_sorted m : Sorted fee_key_le (index_keys m).
Proof. apply Sorted_merge_sort, _. Qed.
Lemma index_keys_NoDup m : NoDup (index_keys m).
Proof. unfold index_keys. rewrite merge_sort_Permutation. apply NoDup_elements. Qed.

(** The keys are those of the pooled transactions. *)
Lemma index_keys_perm m :
  consistent m -> index_keys m ≡ₚ fee_key <$> (map_to_list (mp_transactions m)).*2.
Proof.
  intros [Hk Hi _ _]. apply NoDup_Permutation; [apply index_keys_NoDup| |].
  - rewrite <-list_fmap_compose. apply (NoDup_fmap_1 fk_hash). rewrite <-list_fmap_compose.
    assert ((fk_hash ∘ (fee_key ∘ snd)) <$> map_to_list (mp_transactions m) =
      (map_to_list (mp_transactions m)).*1) as ->; [|apply NoDup_fst_map_to_list].
    apply list_fmap_ext. intros i [h t] Hl%list_elem_of_lookup_2%elem_of_map_to_list. cbn. by apply Hk.
  - intros k. rewrite elem_of_index_keys, Hi, list_elem_of_fmap. setoid_rewrite list_elem_of_fmap. split.
    + intros (t & Hl & He). exists t. split; [done|]. exists (fk_hash k, t).
      by rewrite elem_of_map_to_list.
    + intros (t & -> & [h t'] & -> & Hl%elem_of_map_to_list). exists t'. split; [|done]. cbn.
      by destruct (Hk h t' Hl) as [-> _].
Qed.
Lemma index_keys_length m : consistent m -> length (index_keys m) = size (mp_transactions m).
Proof.
  intros Hm. by rewrite (index_keys_perm m Hm), !length_fmap, length_map_to_list.
Qed.

(** The transaction with the least key, which eviction picks. *)
Definition lowest (victim : Transaction) (m : Mempool) : Prop :=
  mp_transactions m !! tx_hash victim = Some victim /\
  forall h tx, mp_transactions m !! h = Some tx -> fee_key_le (fee_key victim) (fee_key tx).

Lemma index_head k ks m :
  consistent m -> index_keys m = k :: ks -> exists victim, lowest victim m /\ fee_key victim = k.
Proof.
  intros Hm Hk. pose proof Hm as [Hkey Hi _ _].
  assert (k ∈ mp_fee_index m) as Hin by (rewrite <-elem_of_index_keys, Hk; by left).
  apply Hi in Hin as (victim & Hl & <-). exists victim. split; [|done]. split; [done|].
  intros h tx Htx. assert (fee_key tx ∈ fee_key victim :: ks) as Hin.
  { rewrite <-Hk, elem_of_index_keys, Hi. exists tx. cbn. by destruct (Hkey h tx Htx) as [-> _]. }
  pose proof (index_keys_sorted m) as Hs. rewrite Hk in Hs.
  apply Sorted_StronglySorted in Hs; [|apply _]. apply elem_of_cons in Hin as [->|Hin].
  - destruct (total fee_key_le (fee_key victim) (fee_key victim)); done.
  - apply StronglySorted_inv in Hs as [_ Hs]. rewrite Forall_forall in Hs. by apply Hs.
Qed.

Lemma evict_for_spec fee m :
  consistent m -> mp_transactions m <> ∅ ->
  exists victim, lowest victim m /\
    evict_for fee m = if fee <=? tx_fee victim then (m, Err PoolFullFeeTooLow)
      else ((remove (tx_hash victim) m).1, Ok tt).
Proof.
  intros Hm Hne. unfold evict_for. pose proof (index_keys_length m Hm) as Hl.
  destruct (index_keys m) as [|k ks] eqn:Hk.
  { symmetry in Hl. by apply map_size_empty_iff in Hl. }
  destruct (index_head k ks m Hm Hk) as (victim & Hv & <-). eauto.
Qed.

(** ** Admission *)

Definition pending (sender : string) (m : Mempool) : Prop := exists n, (sender, n) ∈ mp_pending_nonces m.
Lemma has_other_pending_iff sender m : has_other_pending sender m = true <-> pending sender m.
Proof.
  unfold has_other_pending. rewrite existsb_exists. split.
  - intros ([s n] & Hin & Hs). cbn in Hs. apply String.eqb_eq in Hs as ->. exists n.
    by apply elem_of_elements, list_elem_of_In.
  - intros [n Hin]. exists (sender, n). cbn. rewrite String.eqb_refl. split; [|done].
    by apply list_elem_of_In, elem_of_elements.
Qed.

(** What the checks before the eviction require. *)
Definition eligible (tx : Transaction) (m : Mempool) (w : World) : Prop :=
  validate_structure tx = Ok tt /\ mp_transactions m !! tx_hash tx = None /\
  nonce_key tx ∉ mp_pending_nonces m /\
  required tx <= acc_balance (account_at (tx_sender tx) w) /\
  (pending (tx_sender tx) m \/ tx_nonce tx = acc_nonce (account_at (tx_sender tx) w)).
Definition room (m : Mempool) : Prop := len m < MAX_MEMPOOL_SIZE.

Section admission.
Context `{SledLaws} `{!Serde Account} `{!SerdeLaws Account}.

Lemma get_account_run addr db w : Rep db w -> (get_account addr db).2 = Ok (w_accounts w !! addr).
Proof.
  intros Hdb. by destruct (wp_get_account addr w (fun r _ => r = Ok (w_accounts w !! addr)) eq_refl db Hdb)
    as (w' & _ & ->).
Qed.

(** [add_transaction] as one decision tree. *)
Lemma add_transaction_run tx db m w :
  Rep db w ->
  let account := account_at (tx_sender tx) w in
  add_transaction tx db m =
    match validate_structure tx with
    | Ok _ =>
      if bool_decide (is_Some (mp_transactions m !! tx_hash tx)) then (m, Err AlreadyExists)
      else if bool_decide (nonce_key tx ∈ mp_pending_nonces m) then
        (m, Err (DuplicateNonce (tx_sender tx) (tx_nonce tx)))
      else if acc_balance account <? required tx then
        (m, Err (InsufficientBalance (tx_sender tx) (required tx) (acc_balance account)))
      else if negb (has_other_pending (tx_sender tx) m) && negb (tx_nonce tx =? acc_nonce account) then
        (m, Err (InvalidNonce (acc_nonce account) (tx_nonce tx)))
      else ((if MAX_MEMPOOL_SIZE <=? len m then evict_for (tx_fee tx) else mret tt);; st_modify (insert tx)) m
    | Err e => (m, Err e)
    | Panic => (m, Panic)
    end.
Proof.
  intros Hdb. unfold add_transaction, contains. rewrite (get_account_run _ _ _ Hdb), st_bind_run. unfold st_lift at 1.
  destruct (validate_structure tx) as [[]|e|]; [|done..]. rewrite st_bind_run. unfold st_get.
  case_bool_decide; [done|]. case_bool_decide; [done|]. rewrite st_bind_run. unfold st_lift. cbn [map_err].
  change (default _ _) with (account_at (tx_sender tx) w).
  case_match; [done|]. by case_match.
Qed.

(** It refuses an ineligible transaction, and else goes on to the eviction and
    the insertion. *)
Lemma add_transaction_cases tx db m w :
  Rep db w ->
  (eligible tx m w /\ add_transaction tx db m =
    ((if MAX_MEMPOOL_SIZE <=? len m then evict_for (tx_fee tx) else mret tt);; st_modify (insert tx)) m) \/
  (~ eligible tx m w /\ exists e, add_transaction tx db m = (m, Err e)).
Proof.
  intros Hdb. rewrite (add_transaction_run _ _ _ _ Hdb). unfold eligible.
  destruct (validate_structure tx) as [[]|e|] eqn:Hs.
  2: { right. split; [naive_solver|eauto]. }
  2: { unfold validate_structure in Hs. by repeat case_match. }
  case_bool_decide as Hc; [right; split; [|eauto]; intros (_ & He & _); rewrite He in Hc; by destruct Hc|].
  rewrite <-eq_None_not_Some in Hc.
  case_bool_decide as Hn; [right; split; [naive_solver|eauto]|].
  destruct (Z.ltb_spec (acc_balance (account_at (tx_sender tx) w)) (required tx)).
  { right. split; [naive_solver lia|eauto]. }
  destruct (has_other_pending (tx_sender tx) m) eqn:Hp; cbn [negb andb].
  { left. apply has_other_pending_iff in Hp. naive_solver. }
  assert (~ pending (tx_sender tx) m) as Hnp by (rewrite <-has_other_pending_iff; congruence).
  destruct (Z.eqb_spec (tx_nonce tx) (acc_nonce (account_at (tx_sender tx) w))); cbn [negb];
    [left|right]; naive_solver.
Qed.
End admission.

(** ** The pool as a state machine *)

Section machine.
Context `{Sled} `{!Serde Account}.

(** What the node does to its pool: submissions, checked against whatever
    database it has at the time, and removals.  A rejected submission is a step
    as well, and the database may fail. *)
Inductive pool_step (m : Mempool) : Mempool -> Prop :=
| step_add tx db : pool_step m (add_transaction tx db m).1
| step_remove hash : pool_step m (remove hash m).1
| step_remove_batch hashes : pool_step m (remove_batch hashes m).
Definition reachable (m : Mempool) : Prop := rtc pool_step empty_pool m.

Definition pool_ok (m : Mempool) : Prop := consistent m /\ len m <= MAX_MEMPOOL_SIZE.

Lemma remove_ok hash m : pool_ok m -> pool_ok (remove hash m).1.
Proof.
  intros [Hm Hl]. split; [by apply remove_consistent|]. unfold len in *.
  destruct (remove_transactions hash m) as [-> _]. rewrite map_size_delete. destruct (mp_transactions m !! hash); cbn [id] in *; unfold id; lia.
Qed.
Lemma insert_size tx m :
  mp_transactions m !! tx_hash tx = None -> len (insert tx m) = len m + 1.
Proof. intros Hh. unfold len, insert. cbn. rewrite map_size_insert_None by done. lia. Qed.

(** Insertion into a pool from which some transactions may have been evicted. *)
Lemma insert_after_ok tx m m' :
  pool_ok m' -> len m' < MAX_MEMPOOL_SIZE -> mp_transactions m' ⊆ mp_transactions m -> consistent m ->
  validate_structure tx = Ok tt -> mp_transactions m !! tx_hash tx = None ->
  nonce_key tx ∉ mp_pending_nonces m -> pool_ok (insert tx m').
Proof.
  intros [Hm' _] Hl Hsub Hm Hs Hh Hn.
  assert (mp_transactions m' !! tx_hash tx = None) as Hh'.
  { apply eq_None_not_Some. intros [t Ht]. rewrite (lookup_weaken _ _ _ _ Ht Hsub) in Hh. done. }
  split; [|rewrite insert_size by done; lia]. apply insert_consistent; [done..|].
  intros (h & t & Hlk & He)%(tracked _ Hm'). apply Hn, (tracked _ Hm).
  exists h, t. split; [by eapply lookup_weaken|done].
Qed.

Lemma add_ok tx db m : pool_ok m -> pool_ok (add_transaction tx db m).1.
Proof.
  intros Hok. unfold add_transaction, contains. rewrite st_bind_run. unfold st_lift at 1.
  destruct (validate_structure tx) as [[]|e|] eqn:Hs; [|done..]. rewrite st_bind_run. unfold st_get.
  case_bool_decide as Hc; [done|]. rewrite <-eq_None_not_Some in Hc.
  case_bool_decide as Hn; [done|]. rewrite st_bind_run. unfold st_lift.
  destruct (map_err _ _) as [found|e|]; [|done..]. case_match; [done|]. case_match; [done|].
  destruct Hok as [Hm Hl]. rewrite st_bind_run. destruct (Z.leb_spec MAX_MEMPOOL_SIZE (len m)) as [Hfull|Hroom].
  2: { by apply (insert_after_ok tx m m). }
  destruct (evict_for_spec (tx_fee tx) m Hm) as (victim & [Hv _] & ->).
  { intros He. unfold len, MAX_MEMPOOL_SIZE in Hfull. rewrite He, map_size_empty in Hfull. lia. }
  destruct (tx_fee tx <=? tx_fee victim); [done|]. apply (insert_after_ok tx m); [by apply remove_ok; split| | |done..].
  - unfold len, MAX_MEMPOOL_SIZE in *. destruct (remove_transactions (tx_hash victim) m) as [-> _].
    rewrite map_size_delete, Hv. cbn. lia.
  - destruct (remove_transactions (tx_hash victim) m) as [-> _]. apply delete_subseteq.
Qed.
Lemma remove_batch_ok hashes m : pool_ok m -> pool_ok (remove_batch hashes m).
Proof.
  unfold remove_batch. revert m. induction hashes as [|h hs IH]; intros m Hm; [done|]. by apply IH, remove_ok.
Qed.
Lemma reachable_ok m : reachable m -> pool_ok m.
Proof.
  unfold reachable. intros Hr. assert (pool_ok empty_pool) as He by (by split; [apply empty_consistent|]).
  induction Hr as [m|m1 m2 m3 Hstep _ IH]; [done|]. apply IH.
  destruct Hstep; auto using add_ok, remove_ok, remove_batch_ok.
Qed.
End machine.

(** ** The selection *)

Definition selected (n : nat) (m : Mempool) (l : list Transaction) : Prop :=
  fee_key <$> l = take n (reverse (index_keys m)) /\
  (forall tx, tx ∈ l -> mp_transactions m !! tx_hash tx = Some tx).

Lemma top_by_fee_selected n m : consistent m -> selected n m (top_by_fee n m).
Proof.
  intros Hm. unfold selected, top_by_fee.
  assert (Forall (fun k => k ∈ mp_fee_index m) (take n (reverse (index_keys m)))) as Hin.
  { apply Forall_forall. intros k Hk. apply elem_of_take in Hk as (i & Hk & _).
    apply list_elem_of_lookup_2 in Hk. by rewrite elem_of_reverse, elem_of_index_keys in Hk. }
  induction Hin as [|k ks Hk _ [IH1 IH2]]; [split; [done|set_solver]|]. cbn.
  apply (indexed _ Hm) in Hk as (tx & Hl & <-). rewrite Hl. cbn. cbn in Hl. rewrite IH1. split; [done|].
  intros t [->|Ht]%elem_of_cons; [done|by apply IH2].
Qed.

Lemma fee_key_le_fee x y : fee_key_le (fee_key x) (fee_key y) -> tx_fee x <= tx_fee y.
Proof. unfold fee_key_le. cbn. lia. Qed.

(** The selected keys come first in the order, the others after them. *)
Lemma index_split n m :
  StronglySorted (flip fee_key_le) (take n (reverse (index_keys m))) /\
  forall x y, x ∈ take n (reverse (index_keys m)) -> y ∈ index_keys m ->
    y ∉ take n (reverse (index_keys m)) -> fee_key_le y x.
Proof.
  pose proof (Sorted_reverse _ _ (index_keys_sorted m)) as Hs.
  apply Sorted_StronglySorted in Hs; [|intros x y z Hxy Hyz; by apply (fee_key_le_trans z y x)].
  rewrite <-(take_drop n (reverse (index_keys m))) in Hs. apply StronglySorted_app in Hs as (Hc & Ht & _).
  split; [done|]. intros x y Hx Hy Hn. apply (Hc x y Hx).
  rewrite <-elem_of_reverse, <-(take_drop n (reverse (index_keys m))), elem_of_app in Hy. tauto.
Qed.

Section mempool_properties.
Context `{SledLaws} `{!Serde Account} `{!SerdeLaws Account}.

(** C7: whatever is submitted and removed, in whatever order and against
    whatever database: the pool never exceeds its cap, every transaction is
    stored under its hash and passed the structural checks, the fee index and
    the set of pending nonces are exactly those of the pooled transactions,
    and no two of them share sender and nonce. *)
Theorem reachable_pools_consistent m :
  reachable m -> consistent m /\ len m <= MAX_MEMPOOL_SIZE.
Proof. apply reachable_ok. Qed.

(** C15: a submission is admitted exactly when it is eligible and the pool has
    room or holds a transaction with a lower fee; it then joins the pool, in
    place of the transaction with the least fee if the pool was full.  A
    submission that is refused leaves the pool as it was. *)
Theorem add_transaction_exact tx db m w :
  Rep db w -> consistent m ->
  let '(m', r) := add_transaction tx db m in
  (r = Ok tt <-> eligible tx m w /\ (room m \/ exists victim, lowest victim m /\ tx_fee victim < tx_fee tx)) /\
  (r = Ok tt -> m' = insert tx m /\ room m \/
    exists victim, lowest victim m /\ tx_fee victim < tx_fee tx /\ m' = insert tx (remove (tx_hash victim) m).1) /\
  (r <> Ok tt -> m' = m /\ exists e, r = Err e).
Proof.
  intros Hdb Hm. unfold room.
  destruct (add_transaction_cases tx db m w Hdb) as [[He ->]|[He [e ->]]].
  2: { split_and!; [naive_solver|done|eauto]. }
  rewrite st_bind_run. destruct (Z.leb_spec MAX_MEMPOOL_SIZE (len m)) as [Hfull|Hroom].
  2: { split_and!; [by intuition|by left|done]. }
  destruct (evict_for_spec (tx_fee tx) m Hm) as (victim & Hv & ->).
  { intros Hem. unfold len, MAX_MEMPOOL_SIZE in Hfull. rewrite Hem, map_size_empty in Hfull. lia. }
  destruct (Z.leb_spec (tx_fee tx) (tx_fee victim)) as [Hle|Hlt].
  - split_and!; [|done|eauto]. split; [done|]. intros [_ [Hroom|(v & [Hv1 Hv2] & Hvf)]]; [lia|].
    destruct Hv as [Hvl Hv]. specialize (Hv _ _ Hv1). apply fee_key_le_fee in Hv. lia.
  - split_and!; [|right; eauto|done]. split; [|done]. split; [done|]. right. eauto.
Qed.

(** C25: [top_by_fee] selects the best of the pool: as many distinct pooled
    transactions as asked for and available, by falling fee, none of which
    pays less than one left out. *)
Theorem top_by_fee_best n m :
  consistent m ->
  let l := top_by_fee n m in
  length l = Nat.min n (size (mp_transactions m)) /\ NoDup (tx_hash <$> l) /\
  (forall tx, tx ∈ l -> get m (tx_hash tx) = Some tx) /\
  StronglySorted (fun x y => tx_fee y <= tx_fee x) l /\
  (forall x h y, x ∈ l -> get m h = Some y -> y ∉ l -> tx_fee y <= tx_fee x).
Proof.
  intros Hm l. destruct (top_by_fee_selected n m Hm) as [Hkeys Hin]. fold l in Hkeys, Hin.
  destruct (index_split n m) as [Hs Hrest]. rewrite <-Hkeys in Hs, Hrest.
  assert (forall y, fee_key y ∈ fee_key <$> l -> get m (tx_hash y) = Some y -> y ∈ l) as Hback.
  { intros y (x & He & Hx)%list_elem_of_fmap Hy. specialize (Hin x Hx). unfold get in Hy.
    injection He as _ He. rewrite He, Hin in Hy. by injection Hy as <-. }
  split_and!.
  - rewrite <-(length_fmap fee_key l), Hkeys, length_take, length_reverse, index_keys_length by done. done.
  - assert (NoDup (fee_key <$> l)) as Hd.
    { rewrite Hkeys. apply (sublist_NoDup _ (reverse (index_keys m))); [|apply sublist_take].
      rewrite reverse_Permutation. apply index_keys_NoDup. }
    apply NoDup_fmap_1 in Hd as Hl. clear -Hl Hin. induction Hl as [|x l Hx Hl IH]; cbn; constructor.
    + intros (y & He & Hy)%list_elem_of_fmap. apply Hx.
      assert (Some x = Some y) as [= ->]; [|done]. rewrite <-(Hin x), He by (by left). apply Hin. by right.
    + apply IH. intros t Ht. apply Hin. by right.
  - exact Hin.
  - clear -Hs. induction l as [|x l IH]; [constructor|]. cbn in Hs. apply StronglySorted_inv in Hs as [Hs Hx].
    constructor; [by apply IH|]. apply Forall_forall. intros y Hy. rewrite Forall_forall in Hx.
    apply fee_key_le_fee, Hx, list_elem_of_fmap. eauto.
  - intros x h y Hx Hy Hn. unfold get in Hy. destruct ((keyed _ Hm) h y Hy) as [<- _].
    apply fee_key_le_fee, Hrest; [apply list_elem_of_fmap; eauto| |by intros Hf; apply Hn, Hback].
    apply elem_of_index_keys, (indexed _ Hm). eauto.
Qed.

(** When a block has been accepted, removing its hashes leaves exactly the
    other transactions, and frees the nonces of those that were removed. *)
Theorem remove_batch_exact hashes m :
  consistent m ->
  let m' := remove_batch hashes m in
  (forall h, get m' h = if decide (h ∈ hashes) then None else get m h) /\
  (forall h tx, h ∈ hashes -> get m h = Some tx -> nonce_key tx ∉ mp_pending_nonces m').
Proof.
  intros Hm m'.
  assert (consistent m' /\ forall h, get m' h = if decide (h ∈ hashes) then None else get m h) as [Hm' Hget].
  { unfold m', remove_batch, get. clear m'. revert m Hm. induction hashes as [|h hs IH]; intros m Hm; [done|].
    cbn [fold_left]. destruct (IH (remove h m).1) as [Hc Hg]; [by apply remove_consistent|]. split; [done|].
    intros h'. rewrite Hg. destruct (remove_transactions h m) as [-> _].
    destruct (decide (h' ∈ hs)), (decide (h' ∈ h :: hs)) as [Hi|Hi]; try done; [set_solver| |].
    - apply elem_of_cons in Hi as [->|]; [by rewrite lookup_delete_eq|done].
    - rewrite lookup_delete_ne; [done|set_solver]. }
  split; [exact Hget|]. intros h tx Hh Htx (h' & t & Ht & He)%(tracked _ Hm').
  specialize (Hget h') as Hg. unfold get in *. rewrite Ht in Hg. case_decide as Hin; [done|].
  symmetry in Hg. apply Hin. by rewrite ((distinct _ Hm) h' h t tx Hg Htx He).
Qed.
End mempool_properties.

Module MempoolWitness.
Import Mem MemWorld.

Definition db : KyveraDb := db_with [funded "alice" 900 0 4].
Definition start : World := world_with [funded "alice" 900 0 4].
Definition tx (hash : string) (fee nonce : Z) : Transaction :=
  mkTransaction hash "alice" "bob" 5 fee nonce "sig" 1000 Transfer "".
Definition submit (m : Mempool) (t : Transaction) : Mempool := (add_transaction t db m).1.
(** Three submissions, of which the one with the used nonce is refused. *)
Definition pool : Mempool := submit (submit (submit empty_pool (tx "a" 3 4)) (tx "b" 9 5)) (tx "c" 7 5).

Lemma pool_reachable : reachable pool.
Proof. unfold pool, submit. repeat (eapply rtc_r; [|apply step_add]). constructor. Qed.
Lemma pool_consistent : consistent pool.
Proof. apply reachable_ok, pool_reachable. Qed.
Lemma db_Rep : Rep db start.
Proof. apply db_with_Rep. by repeat constructor. Qed.

Lemma reachable_pools_consistent_witness : consistent pool /\ len pool <= MAX_MEMPOOL_SIZE.
Proof. apply (reachable_pools_consistent pool), pool_reachable. Defined.

Lemma add_transaction_exact_witness :
  let '(m', r) := add_transaction (tx "d" 1 6) db pool in
  (r = Ok tt <-> eligible (tx "d" 1 6) pool start /\
    (room pool \/ exists victim, lowest victim pool /\ tx_fee victim < tx_fee (tx "d" 1 6))) /\
  (r = Ok tt -> m' = insert (tx "d" 1 6) pool /\ room pool \/
    exists victim, lowest victim pool /\ tx_fee victim < tx_fee (tx "d" 1 6) /\
      m' = insert (tx "d" 1 6) (remove (tx_hash victim) pool).1) /\
  (r <> Ok tt -> m' = pool /\ exists e, r = Err e).
Proof. apply (add_transaction_exact (tx "d" 1 6) db pool start); [apply db_Rep|apply pool_consistent]. Defined.

Lemma top_by_fee_best_witness :
  let l := top_by_fee 1 pool in
  length l = Nat.min 1 (size (mp_transactions pool)) /\ NoDup (tx_hash <$> l) /\
  (forall tx, tx ∈ l -> get pool (tx_hash tx) = Some tx) /\
  StronglySorted (fun x y => tx_fee y <= tx_fee x) l /\
  (forall x h y, x ∈ l -> get pool h = Some y -> y ∉ l -> tx_fee y <= tx_fee x).
Proof. apply (top_by_fee_best 1 pool), pool_consistent. Defined.

Lemma remove_batch_exact_witness :
  let m' := remove_batch ["a"; "x"] pool in
  (forall h, get m' h = if decide (h ∈ ["a"; "x"]) then None else get pool h) /\
  (forall h tx, h ∈ ["a"; "x"] -> get pool h = Some tx -> nonce_key tx ∉ mp_pending_nonces m').
Proof. apply (remove_batch_exact ["a"; "x"] pool), pool_consistent. Defined.

(** The selection orders the two transactions of alice by fee, so the one with
    the later nonce comes first. *)
Example nonces_out_of_order : map tx_nonce (top_by_fee 10 pool) = [5; 4].
Proof. vm_compute. reflexivity. Qed.
(** Once a transaction of a sender is pending, any other nonce is admitted,
    below the one on chain as well. *)
Example nonce_gap_admitted :
  (add_transaction (tx "d" 1 100) db pool).2 = Ok tt /\ (add_transaction (tx "e" 1 0) db pool).2 = Ok tt.
Proof. vm_compute. done. Qed.
End MempoolWitness.
