(* ===== verification/Pipeline.v ===== *)
(** * From the mempool to the ledger

    How mempool/pool.rs, chain/block_producer.rs, consensus/rules.rs and
    storage/state_trie.rs fit together: transactions are admitted, selected by
    fee, put in a micro block, checked against the rules and applied, and their
    hashes are taken out of the pool. *)
From S2P Require Import Prelude Text Types Extern InMemory Hash Merkle Mining Db World AccountStore.
From S2P Require Import BlockProducer StateTrie Coinbase Rules Fees Mempool.

(** ** Transactions the ledger takes *)

(** The sender can pay and the nonce is the next one.  (The mempool does not
    look at the stake an unlock takes from, and nobody at whether another
    transaction is left after the nonce.) *)
Definition payable (w : World) (tx : Transaction) : Prop :=
  let a := account_at (tx_sender tx) w in
  Mempool.required tx <= acc_balance a /\ tx_nonce tx = acc_nonce a /\ tx_nonce tx < u64_max /\
  (tx_transaction_type tx = StakeUnlock -> tx_amount tx <= acc_staked_balance a).

Section ledger.
Context `{Build}.

(** A payment succeeds where the supply and it fit 64 bits, and takes nothing
    from anybody. *)
Lemma pay_succeeds msg addr n w :
  valid w -> 0 <= n -> supply w + n <= u64_max ->
  exists w', pay msg addr n w = (w', Ok tt) /\ valid w' /\ supply w' = supply w + n /\
    forall x, acc_balance (account_at x w) <= acc_balance (account_at x w') /\
      acc_staked_balance (account_at x w') = acc_staked_balance (account_at x w) /\
      acc_nonce (account_at x w') = acc_nonce (account_at x w).
Proof.
  intros Hw Hn Hs. destruct (account_at_valid addr w Hw) as (Haddr & Hb & Hst & Hrest).
  pose proof (holdings_le_supply addr w Hw). unfold pay, holdings, is_u64 in *. cbv zeta.
  rewrite (proj2 (Z.leb_le _ u64_max)) by lia. eexists. split; [reflexivity|].
  destruct (credit_facts addr n w) as (Hv & Hsu & Hbal & _); [done|done|lia|]. split_and!; [exact Hv|exact Hsu|].
  intros x. rewrite account_at_put. cbn. rewrite Haddr. case_decide; [subst x; cbn; lia|lia].
Qed.

(** A payable transaction is applied, and leaves the other senders at least what
    they had. *)
Lemma payable_applies tx w :
  valid w -> tx_wf tx -> supply w < u64_max -> payable w tx ->
  exists w', transition tx w = (w', Ok tt) /\ valid w' /\ supply w' <= supply w /\
    forall x, x <> tx_sender tx -> acc_balance (account_at x w) <= acc_balance (account_at x w') /\
      acc_staked_balance (account_at x w') = acc_staked_balance (account_at x w) /\
      acc_nonce (account_at x w') = acc_nonce (account_at x w).
Proof.
  intros Hw Htx Hs (Hreq & Hno & Hlt & Hst). pose proof (holdings_le_supply (tx_sender tx) w Hw) as Hhold.
  destruct (account_at_valid (tx_sender tx) w Hw) as (_ & Hb & Hst0 & Hn0 & _).
  assert (sender_error tx (account_at (tx_sender tx) w) = None) as He.
  { unfold sender_error, Mempool.required, saturating_add_u64, holdings in *.
    destruct Htx as (Ha & Hf & _). unfold is_u64 in *. rewrite Hno, Z.eqb_refl.
    destruct (tx_transaction_type tx);
      repeat match goal with |- context [?x <? ?y] => destruct (Z.ltb_spec x y) end; try done; try lia.
    - specialize (Hst eq_refl). lia. }
  unfold transition. cbv zeta. rewrite He. unfold is_u64 in Hn0. rewrite add_u64_ok by lia.
  destruct (sender_step tx (acc_nonce (account_at (tx_sender tx) w) + 1) w Hw Htx) as
    (Hw1 & _ & Hs1 & _ & Ho1 & _); [unfold is_u64; lia|done|].
  set (w1 := put_account _ w) in *. destruct Htx as (Ha & Hf & _). unfold is_u64 in Ha, Hf.
  assert (0 <= tx_fee tx / 10 <= tx_fee tx) as Hten by (split; [apply Z.div_pos; lia|apply Z.div_le_upper_bound; lia]).
  assert (exists w2, pay_receiver tx w1 = (w2, Ok tt) /\ valid w2 /\ supply w2 = supply w - tx_fee tx /\
    forall x, acc_balance (account_at x w1) <= acc_balance (account_at x w2) /\
      acc_staked_balance (account_at x w2) = acc_staked_balance (account_at x w1) /\
      acc_nonce (account_at x w2) = acc_nonce (account_at x w1)) as (w2 & Hp2 & Hw2 & Hs2 & Ho2).
  { unfold pay_receiver. destruct (is_transfer tx).
    - destruct (pay_succeeds "Receiver balance overflow" (tx_receiver tx) (tx_amount tx) w1) as (w2 & -> & ? & ? & ?);
        [done|lia|lia|]. exists w2. split_and!; [done|done|lia|done].
    - exists w1. split_and!; [done|done|lia|]. intros x. lia. }
  rewrite st_bind_run, Hp2. unfold pay_treasury. destruct (Z.ltb_spec 0 (tx_fee tx / 10)).
  - destruct (pay_succeeds "Balance overflow — this should never happen" fee_treasury (tx_fee tx / 10) w2) as
      (w3 & -> & Hw3 & Hs3 & Ho3); [done|lia|lia|]. exists w3. split_and!; [done|done|lia|].
    intros x Hx. specialize (Ho2 x). specialize (Ho3 x). rewrite (Ho1 x Hx) in Ho2. lia.
  - exists w2. split_and!; [done|done|lia|]. intros x Hx. specialize (Ho2 x). rewrite (Ho1 x Hx) in Ho2. lia.
Qed.

(** Payable transactions of different senders are applied one after the other. *)
Lemma payable_sequence txs w :
  valid w -> Forall tx_wf txs -> supply w < u64_max -> NoDup (tx_sender <$> txs) -> Forall (payable w) txs ->
  exists w', st_for txs transition w = (w', Ok tt).
Proof.
  intros Hw Htxs. revert w Hw. induction Htxs as [|tx txs Htx Htxs IH]; intros w Hw Hs Hnd Hp; [by exists w|].
  apply NoDup_cons in Hnd as [Hnin Hnd]. apply Forall_cons in Hp as [Hp Hps].
  destruct (payable_applies tx w Hw Htx Hs Hp) as (w1 & H1 & Hw1 & Hs1 & Ho).
  cbn [st_for]. rewrite st_bind_run, H1. apply IH; [done|lia|done|].
  apply Forall_forall. intros t Ht. rewrite Forall_forall in Hps. specialize (Hps t Ht).
  assert (tx_sender t <> tx_sender tx) as Hne.
  { intros He. apply Hnin. rewrite <-He. by apply list_elem_of_fmap_2. }
  destruct (Ho _ Hne) as (Hb & Hst & Hno). unfold payable in *. rewrite Hst, Hno. naive_solver lia.
Qed.
End ledger.

(** ** The pool of a list of submissions *)

(** What the submissions have to be for all of them to be admitted. *)
Record submission (w : World) (txs : list Transaction) : Prop := {
  sub_structure : Forall (fun tx => validate_structure tx = Ok tt) txs;
  sub_wf : Forall tx_wf txs;
  sub_payable : Forall (payable w) txs;
  sub_senders : NoDup (tx_sender <$> txs);
  sub_hashes : NoDup (tx_hash <$> txs);
  sub_regular : Forall (fun tx => tx_sender tx <> COINBASE_SENDER) txs;
}.

(** A pool that holds exactly the transactions of [l]. *)
Definition holds (l : list Transaction) (m : Mempool) : Prop :=
  pool_ok m /\ forall h tx, mp_transactions m !! h = Some tx <-> tx ∈ l /\ tx_hash tx = h.

Section submissions.
Context `{SledLaws} `{!Serde Account} `{!SerdeLaws Account}.

Lemma holds_length l m : NoDup l -> holds l m -> len m = Z.of_nat (length l).
Proof.
  intros Hnd [[Hm _] Hl]. unfold len. f_equal. rewrite <-length_map_to_list.
  rewrite <-(length_fmap snd (map_to_list (mp_transactions m))). apply Permutation_length.
  apply NoDup_Permutation; [|done|].
  - apply NoDup_fmap_2_strong; [|apply NoDup_map_to_list].
    intros [h1 t1] [h2 t2] H1%elem_of_map_to_list H2%elem_of_map_to_list He. cbn in He. subst t2.
    apply Hl in H1 as [_ <-], H2 as [_ <-]. done.
  - intros tx. rewrite list_elem_of_fmap. split.
    + intros ([h t] & -> & Ht%elem_of_map_to_list). by apply Hl in Ht as [? _].
    + intros Ht. exists (tx_hash tx, tx). split; [done|]. by apply elem_of_map_to_list, Hl.
Qed.

Lemma submit_one w db l tx m :
  Rep db w -> NoDup (l ++ [tx]) -> Z.of_nat (length l) < MAX_MEMPOOL_SIZE -> holds l m ->
  validate_structure tx = Ok tt -> payable w tx ->
  tx_hash tx ∉ (tx_hash <$> l) -> tx_sender tx ∉ (tx_sender <$> l) ->
  exists m', add_transaction tx db m = (m', Ok tt) /\ holds (l ++ [tx]) m'.
Proof.
  intros Hdb Hnd Hlen Hm Hs (Hreq & Hno & _) Hh Hsn. apply NoDup_app in Hnd as (Hnd & _ & _).
  pose proof (holds_length l m Hnd Hm) as Hsize. destruct Hm as [Hok Hl].
  assert (mp_transactions m !! tx_hash tx = None) as Hnew.
  { apply eq_None_not_Some. intros [t [Ht He]%Hl]. apply Hh. rewrite <-He. by apply list_elem_of_fmap_2. }
  assert (nonce_key tx ∉ mp_pending_nonces m) as Hnk.
  { intros (h & t & [Ht _]%Hl & He)%(tracked m (proj1 Hok)). apply Hsn.
    injection He as <- _. by apply list_elem_of_fmap_2. }
  destruct (add_transaction_cases tx db m w Hdb) as [[_ Hadd]|[Hn _]].
  2: { destruct Hn. split_and!; [done..|by right]. }
  rewrite Hadd. rewrite (proj2 (Z.leb_gt _ _)) by lia. eexists. split; [reflexivity|]. split.
  - pose proof (add_ok tx db m Hok) as Hok'. rewrite Hadd, (proj2 (Z.leb_gt _ _)) in Hok' by lia. exact Hok'.
  - intros h t. cbn. rewrite lookup_insert_Some, Hl, elem_of_app, list_elem_of_singleton.
    split; [|naive_solver]. naive_solver.
Qed.

Lemma submit_all w db txs l m :
  Rep db w -> NoDup (tx_hash <$> (l ++ txs)) -> NoDup (tx_sender <$> (l ++ txs)) ->
  Forall (fun tx => validate_structure tx = Ok tt) txs -> Forall (payable w) txs ->
  Z.of_nat (length (l ++ txs)) <= MAX_MEMPOOL_SIZE -> holds l m ->
  exists m', st_for txs (fun tx => add_transaction tx db) m = (m', Ok tt) /\ holds (l ++ txs) m'.
Proof.
  intros Hdb. revert l m. induction txs as [|tx txs IH]; intros l m Hh Hs Hst Hp Hlen Hm.
  { exists m. by rewrite app_nil_r. }
  apply Forall_cons in Hst as [Hst Hsts], Hp as [Hp Hps].
  assert (l ++ tx :: txs = (l ++ [tx]) ++ txs) as Happ by by rewrite <-app_assoc.
  destruct (submit_one w db l tx m) as (m1 & H1 & Hm1); [done| | |done..| | |].
  - apply (NoDup_fmap_1 tx_hash). rewrite Happ, fmap_app in Hh. by apply NoDup_app in Hh as [? _].
  - rewrite length_app in Hlen. cbn in Hlen. lia.
  - rewrite fmap_app in Hh. apply NoDup_app in Hh as (_ & Hd & _). intros Hin. apply (Hd _ Hin). left.
  - rewrite fmap_app in Hs. apply NoDup_app in Hs as (_ & Hd & _). intros Hin. apply (Hd _ Hin). left.
  - cbn [st_for]. rewrite st_bind_run, H1. rewrite Happ in *. by apply IH.
Qed.
End submissions.

(** ** The selection for a block *)

Lemma top_holds l m n :
  NoDup l -> holds l m -> (length l <= n)%nat -> top_by_fee n m ≡ₚ l.
Proof.
  intros Hnd Hm Hn. pose proof Hm as [[Hc _] Hl]. destruct (top_by_fee_selected n m Hc) as [Hkeys Hin].
  assert (length (reverse (index_keys m)) <= n)%nat as Hlen.
  { rewrite length_reverse, index_keys_length by done. pose proof (holds_length l m Hnd Hm) as Hsz. unfold len in Hsz. lia. }
  rewrite take_ge in Hkeys by done. apply NoDup_Permutation; [|done|].
  - apply (NoDup_fmap_1 fee_key). rewrite Hkeys. rewrite reverse_Permutation. apply index_keys_NoDup.
  - intros tx. split; [intros Ht; by apply Hin, Hl in Ht as [? _]|]. intros Ht.
    assert (mp_transactions m !! tx_hash tx = Some tx) as Hlk by by apply Hl.
    assert (fee_key tx ∈ fee_key <$> top_by_fee n m) as Hk.
    { rewrite Hkeys, elem_of_reverse, elem_of_index_keys, (indexed m Hc). by exists tx. }
    apply list_elem_of_fmap in Hk as (t & He & Ht'). pose proof (Hin t Ht') as Hlk'.
    injection He as _ He. rewrite <-He, Hlk in Hlk'. by injection Hlk' as ->.
Qed.

(** Removing the hashes of everything a pool holds empties it. *)
Lemma remove_all l m :
  consistent m -> (forall h, is_Some (mp_transactions m !! h) -> h ∈ l) -> mp_transactions (remove_batch l m) = ∅.
Proof.
  unfold remove_batch. revert m. induction l as [|h l IH]; intros m Hc Hm; cbn [fold_left].
  - apply map_empty. intros h. apply eq_None_not_Some. intros Hh. by apply Hm in Hh as ?%not_elem_of_nil.
  - apply IH; [by apply remove_consistent|]. intros h' [t Ht]. rewrite (proj1 (remove_transactions h m)) in Ht.
    apply lookup_delete_Some in Ht as [Hne Ht].
    assert (h' ∈ h :: l) as Hin by (apply Hm; by exists t). set_solver.
Qed.

(** Everything that was submitted is admitted and selected. *)
Lemma submissions_selected `{SledLaws} `{!Serde Account} `{!SerdeLaws Account} w db txs n :
  Rep db w -> submission w txs -> (length txs <= n)%nat -> Z.of_nat (length txs) <= MAX_MEMPOOL_SIZE ->
  exists m, st_for txs (fun tx => add_transaction tx db) empty_pool = (m, Ok tt) /\ holds txs m /\ top_by_fee n m ≡ₚ txs.
Proof.
  intros Hdb [Hst Hwf Hp Hsn Hh Hcb] Hn Hlen. pose proof (NoDup_fmap_1 _ _ Hh) as Hnd.
  destruct (submit_all w db txs [] empty_pool) as (m & Hsub & Hm); [exact Hdb|exact Hh|exact Hsn|exact Hst|exact Hp|done|..].
  { split; [by split; [apply empty_consistent|]|]. intros h tx. cbn. rewrite lookup_empty. set_solver. }
  exists m. split_and!; [done|done|by apply top_holds].
Qed.
(** What holds of the submissions holds of a selection of all of them. *)
Lemma submission_perm w txs txs' : txs' ≡ₚ txs -> submission w txs -> submission w txs'.
Proof. intros Hp [? ? ? ? ? ?]. split; by rewrite Hp. Qed.
(** Removing the hashes of the selection empties the pool. *)
Lemma selection_removed txs txs' m :
  holds txs m -> txs' ≡ₚ txs -> mp_transactions (remove_batch (map tx_hash txs') m) = ∅.
Proof.
  intros Hm Hp. apply remove_all; [apply Hm|]. intros h [tx [Htx <-]%Hm]. rewrite <-Hp in Htx.
  by apply list_elem_of_In, in_map, list_elem_of_In.
Qed.

(** ** Properties *)

(** The clocks of the miner and of the validating node, and the ranges of the
    tip. *)
Record timely (made_ms now_ms : Z) (tip : ChainTip) : Prop := {
  tip_height_range : 0 <= tip_height tip < u64_max;
  tip_epoch_range : 0 <= tip_epoch_index tip < u64_max;
  tip_time_range : is_i64 (tip_timestamp tip);
  made_range : is_i64 made_ms;
  now_range : 0 <= now_ms /\ now_ms + MAX_CLOCK_SKEW_MS <= i64_max;
  made_after : 0 < tip_timestamp tip -> tip_timestamp tip + MIN_MICRO_BLOCK_INTERVAL_MS <= made_ms;
  made_not_before : tip_timestamp tip <= made_ms;
  made_before : made_ms <= now_ms + MAX_CLOCK_SKEW_MS;
}.

Section pipeline_rules.
Context `{Build} `{Sha3} `{HexCodec}.

(** The header that is mined for a micro block. *)
Definition micro_header (made_ms : Z) (txs : list Transaction) (tip : ChainTip) : BlockHeader :=
  new_header made_ms (tip_height tip + 1) (tip_hash tip) (compute_merkle_root (map tx_hash txs))
    (tip_difficulty tip) false (tip_epoch_index tip).
Definition unsolved (header : BlockHeader) (max_attempts : Z) : Prop :=
  forall n, 0 <= n < max_attempts -> meets_difficulty (hash_header header n) (hdr_difficulty header) = false.

(** The producer answers a block unless no attempt solves the header. *)
Lemma micro_block_produced made_ms txs tip miner max_attempts :
  0 <= tip_height tip < u64_max -> 0 <= max_attempts ->
  match produce_micro_block made_ms txs tip miner max_attempts with
  | Ok _ => True
  | Err e => e = MiningFailed /\ unsolved (micro_header made_ms txs tip) max_attempts
  | Panic => False
  end.
Proof.
  intros Hh Hmax. unfold produce_micro_block. rewrite add_u64_ok by lia. cbn [mbind res_bind].
  fold (micro_header made_ms txs tip).
  destruct (finish_block_total (micro_header made_ms txs tip) (map tx_hash txs) miner 0 max_attempts) as [[b Hb]|Hf];
    [by rewrite Hb|]. rewrite Hf. split; [done|].
  exact (finish_block_failed _ _ _ _ _ Hmax Hf).
Qed.

(** The block is sealed and carries that header but for the nonce. *)
Lemma micro_block_shape made_ms txs tip miner max_attempts block :
  0 <= tip_height tip < u64_max -> 0 <= max_attempts ->
  produce_micro_block made_ms txs tip miner max_attempts = Ok block ->
  sealed block /\ blk_header block = set_hdr_nonce (hdr_nonce (blk_header block)) (micro_header made_ms txs tip) /\ blk_transaction_hashes block = map tx_hash txs.
Proof.
  intros Hh Hmax. unfold produce_micro_block. rewrite add_u64_ok by lia. cbn [mbind res_bind]. intros Hf.
  by apply finish_block_inv in Hf as (Hs & _ & Heq & Htx & _).
Qed.

(** A micro block mined in time from payable transactions passes the rules. *)
Lemma produced_acceptable made_ms now_ms w txs tip miner max_attempts block :
  timely made_ms now_ms tip -> 0 <= max_attempts ->
  Z.of_nat (length txs) <= MAX_TRANSACTIONS_PER_MICRO_BLOCK -> NoDup (tx_hash <$> txs) ->
  Forall (payable w) txs -> Forall (fun tx => tx_sender tx <> COINBASE_SENDER) txs ->
  produce_micro_block made_ms txs tip miner max_attempts = Ok block ->
  rules_wf now_ms block tip /\ acceptable now_ms block txs tip w /\ blk_transaction_hashes block = map tx_hash txs.
Proof.
  intros [Hh He Ht Hm Hn Ha Hab Hb] Hmax Hlen Hnd Hp Hcb Hf.
  apply micro_block_shape in Hf as (Hs & Heq & Htx); [|done..].
  unfold rules_wf, acceptable, min_interval. rewrite Heq. cbn [micro_header hdr_index hdr_timestamp hdr_previous_hash
    hdr_is_epoch_block hdr_merkle_root set_hdr_nonce new_header].
  split; [split_and!; first [done|lia|apply Hn]|]. split; [|done]. rewrite decide_False by lia.
  assert (regular txs = txs) as Hreg.
  { unfold regular. clear -Hcb. induction Hcb as [|tx l Hc _ IH]; [done|]. by rewrite filter_cons, decide_True, IH. }
  split_and!; try done; try lia.
  - rewrite Forall_forall in Hcb. exact Hcb.
  - unfold transactions_ok. rewrite Hreg. split; [done|]. eapply Forall_impl; [exact Hp|].
    intros tx (Hreq & Hno & _). unfold affordable, account_at in *.
    destruct (w_accounts w !! tx_sender tx) as [a|]; [|done]. by split.
Qed.
End pipeline_rules.

Section pipeline_properties.
Context `{Build} `{Sha3} `{HexCodec} `{SledLaws} `{!Serde Account} `{!SerdeLaws Account}.

(** What the transactions of a submission meet at a node with the same accounts,
    the one that mined the block or any other: its rules and its ledger take
    them. *)
Lemma submission_accepted made_ms now_ms w txs tip miner max_attempts block db' w' :
  supply w < u64_max -> submission w txs -> Z.of_nat (length txs) <= MAX_TRANSACTIONS_PER_MICRO_BLOCK ->
  timely made_ms now_ms tip -> 0 <= max_attempts ->
  produce_micro_block made_ms txs tip miner max_attempts = Ok block ->
  Rep db' w' -> w_accounts w' = w_accounts w ->
  let '(db1, verdict) := validate_block_rules now_ms block txs tip db' in
  verdict = Ok tt /\ (st_for txs apply_transaction db1).2 = Ok tt.
Proof.
  intros Hs [_ Hwf Hp Hsn Hh Hcb] Hlen Ht Hmax Hblock Hdb' Hacc.
  assert (Forall (payable w') txs) as Hp'.
  { eapply Forall_impl; [exact Hp|]. intros t. unfold payable, account_at. by rewrite Hacc. }
  destruct (produced_acceptable made_ms now_ms w' txs tip miner max_attempts block Ht Hmax Hlen Hh Hp' Hcb Hblock) as
    (Hrules & Hok & _).
  destruct (validate_block_rules_judges now_ms block txs tip w' Hrules db' Hdb') as (w1 & Hdb1 & -> & _ & Hv).
  destruct (validate_block_rules now_ms block txs tip db') as [db1 verdict]. cbn [fst snd] in *.
  split; [by apply Hv|].
  destruct (payable_sequence txs w' (Rep_valid _ _ Hdb') Hwf) as [w2 Hw2]; [unfold supply in *; by rewrite Hacc|done|done|].
  assert (refines (st_for txs apply_transaction) (st_for txs transition)) as Href.
  { apply refines_for. rewrite Forall_forall in Hwf. auto using apply_transaction_refines. }
  destruct (Href w' db1 Hdb1) as (w3 & _ & He). congruence.
Qed.

(** C4: up to a thousand transactions that pass the pool's structural check, of
    different senders and hashes, none in the coinbase's name, each of which
    can pay and names its account's nonce, all get into the ledger while the
    supply leaves room in 64 bits.  An empty pool admits them and selects
    exactly them.  Either none of the attempts solves the header of a micro
    block of the selection, and mining fails, or that block, made when the
    minimum interval after the tip is over, passes the validation and the rules
    of every node with the same tip and accounts whose clock is at most two
    minutes behind; there its transactions are all applied, and taking its
    hashes out leaves the pool empty. *)
Theorem pending_to_ledger made_ms now_ms w db txs tip miner max_attempts :
  Rep db w -> supply w < u64_max -> submission w txs ->
  Z.of_nat (length txs) <= MAX_TRANSACTIONS_PER_MICRO_BLOCK ->
  timely made_ms now_ms tip -> 0 <= max_attempts ->
  let '(m, admitted) := st_for txs (fun tx => add_transaction tx db) empty_pool in
  let selection := top_by_fee (Z.to_nat MAX_TRANSACTIONS_PER_MICRO_BLOCK) m in
  admitted = Ok tt /\ selection ≡ₚ txs /\
  match produce_micro_block made_ms selection tip miner max_attempts with
  | Ok block =>
    validate_block now_ms block tip selection = Ok tt /\
    (forall db' w', Rep db' w' -> w_accounts w' = w_accounts w ->
      let '(db1, verdict) := validate_block_rules now_ms block selection tip db' in
      verdict = Ok tt /\ (st_for selection apply_transaction db1).2 = Ok tt) /\
    mp_transactions (remove_batch (blk_transaction_hashes block) m) = ∅
  | Err e => e = MiningFailed /\ unsolved (micro_header made_ms selection tip) max_attempts
  | Panic => False
  end.
Proof.
  intros Hdb Hs Hsub Hlen Ht Hmax.
  destruct (submissions_selected w db txs (Z.to_nat MAX_TRANSACTIONS_PER_MICRO_BLOCK) Hdb Hsub) as (m & -> & Hm & Hl);
    [unfold MAX_MEMPOOL_SIZE, MAX_TRANSACTIONS_PER_MICRO_BLOCK in *; lia..|].
  set (l := top_by_fee _ m) in *. split; [done|]. split; [done|].
  pose proof (micro_block_produced made_ms l tip miner max_attempts (tip_height_range _ _ _ Ht) Hmax) as Hb.
  destruct (produce_micro_block made_ms l tip miner max_attempts) as [block|e|] eqn:Hblock; [|done..]. clear Hb.
  pose proof Ht as [Hh He Hti Hm' Hn Ha Hab Hbef]. split_and!.
  - unfold is_i64, MAX_CLOCK_SKEW_MS, i64_min in *.
    apply (micro_block_accepted made_ms now_ms l tip miner max_attempts block); unfold is_u64, is_i64, i64_min; try done; lia.
  - intros db' w' Hdb' Hacc. eapply submission_accepted; [done|by eapply submission_perm|by rewrite Hl|done..].
  - apply micro_block_shape in Hblock as (_ & _ & ->); [|done..]. by apply (selection_removed txs).
Qed.
End pipeline_properties.

Module PipelineWitness.
Import Mem MemWorld.

Definition pay_tx (hash sender : string) (amount fee : Z) : Transaction :=
  mkTransaction hash sender "shop" amount fee 0 "sig" 1000 Transfer "".
Definition accounts_there : list Account := [funded "alice" 900 0 0; funded "carol" 500 0 0].
Definition start : World := world_with accounts_there.
Definition submitted : list Transaction := [pay_tx "h1" "alice" 5 1; pay_tx "h2" "carol" 500 0].

Lemma submitted_ok : submission start submitted.
Proof.
  split.
  - repeat constructor.
  - repeat constructor; concrete.
  - repeat constructor; vm_compute; done.
  - apply (bool_decide_unpack _). vm_compute. exact I.
  - apply (bool_decide_unpack _). vm_compute. exact I.
  - repeat (constructor; [discriminate|]). constructor.
Qed.
Lemma start_timely : timely 1000 2000 genesis_tip.
Proof. split; concrete. Qed.

Lemma pending_to_ledger_witness :
  let '(m, admitted) := st_for submitted (fun tx => add_transaction tx (db_with accounts_there)) empty_pool in
  let selection := top_by_fee (Z.to_nat MAX_TRANSACTIONS_PER_MICRO_BLOCK) m in
  admitted = Ok tt /\ selection ≡ₚ submitted /\
  match produce_micro_block 1000 selection genesis_tip "miner" 1000 with
  | Ok block =>
    validate_block 2000 block genesis_tip selection = Ok tt /\
    (forall db' w', Rep db' w' -> w_accounts w' = w_accounts start ->
      let '(db1, verdict) := validate_block_rules 2000 block selection genesis_tip db' in
      verdict = Ok tt /\ (st_for selection apply_transaction db1).2 = Ok tt) /\
    mp_transactions (remove_batch (blk_transaction_hashes block) m) = ∅
  | Err e => e = MiningFailed /\ unsolved (micro_header 1000 selection genesis_tip) 1000
  | Panic => False
  end.
Proof.
  apply (pending_to_ledger 1000 2000 start (db_with accounts_there) submitted genesis_tip "miner" 1000);
    [apply db_with_Rep; repeat constructor; concrete|concrete|apply submitted_ok|concrete|apply start_timely|done].
Defined.
Example block_mined : is_ok (produce_micro_block 1000 submitted genesis_tip "miner" 1000) = true.
Proof. vm_compute. reflexivity. Qed.

(** A call of a contract in the name of the coinbase address, without a fee, is
    admitted on any database, and no micro block that contains it passes the
    rules. *)
Definition poison : Transaction :=
  mkTransaction "h3" COINBASE_SENDER "shop" 0 0 0 "sig" 1000 ContractCall "".
Example poison_admitted :
  let '(m, r) := st_for [poison] (fun tx => add_transaction tx mem_db) empty_pool in
  r = Ok tt /\ top_by_fee 1000 m = [poison] /\
  match produce_micro_block 1000 [poison] genesis_tip "miner" 1000 with
  | Ok block => (validate_block_rules 2000 block [poison] genesis_tip mem_db).2 = Err Violation.UnexpectedCoinbase
  | _ => False
  end.
Proof. vm_compute. done. Qed.
(** The pool admits transactions below the minimum fee of their type. *)
Example no_fee_admitted :
  let tx := pay_tx "h2" "carol" 500 0 in
  (st_for [tx] (fun tx => add_transaction tx (db_with accounts_there)) empty_pool).2 = Ok tt /\ fee_is_sufficient tx = false.
Proof. vm_compute. done. Qed.
End PipelineWitness.
