(* ===== verification/Crypto.v ===== *)
(** * The cryptographic layer (src/crypto/)

    The wrappers of [crypto/dilithium.rs], [crypto/kyber.rs] and
    [crypto/sphincs.rs] around the pqcrypto crates, and the identity and
    signature functions of [crypto/mod.rs].  The schemes themselves are
    parameters; a call that draws randomness takes it as an argument. *)
From S2P Require Import Prelude Text Extern InMemory Hash.

(** ** The pqcrypto crates *)

(** A signature scheme: pqcrypto_dilithium::dilithium3 or
    pqcrypto_sphincsplus::sphincssha2128fsimple. *)
Record SignScheme := mkSignScheme {
  sign_entropy : Type;
  sign_pk : Type;
  sign_sk : Type;
  sign_sig : Type;
  keypair : sign_entropy -> sign_pk * sign_sk;
  detached_sign : sign_entropy -> string -> sign_sk -> sign_sig;
  verify_detached_signature : sign_sig -> string -> sign_pk -> bool;
  pk_as_bytes : sign_pk -> string;
  pk_from_bytes : string -> res string sign_pk;
  sk_as_bytes : sign_sk -> string;
  sk_from_bytes : string -> res string sign_sk;
  sig_as_bytes : sign_sig -> string;
  sig_from_bytes : string -> res string sign_sig;
}.
Record SignLaws (S : SignScheme) : Prop := {
  pk_bytes_roundtrip pk : pk_from_bytes S (pk_as_bytes S pk) = Ok pk;
  sk_bytes_roundtrip sk : sk_from_bytes S (sk_as_bytes S sk) = Ok sk;
  sig_bytes_roundtrip sig : sig_from_bytes S (sig_as_bytes S sig) = Ok sig;
  sig_bytes_nonempty sig : sig_as_bytes S sig <> "";
  signature_verifies e e' m :
    verify_detached_signature S (detached_sign S e' m (keypair S e).2) m (keypair S e).1 = true;
}.

(** pqcrypto_kyber::kyber768. *)
Record Kem := mkKem {
  kem_entropy : Type;
  kem_pk : Type;
  kem_sk : Type;
  kem_ct : Type;
  kem_ss : Type;
  kem_keypair : kem_entropy -> kem_pk * kem_sk;
  kem_encapsulate : kem_entropy -> kem_pk -> kem_ss * kem_ct;
  kem_decapsulate : kem_ct -> kem_sk -> kem_ss;
  kem_pk_as_bytes : kem_pk -> string;
  kem_pk_from_bytes : string -> res string kem_pk;
  kem_sk_as_bytes : kem_sk -> string;
  kem_sk_from_bytes : string -> res string kem_sk;
  kem_ct_as_bytes : kem_ct -> string;
  kem_ct_from_bytes : string -> res string kem_ct;
  kem_ss_as_bytes : kem_ss -> string;
}.
Record KemLaws (K : Kem) : Prop := {
  kem_pk_roundtrip pk : kem_pk_from_bytes K (kem_pk_as_bytes K pk) = Ok pk;
  kem_sk_roundtrip sk : kem_sk_from_bytes K (kem_sk_as_bytes K sk) = Ok sk;
  kem_ct_roundtrip ct : kem_ct_from_bytes K (kem_ct_as_bytes K ct) = Ok ct;
  kem_agrees e e' :
    kem_decapsulate K (kem_encapsulate K e' (kem_keypair K e).1).2 (kem_keypair K e).2 =
    (kem_encapsulate K e' (kem_keypair K e).1).1;
}.

Class PqCrypto := {
  dilithium3 : SignScheme;
  sphincs : SignScheme;
  kyber768 : Kem;
}.
Class PqLaws `{PqCrypto} : Prop := {
  dilithium3_laws : SignLaws dilithium3;
  sphincs_laws : SignLaws sphincs;
  kyber768_laws : KemLaws kyber768;
}.

(** ** crypto/dilithium.rs *)

Module Dilithium.
Record KyveraKeyPair := mkKyveraKeyPair { public_key : string; secret_key : string }.
Record KyveraSignature := mkKyveraSignature { signature_bytes : string }.

Section dilithium.
Context `{PqCrypto} `{Sha3} `{HexCodec}.

Definition generate (e : sign_entropy dilithium3) : KyveraKeyPair :=
  let '(pk, sk) := keypair dilithium3 e in
  mkKyveraKeyPair (pk_as_bytes dilithium3 pk) (sk_as_bytes dilithium3 sk).
Definition address (kp : KyveraKeyPair) : string :=
  "kyv1" +:+ hex_encode (sha3_256_digest (public_key kp)).
Definition sign (e : sign_entropy dilithium3) (kp : KyveraKeyPair) (message : string)
    : res string KyveraSignature :=
  sk ← map_err (fun e => "Failed to load secret key: " +:+ e) (sk_from_bytes dilithium3 (secret_key kp));
  let sig := detached_sign dilithium3 e message sk in
  Ok (mkKyveraSignature (sig_as_bytes dilithium3 sig)).
Definition public_key_hex (kp : KyveraKeyPair) : string := hex_encode (public_key kp).
Definition verify (s : KyveraSignature) (message public_key_hex : string) : bool :=
  match hex_decode public_key_hex with
  | Ok pk_bytes =>
    match pk_from_bytes dilithium3 pk_bytes, sig_from_bytes dilithium3 (signature_bytes s) with
    | Ok pk, Ok sig => verify_detached_signature dilithium3 sig message pk
    | _, _ => false
    end
  | _ => false
  end.
Definition to_hex (s : KyveraSignature) : string := hex_encode (signature_bytes s).
Definition from_hex (hex_str : string) : res string KyveraSignature :=
  bytes ← map_err (fun e => "Failed to decode signature hex: " +:+ e) (hex_decode hex_str);
  Ok (mkKyveraSignature bytes).
End dilithium.
End Dilithium.

(** ** crypto/sphincs.rs *)

Module Sphincs.
Record SphincsKeyPair := mkSphincsKeyPair { public_key : string; secret_key : string }.
Record SphincsSignature := mkSphincsSignature { signature_bytes : string }.

Section sphincs.
Context `{PqCrypto} `{HexCodec}.

Definition generate (e : sign_entropy sphincs) : SphincsKeyPair :=
  let '(pk, sk) := keypair sphincs e in mkSphincsKeyPair (pk_as_bytes sphincs pk) (sk_as_bytes sphincs sk).
Definition sign (e : sign_entropy sphincs) (kp : SphincsKeyPair) (message : string)
    : res string SphincsSignature :=
  sk ← map_err (fun e => "Failed to load SPHINCS+ secret key: " +:+ e) (sk_from_bytes sphincs (secret_key kp));
  let sig := detached_sign sphincs e message sk in
  Ok (mkSphincsSignature (sig_as_bytes sphincs sig)).
Definition public_key_hex (kp : SphincsKeyPair) : string := hex_encode (public_key kp).
Definition verify (s : SphincsSignature) (message public_key_hex : string) : bool :=
  match hex_decode public_key_hex with
  | Ok pk_bytes =>
    match pk_from_bytes sphincs pk_bytes, sig_from_bytes sphincs (signature_bytes s) with
    | Ok pk, Ok sig => verify_detached_signature sphincs sig message pk
    | _, _ => false
    end
  | _ => false
  end.
Definition to_hex (s : SphincsSignature) : string := hex_encode (signature_bytes s).
Definition from_hex (hex_str : string) : res string SphincsSignature :=
  bytes ← map_err (fun e => "Failed to decode SPHINCS+ signature hex: " +:+ e) (hex_decode hex_str);
  Ok (mkSphincsSignature bytes).
End sphincs.
End Sphincs.

(** ** crypto/kyber.rs *)

Module Kyber.
Record KyberKeyPair := mkKyberKeyPair { public_key : string; secret_key : string }.
Record KyberEncapsulation := mkKyberEncapsulation { ciphertext : string; shared_secret : string }.

Section kyber.
Context `{PqCrypto} `{HexCodec}.

Definition generate (e : kem_entropy kyber768) : KyberKeyPair :=
  let '(pk, sk) := kem_keypair kyber768 e in
  mkKyberKeyPair (kem_pk_as_bytes kyber768 pk) (kem_sk_as_bytes kyber768 sk).
Definition encapsulate (e : kem_entropy kyber768) (public_key_hex : string)
    : res string KyberEncapsulation :=
  pk_bytes ← map_err (fun e => "Failed to decode public key: " +:+ e) (hex_decode public_key_hex);
  pk ← map_err (fun e => "Invalid Kyber public key: " +:+ e) (kem_pk_from_bytes kyber768 pk_bytes);
  let '(shared_secret, ciphertext) := kem_encapsulate kyber768 e pk in
  Ok (mkKyberEncapsulation (kem_ct_as_bytes kyber768 ciphertext) (kem_ss_as_bytes kyber768 shared_secret)).
Definition decapsulate (kp : KyberKeyPair) (ciphertext_hex : string) : res string string :=
  sk ← map_err (fun e => "Failed to load secret key: " +:+ e) (kem_sk_from_bytes kyber768 (secret_key kp));
  ct_bytes ← map_err (fun e => "Failed to decode ciphertext: " +:+ e) (hex_decode ciphertext_hex);
  ct ← map_err (fun e => "Invalid ciphertext: " +:+ e) (kem_ct_from_bytes kyber768 ct_bytes);
  Ok (kem_ss_as_bytes kyber768 (kem_decapsulate kyber768 ct sk)).
Definition public_key_hex (kp : KyberKeyPair) : string := hex_encode (public_key kp).
Definition ciphertext_hex (x : KyberEncapsulation) : string := hex_encode (ciphertext x).
Definition shared_secret_hex (x : KyberEncapsulation) : string := hex_encode (shared_secret x).
End kyber.
End Kyber.

(** ** crypto/mod.rs *)

Record KyveraIdentity := mkKyveraIdentity {
  id_signing_keypair : Dilithium.KyveraKeyPair;
  id_network_keypair : Kyber.KyberKeyPair;
  id_epoch_keypair : Sphincs.SphincsKeyPair;
  id_address : string;
}.
Record TransactionNonce := mkTransactionNonce {
  tn_account_nonce : Z;
  tn_timestamp_ms : Z;
  tn_chain_state_hash : string;
}.
(** [TransactionNonce::new] reads the clock. *)
Definition new_transaction_nonce (now_ms account_nonce : Z) (chain_state_hash : string) : TransactionNonce :=
  mkTransactionNonce account_nonce now_ms chain_state_hash.

(** The bytes [bind_message_to_nonce] feeds to the hasher. *)
Definition binding (message : string) (nonce : TransactionNonce) : string :=
  message +:+ u64_to_le_bytes (tn_account_nonce nonce) +:+ i64_to_le_bytes (tn_timestamp_ms nonce)
    +:+ tn_chain_state_hash nonce.

Section identity.
Context `{PqCrypto} `{Sha3} `{HexCodec}.

(** The three key pairs draw their randomness one after the other. *)
Definition generate_identity (e1 : sign_entropy dilithium3) (e2 : kem_entropy kyber768)
    (e3 : sign_entropy sphincs) : KyveraIdentity :=
  let signing_keypair := Dilithium.generate e1 in
  let address := Dilithium.address signing_keypair in
  mkKyveraIdentity signing_keypair (Kyber.generate e2) (Sphincs.generate e3) address.

Definition bind_message_to_nonce (message : string) (nonce : TransactionNonce) : string :=
  sha3_256_digest (binding message nonce).
Definition sign_transaction (e : sign_entropy dilithium3) (id : KyveraIdentity) (transaction_bytes : string)
    (nonce : TransactionNonce) : res string Dilithium.KyveraSignature :=
  let bound_message := bind_message_to_nonce transaction_bytes nonce in
  Dilithium.sign e (id_signing_keypair id) bound_message.
Definition sign_epoch_block (e : sign_entropy sphincs) (id : KyveraIdentity) (header_bytes : string)
    : res string Sphincs.SphincsSignature :=
  Sphincs.sign e (id_epoch_keypair id) header_bytes.
Definition initiate_session (e : kem_entropy kyber768) (peer_public_key_hex : string)
    : res string Kyber.KyberEncapsulation :=
  Kyber.encapsulate e peer_public_key_hex.
Definition accept_session (id : KyveraIdentity) (ciphertext_hex : string) : res string string :=
  Kyber.decapsulate (id_network_keypair id) ciphertext_hex.

Definition verify_transaction_signature (transaction_bytes : string) (nonce : TransactionNonce)
    (signature_hex public_key_hex : string) : bool :=
  let bound_message := bind_message_to_nonce transaction_bytes nonce in
  match Dilithium.from_hex signature_hex with
  | Ok sig => Dilithium.verify sig bound_message public_key_hex
  | _ => false
  end.
Definition verify_epoch_block_signature (header_bytes signature_hex public_key_hex : string) : bool :=
  match Sphincs.from_hex signature_hex with
  | Ok sig => Sphincs.verify sig header_bytes public_key_hex
  | _ => false
  end.
Definition sha3_256 (input : string) : string := hex_encode (sha3_256_digest input).
End identity.

(** ** Facts *)

Lemma le_bytes_length w n : String.length (le_bytes w n) = w.
Proof. revert n. induction w as [|w IH]; intros n; cbn; by rewrite ?IH. Qed.
Lemma le_bytes_inj w a b : le_bytes w a = le_bytes w b -> a mod 256 ^ Z.of_nat w = b mod 256 ^ Z.of_nat w.
Proof.
  revert a b. induction w as [|w IH]; intros a b; cbn [le_bytes]; [by rewrite !Z.mod_1_r|].
  intros [= Hc Hr]. apply of_byte_inj in Hc; [|by apply Z.mod_pos_bound..]. apply IH in Hr.
  rewrite Nat2Z.inj_succ, Z.pow_succ_r, !Z.rem_mul_r by lia. by rewrite Hc, Hr.
Qed.
Lemma u64_to_le_bytes_inj a b : is_u64 a -> is_u64 b -> u64_to_le_bytes a = u64_to_le_bytes b -> a = b.
Proof.
  unfold is_u64, u64_max. intros Ha Hb He. apply le_bytes_inj in He.
  change (256 ^ Z.of_nat 8) with 18446744073709551616 in He. by rewrite !Z.mod_small in He by lia.
Qed.
Lemma i64_to_le_bytes_inj a b : is_i64 a -> is_i64 b -> i64_to_le_bytes a = i64_to_le_bytes b -> a = b.
Proof.
  unfold is_i64, i64_min, i64_max, i64_to_le_bytes. change (u64_max + 1) with (2 ^ 64). intros Ha Hb He.
  pose proof (Z.mod_pos_bound a (2 ^ 64)). pose proof (Z.mod_pos_bound b (2 ^ 64)).
  apply u64_to_le_bytes_inj in He; [|unfold is_u64, u64_max; lia..]. Z.div_mod_to_equations. lia.
Qed.

Definition nonce_wf (n : TransactionNonce) : Prop := is_u64 (tn_account_nonce n) /\ is_i64 (tn_timestamp_ms n).

(** The text that is hashed determines the message and the nonce, among nonces
    with state hashes of one length. *)
Lemma binding_inj m1 n1 m2 n2 :
  nonce_wf n1 -> nonce_wf n2 ->
  String.length (tn_chain_state_hash n1) = String.length (tn_chain_state_hash n2) ->
  binding m1 n1 = binding m2 n2 -> m1 = m2 /\ n1 = n2.
Proof.
  intros [Ha1 Ht1] [Ha2 Ht2] Hl He. unfold binding in He.
  assert (String.length m1 = String.length m2) as Hm.
  { apply (f_equal String.length) in He. rewrite !str_length_app in He.
    unfold i64_to_le_bytes, u64_to_le_bytes in He. rewrite !le_bytes_length in He. lia. }
  apply str_app_inj in He as [-> He]; [|done].
  apply str_app_inj in He as [Ha He]; [|unfold u64_to_le_bytes; by rewrite !le_bytes_length].
  apply str_app_inj in He as [Ht Hh]; [|unfold i64_to_le_bytes; by rewrite !le_bytes_length].
  apply u64_to_le_bytes_inj in Ha; [|done..]. apply i64_to_le_bytes_inj in Ht; [|done..].
  split; [done|]. destruct n1, n2; cbn in *. by subst.
Qed.

Section signing.
Context `{PqLaws} `{Sha3} `{HexLaws}.

(** What a generated key signs, it verifies, through the hexadecimal forms. *)
Lemma dilithium_sign_verify e e' m :
  exists sig, Dilithium.sign e' (Dilithium.generate e) m = Ok sig /\
    Dilithium.from_hex (Dilithium.to_hex sig) = Ok sig /\
    Dilithium.verify sig m (Dilithium.public_key_hex (Dilithium.generate e)) = true.
Proof.
  destruct dilithium3_laws as [Hpk Hsk Hsig _ Hv]. specialize (Hv e e' m).
  unfold Dilithium.sign, Dilithium.generate, Dilithium.from_hex, Dilithium.to_hex, Dilithium.verify,
    Dilithium.public_key_hex.
  destruct (keypair dilithium3 e) as [pk sk]. cbn in *. rewrite Hsk. cbn. eexists. split; [done|].
  cbn. rewrite !hex_decode_encode, Hpk, Hsig. done.
Qed.
Lemma sphincs_sign_verify e e' m :
  exists sig, Sphincs.sign e' (Sphincs.generate e) m = Ok sig /\
    Sphincs.from_hex (Sphincs.to_hex sig) = Ok sig /\
    Sphincs.verify sig m (Sphincs.public_key_hex (Sphincs.generate e)) = true.
Proof.
  destruct sphincs_laws as [Hpk Hsk Hsig _ Hv]. specialize (Hv e e' m).
  unfold Sphincs.sign, Sphincs.generate, Sphincs.from_hex, Sphincs.to_hex, Sphincs.verify,
    Sphincs.public_key_hex.
  destruct (keypair sphincs e) as [pk sk]. cbn in *. rewrite Hsk. cbn. eexists. split; [done|].
  cbn. rewrite !hex_decode_encode, Hpk, Hsig. done.
Qed.
Lemma bound_signature_verifies e e' bytes nonce :
  exists sig, Dilithium.sign e' (Dilithium.generate e) (bind_message_to_nonce bytes nonce) = Ok sig /\
    verify_transaction_signature bytes nonce (Dilithium.to_hex sig)
      (Dilithium.public_key_hex (Dilithium.generate e)) = true.
Proof.
  destruct (dilithium_sign_verify e e' (bind_message_to_nonce bytes nonce)) as (sig & Hs & Hf & Hv).
  exists sig. split; [done|]. unfold verify_transaction_signature. by rewrite Hf.
Qed.
End signing.

(** ** Properties *)

Section crypto_properties.
Context `{PqLaws} `{Sha3} `{HexLaws}.

(** An identity that was generated works with the hexadecimal forms it
    publishes: its transaction signatures verify under the nonce they were
    made for, its epoch signatures verify, and a session initiated with its
    network key ends in the same secret on both sides. *)
Theorem identity_roundtrips e1 e2 e3 s1 s2 s3 bytes nonce :
  let id := generate_identity e1 e2 e3 in
  (exists sig, sign_transaction s1 id bytes nonce = Ok sig /\
    verify_transaction_signature bytes nonce (Dilithium.to_hex sig)
      (Dilithium.public_key_hex (id_signing_keypair id)) = true) /\
  (exists sig, sign_epoch_block s2 id bytes = Ok sig /\
    verify_epoch_block_signature bytes (Sphincs.to_hex sig)
      (Sphincs.public_key_hex (id_epoch_keypair id)) = true) /\
  (exists x, initiate_session s3 (Kyber.public_key_hex (id_network_keypair id)) = Ok x /\
    accept_session id (Kyber.ciphertext_hex x) = Ok (Kyber.shared_secret x)).
Proof.
  intros id. split_and!.
  - apply bound_signature_verifies.
  - destruct (sphincs_sign_verify e3 s2 bytes) as (sig & Hs & Hf & Hv). exists sig. split; [done|].
    unfold verify_epoch_block_signature. by rewrite Hf.
  - destruct kyber768_laws as [Hpk Hsk Hct Hss]. specialize (Hss e2 s3).
    unfold initiate_session, accept_session, Kyber.encapsulate, Kyber.decapsulate, Kyber.public_key_hex,
      Kyber.ciphertext_hex, id, generate_identity, Kyber.generate.
    destruct (kem_keypair kyber768 e2) as [pk sk]. cbn in *. rewrite hex_decode_encode. cbn.
    rewrite Hpk. cbn. destruct (kem_encapsulate kyber768 s3 pk) as [ss ct]. eexists. split; [done|]. cbn in *.
    rewrite Hsk. cbn. rewrite hex_decode_encode. cbn. rewrite Hct. cbn. by rewrite Hss.
Qed.

(** A signature is bound to its message, account nonce, timestamp and chain
    state: two that are made over the same bound message agree in all four, or
    the two texts that were hashed are a collision of the digest (state hashes
    of one length). *)
Theorem bound_message_binds m1 n1 m2 n2 :
  nonce_wf n1 -> nonce_wf n2 ->
  String.length (tn_chain_state_hash n1) = String.length (tn_chain_state_hash n2) ->
  bind_message_to_nonce m1 n1 = bind_message_to_nonce m2 n2 ->
  (m1 = m2 /\ n1 = n2) \/
  (binding m1 n1 <> binding m2 n2 /\ sha3_256_digest (binding m1 n1) = sha3_256_digest (binding m2 n2)).
Proof.
  intros Hn1 Hn2 Hl He. destruct (decide (binding m1 n1 = binding m2 n2)) as [Hb|Hb]; [left|by right].
  by apply binding_inj.
Qed.
End crypto_properties.

(** ** Toy schemes

    The keys are the entropy, a signature is the key followed by the message,
    and a ciphertext is the secret. *)
Module MemPq.
Import Mem.

Definition toy_sign : SignScheme := {|
  sign_entropy := string; sign_pk := string; sign_sk := string; sign_sig := string;
  keypair e := (e, e); detached_sign _ m sk := sk +:+ m;
  verify_detached_signature sig m pk := String.eqb sig (pk +:+ m);
  pk_as_bytes x := x; pk_from_bytes := Ok; sk_as_bytes x := x; sk_from_bytes := Ok;
  sig_as_bytes x := "s" +:+ x; sig_from_bytes s := Ok (str_drop 1 s) |}.
Definition toy_kem : Kem := {|
  kem_entropy := string; kem_pk := string; kem_sk := string; kem_ct := string; kem_ss := string;
  kem_keypair e := (e, e); kem_encapsulate e pk := (e, e); kem_decapsulate ct sk := ct;
  kem_pk_as_bytes x := x; kem_pk_from_bytes := Ok; kem_sk_as_bytes x := x; kem_sk_from_bytes := Ok;
  kem_ct_as_bytes x := x; kem_ct_from_bytes := Ok; kem_ss_as_bytes x := x |}.
#[export] Instance mem_pq : PqCrypto := {| dilithium3 := toy_sign; sphincs := toy_sign; kyber768 := toy_kem |}.
#[export] Instance mem_pq_laws : PqLaws.
Proof.
  split; cbn; [split; cbn; try done; intros; apply String.eqb_refl..|by split].
Qed.
End MemPq.

Module CryptoWitness.
Import Mem MemPq.

Definition k1 : sign_entropy dilithium3 := "k1".
Definition k2 : kem_entropy kyber768 := "k2".
Definition k3 : sign_entropy sphincs := "k3".
Definition nonce : TransactionNonce := new_transaction_nonce 1000 7 "state".
Lemma identity_roundtrips_witness :
  let id := generate_identity k1 k2 k3 in
  (exists sig, sign_transaction k1 id "tx" nonce = Ok sig /\
    verify_transaction_signature "tx" nonce (Dilithium.to_hex sig)
      (Dilithium.public_key_hex (id_signing_keypair id)) = true) /\
  (exists sig, sign_epoch_block k3 id "tx" = Ok sig /\
    verify_epoch_block_signature "tx" (Sphincs.to_hex sig)
      (Sphincs.public_key_hex (id_epoch_keypair id)) = true) /\
  (exists x, initiate_session k2 (Kyber.public_key_hex (id_network_keypair id)) = Ok x /\
    accept_session id (Kyber.ciphertext_hex x) = Ok (Kyber.shared_secret x)).
Proof. apply (identity_roundtrips k1 k2 k3 k1 k3 k2). Defined.
(** Under another account nonce the signature is refused. *)
Example stale_nonce_refused :
  match sign_transaction k1 (generate_identity k1 k2 k3) "tx" nonce with
  | Ok sig => verify_transaction_signature "tx" (new_transaction_nonce 1000 8 "state") (Dilithium.to_hex sig)
      (hex_encode "k1")
  | _ => true
  end = false.
Proof. vm_compute. reflexivity. Qed.

Lemma bound_message_binds_witness :
  ("tx" = "tx" /\ nonce = nonce) \/
  (binding "tx" nonce <> binding "tx" nonce /\
    sha3_256_digest (binding "tx" nonce) = sha3_256_digest (binding "tx" nonce)).
Proof. apply (bound_message_binds "tx" nonce "tx" nonce); [concrete|concrete|done|done]. Defined.
End CryptoWitness.
