(* ===== verification/Wallet.v ===== *)
(** * Wallets, seed phrases and transaction building (src/wallet/)

    [wallet/keys.rs], [wallet/seed.rs] and [wallet/transaction_builder.rs].
    Clock readings and random draws are arguments; the bip39 crate is a
    parameter. *)
From S2P Require Import Prelude Text Types Extern InMemory Hash Db World AccountStore StateTrie Genesis Mempool Crypto.

(** ** wallet/keys.rs *)

Record KyveraWallet := mkKyveraWallet {
  w_address : string;
  w_signing_keypair : Dilithium.KyveraKeyPair;
  w_network_keypair : Kyber.KyberKeyPair;
  w_epoch_keypair : Sphincs.SphincsKeyPair;
  w_label : string;
  w_created_at : Z;
}.
Record WalletInfo := mkWalletInfo {
  info_address : string;
  info_label : string;
  info_created_at : Z;
  info_signing_public_key : string;
  info_network_public_key : string;
  info_epoch_public_key : string;
}.

Section keys.
Context `{PqCrypto} `{Sha3} `{HexCodec}.

Definition generate_wallet (now_s : Z) (e1 : sign_entropy dilithium3) (e2 : kem_entropy kyber768)
    (e3 : sign_entropy sphincs) (label : string) : KyveraWallet :=
  let signing_keypair := Dilithium.generate e1 in
  let address := Dilithium.address signing_keypair in
  mkKyveraWallet address signing_keypair (Kyber.generate e2) (Sphincs.generate e3) label now_s.
Definition info (w : KyveraWallet) : WalletInfo :=
  mkWalletInfo (w_address w) (w_label w) (w_created_at w)
    (hex_encode (Dilithium.public_key (w_signing_keypair w)))
    (Kyber.public_key_hex (w_network_keypair w)) (Sphincs.public_key_hex (w_epoch_keypair w)).
Definition wallet_public_key_hex (w : KyveraWallet) : string :=
  hex_encode (Dilithium.public_key (w_signing_keypair w)).
Definition verify_address_integrity (w : KyveraWallet) : bool :=
  String.eqb (Dilithium.address (w_signing_keypair w)) (w_address w).
Definition spendable_balance (w : KyveraWallet) (account : Account) : Z := acc_balance account.
Definition wallet_total_balance `{Build} {E} (w : KyveraWallet) (account : Account) : res E Z :=
  total_balance account.
End keys.

(** ** wallet/seed.rs *)

(** The bip39 crate, for the English word list. *)
Class Bip39 := {
  mnemonic : Type;
  mnemonic_from_entropy : string -> res string mnemonic;
  mnemonic_parse : string -> res string mnemonic;
  mnemonic_to_string : mnemonic -> string;
  mnemonic_to_seed : mnemonic -> string -> string;
}.
Class Bip39Laws `{Bip39} : Prop := {
  from_entropy_total e : String.length e = 32%nat -> exists m, mnemonic_from_entropy e = Ok m;
  parse_to_string m : mnemonic_parse (mnemonic_to_string m) = Ok m;
  seed_length m p : String.length (mnemonic_to_seed m p) = 64%nat;
}.

Definition SEED_WORD_COUNT : Z := 24.

Section seed.
Context `{Bip39} `{Sha3}.

(** The 32 random bytes are the argument; [expect] panics. *)
Definition generate_seed_phrase {E} (entropy : string) : res E string :=
  match mnemonic_from_entropy entropy with Ok m => Ok (mnemonic_to_string m) | _ => Panic end.
Definition seed_from_phrase (phrase passphrase : string) : res string string :=
  m ← map_err (fun e => "Invalid seed phrase: " +:+ e) (mnemonic_parse phrase);
  Ok (mnemonic_to_seed m passphrase).
Definition validate_seed_phrase (phrase : string) : bool := is_ok (mnemonic_parse phrase).
Definition derive_key_seed (master_seed domain : string) : string := sha3_256_digest (master_seed +:+ domain).
End seed.

(** [str::split_whitespace]: the length in bytes of the white space character
    at the head of the string, 0 if there is none. *)
Definition whitespace_at (s : string) : nat :=
  match map byte_of (String.list_ascii_of_string (str_take 3 s)) with
  | 226 :: 128 :: c :: _ =>
    if ((128 <=? c) && (c <=? 138)) || (c =? 168) || (c =? 169) || (c =? 175) then 3%nat else 0%nat
  | 225 :: 154 :: 128 :: _ => 3%nat
  | 226 :: 129 :: 159 :: _ => 3%nat
  | 227 :: 128 :: 128 :: _ => 3%nat
  | 194 :: c :: _ => if (c =? 133) || (c =? 160) then 2%nat else 0%nat
  | c :: _ => if ((9 <=? c) && (c <=? 13)) || (c =? 32) then 1%nat else 0%nat
  | [] => 0%nat
  end.
(** [word] is the word read so far, reversed; [skip] bytes of a white space
    character are still to be passed over. *)
Fixpoint split_words (s : string) (word : list Ascii.ascii) (skip : nat) : list string :=
  let flush := match word with [] => [] | _ => [String.string_of_list_ascii (rev word)] end in
  match s, skip with
  | EmptyString, _ => flush
  | String _ s', Datatypes.S skip => split_words s' word skip
  | String c s', O =>
    match whitespace_at s with
    | O => split_words s' (c :: word) 0
    | Datatypes.S n => flush ++ split_words s' [] n
    end
  end.
Definition split_whitespace (s : string) : list string := split_words s [] 0.
Definition format_seed_phrase_for_display (phrase : string) : string :=
  String.concat "  " (imap (fun i word => show_uint (Z.of_nat i + 1) +:+ ". " +:+ word) (split_whitespace phrase)).

(** ** wallet/transaction_builder.rs *)

Module Builder.
Inductive BuilderError :=
| InsufficientBalance (available required : Z)
| SigningFailed (e : string)
| InvalidAddress (address : string)
| ZeroAmount.
Definition display (e : BuilderError) : string :=
  match e with
  | InsufficientBalance available required =>
    "Insufficient balance: have " +:+ show_uint available +:+ " KYV units, need " +:+ show_uint required
  | SigningFailed e => "Transaction signing failed: " +:+ e
  | InvalidAddress a => "Invalid address format: " +:+ a
  | ZeroAmount => "Transaction amount cannot be zero"
  end.
End Builder.
Notation BuilderError := Builder.BuilderError.

(** The character after an ASCII prefix starts at a boundary, so the slice does
    not panic; a byte of a longer character is no hex digit. *)
Definition validate_address (address : string) : bool :=
  if negb (starts_with "kyv1" address) then false
  else
    let hex_part := str_drop 4 address in
    if negb (String.length hex_part =? 64)%nat then false
    else str_forall is_hexdigit hex_part.

Definition staking_contract : string :=
  "kyv1000000000000000000000000000000000000000000000000000000000000stake".

(** The text [compute_transaction_hash] hashes. *)
Definition transaction_preimage (tx : Transaction) : string :=
  tx_sender tx +:+ tx_receiver tx +:+ show_uint (tx_amount tx) +:+ show_uint (tx_fee tx)
    +:+ show_uint (tx_nonce tx) +:+ tx_signature tx.

Section builder.
Context `{PqCrypto} `{Sha3} `{HexCodec} `{!Serde Transaction}.

Definition compute_transaction_hash (tx : Transaction) : string := sha3_256 (transaction_preimage tx).

(** What the three builders do with the unsigned transaction: sign its payload
    under a nonce stamped with a second reading of the clock. *)
Definition sign_and_hash (now_ms : Z) (e : sign_entropy dilithium3) (wallet : KyveraWallet) (tx : Transaction)
    (account_nonce : Z) (chain_state_hash : string) : res BuilderError Transaction :=
  tx_payload ← map_err Builder.SigningFailed (to_vec tx);
  let nonce := new_transaction_nonce now_ms account_nonce chain_state_hash in
  signature ← map_err Builder.SigningFailed
    (Dilithium.sign e (w_signing_keypair wallet) (bind_message_to_nonce tx_payload nonce));
  let tx := set_tx_signature (Dilithium.to_hex signature) tx in
  Ok (set_tx_hash (compute_transaction_hash tx) tx).

Definition build_transfer (now_ms now_ms' : Z) (e : sign_entropy dilithium3) (wallet : KyveraWallet)
    (recipient : string) (amount fee account_nonce : Z) (chain_state_hash : string)
    : res BuilderError Transaction :=
  if amount =? 0 then Err Builder.ZeroAmount
  else if negb (validate_address recipient) then Err (Builder.InvalidAddress recipient)
  else
    let tx := new_transaction now_ms (w_address wallet) recipient amount fee account_nonce Transfer "" in
    sign_and_hash now_ms' e wallet tx account_nonce chain_state_hash.

Definition build_stake_lock (now_ms now_ms' : Z) (e : sign_entropy dilithium3) (wallet : KyveraWallet)
    (amount fee account_nonce : Z) (chain_state_hash : string) : res BuilderError Transaction :=
  if amount =? 0 then Err Builder.ZeroAmount
  else
    let tx := new_transaction now_ms (w_address wallet) staking_contract amount fee account_nonce StakeLock "" in
    sign_and_hash now_ms' e wallet tx account_nonce chain_state_hash.

Definition build_stake_unlock (now_ms now_ms' : Z) (e : sign_entropy dilithium3) (wallet : KyveraWallet)
    (amount fee account_nonce : Z) (chain_state_hash : string) : res BuilderError Transaction :=
  if amount =? 0 then Err Builder.ZeroAmount
  else
    let tx := new_transaction now_ms (w_address wallet) staking_contract amount fee account_nonce StakeUnlock "" in
    sign_and_hash now_ms' e wallet tx account_nonce chain_state_hash.
End builder.

(** ** Facts *)

Lemma validate_address_spec address :
  validate_address address = true <->
  exists h, address = "kyv1" +:+ h /\ String.length h = 64%nat /\ str_forall is_hexdigit h = true.
Proof.
  unfold validate_address. destruct (starts_with "kyv1" address) eqn:Hs; cbn [negb].
  - apply starts_with_spec in Hs as [r ->]. change (str_drop 4 ("kyv1" +:+ r)) with r.
    destruct (Nat.eqb_spec (String.length r) 64); cbn [negb].
    + split; [eauto|]. by intros (h & <-%str_app_inj_l & _ & Hh).
    + split; [done|]. by intros (h & <-%str_app_inj_l & Hl & _).
  - split; [done|]. intros (h & -> & _). by rewrite starts_with_app in Hs.
Qed.
Lemma is_lower_hex_hexdigit c : is_lower_hex c = true -> is_hexdigit c = true.
Proof.
  unfold is_lower_hex, is_hexdigit. intros [H|H]%orb_true_iff; rewrite H, ?orb_true_r; done.
Qed.

Section wallet_facts.
Context `{PqLaws} `{Sha3Laws} `{HexLaws} `{!Serde Transaction} `{!SerdeLaws Transaction}.

Lemma address_validates kp : validate_address (Dilithium.address kp) = true.
Proof.
  apply validate_address_spec. eexists. split; [done|].
  rewrite hex_encode_length, digest_length. split; [done|].
  eapply str_forall_impl; [|apply hex_encode_digits]. apply is_lower_hex_hexdigit.
Qed.
Lemma address_binds kp kp' :
  Dilithium.address kp = Dilithium.address kp' ->
  sha3_256_digest (Dilithium.public_key kp) = sha3_256_digest (Dilithium.public_key kp').
Proof. intros He. unfold Dilithium.address in He. apply str_app_inj_l in He. by apply hex_encode_inj. Qed.

(** A signed and hashed transaction. *)
Definition signed_by (wallet : KyveraWallet) (unsigned : Transaction) (nonce : TransactionNonce)
    (tx : Transaction) : Prop :=
  tx = set_tx_hash (tx_hash tx) (set_tx_signature (tx_signature tx) unsigned) /\
  tx_hash tx = compute_transaction_hash tx /\
  (exists payload, to_vec unsigned = Ok payload /\
    verify_transaction_signature payload nonce (tx_signature tx) (wallet_public_key_hex wallet) = true) /\
  is_signed tx = true /\ validate_structure tx = Ok tt.

Lemma is_empty_false s : s <> "" -> is_empty s = false.
Proof. by destruct s. Qed.
Lemma signature_hex_nonempty e kp m sig : Dilithium.sign e kp m = Ok sig -> Dilithium.to_hex sig <> "".
Proof.
  unfold Dilithium.sign. intros (sk & _ & [= <-])%res_bind_Ok. unfold Dilithium.to_hex. cbn. intros He.
  apply (sig_bytes_nonempty _ dilithium3_laws (detached_sign dilithium3 e m sk)).
  pose proof (hex_decode_encode (sig_as_bytes dilithium3 (detached_sign dilithium3 e m sk))) as Hd.
  pose proof (hex_decode_encode "") as Hd'.
  pose proof (hex_encode_length "") as Hl. rewrite He in Hd.
  destruct (hex_encode "") eqn:Hh; [congruence|done].
Qed.

Lemma sign_and_hash_ok now_s e1 e2 e3 label now_ms e unsigned account_nonce chain_state_hash :
  let wallet := generate_wallet now_s e1 e2 e3 label in
  tx_sender unsigned <> "" -> tx_receiver unsigned <> "" ->
  exists tx, sign_and_hash now_ms e wallet unsigned account_nonce chain_state_hash = Ok tx /\
    signed_by wallet unsigned (new_transaction_nonce now_ms account_nonce chain_state_hash) tx.
Proof.
  intros wallet Hs Hr. unfold sign_and_hash. destruct (to_vec_total unsigned) as [payload Hp]. rewrite Hp. cbn.
  set (nonce := new_transaction_nonce now_ms account_nonce chain_state_hash).
  destruct (bound_signature_verifies e1 e payload nonce) as (sig & Hsig & Hv).
  rewrite Hsig. cbn. eexists. split; [done|].
  pose proof (is_empty_false _ (signature_hex_nonempty _ _ _ _ Hsig)) as Hne.
  set (tx := set_tx_signature (Dilithium.to_hex sig) unsigned).
  assert (is_empty (compute_transaction_hash tx) = false) as Hh.
  { apply is_empty_false. unfold compute_transaction_hash. change sha3_256 with sha3_256_hex.
    apply sha3_256_hex_nonempty. }
  split_and!; [by destruct unsigned|by destruct unsigned|exists payload; done| |].
  - unfold is_signed. cbn. by rewrite Hh, Hne.
  - unfold validate_structure. cbn. rewrite Hh, Hne, !is_empty_false by done. done.
Qed.

Lemma build_stake_ok now_s e1 e2 e3 label now_ms now_ms' e amount fee account_nonce chain_state_hash :
  let wallet := generate_wallet now_s e1 e2 e3 label in
  let nonce := new_transaction_nonce now_ms' account_nonce chain_state_hash in
  amount <> 0 ->
  (exists tx, build_stake_lock now_ms now_ms' e wallet amount fee account_nonce chain_state_hash = Ok tx /\
    signed_by wallet (new_transaction now_ms (w_address wallet) staking_contract amount fee account_nonce
      StakeLock "") nonce tx) /\
  (exists tx, build_stake_unlock now_ms now_ms' e wallet amount fee account_nonce chain_state_hash = Ok tx /\
    signed_by wallet (new_transaction now_ms (w_address wallet) staking_contract amount fee account_nonce
      StakeUnlock "") nonce tx).
Proof.
  intros wallet nonce Ha. unfold build_stake_lock, build_stake_unlock.
  rewrite (proj2 (Z.eqb_neq _ _)) by done. split; by apply sign_and_hash_ok.
Qed.
End wallet_facts.

(** ** Properties *)

Section wallet_properties.
Context `{PqLaws} `{Sha3Laws} `{HexLaws} `{!Serde Transaction} `{!SerdeLaws Transaction}.

(** A generated wallet passes the integrity check and its address the
    format check; a wallet of the same address that passes the check has the
    same signing key, or the two keys are a collision of the digest. *)
Theorem wallet_address_binds_key now_s e1 e2 e3 label :
  let w := generate_wallet now_s e1 e2 e3 label in
  verify_address_integrity w = true /\ validate_address (w_address w) = true /\
  forall w', verify_address_integrity w' = true -> w_address w' = w_address w ->
    let pk := Dilithium.public_key (w_signing_keypair w) in
    let pk' := Dilithium.public_key (w_signing_keypair w') in
    pk = pk' \/ (pk <> pk' /\ sha3_256_digest pk = sha3_256_digest pk').
Proof.
  intros w. split_and!.
  - apply String.eqb_refl.
  - apply address_validates.
  - intros w' Hi Ha pk pk'. apply String.eqb_eq in Hi. destruct (decide (pk = pk')); [by left|right].
    split; [done|]. apply address_binds. by rewrite Hi, Ha.
Qed.

(** C39: [build_transfer] refuses a zero amount and a malformed recipient, and
    nothing else; otherwise it returns the transfer that was asked for,
    signed so that the signature verifies under the wallet's public key and
    the nonce, hashed over its signed contents, and in the form the mempool's
    structural check accepts. *)
Theorem build_transfer_exact now_s e1 e2 e3 label now_ms now_ms' e recipient amount fee account_nonce
    chain_state_hash :
  let wallet := generate_wallet now_s e1 e2 e3 label in
  let r := build_transfer now_ms now_ms' e wallet recipient amount fee account_nonce chain_state_hash in
  if decide (amount = 0) then r = Err Builder.ZeroAmount
  else if validate_address recipient then
    exists tx, r = Ok tx /\
      signed_by wallet (new_transaction now_ms (w_address wallet) recipient amount fee account_nonce Transfer "")
        (new_transaction_nonce now_ms' account_nonce chain_state_hash) tx
  else r = Err (Builder.InvalidAddress recipient).
Proof.
  intros wallet r. unfold r, build_transfer. case_decide as Ha; [by subst|].
  rewrite (proj2 (Z.eqb_neq _ _)) by done. destruct (validate_address recipient) eqn:Hv; cbn [negb]; [|done].
  apply sign_and_hash_ok; [done|]. cbn. apply validate_address_spec in Hv as (h & -> & _). done.
Qed.
End wallet_properties.

Section hash_facts.
Context `{Sha3} `{HexCodec}.

(** The transaction hash separates no fields: the last digit of the amount can
    be moved to the front of the fee, and the timestamp, the type and the data
    are not hashed at all. *)
Lemma transaction_hash_ambiguous hash sender receiver amount nonce signature timestamp ty data hash'
    timestamp' ty' data' :
  0 < amount ->
  compute_transaction_hash
    (mkTransaction hash sender receiver (10 * amount + 1) 4 nonce signature timestamp ty data) =
  compute_transaction_hash
    (mkTransaction hash' sender receiver amount 14 nonce signature timestamp' ty' data').
Proof.
  intros Ha. unfold compute_transaction_hash, transaction_preimage. cbn [tx_sender tx_receiver tx_amount tx_fee
    tx_nonce tx_signature]. rewrite show_uint_snoc by lia. rewrite !str_app_assoc. done.
Qed.
End hash_facts.

Section seed_properties.
Context `{Bip39Laws} `{Sha3Laws}.

(** A phrase generated from 32 bytes of entropy is valid and gives a 64-byte
    seed under every passphrase; the key seeds derived from two seeds and
    domains of this kind are 32 bytes long and differ unless seed and domain
    agree or the digest collides. *)
Theorem seed_phrase_keys entropy :
  String.length entropy = 32%nat ->
  exists phrase, generate_seed_phrase (E:=string) entropy = Ok phrase /\ validate_seed_phrase phrase = true /\
    forall passphrase, exists master, seed_from_phrase phrase passphrase = Ok master /\
      String.length master = 64%nat /\
      forall domain, String.length (derive_key_seed master domain) = 32%nat /\
        forall master' domain', String.length master' = 64%nat ->
          derive_key_seed master domain = derive_key_seed master' domain' ->
          (master = master' /\ domain = domain') \/
          (master +:+ domain <> master' +:+ domain' /\
            sha3_256_digest (master +:+ domain) = sha3_256_digest (master' +:+ domain')).
Proof.
  intros He. destruct (from_entropy_total entropy He) as [m Hm].
  unfold generate_seed_phrase, validate_seed_phrase, seed_from_phrase. rewrite Hm. eexists. split; [done|].
  rewrite parse_to_string. split; [done|]. intros passphrase. eexists. split; [done|].
  split; [apply seed_length|]. intros domain. split; [apply digest_length|]. intros master' domain' Hl Hd.
  destruct (decide (mnemonic_to_seed m passphrase +:+ domain = master' +:+ domain')) as [Hp|Hp]; [left|by right].
  apply str_app_inj in Hp; [done|]. by rewrite seed_length, Hl.
Qed.
End seed_properties.

Module WalletWitness.
Import Mem MemPq.

(** A phrase is its entropy, and a seed is two digests. *)
#[local] Instance toy_bip39 : Bip39 := {|
  mnemonic := string; mnemonic_from_entropy := Ok; mnemonic_parse := Ok; mnemonic_to_string m := m;
  mnemonic_to_seed m p := sha3_256_digest ("1" +:+ m +:+ p) +:+ sha3_256_digest ("2" +:+ m +:+ p) |}.
#[local] Instance toy_bip39_laws : Bip39Laws.
Proof. split; [by eauto|done|]. intros m p. done. Qed.

Definition k1 : sign_entropy dilithium3 := "k1".
Definition k2 : kem_entropy kyber768 := "k2".
Definition k3 : sign_entropy sphincs := "k3".
Definition wallet : KyveraWallet := generate_wallet 1700000000 k1 k2 k3 "main".
Definition bob : string := Eval vm_compute in "kyv1" +:+ sha3_256_hex "bob".

Lemma wallet_address_binds_key_witness :
  let w := wallet in
  verify_address_integrity w = true /\ validate_address (w_address w) = true /\
  forall w', verify_address_integrity w' = true -> w_address w' = w_address w ->
    let pk := Dilithium.public_key (w_signing_keypair w) in
    let pk' := Dilithium.public_key (w_signing_keypair w') in
    pk = pk' \/ (pk <> pk' /\ sha3_256_digest pk = sha3_256_digest pk').
Proof. apply (wallet_address_binds_key 1700000000 k1 k2 k3 "main"). Defined.

Lemma build_transfer_exact_witness :
  let r := build_transfer 1000 1001 k1 wallet bob 5 1 0 "state" in
  if decide (5 = 0) then r = Err Builder.ZeroAmount
  else if validate_address bob then
    exists tx, r = Ok tx /\ signed_by wallet
      (new_transaction 1000 (w_address wallet) bob 5 1 0 Transfer "") (new_transaction_nonce 1001 0 "state") tx
  else r = Err (Builder.InvalidAddress bob).
Proof. apply (build_transfer_exact 1700000000 k1 k2 k3 "main" 1000 1001 k1 bob 5 1 0 "state"). Defined.
Example transfer_built : is_ok (build_transfer 1000 1001 k1 wallet bob 5 1 0 "state") = true.
Proof. vm_compute. reflexivity. Qed.

Lemma seed_phrase_keys_witness :
  let entropy := str_repeat 32 "e" in
  exists phrase, generate_seed_phrase (E:=string) entropy = Ok phrase /\ validate_seed_phrase phrase = true /\
    forall passphrase, exists master, seed_from_phrase phrase passphrase = Ok master /\
      String.length master = 64%nat /\
      forall domain, String.length (derive_key_seed master domain) = 32%nat /\
        forall master' domain', String.length master' = 64%nat ->
          derive_key_seed master domain = derive_key_seed master' domain' ->
          (master = master' /\ domain = domain') \/
          (master +:+ domain <> master' +:+ domain' /\
            sha3_256_digest (master +:+ domain) = sha3_256_digest (master' +:+ domain')).
Proof. intros entropy. apply (seed_phrase_keys entropy). concrete. Defined.

(** The addresses the genesis block and the staking contract use are no wallet
    addresses, so no transfer to them can be built. *)
Example system_addresses_rejected :
  map validate_address [FOUNDER_ADDRESS; TREASURY_ADDRESS; fee_treasury; staking_contract] =
    [false; false; false; false].
Proof. vm_compute. reflexivity. Qed.
Example displayed : format_seed_phrase_for_display " abandon  ability able " = "1. abandon  2. ability  3. able".
Proof. vm_compute. reflexivity. Qed.
End WalletWitness.
