(* ===== verification/WalletStorage.v ===== *)
(** * Encrypted wallet files (src/wallet/storage.rs)

    Saving and loading of wallets over a model of [std::fs] in which every call
    can fail, a write also half way.  The aes-gcm crate is a parameter, and the
    random nonce of a save an argument. *)
From S2P Require Import Prelude Text Codec Extern InMemory Hash Crypto Wallet.

(** ** std::fs

    The files by path, and the failures to come: each call takes the next entry
    of [fs_faults]; when they have run out, calls succeed. *)
Record Fault := mkFault {
  fault_message : string;
  (** the bytes a failing write left behind, if it got to open the file *)
  fault_written : option nat;
}.
Record FileSystem := mkFileSystem {
  fs_files : gmap string string;
  fs_faults : list (option Fault);
}.
Definition NOT_FOUND : string := "No such file or directory (os error 2)".

Definition with_files (files : gmap string string) (fs : FileSystem) : FileSystem :=
  mkFileSystem files (tail (fs_faults fs)).
Definition fs_fault (fs : FileSystem) : option Fault := default None (head (fs_faults fs)).

Definition fs_write (path contents : string) : st FileSystem string unit := fun fs =>
  match fs_fault fs with
  | None => (with_files (<[path := contents]> (fs_files fs)) fs, Ok tt)
  | Some f =>
    (with_files (match fault_written f with
      | Some n => <[path := str_take n contents]> (fs_files fs)
      | None => fs_files fs
      end) fs, Err (fault_message f))
  end.
Definition fs_read (path : string) : st FileSystem string string := fun fs =>
  (with_files (fs_files fs) fs,
   match fs_fault fs with
   | Some f => Err (fault_message f)
   | None => ok_or (fs_files fs !! path) NOT_FOUND
   end).
(** A rename replaces the target or fails without an effect. *)
Definition fs_rename (from to : string) : st FileSystem string unit := fun fs =>
  match fs_fault fs, fs_files fs !! from with
  | Some f, _ => (with_files (fs_files fs) fs, Err (fault_message f))
  | None, None => (with_files (fs_files fs) fs, Err NOT_FOUND)
  | None, Some contents =>
    (with_files (<[to := contents]> (base.delete from (fs_files fs))) fs, Ok tt)
  end.
Definition fs_remove_file (path : string) : st FileSystem string unit := fun fs =>
  match fs_fault fs, fs_files fs !! path with
  | Some f, _ => (with_files (fs_files fs) fs, Err (fault_message f))
  | None, None => (with_files (fs_files fs) fs, Err NOT_FOUND)
  | None, Some _ => (with_files (base.delete path (fs_files fs)) fs, Ok tt)
  end.
(** [Path::exists] is false when the query fails. *)
Definition fs_exists {E} (path : string) : st FileSystem E bool := fun fs =>
  (with_files (fs_files fs) fs,
   Ok (match fs_fault fs with Some _ => false | None => bool_decide (is_Some (fs_files fs !! path)) end)).

(** ** aes_gcm::Aes256Gcm *)

Class Aes256Gcm := {
  aead_encrypt : string -> string -> string -> option string;
  aead_decrypt : string -> string -> string -> option string;
}.
Definition AES_GCM_P_MAX : Z := 68719476736.
Class AesLaws `{Aes256Gcm} : Prop := {
  encrypt_total k n p : String.length k = 32%nat -> String.length n = 12%nat -> str_len p <= AES_GCM_P_MAX ->
    is_Some (aead_encrypt k n p);
  decrypt_encrypt k n p c : aead_encrypt k n p = Some c -> aead_decrypt k n c = Some p;
}.
(** [Aes256Gcm::new_from_slice(..).expect(..)] *)
Definition new_cipher {E} (key : string) : res E string :=
  if (String.length key =? 32)%nat then Ok key else Panic.

(** ** wallet/storage.rs *)

Definition WALLET_MAGIC : string := "KYVERAWALLET01".
Definition NONCE_SIZE : nat := 12.
Definition KEY_DOMAIN : string := "kyvera-wallet-encryption-v1".

Inductive StorageError :=
| IoError (e : string)
| DecryptionFailed
| InvalidWalletFile
| DeserializationFailed (e : string)
| SerializationFailed (e : string).
Definition display_storage_error (e : StorageError) : string :=
  match e with
  | IoError e => "File system error: " +:+ e
  | DecryptionFailed => "Wrong password or corrupted wallet file"
  | InvalidWalletFile => "Not a valid Kyvera wallet file"
  | DeserializationFailed e => "Wallet data corrupted: " +:+ e
  | SerializationFailed e => "Failed to prepare wallet for saving: " +:+ e
  end.

Section storage.
Context `{PqCrypto} `{Sha3} `{HexCodec} `{!Serde KyveraWallet} `{Aes256Gcm}.

Definition derive_encryption_key (password wallet_address : string) : string :=
  sha3_256_digest (password +:+ wallet_address +:+ KEY_DOMAIN).
Definition derive_key_for_storage (password : string) : string :=
  sha3_256_digest (password +:+ KEY_DOMAIN).

(** What both versions of [save_wallet] do once they have the key. *)
Definition save_encrypted (key_bytes nonce_bytes json path : string) : st FileSystem StorageError unit :=
  cipher ←? new_cipher key_bytes;
  ciphertext ←? ok_or (aead_encrypt cipher nonce_bytes json) DecryptionFailed;
  let file_contents := WALLET_MAGIC +:+ nonce_bytes +:+ ciphertext in
  let temp_path := path +:+ ".tmp" in
  st_map_err IoError (fs_write temp_path file_contents);;
  st_map_err IoError (fs_rename temp_path path).

Definition save_wallet (nonce_bytes : string) (wallet : KyveraWallet) (path password : string)
    : st FileSystem StorageError unit :=
  json ←? map_err SerializationFailed (to_vec wallet);
  save_encrypted (derive_encryption_key password (w_address wallet)) nonce_bytes json path.
Definition save_wallet_v2 (nonce_bytes : string) (wallet : KyveraWallet) (path password : string)
    : st FileSystem StorageError unit :=
  json ←? map_err SerializationFailed (to_vec wallet);
  save_encrypted (derive_key_for_storage password) nonce_bytes json path.

(** The checks and the decryption [load_wallet] does on the bytes of the file. *)
Definition decode_wallet (file_contents password : string) : res StorageError KyveraWallet :=
  if (String.length file_contents <? String.length WALLET_MAGIC + NONCE_SIZE)%nat then Err InvalidWalletFile
  else if negb (String.eqb (str_take (String.length WALLET_MAGIC) file_contents) WALLET_MAGIC) then
    Err InvalidWalletFile
  else
    let rest := str_drop (String.length WALLET_MAGIC) file_contents in
    let nonce := str_take NONCE_SIZE rest in
    let ciphertext := str_drop NONCE_SIZE rest in
    cipher ← new_cipher (sha3_256_digest (password +:+ KEY_DOMAIN));
    plaintext ← ok_or (aead_decrypt cipher nonce ciphertext) DecryptionFailed;
    json ← map_err (fun _ => DecryptionFailed) (from_utf8 plaintext);
    wallet ← map_err DeserializationFailed (from_slice json);
    if negb (verify_address_integrity wallet) then
      Err (DeserializationFailed "Wallet address does not match public key after loading")
    else Ok wallet.
Definition load_wallet (path password : string) : st FileSystem StorageError KyveraWallet :=
  file_contents ← st_map_err IoError (fs_read path);
  st_lift (decode_wallet file_contents password).

Definition wallet_exists {E} (path : string) : st FileSystem E bool := fs_exists path.
Definition delete_wallet (path : string) : st FileSystem StorageError unit :=
  st_map_err IoError (fs_remove_file path).
End storage.

(** ** Facts *)

Lemma tmp_differs path : path +:+ ".tmp" <> path.
Proof. intros He. apply (f_equal String.length) in He. rewrite str_length_app in He. cbn in He. lia. Qed.

(** A save that fails leaves the file at [path] alone, one that succeeds
    replaces it by [contents]; no file but it and its temporary is touched. *)
Definition atomic (path : string) (contents : string -> Prop) (fs fs' : FileSystem)
    (r : res StorageError unit) : Prop :=
  (r = Ok tt -> exists c, contents c /\ fs_files fs' !! path = Some c /\
    fs_files fs' !! (path +:+ ".tmp") = None) /\
  (r <> Ok tt -> fs_files fs' !! path = fs_files fs !! path) /\
  (forall p, p <> path -> p <> path +:+ ".tmp" -> fs_files fs' !! p = fs_files fs !! p).

Lemma str_take_drop n s : str_take n s +:+ str_drop n s = s.
Proof.
  revert s. induction n as [|n IH]; intros [|c s]; try done. cbn [str_take str_drop].
  by rewrite str_app_cons, IH.
Qed.

Section storage_facts.
Context `{PqCrypto} `{Sha3Laws} `{HexCodec} `{!Serde KyveraWallet} `{!SerdeLaws KyveraWallet} `{Aes256Gcm}.

Lemma new_cipher_digest {E} s : new_cipher (E:=E) (sha3_256_digest s) = Ok (sha3_256_digest s).
Proof. unfold new_cipher. by rewrite digest_length. Qed.

Definition wallet_file (key nonce json c : string) : Prop :=
  exists ciphertext, aead_encrypt key nonce json = Some ciphertext /\ c = WALLET_MAGIC +:+ nonce +:+ ciphertext.

Lemma encryption_key_length password address : String.length (derive_encryption_key password address) = 32%nat.
Proof. apply digest_length. Qed.
Lemma storage_key_length password : String.length (derive_key_for_storage password) = 32%nat.
Proof. apply digest_length. Qed.

Lemma save_encrypted_run s nonce json path fs :
  save_encrypted (sha3_256_digest s) nonce json path fs =
    match aead_encrypt (sha3_256_digest s) nonce json with
    | None => (fs, Err DecryptionFailed)
    | Some ct =>
      let '(fs1, r) := fs_write (path +:+ ".tmp") (WALLET_MAGIC +:+ nonce +:+ ct) fs in
      match r with
      | Ok _ => let '(fs2, r) := fs_rename (path +:+ ".tmp") path fs1 in (fs2, map_err IoError r)
      | Err e => (fs1, Err (IoError e))
      | Panic => (fs1, Panic)
      end
    end.
Proof.
  unfold save_encrypted. rewrite new_cipher_digest, st_bind_run. unfold st_lift at 1.
  rewrite st_bind_run. unfold st_lift. destruct (aead_encrypt _ _ _) as [ct|]; [|done].
  cbn [ok_or]. rewrite st_bind_run. unfold st_map_err. by destruct (fs_write _ _ fs) as [fs1 []].
Qed.

Lemma save_encrypted_atomic s nonce json path fs :
  let '(fs', r) := save_encrypted (sha3_256_digest s) nonce json path fs in
  atomic path (wallet_file (sha3_256_digest s) nonce json) fs fs' r.
Proof.
  rewrite save_encrypted_run. destruct (aead_encrypt _ nonce json) as [ct|] eqn:Hct; [|by split].
  pose proof (tmp_differs path) as Hne. unfold atomic. set (tmp := path +:+ ".tmp") in *.
  set (contents := WALLET_MAGIC +:+ nonce +:+ ct). unfold fs_write. destruct (fs_fault fs) as [f|].
  { split; [done|]. cbn. destruct (fault_written f); [|by split].
    split; intros; by rewrite lookup_insert_ne by congruence. }
  unfold fs_rename. cbn [fs_files with_files]. rewrite lookup_insert_eq.
  destruct (fs_fault (with_files _ fs)) as [f|]; cbn [map_err fs_files with_files].
  { split; [done|]. split; intros; by rewrite lookup_insert_ne by congruence. }
  split; [|split; [done|]].
  - intros _. exists contents. rewrite lookup_insert_eq, lookup_insert_ne by done. rewrite lookup_delete_eq.
    split; [|done]. by exists ct.
  - intros p Hp Ht. by rewrite lookup_insert_ne, lookup_delete_ne, lookup_insert_ne by congruence.
Qed.
Lemma save_encrypted_ok s nonce json path fs :
  fs_faults fs = [] -> is_Some (aead_encrypt (sha3_256_digest s) nonce json) ->
  (save_encrypted (sha3_256_digest s) nonce json path fs).2 = Ok tt.
Proof.
  intros Hf [ct Hct]. rewrite save_encrypted_run, Hct.
  unfold fs_write, fs_rename, fs_fault. rewrite Hf. cbn. rewrite Hf. cbn. by rewrite lookup_insert_eq.
Qed.

(** What [decode_wallet] makes of a file with the magic bytes and a nonce. *)
Lemma decode_wallet_file nonce ct password :
  String.length nonce = NONCE_SIZE ->
  decode_wallet (WALLET_MAGIC +:+ nonce +:+ ct) password =
    (plaintext ← ok_or (aead_decrypt (derive_key_for_storage password) nonce ct) DecryptionFailed;
     json ← map_err (fun _ => DecryptionFailed) (from_utf8 plaintext);
     wallet ← map_err DeserializationFailed (from_slice json);
     if negb (verify_address_integrity wallet) then
       Err (DeserializationFailed "Wallet address does not match public key after loading")
     else Ok wallet).
Proof.
  intros Hn. unfold decode_wallet. rewrite str_take_app, str_drop_app, <-Hn, str_take_app, str_drop_app.
  rewrite String.eqb_refl, new_cipher_digest. cbn [negb]. case_match eqn:Hl; [|done].
  apply Nat.ltb_lt in Hl. rewrite !str_length_app in Hl. lia.
Qed.

Lemma decode_wallet_safe file password :
  decode_wallet file password <> Panic /\
  forall w, decode_wallet file password = Ok w ->
    verify_address_integrity w = true /\ starts_with WALLET_MAGIC file = true.
Proof.
  unfold decode_wallet. destruct (_ <? _)%nat; [done|].
  destruct (String.eqb_spec (str_take (String.length WALLET_MAGIC) file) WALLET_MAGIC) as [Hm|]; cbn [negb]; [|done].
  assert (starts_with WALLET_MAGIC file = true) as Hs.
  { rewrite <-Hm. apply starts_with_spec. exists (str_drop (String.length WALLET_MAGIC) file).
    by rewrite str_take_drop. }
  rewrite new_cipher_digest. cbn. destruct (aead_decrypt _ _ _) as [p|]; [|done]. cbn.
  unfold from_utf8. destruct (utf8_scan 0 p) as [[i [n|]]|]; [done|done|]. cbn.
  pose proof (from_slice_returns (A:=KyveraWallet) p) as Hf.
  destruct (from_slice p) as [w|e|]; cbn; [|done|done].
  destruct (verify_address_integrity w) eqn:Hi; cbn; [|done]. split; [done|]. by intros w' [= <-].
Qed.
(** A file the password opens. *)
Definition holds_wallet (fs : FileSystem) (path password : string) (w : KyveraWallet) : Prop :=
  exists file, fs_files fs !! path = Some file /\ decode_wallet file password = Ok w.
Lemma load_holds path password w fs :
  holds_wallet fs path password w -> fs_faults fs = [] -> load_wallet path password fs = (mkFileSystem (fs_files fs) [], Ok w).
Proof.
  intros (file & Hfile & Hd) Hf. unfold load_wallet. rewrite st_bind_run. unfold st_map_err, fs_read, fs_fault, with_files.
  rewrite Hf, Hfile. cbn. unfold st_lift. by rewrite Hd.
Qed.
Lemma save_v2_holds `{!AesLaws} nonce wallet path password fs :
  String.length nonce = NONCE_SIZE -> verify_address_integrity wallet = true ->
  let '(fs', r) := save_wallet_v2 nonce wallet path password fs in
  (fs_faults fs = [] -> (forall json, to_vec wallet = Ok json -> str_len json <= AES_GCM_P_MAX) -> r = Ok tt) /\
  (r = Ok tt -> holds_wallet (mkFileSystem (fs_files fs') []) path password wallet).
Proof.
  intros Hn Hi. unfold save_wallet_v2. destruct (to_vec_total wallet) as [json Hj]. rewrite Hj.
  rewrite st_bind_run. unfold st_lift. cbn [map_err]. unfold derive_key_for_storage.
  pose proof (save_encrypted_atomic (password +:+ KEY_DOMAIN) nonce json path fs) as Ha.
  pose proof (save_encrypted_ok (password +:+ KEY_DOMAIN) nonce json path fs) as Hok.
  destruct (save_encrypted _ nonce json path fs) as [fs' r]. split.
  - intros Hf Hl. apply Hok; [done|]. apply encrypt_total; [apply digest_length|done|by apply Hl].
  - intros Hr. destruct Ha as [Ha _]. destruct (Ha Hr) as (c & (ct & Hct & ->) & Hc & _).
    eexists. split; [exact Hc|]. rewrite decode_wallet_file by done. unfold derive_key_for_storage.
    rewrite (decrypt_encrypt _ _ _ _ Hct). cbn. rewrite from_utf8_valid by by eapply to_vec_utf8. cbn.
    rewrite (from_to_vec _ _ Hj). cbn. by rewrite Hi.
Qed.
End storage_facts.

(** ** Properties *)

Section storage_properties.
Context `{PqCrypto} `{Sha3Laws} `{HexCodec} `{!Serde KyveraWallet} `{!SerdeLaws KyveraWallet}.
Context `{Aes256Gcm} `{!AesLaws}.

(** C24: a wallet that was saved is loaded again with the same password.  The
    save succeeds when the file system does and the serialized wallet is no
    longer than AES-GCM allows. *)
Theorem save_load_roundtrip nonce wallet path password fs :
  String.length nonce = NONCE_SIZE -> verify_address_integrity wallet = true ->
  let '(fs', r) := save_wallet_v2 nonce wallet path password fs in
  (fs_faults fs = [] -> (forall json, to_vec wallet = Ok json -> str_len json <= AES_GCM_P_MAX) -> r = Ok tt) /\
  (r = Ok tt -> (load_wallet path password (mkFileSystem (fs_files fs') [])).2 = Ok wallet).
Proof.
  intros Hn Hi. pose proof (save_v2_holds nonce wallet path password fs Hn Hi) as Hs.
  destruct (save_wallet_v2 _ _ _ _ fs) as [fs' r]. destruct Hs as [Hok Hh]. split; [done|].
  intros Hr. by rewrite (load_holds path password wallet) by auto.
Qed.

(** C23: a save is atomic whatever calls of the file system fail, also when the
    write of the temporary file stops half way: the old file stays until the
    new one, complete, takes its place, and no other file is touched. *)
Theorem save_atomic nonce wallet path password fs :
  (exists json, to_vec wallet = Ok json /\
    let '(fs', r) := save_wallet_v2 nonce wallet path password fs in
    atomic path (wallet_file (derive_key_for_storage password) nonce json) fs fs' r) /\
  (exists json, to_vec wallet = Ok json /\
    let '(fs', r) := save_wallet nonce wallet path password fs in
    atomic path (wallet_file (derive_encryption_key password (w_address wallet)) nonce json) fs fs' r).
Proof.
  destruct (to_vec_total wallet) as [json Hj]. unfold save_wallet_v2, save_wallet. rewrite Hj.
  split; exists json; (split; [done|]); rewrite st_bind_run; unfold st_lift; cbn [map_err];
    apply save_encrypted_atomic.
Qed.

(** Loading never panics, whatever the file holds, and what it returns has
    an address that matches its key and comes from a file with the magic
    bytes; the files stay as they are. *)
Theorem load_safe path password fs :
  let '(fs', r) := load_wallet path password fs in
  fs_files fs' = fs_files fs /\ r <> Panic /\
  forall wallet, r = Ok wallet -> verify_address_integrity wallet = true /\
    exists file, fs_files fs !! path = Some file /\ starts_with WALLET_MAGIC file = true.
Proof.
  unfold load_wallet. rewrite st_bind_run. unfold st_map_err, fs_read. destruct (fs_fault fs) as [f|]; [done|].
  destruct (fs_files fs !! path) as [file|]; [|done]. cbn [ok_or map_err]. unfold st_lift.
  destruct (decode_wallet_safe file password) as [Hp Hw]. split; [done|]. split; [done|].
  intros wallet Hr. destruct (Hw wallet Hr). eauto.
Qed.

(** What the first version of [save_wallet] writes, [load_wallet] cannot
    read: it derives another key.  (For a cipher that rejects every other key,
    and a digest without a collision on the two texts.) *)
Theorem v1_unreadable nonce wallet path password fs :
  (forall k k' n p c, String.length k = 32%nat -> String.length k' = 32%nat -> k <> k' ->
    aead_encrypt k n p = Some c -> aead_decrypt k' n c = None) ->
  derive_encryption_key password (w_address wallet) <> derive_key_for_storage password ->
  String.length nonce = NONCE_SIZE ->
  let '(fs', r) := save_wallet nonce wallet path password fs in
  r = Ok tt -> (load_wallet path password (mkFileSystem (fs_files fs') [])).2 = Err DecryptionFailed.
Proof.
  intros Hcipher Hkeys Hn. unfold save_wallet. destruct (to_vec_total wallet) as [json Hj]. rewrite Hj.
  rewrite st_bind_run. unfold st_lift. cbn [map_err]. unfold derive_encryption_key.
  pose proof (save_encrypted_atomic (password +:+ w_address wallet +:+ KEY_DOMAIN) nonce json path fs) as Ha.
  destruct (save_encrypted _ nonce json path fs) as [fs' r]. intros Hr.
  destruct Ha as [Ha _]. destruct (Ha Hr) as (c & (ct & Hct & ->) & Hc & _).
  unfold load_wallet. rewrite st_bind_run. unfold st_map_err, fs_read. cbn [fs_files fs_fault fs_faults head default].
  rewrite Hc. cbn [ok_or map_err]. unfold st_lift. cbn [snd]. rewrite decode_wallet_file by done.
  by rewrite (Hcipher _ _ _ _ _ (encryption_key_length _ _) (storage_key_length _) Hkeys Hct).
Qed.
End storage_properties.

(** ** A toy cipher that tags the text with the key and the nonce *)
Module StorageWitness.
Import Mem MemPq.

#[local] Instance toy_aes : Aes256Gcm := {|
  aead_encrypt k n p := Some (k +:+ n +:+ p);
  aead_decrypt k n c :=
    if starts_with (k +:+ n) c then Some (str_drop (String.length (k +:+ n)) c) else None |}.
Lemma toy_aes_decrypt k n p : aead_decrypt k n (k +:+ n +:+ p) = Some p.
Proof. cbn. rewrite <-str_app_assoc, starts_with_app. by rewrite str_drop_app. Qed.
#[local] Instance toy_aes_laws : AesLaws.
Proof. split; [by eexists|]. intros k n p c [= <-]. apply toy_aes_decrypt. Qed.
Lemma toy_aes_rejects k k' n p c :
  String.length k = 32%nat -> String.length k' = 32%nat -> k <> k' ->
  aead_encrypt k n p = Some c -> aead_decrypt k' n c = None.
Proof.
  intros Hk Hk' Hne [= <-]. cbn. destruct (starts_with (k' +:+ n) (k +:+ n +:+ p)) eqn:Hs; [|done].
  apply starts_with_spec in Hs as [r Hr]. rewrite str_app_assoc in Hr.
  apply str_app_inj in Hr as [-> _]; [done|congruence].
Qed.

#[local] Instance KyveraWallet_eq_dec : EqDecision KyveraWallet.
Proof. intros x y. unfold Decision. repeat decide equality. Defined.
Definition wallet_fields (w : KyveraWallet) :=
  let '(mkKyveraWallet a (Dilithium.mkKyveraKeyPair p1 s1) (Kyber.mkKyberKeyPair p2 s2)
    (Sphincs.mkSphincsKeyPair p3 s3) l c) := w in (a, p1, s1, p2, s2, p3, s3, l, c).
#[local] Instance KyveraWallet_codec : Codec KyveraWallet.
Proof.
  refine (iso_codec wallet_fields (fun '(a, p1, s1, p2, s2, p3, s3, l, c) =>
    mkKyveraWallet a (Dilithium.mkKyveraKeyPair p1 s1) (Kyber.mkKyberKeyPair p2 s2)
      (Sphincs.mkSphincsKeyPair p3 s3) l c) _).
  by intros [? [] [] [] ? ?].
Defined.

Definition wallet : KyveraWallet := mkKyveraWallet (Dilithium.address (Dilithium.mkKyveraKeyPair "k" "k"))
  (Dilithium.mkKyveraKeyPair "k" "k") (Kyber.mkKyberKeyPair "n" "n") (Sphincs.mkSphincsKeyPair "e" "e") "main" 17.
Definition nonce : string := "twelve bytes".
Definition disk : FileSystem := mkFileSystem {[ "w" := "old" ]} [].
(** The write stops after five bytes. *)
Definition full_disk : FileSystem :=
  mkFileSystem {[ "w" := "old" ]} [Some (mkFault "No space left on device (os error 28)" (Some 5%nat))].

Lemma save_load_roundtrip_witness :
  let '(fs', r) := save_wallet_v2 nonce wallet "w" "pass" disk in
  (fs_faults disk = [] -> (forall json, to_vec wallet = Ok json -> str_len json <= AES_GCM_P_MAX) -> r = Ok tt) /\
  (r = Ok tt -> (load_wallet "w" "pass" (mkFileSystem (fs_files fs') [])).2 = Ok wallet).
Proof. apply (save_load_roundtrip nonce wallet "w" "pass" disk); concrete. Defined.
Example saved : (save_wallet_v2 nonce wallet "w" "pass" disk).2 = Ok tt.
Proof. vm_compute. reflexivity. Qed.

Lemma save_atomic_witness :
  (exists json, to_vec wallet = Ok json /\
    let '(fs', r) := save_wallet_v2 nonce wallet "w" "pass" full_disk in
    atomic "w" (wallet_file (derive_key_for_storage "pass") nonce json) full_disk fs' r) /\
  (exists json, to_vec wallet = Ok json /\
    let '(fs', r) := save_wallet nonce wallet "w" "pass" full_disk in
    atomic "w" (wallet_file (derive_encryption_key "pass" (w_address wallet)) nonce json) full_disk fs' r).
Proof. apply (save_atomic nonce wallet "w" "pass" full_disk). Defined.
Example half_written :
  let fs' := (save_wallet_v2 nonce wallet "w" "pass" full_disk).1 in
  fs_files fs' !! "w" = Some "old" /\ fs_files fs' !! "w.tmp" = Some "KYVER".
Proof. vm_compute. done. Qed.

Lemma load_safe_witness :
  let '(fs', r) := load_wallet "w" "pass" disk in
  fs_files fs' = fs_files disk /\ r <> Panic /\
  forall wallet, r = Ok wallet -> verify_address_integrity wallet = true /\
    exists file, fs_files disk !! "w" = Some file /\ starts_with WALLET_MAGIC file = true.
Proof. apply (load_safe "w" "pass" disk). Defined.

Lemma v1_unreadable_witness :
  let '(fs', r) := save_wallet nonce wallet "w" "pass" disk in
  r = Ok tt -> (load_wallet "w" "pass" (mkFileSystem (fs_files fs') [])).2 = Err DecryptionFailed.
Proof.
  apply (v1_unreadable nonce wallet "w" "pass" disk); [apply toy_aes_rejects| |done].
  intros He. vm_compute in He. discriminate He.
Defined.
End StorageWitness.
