(* ===== verification/Cli.v ===== *)
(** * The command-line wallet (src/bin/wallet.rs)

    The commands of kyv-wallet over a host: the file system of [WalletStorage],
    the lines still to be read from standard input, and what was printed.  A
    read can fail or find the end of the input, and standard output can break
    between two prints, which panics.  The arguments of the process are a list
    of strings, its random draws and clock readings a record, chrono and
    serde_json's pretty printer parameters. *)
From S2P Require Import Prelude Text Types Extern InMemory Float Hash Db World AccountStore StateTrie.
From S2P Require Import Crypto Wallet WalletStorage.
From Stdlib Require Import Ascii.

(** ** The host *)

(** What the next read of a line gives: the bytes up to the newline, that
    included, or an error of the system. *)
Inductive Input :=
| Line (bytes : string)
| ReadError (e : string).
Record Host := mkHost {
  host_fs : FileSystem;
  host_stdin : list Input;
  host_stdout : list string;
  (** the number of prints until standard output breaks, if it does *)
  host_stdout_left : option nat;
  host_stderr : list string;
}.

Definition newline : string := String (ascii_of_nat 10) "".
Definition carriage_return : string := String (ascii_of_nat 13) "".

Definition with_fs (fs : FileSystem) (h : Host) : Host :=
  mkHost fs (host_stdin h) (host_stdout h) (host_stdout_left h) (host_stderr h).
Definition with_stdin (i : list Input) (h : Host) : Host :=
  mkHost (host_fs h) i (host_stdout h) (host_stdout_left h) (host_stderr h).
Definition with_stdout (o : list string) (left : option nat) (h : Host) : Host :=
  mkHost (host_fs h) (host_stdin h) o left (host_stderr h).
Definition with_stderr (o : list string) (h : Host) : Host :=
  mkHost (host_fs h) (host_stdin h) (host_stdout h) (host_stdout_left h) o.

(** [print!] with the [flush().unwrap()] that follows it, and [println!]. *)
Definition print {E} (s : string) : st Host E unit := fun h =>
  match host_stdout_left h with
  | Some O => (h, Panic)
  | Some (S n) => (with_stdout (host_stdout h ++ [s]) (Some n) h, Ok tt)
  | None => (with_stdout (host_stdout h ++ [s]) None h, Ok tt)
  end.
Definition println {E} (s : string) : st Host E unit := print (s +:+ newline).
Definition println_all {E} (l : list string) : st Host E unit := st_for l println.
Definition eprintln {E} (s : string) : st Host E unit := fun h =>
  (with_stderr (host_stderr h ++ [s +:+ newline]) h, Ok tt).

(** A call of the storage functions. *)
Definition on_files {E A} (m : st FileSystem E A) : st Host E A := fun h =>
  let '(fs, r) := m (host_fs h) in (with_fs fs h, r).

(** [stdin.lock().lines().next().ok_or("No input received")?.map_err(..)?]:
    the line without its newline, or carriage return and newline. *)
Fixpoint strip_newline (s : string) : string :=
  match s with
  | EmptyString => EmptyString
  | String c s' =>
    if String.eqb s newline || String.eqb s (carriage_return +:+ newline) then EmptyString
    else String c (strip_newline s')
  end.
Definition read_line : st Host string string := fun h =>
  match host_stdin h with
  | [] => (h, Err "No input received")
  | i :: rest =>
    (with_stdin rest h,
     match i with
     | ReadError e => Err e
     | Line raw => if utf8_valid raw then Ok (strip_newline raw) else Err "stream did not contain valid UTF-8"
     end)
  end.

(** [str::trim]. *)
Fixpoint trim_start_skip (s : string) (skip : nat) : string :=
  match s, skip with
  | EmptyString, _ => EmptyString
  | String _ s', S skip => trim_start_skip s' skip
  | String c s', O => match whitespace_at s with O => s | S n => trim_start_skip s' n end
  end.
Definition trim_start (s : string) : string := trim_start_skip s 0.
Fixpoint trim_end (s : string) : string :=
  if is_empty (trim_start s) then EmptyString
  else match s with EmptyString => EmptyString | String c s' => String c (trim_end s') end.
Definition trim (s : string) : string := trim_end (trim_start s).

(** ** Parameters *)

(** [chrono::DateTime::from_timestamp(ts, 0)], formatted by
    ["%Y-%m-%d %H:%M UTC"]. *)
Class Chrono := format_utc : Z -> option string.
(** [serde_json::to_string_pretty] *)
Class SerdePretty (A : Type) := to_string_pretty : A -> res string string.

(** The random draws and the clock readings of one run. *)
Record Draws `{PqCrypto} := mkDraws {
  seed_entropy : string;
  signing_entropy : sign_entropy dilithium3;
  network_entropy : kem_entropy kyber768;
  epoch_entropy : sign_entropy sphincs;
  created_now_s : Z;
  file_nonce : string;
  tx_now_ms : Z;
  nonce_now_ms : Z;
  signature_entropy : sign_entropy dilithium3;
}.

(** ** The commands *)

Definition banner : string := "══════════════════════════════════════════════════════".
Definition arg (args : list string) (i : nat) : string := default "" (args !! i).

Definition prompt_password (prompt : string) : st Host string string :=
  print prompt;; read_line.

Definition print_usage {E} : st Host E unit :=
  println_all [
    "";
    "  KYV Wallet — Kyvera Continuum";
    "";
    "  Commands:";
    "    create  <label> <wallet-file>                    Create a new wallet";
    "    info    <wallet-file>                            Show wallet details";
    "    restore <wallet-file>                            Restore from seed phrase";
    "    send    <wallet-file> <to> <amount> <fee>        Sign a transfer";
    "    stake   <wallet-file> <amount>                   Sign a stake lock";
    "";
    "  Examples:";
    "    kyv-wallet create main ~/.kyvera/main.wallet";
    "    kyv-wallet info ~/.kyvera/main.wallet";
    "    kyv-wallet send ~/.kyvera/main.wallet kyv1abc... 10.5 0.001";
    "" ].

Definition format_timestamp `{Chrono} (ts : Z) : string := default "Unknown" (format_utc ts).

(** [(kyv * 1_000_000_000.0) as u64] *)
Definition kyv_to_units (kyv : f64) : Z := f64_to_u64 (f64_mul kyv f64_billion).

Definition stake_tier_label (amount : Z) : string :=
  if 25000000000000 <=? amount then "Nexus (+35% reward bonus)"
  else if 5000000000000 <=? amount then "Kinetic (+15% reward bonus)"
  else if 500000000000 <=? amount then "Igniter (standard rewards)"
  else "Below minimum — 500 KYV required for Igniter tier".

Section commands.
Context `{PqCrypto} `{Sha3} `{HexCodec} `{!Serde KyveraWallet} `{!Serde Transaction} `{Aes256Gcm} `{Bip39}.
Context `{Chrono} `{!SerdePretty Transaction}.

(** The end of [cmd_create] and [cmd_restore]: the password twice, then the
    save. *)
Definition set_password_and_save (d : Draws) (wallet : KyveraWallet) (path : string) : st Host string unit :=
  password ← prompt_password "  Set wallet password: ";
  confirm ← prompt_password "  Confirm password:    ";
  if negb (String.eqb password confirm) then st_fail "Passwords do not match. Wallet not saved."
  else
    st_map_err (fun e => "Failed to save wallet: " +:+ display_storage_error e)
      (on_files (save_wallet_v2 (file_nonce d) wallet path password)).

Definition generate_from (d : Draws) (label : string) : KyveraWallet :=
  generate_wallet (created_now_s d) (signing_entropy d) (network_entropy d) (epoch_entropy d) label.

Definition cmd_create (d : Draws) (args : list string) : st Host string unit :=
  if (length args <? 4)%nat then st_fail "Usage: kyv-wallet create <label> <wallet-file>"
  else
    let label := arg args 2 in
    let path := arg args 3 in
    exists_ ← on_files (wallet_exists path);
    if (exists_ : bool) then
      st_fail ("Wallet file already exists at " +:+ path +:+ ". Delete it first or choose a different path.")
    else
      seed_phrase ←? generate_seed_phrase (seed_entropy d);
      seed_bytes ←? map_err (fun e => "Seed generation failed: " +:+ e) (seed_from_phrase seed_phrase "");
      let wallet := generate_from d label in
      println_all [
        ""; banner; "  NEW KYVERA WALLET CREATED"; banner; "";
        "  Label:   " +:+ w_label wallet;
        "  Address: " +:+ w_address wallet;
        "";
        "  ⚠  SEED PHRASE — WRITE THIS DOWN NOW";
        "  ⚠  Anyone with these words can access your wallet.";
        "  ⚠  Store them offline. Never share them.";
        "";
        "  " +:+ format_seed_phrase_for_display seed_phrase;
        ""; banner; "" ];;
      set_password_and_save d wallet path;;
      println_all [
        "";
        "  Wallet saved to: " +:+ path;
        "  Keep your seed phrase safe. It cannot be recovered.";
        "" ].

Definition load_with_password (path : string) : st Host string KyveraWallet :=
  password ← prompt_password "  Wallet password: ";
  st_map_err (fun e => "Failed to load wallet: " +:+ display_storage_error e)
    (on_files (load_wallet path password)).

Definition cmd_info (args : list string) : st Host string unit :=
  if (length args <? 3)%nat then st_fail "Usage: kyv-wallet info <wallet-file>"
  else
    wallet ← load_with_password (arg args 2);
    let info := info wallet in
    println_all [
      ""; banner; "  KYVERA WALLET INFO"; banner; "";
      "  Label:   " +:+ info_label info;
      "  Address: " +:+ info_address info;
      "";
      "  Signing public key (first 32 chars):" ];;
    first ←? slice_to 32 (info_signing_public_key info);
    println_all [
      "  " +:+ first +:+ "...";
      "";
      "  Created: " +:+ format_timestamp (w_created_at wallet);
      "";
      "  Note: Balance lookup requires a running node.";
      "        Coming in Month 5 — chain state layer.";
      "" ].

Definition cmd_restore (d : Draws) (args : list string) : st Host string unit :=
  if (length args <? 3)%nat then st_fail "Usage: kyv-wallet restore <wallet-file>"
  else
    let path := arg args 2 in
    exists_ ← on_files (wallet_exists path);
    if (exists_ : bool) then
      st_fail ("Wallet file already exists at " +:+ path +:+ ". Choose a different path.")
    else
      println_all [""; "  Enter your 24-word seed phrase (words separated by spaces):"];;
      print "  > ";;
      line ← read_line;
      let phrase := trim line in
      if negb (validate_seed_phrase phrase) then
        st_fail "Invalid seed phrase. Check your words and try again."
      else
        println_all [""; "  Seed phrase valid. Enter a label for this wallet:"];;
        print "  > ";;
        line ← read_line;
        let label := trim line in
        let wallet := generate_from d label in
        set_password_and_save d wallet path;;
        println_all [
          "";
          "  Wallet restored and saved to: " +:+ path;
          "  Address: " +:+ w_address wallet;
          "" ].

Definition chain_state : string := str_repeat 64 "0".

Definition cmd_send (d : Draws) (args : list string) : st Host string unit :=
  if (length args <? 6)%nat then
    st_fail "Usage: kyv-wallet send <wallet-file> <recipient> <amount-kyv> <fee-kyv>"
  else
    let path := arg args 2 in
    let recipient := arg args 3 in
    amount_kyv ←? map_err (fun _ => "Invalid amount. Use decimal KYV (e.g. 10.5)") (parse_f64 (arg args 4));
    fee_kyv ←? map_err (fun _ => "Invalid fee. Use decimal KYV (e.g. 0.001)") (parse_f64 (arg args 5));
    let amount := kyv_to_units amount_kyv in
    let fee := kyv_to_units fee_kyv in
    wallet ← load_with_password path;
    tx ←? map_err (fun e => "Failed to build transaction: " +:+ Builder.display e)
      (build_transfer (tx_now_ms d) (nonce_now_ms d) (signature_entropy d) wallet recipient amount fee 0 chain_state);
    println_all [
      ""; banner; "  SIGNED TRANSACTION"; banner; "";
      "  From:   " +:+ tx_sender tx;
      "  To:     " +:+ tx_receiver tx;
      "  Amount: " +:+ show_f64 amount_kyv +:+ " KYV";
      "  Fee:    " +:+ show_f64 fee_kyv +:+ " KYV";
      "  Hash:   " +:+ tx_hash tx;
      "";
      "  Transaction signed successfully.";
      "  Broadcasting to network available in Month 9 (P2P layer).";
      "" ];;
    tx_json ←? to_string_pretty tx;
    println_all ["  Raw signed transaction:"; tx_json].

Definition cmd_stake (d : Draws) (args : list string) : st Host string unit :=
  if (length args <? 4)%nat then st_fail "Usage: kyv-wallet stake <wallet-file> <amount-kyv>"
  else
    let path := arg args 2 in
    amount_kyv ←? map_err (fun _ => "Invalid amount") (parse_f64 (arg args 3));
    let amount := kyv_to_units amount_kyv in
    let tier := stake_tier_label amount in
    println_all [""; "  Staking " +:+ show_f64 amount_kyv +:+ " KYV — Validator tier: " +:+ tier; ""];;
    wallet ← load_with_password path;
    tx ←? map_err (fun e => "Failed to build stake transaction: " +:+ Builder.display e)
      (build_stake_lock (tx_now_ms d) (nonce_now_ms d) (signature_entropy d) wallet amount 1000000 0 chain_state);
    println_all [
      "  Stake transaction signed.";
      "  Hash: " +:+ tx_hash tx;
      "";
      "  Broadcasting available in Month 9 (P2P layer).";
      "" ].

(** [main], with the exit status of the process: 101 after a panic. *)
Definition run_command (d : Draws) (args : list string) : st Host string unit :=
  let command := arg args 1 in
  if String.eqb command "create" then cmd_create d args
  else if String.eqb command "info" then cmd_info args
  else if String.eqb command "restore" then cmd_restore d args
  else if String.eqb command "send" then cmd_send d args
  else if String.eqb command "stake" then cmd_stake d args
  else if String.eqb command "help" then print_usage
  else eprintln ("Unknown command: " +:+ command);; print_usage.
Definition main (d : Draws) (args : list string) (h : Host) : Host * Z :=
  let '(h, result) := (if (length args <? 2)%nat then print_usage else run_command d args) h in
  match result with
  | Ok _ => (h, 0)
  | Err e => ((eprintln (E:=string) ("Error: " +:+ e) h).1, 1)
  | Panic => (h, 101)
  end.
End commands.

(** ** What a computation does to the files

    [Quiet m]: [m] changes no file.  [Saves path m]: [m] changes at most the
    file at [path] and its temporary, and the former not when it returns an
    error. *)

Definition files (h : Host) : gmap string string := fs_files (host_fs h).

Class Quiet {E A} (m : st Host E A) : Prop := quiet h : files (m h).1 = files h.
Class Faultless {E A} (m : st Host E A) : Prop := faultless h e : (m h).2 <> Err e.
Class Saves {E A} (path : string) (m : st Host E A) : Prop := saves h :
  (forall p, p <> path -> p <> path +:+ ".tmp" -> files (m h).1 !! p = files h !! p) /\
  (forall e, (m h).2 = Err e -> files (m h).1 !! path = files h !! path).

Section effects.
Context {E : Type}.

#[export] Instance quiet_ret {A} (a : A) : Quiet (E:=E) (mret a).
Proof. done. Qed.
#[export] Instance quiet_lift {A} (r : res E A) : Quiet (st_lift r).
Proof. done. Qed.
#[export] Instance quiet_fail {A} (e : E) : Quiet (A:=A) (st_fail e).
Proof. done. Qed.
#[export] Instance quiet_bind {A B} (m : st Host E A) (f : A -> st Host E B) :
  Quiet m -> (forall a, Quiet (f a)) -> Quiet (m ≫= f).
Proof.
  intros Hm Hf h. rewrite st_bind_run. specialize (Hm h). destruct (m h) as [h' [a|e|]]; [|done..].
  by rewrite (Hf a).
Qed.
#[export] Instance quiet_map_err {E' A} (g : E' -> E) (m : st Host E' A) : Quiet m -> Quiet (st_map_err g m).
Proof. intros Hm h. specialize (Hm h). unfold st_map_err. by destruct (m h). Qed.
#[export] Instance quiet_if {A} (b : bool) (m1 m2 : st Host E A) :
  Quiet m1 -> Quiet m2 -> Quiet (if b then m1 else m2).
Proof. by destruct b. Qed.
#[export] Instance quiet_print s : Quiet (E:=E) (print s).
Proof. intros h. unfold print. by repeat case_match. Qed.
#[export] Instance quiet_println s : Quiet (E:=E) (println s).
Proof. apply _. Qed.
#[export] Instance quiet_eprintln s : Quiet (E:=E) (eprintln s).
Proof. done. Qed.
#[export] Instance quiet_println_all l : Quiet (E:=E) (println_all l).
Proof. induction l as [|s l IH]; cbn; apply _. Qed.
#[export] Instance quiet_exists path : Quiet (E:=E) (on_files (wallet_exists path)).
Proof. done. Qed.

#[export] Instance faultless_print s : Faultless (E:=E) (print s).
Proof. intros h e. unfold print. by repeat case_match. Qed.
#[export] Instance faultless_bind {A B} (m : st Host E A) (f : A -> st Host E B) :
  Faultless m -> (forall a, Faultless (f a)) -> Faultless (m ≫= f).
Proof.
  intros Hm Hf h e. rewrite st_bind_run. specialize (Hm h). destruct (m h) as [h' [a|e'|]]; [apply Hf|by destruct (Hm e')|intros [=]].
Qed.
#[export] Instance faultless_println_all l : Faultless (E:=E) (println_all l).
Proof. induction l as [|s l IH]; [done|]. cbn. apply _. Qed.

Lemma quiet_saves {A} path (m : st Host E A) : Quiet m -> Saves path m.
Proof. intros Hm h. rewrite (Hm h). done. Qed.
Lemma saves_after {A B} path (m : st Host E A) (f : A -> st Host E B) :
  Quiet m -> (forall a, Saves path (f a)) -> Saves path (m ≫= f).
Proof.
  intros Hm Hf h. rewrite st_bind_run. pose proof (Hm h) as Hq. destruct (m h) as [h' [a|e|]]; cbn [fst snd] in *;
    [|by rewrite Hq..]. destruct (Hf a h') as [H1 H2]. by rewrite Hq in *.
Qed.
Lemma saves_before {A B} path (m : st Host E A) (f : A -> st Host E B) :
  Saves path m -> (forall a, Quiet (f a)) -> (forall a, Faultless (f a)) -> Saves path (m ≫= f).
Proof.
  intros Hm Hf Hn h. rewrite st_bind_run. destruct (Hm h) as [H1 H2].
  destruct (m h) as [h' [a|e|]]; cbn [fst snd] in *; [|split; [done|]; intros e' [= <-]; by eapply H2|done].
  rewrite (Hf a h'). split; [done|]. intros e He. by destruct (Hn a h' e).
Qed.
Lemma saves_if {A} path (b : bool) (m1 m2 : st Host E A) :
  Saves path m1 -> Saves path m2 -> Saves path (if b then m1 else m2).
Proof. by destruct b. Qed.
End effects.
#[export] Hint Resolve saves_after saves_if quiet_saves | 5 : typeclass_instances.
#[export] Instance quiet_read_line : Quiet read_line.
Proof. intros h. unfold read_line. by destruct (host_stdin h). Qed.
#[export] Instance quiet_prompt prompt : Quiet (prompt_password prompt).
Proof. apply _. Qed.

Section command_files.
Context `{PqCrypto} `{Sha3Laws} `{HexCodec} `{!Serde KyveraWallet} `{!SerdeLaws KyveraWallet} `{!Serde Transaction}.
Context `{Aes256Gcm} `{Bip39} `{Chrono} `{!SerdePretty Transaction}.

#[export] Instance quiet_load path password : Quiet (E:=StorageError) (on_files (load_wallet path password)).
Proof.
  intros h. unfold on_files, load_wallet. rewrite st_bind_run. unfold st_map_err, fs_read.
  by destruct (map_err IoError _).
Qed.
#[export] Instance quiet_load_with_password path : Quiet (load_with_password path).
Proof. apply _. Qed.
#[export] Instance quiet_info args : Quiet (cmd_info args).
Proof. apply _. Qed.
#[export] Instance quiet_send d args : Quiet (cmd_send d args).
Proof. apply _. Qed.
#[export] Instance quiet_stake d args : Quiet (cmd_stake d args).
Proof. apply _. Qed.

Lemma save_v2_saves {E} (g : StorageError -> E) nonce wallet path password :
  Saves path (st_map_err g (on_files (save_wallet_v2 nonce wallet path password))).
Proof.
  intros h. destruct (to_vec_total wallet) as [json Hj]. unfold st_map_err, on_files, save_wallet_v2.
  rewrite st_bind_run. unfold st_lift. rewrite Hj. cbn [map_err].
  pose proof (save_encrypted_atomic (password +:+ KEY_DOMAIN) (nonce) json path (host_fs h)) as Ha.
  unfold derive_key_for_storage. destruct (save_encrypted _ _ _ _ _) as [fs r]. destruct Ha as (_ & Hp & Ho).
  split; [exact Ho|]. intros e He. apply Hp. intros ->. done.
Qed.
#[export] Instance set_password_saves d wallet path : Saves path (set_password_and_save d wallet path).
Proof. pose proof (@save_v2_saves string). unfold set_password_and_save. apply _. Qed.

Lemma create_saves d args : Saves (arg args 3) (cmd_create d args).
Proof.
  unfold cmd_create. repeat first
    [apply _|apply saves_before; [apply _|apply _|apply _]|apply saves_if|apply saves_after; [apply _|intros ?]].
Qed.
Lemma restore_saves d args : Saves (arg args 2) (cmd_restore d args).
Proof.
  unfold cmd_restore. cbv zeta. repeat first
    [apply _|apply saves_before; [apply _|apply _|apply _]|apply saves_if|apply saves_after; [apply _|intros ?]].
Qed.
End command_files.

(** ** Runs on a host whose prints succeed *)

Lemma println_all_run {E} l h :
  host_stdout_left h = None ->
  println_all (E:=E) l h = (with_stdout (host_stdout h ++ map (fun s => s +:+ newline) l) None h, Ok tt).
Proof.
  revert h. induction l as [|s l IH]; intros h Hl.
  - cbn. rewrite app_nil_r, <-Hl. by destruct h.
  - cbn [println_all st_for map]. rewrite st_bind_run. unfold println at 1, print at 1. rewrite Hl.
    fold (println_all (E:=E) l). rewrite IH by done. cbn. by rewrite <-app_assoc.
Qed.
Lemma prompt_run prompt h raw rest :
  host_stdout_left h = None -> host_stdin h = Line raw :: rest -> utf8_valid raw = true ->
  prompt_password prompt h =
    (with_stdin rest (with_stdout (host_stdout h ++ [prompt]) None h), Ok (strip_newline raw)).
Proof. intros Hl Hi Hv. unfold prompt_password. rewrite st_bind_run. unfold print, read_line. rewrite Hl. cbn. by rewrite Hi, Hv. Qed.

(** A host without failures, where the user is about to type [typed]. *)
Record ready (h : Host) (typed : list string) : Prop := {
  ready_stdout : host_stdout_left h = None;
  ready_fs : fs_faults (host_fs h) = [];
  ready_stdin : exists rest, host_stdin h = map Line typed ++ rest;
  ready_utf8 : Forall (fun raw => utf8_valid raw = true) typed;
}.

Lemma lower_hex_no_cont c : is_lower_hex c = true -> negb (is_cont c) = true.
Proof. unfold is_lower_hex, is_cont, in_range. lia. Qed.

Section command_runs.
Context `{PqLaws} `{Sha3Laws} `{HexLaws} `{!Serde KyveraWallet} `{!SerdeLaws KyveraWallet}.
Context `{!Serde Transaction} `{!SerdeLaws Transaction} `{Aes256Gcm} `{!AesLaws} `{Bip39Laws}.
Context `{Chrono} `{!SerdePretty Transaction}.

Lemma load_with_password_run path h raw w :
  ready h [raw] -> holds_wallet (host_fs h) path (strip_newline raw) w ->
  exists rest, load_with_password path h =
    (with_stdin rest (with_stdout (host_stdout h ++ ["  Wallet password: "]) None h), Ok w).
Proof.
  intros [Hl Hf [rest Hi] Hu] Hw. exists rest. apply Forall_cons in Hu as [Hu _].
  unfold load_with_password. rewrite st_bind_run, (prompt_run _ _ raw rest) by done.
  unfold st_map_err, on_files. cbn [host_fs with_stdin with_stdout].
  rewrite (load_holds path (strip_newline raw) w) by done. cbn. unfold with_fs, with_stdin, with_stdout. cbn.
  rewrite <-Hf. by destruct (host_fs h).
Qed.

Lemma generated_integrity d label : verify_address_integrity (generate_from d label) = true.
Proof. apply String.eqb_refl. Qed.

(** The password typed twice, on a file system without failures. *)
Lemma set_password_run d label path h raw1 raw2 :
  let w := generate_from d label in
  ready h [raw1; raw2] -> strip_newline raw1 = strip_newline raw2 -> String.length (file_nonce d) = NONCE_SIZE ->
  (forall json, to_vec w = Ok json -> str_len json <= AES_GCM_P_MAX) ->
  exists h', set_password_and_save d w path h = (h', Ok tt) /\ host_stdout_left h' = None /\
    (exists rest, host_stdin h = Line raw1 :: Line raw2 :: rest /\ host_stdin h' = rest) /\
    holds_wallet (mkFileSystem (files h') []) path (strip_newline raw1) w.
Proof.
  intros w [Hl Hf [rest Hi] Hu] Hs Hn Hj. apply Forall_cons in Hu as [Hu1 Hu]. apply Forall_cons in Hu as [Hu2 _].
  unfold set_password_and_save. rewrite st_bind_run, (prompt_run _ _ raw1 (Line raw2 :: rest)) by done.
  rewrite st_bind_run, (prompt_run _ _ raw2 rest) by done. rewrite <-Hs, String.eqb_refl. cbn [negb].
  unfold st_map_err, on_files. cbn [host_fs with_stdin with_stdout].
  pose proof (save_v2_holds (file_nonce d) w path (strip_newline raw1) (host_fs h) Hn (generated_integrity d label)) as Hsv.
  destruct (save_wallet_v2 _ _ _ _ _) as [fs r]. destruct Hsv as [Hok Hh]. rewrite Hok in * by done.
  eexists. split; [reflexivity|]. split; [done|]. split; [by exists rest|]. by apply Hh.
Qed.

(** [cmd_create] on a free path. *)
Lemma create_run d label path h raw1 raw2 :
  let w := generate_from d label in
  ready h [raw1; raw2] -> strip_newline raw1 = strip_newline raw2 -> files h !! path = None ->
  String.length (seed_entropy d) = 32%nat -> String.length (file_nonce d) = NONCE_SIZE ->
  (forall json, to_vec w = Ok json -> str_len json <= AES_GCM_P_MAX) ->
  exists h', cmd_create d ["kyv-wallet"; "create"; label; path] h = (h', Ok tt) /\
    holds_wallet (mkFileSystem (files h') []) path (strip_newline raw1) w.
Proof.
  intros w [Hl Hf [rest Hi] Hu] Hs Hp He Hn Hj. unfold cmd_create. cbn [length Nat.ltb Nat.leb].
  change (arg ["kyv-wallet"; "create"; label; path] 3) with path.
  change (arg ["kyv-wallet"; "create"; label; path] 2) with label. cbv zeta.
  rewrite st_bind_run. unfold on_files at 1, wallet_exists, fs_exists, fs_fault. rewrite Hf. cbn [head default].
  rewrite bool_decide_false by (unfold files in Hp; rewrite Hp; intros [? [=]]).
  destruct (from_entropy_total _ He) as [m Hm].
  rewrite st_bind_run. unfold st_lift at 1, generate_seed_phrase. rewrite Hm.
  rewrite st_bind_run. unfold st_lift at 1, seed_from_phrase. rewrite parse_to_string. cbn [map_err mbind res_bind].
  rewrite st_bind_run, println_all_run by done. rewrite st_bind_run.
  set (h1 := with_stdout _ _ _). fold w.
  destruct (set_password_run d label path h1 raw1 raw2) as (h2 & Hset & Hl2 & _ & Hh); [|done..|].
  { by split; [|cbn; rewrite Hf|exists rest|]. }
  fold w in Hset. rewrite Hset, println_all_run by done. eexists. split; [reflexivity|]. done.
Qed.

(** [restore] once it has read a valid phrase. *)
Definition after_phrase (d : Draws) (path : string) : st Host string unit :=
  println_all [""; "  Seed phrase valid. Enter a label for this wallet:"];;
  print "  > ";;
  line ← read_line;
  let label := trim line in
  let wallet := generate_from d label in
  set_password_and_save d wallet path;;
  println_all [
    "";
    "  Wallet restored and saved to: " +:+ path;
    "  Address: " +:+ w_address wallet;
    "" ].
Lemma restore_run d path h phrase rest :
  host_stdout_left h = None -> files h !! path = None -> utf8_valid phrase = true ->
  validate_seed_phrase (trim (strip_newline phrase)) = true ->
  cmd_restore d ["kyv-wallet"; "restore"; path] (with_stdin (Line phrase :: rest) h) =
    after_phrase d path (with_stdin rest (with_stdout ((host_stdout h ++ map (fun s => s +:+ newline)
      [""; "  Enter your 24-word seed phrase (words separated by spaces):"]) ++ ["  > "]) None
      (with_fs (with_files (files h) (host_fs h)) h))).
Proof.
  intros Hl Hp Hu Hv. unfold cmd_restore. cbn [length Nat.ltb Nat.leb].
  change (arg ["kyv-wallet"; "restore"; path] 2) with path. cbv zeta.
  rewrite st_bind_run. unfold on_files at 1, wallet_exists, fs_exists. cbn [host_fs with_stdin].
  assert ((match fs_fault (host_fs h) with Some _ => false
    | None => bool_decide (is_Some (fs_files (host_fs h) !! path)) end) = false) as ->.
  { case_match; [done|]. apply bool_decide_false. unfold files in Hp. rewrite Hp. intros [? [=]]. }
  rewrite st_bind_run, println_all_run by done. rewrite st_bind_run. unfold print at 1. cbn [host_stdout_left with_stdout].
  rewrite st_bind_run. unfold read_line at 1. cbn [host_stdin with_stdout with_fs with_stdin]. rewrite Hu, Hv. cbn [negb].
  done.
Qed.

Lemma send_builds d label now_ms now_ms' e recipient amount fee account_nonce chain_state_hash :
  let w := generate_from d label in
  amount <> 0 -> validate_address recipient = true ->
  exists tx, build_transfer now_ms now_ms' e w recipient amount fee account_nonce chain_state_hash = Ok tx /\
    signed_by w (new_transaction now_ms (w_address w) recipient amount fee account_nonce Transfer "")
      (new_transaction_nonce now_ms' account_nonce chain_state_hash) tx.
Proof.
  intros w Ha Hv. unfold build_transfer. rewrite (proj2 (Z.eqb_neq _ _)), Hv by done. cbn [negb].
  apply sign_and_hash_ok; [done|]. cbn. apply validate_address_spec in Hv as (x & -> & _). done.
Qed.

(** [info] of a file the password opens, for a public key of the size
    Dilithium's are (1952 bytes); a shorter one than 16 bytes makes it panic. *)
Lemma info_run path h raw w :
  ready h [raw] -> holds_wallet (host_fs h) path (strip_newline raw) w ->
  (16 <= String.length (Dilithium.public_key (w_signing_keypair w)))%nat ->
  exists h' first, cmd_info ["kyv-wallet"; "info"; path] h = (h', Ok tt) /\ files h' = files h /\
    slice_to (E:=string) 32 (wallet_public_key_hex w) = Ok first /\
    host_stdout h' = host_stdout h ++ "  Wallet password: " :: map (fun s => s +:+ newline) ([
      ""; banner; "  KYVERA WALLET INFO"; banner; "";
      "  Label:   " +:+ w_label w; "  Address: " +:+ w_address w;
      ""; "  Signing public key (first 32 chars):"; "  " +:+ first +:+ "..."; "";
      "  Created: " +:+ format_timestamp (w_created_at w); "";
      "  Note: Balance lookup requires a running node.";
      "        Coming in Month 5 — chain state layer."; ""]).
Proof.
  intros Hr Hw Hlen. destruct (load_with_password_run path h raw w Hr Hw) as [rest Hload].
  assert (exists first, slice_to (E:=string) 32 (wallet_public_key_hex w) = Ok first) as [first Hfirst].
  { unfold slice_to, wallet_public_key_hex. destruct (is_char_boundary 32 _) eqn:Hb; [by eexists|].
    exfalso. assert (is_char_boundary 32 (hex_encode (Dilithium.public_key (w_signing_keypair w))) = true); [|congruence].
    apply boundary_no_cont; [|rewrite hex_encode_length; lia].
    eapply str_forall_impl; [|apply hex_encode_digits]. apply lower_hex_no_cont. }
  unfold cmd_info. cbn [length Nat.ltb Nat.leb]. change (arg ["kyv-wallet"; "info"; path] 2) with path.
  rewrite st_bind_run, Hload. cbv zeta.
  rewrite st_bind_run, println_all_run by done. rewrite st_bind_run. unfold st_lift.
  change (info_signing_public_key (info w)) with (wallet_public_key_hex w). rewrite Hfirst.
  rewrite println_all_run by done. do 2 eexists. split; [reflexivity|]. split; [done|]. split; [done|].
  cbn [host_stdout with_stdout with_stdin]. by rewrite <-!app_assoc.
Qed.
End command_runs.

(** The path a command line may write to. *)
Definition written_path (args : list string) : option string :=
  if String.eqb (arg args 1) "create" && (4 <=? length args)%nat then Some (arg args 3)
  else if String.eqb (arg args 1) "restore" && (3 <=? length args)%nat then Some (arg args 2)
  else None.

Section main_facts.
Context `{PqCrypto} `{Sha3Laws} `{HexCodec} `{!Serde KyveraWallet} `{!SerdeLaws KyveraWallet} `{!Serde Transaction}.
Context `{Aes256Gcm} `{Bip39} `{Chrono} `{!SerdePretty Transaction}.

Lemma main_files d args h :
  (2 <= length args)%nat ->
  files (main d args h).1 = files (run_command d args h).1 /\
  ((main d args h).2 = 1 -> exists e, (run_command d args h).2 = Err e).
Proof.
  intros Hl. unfold main. destruct (Nat.ltb_spec (length args) 2); [lia|].
  destruct (run_command d args h) as [h' [a|e|]]; (split; [done|]); [done|by eexists|done].
Qed.

Lemma exists_run {E} path h :
  fs_fault (host_fs h) = None -> is_Some (files h !! path) ->
  exists h', on_files (E:=E) (wallet_exists path) h = (h', Ok true) /\ files h' = files h.
Proof.
  intros Hf He. unfold on_files, wallet_exists, fs_exists. rewrite Hf, bool_decide_true by done. by eexists.
Qed.

(** A command that finds the file it is to write leaves everything as it is. *)
Lemma existing_kept d args h path :
  written_path args = Some path -> fs_fault (host_fs h) = None -> is_Some (files h !! path) ->
  exists e, (run_command d args h).2 = Err e /\ files (run_command d args h).1 = files h.
Proof.
  intros Hw Hf He. unfold written_path in Hw. unfold run_command.
  destruct (String.eqb (arg args 1) "create") eqn:Hc; cbn [andb] in Hw.
  - destruct (Nat.leb_spec 4 (length args)) as [Hl|Hl].
    + injection Hw as <-. unfold cmd_create. rewrite (proj2 (Nat.ltb_ge _ _)) by lia. cbv zeta.
      destruct (exists_run (E:=string) _ h Hf He) as (h' & Hx & Hfh). rewrite st_bind_run, Hx. by eexists.
    + apply String.eqb_eq in Hc. by rewrite Hc in Hw.
  - destruct (String.eqb (arg args 1) "restore") eqn:Hr; [|done]. cbn [andb] in Hw.
    destruct (Nat.leb_spec 3 (length args)) as [Hl|Hl]; [|done]. injection Hw as <-.
    apply String.eqb_eq in Hr as ->. cbn [String.eqb Ascii.eqb Bool.eqb].
    unfold cmd_restore. rewrite (proj2 (Nat.ltb_ge _ _)) by lia. cbv zeta.
    destruct (exists_run (E:=string) _ h Hf He) as (h' & Hx & Hfh). rewrite st_bind_run, Hx. by eexists.
Qed.

Lemma run_command_effect d args :
  match written_path args with
  | None => Quiet (run_command d args)
  | Some path => Saves path (run_command d args)
  end.
Proof.
  unfold written_path, run_command.
  destruct (String.eqb (arg args 1) "create") eqn:Hc; cbn [andb].
  - destruct (Nat.leb_spec 4 (length args)) as [Hl|Hl]; [apply create_saves|].
    apply String.eqb_eq in Hc as ->. cbn [String.eqb Ascii.eqb Bool.eqb andb]. intros h. unfold cmd_create.
    by rewrite (proj2 (Nat.ltb_lt _ _)) by lia.
  - destruct (String.eqb (arg args 1) "restore") eqn:Hr; cbn [andb].
    + apply String.eqb_eq in Hr as ->. cbn [String.eqb Ascii.eqb Bool.eqb].
      destruct (Nat.leb_spec 3 (length args)) as [Hl|Hl]; [apply restore_saves|].
      intros h. unfold cmd_restore. by rewrite (proj2 (Nat.ltb_lt _ _)) by lia.
    + apply _.
Qed.
End main_facts.

(** ** Amounts *)

Lemma ten_to_pow k : 0 <= k -> Zpos (ten_to k) = 10 ^ k.
Proof. intros Hk. unfold ten_to. apply Z2Pos.id, Z.pow_pos_nonneg; lia. Qed.
Lemma decimal_units m k :
  0 <= m -> 0 <= k <= 9 -> m * 10 ^ (9 - k) < 2 ^ 53 ->
  let v := kyv_to_units (f64_of_decimal false m (- k)) in
  (m * 10 ^ (9 - k) < 2 ^ 51 -> m * 10 ^ (9 - k) - 1 <= v <= m * 10 ^ (9 - k)) /\
  (k = 0 -> v = m * 10 ^ (9 - k)).
Proof.
  intros Hm Hk Hu v. destruct m as [|m|m]; [|clear Hm|lia].
  { assert (v = 0) as -> by done. lia. }
  assert (0 < 10 ^ (9 - k)) by (apply Z.pow_pos_nonneg; lia).
  destruct (ratio_billion (m * ten_to (Z.max (- k) 0)) (ten_to (Z.max (- - k) 0)) (Zpos m * 10 ^ (9 - k))) as [H1' H2'].
  - rewrite Pos2Z.inj_mul, !ten_to_pow by lia. replace (Z.max (- k) 0) with 0 by lia.
    replace (Z.max (- - k) 0) with k by lia. change 1000000000 with (10 ^ 9).
    replace (10 ^ 9) with (10 ^ k * 10 ^ (9 - k)) by (rewrite <-Z.pow_add_r by lia; f_equal; lia). lia.
  - rewrite ten_to_pow by lia. change 1000000000 with (10 ^ 9). apply Z.pow_le_mono_r; lia.
  - lia.
  - split; [done|]. intros ->. apply (H2' (Zpos m)). rewrite Pos2Z.inj_mul. done.
Qed.

(** ** Properties *)

Section cli_safety.
Context `{PqCrypto} `{Sha3Laws} `{HexCodec} `{!Serde KyveraWallet} `{!SerdeLaws KyveraWallet} `{!Serde Transaction}.
Context `{Aes256Gcm} `{Bip39} `{Chrono} `{!SerdePretty Transaction}.

(** C22: whatever is typed, and whatever fails, kyv-wallet changes no file but the
    one [create] or [restore] was given and its temporary; it leaves that one
    alone when it exits with status 1, and, as long as the query whether it
    exists is answered, whenever it exists. *)
Theorem commands_protect_files d args h :
  let '(h', status) := main d args h in
  match written_path args with
  | None => files h' = files h
  | Some path =>
    (forall p, p <> path -> p <> path +:+ ".tmp" -> files h' !! p = files h !! p) /\
    (status = 1 -> files h' !! path = files h !! path) /\
    (fs_fault (host_fs h) = None -> is_Some (files h !! path) -> files h' = files h)
  end.
Proof.
  destruct (Nat.leb_spec 2 (length args)) as [Hl|Hl].
  - destruct (main_files d args h Hl) as [Hf Hs]. pose proof (run_command_effect d args) as He.
    pose proof (existing_kept d args h) as Hx. destruct (main d args h) as [h' status]. cbn [fst snd] in *.
    rewrite Hf. destruct (written_path args) as [path|]; [|apply He]. destruct (He h) as [Hother Herr].
    split; [done|]. split; [intros (e & Hr)%Hs; by eapply Herr|]. intros Hq Hi. by destruct (Hx path) as (e & _ & ?).
  - assert (written_path args = None) as ->.
    { unfold written_path. rewrite !(proj2 (Nat.leb_gt _ _)), !andb_false_r by lia. done. }
    unfold main. rewrite (proj2 (Nat.ltb_lt _ _)) by lia. pose proof (quiet_println_all (E:=string)) as Hq.
    pose proof (Hq _ h : files (print_usage (E:=string) h).1 = files h) as Hp.
    by destruct (print_usage h) as [h' [a|e|]].
Qed.
End cli_safety.

Section cli_properties.
Context `{PqLaws} `{Sha3Laws} `{HexLaws} `{!Serde KyveraWallet} `{!SerdeLaws KyveraWallet}.
Context `{!Serde Transaction} `{!SerdeLaws Transaction} `{Aes256Gcm} `{!AesLaws} `{Bip39Laws}.
Context `{Chrono} `{!SerdePretty Transaction}.

(** C38: [create] on a free path, with the password typed twice, ends with status 0,
    and [info] then opens the file with that password, shows the label and the
    address of the wallet that was created, and changes nothing. *)
Theorem create_then_info d label path h raw1 raw2 :
  let w := generate_from d label in
  ready h [raw1; raw2] -> strip_newline raw1 = strip_newline raw2 -> files h !! path = None ->
  String.length (seed_entropy d) = 32%nat -> String.length (file_nonce d) = NONCE_SIZE ->
  (forall json, to_vec w = Ok json -> str_len json <= AES_GCM_P_MAX) ->
  (16 <= String.length (Dilithium.public_key (w_signing_keypair w)))%nat ->
  let '(h1, status) := main d ["kyv-wallet"; "create"; label; path] h in
  status = 0 /\
  forall d' h2 raw, ready h2 [raw] -> strip_newline raw = strip_newline raw1 -> files h2 = files h1 ->
    let '(h3, status') := main d' ["kyv-wallet"; "info"; path] h2 in
    status' = 0 /\ files h3 = files h2 /\
    ("  Label:   " +:+ label +:+ newline) ∈ host_stdout h3 /\
    ("  Address: " +:+ Dilithium.address (Dilithium.generate (signing_entropy d)) +:+ newline) ∈ host_stdout h3.
Proof.
  intros w Hr Hs Hp He Hn Hj Hk. destruct (create_run d label path h raw1 raw2) as (h1 & Hc & Hh); [done..|].
  unfold main. cbn [length Nat.ltb Nat.leb]. change (run_command d ["kyv-wallet"; "create"; label; path])
    with (cmd_create d ["kyv-wallet"; "create"; label; path]). rewrite Hc. split; [done|].
  intros d' h2 raw Hr2 Hraw Hf.
  destruct (info_run path h2 raw w) as (h3 & first & Hi & Hf3 & _ & Ho); [done| |done|].
  { destruct Hh as (file & Hfile & Hd). exists file. rewrite Hraw. split; [|done]. by rewrite <-Hf in Hfile. }
  change (run_command d' ["kyv-wallet"; "info"; path]) with (cmd_info ["kyv-wallet"; "info"; path]).
  rewrite Hi, Ho, <-!str_app_assoc. split; [done|]. split; [done|].
  split; apply elem_of_app; right; apply list_elem_of_further, list_elem_of_fmap;
    (eexists; split; [reflexivity|]).
  - do 5 apply list_elem_of_further. left.
  - do 6 apply list_elem_of_further. left.
Qed.

(** C37: [send] with the password of a created wallet, a well-formed recipient and
    two numbers, of which the first does not come to zero units, signs the
    transfer to that recipient of the units the numbers are converted to
    ([kyv_to_units], which need not be the decimals typed: [amount_conversion]),
    with nonce 0, so that the signature verifies under the wallet's key; it
    prints the transaction and changes no file.  (The terminal works, and the
    transaction can be printed as JSON.) *)
Theorem send_signs d0 label d path recipient amount_text fee_text amount_kyv fee_kyv h raw :
  let w := generate_from d0 label in
  ready h [raw] -> holds_wallet (host_fs h) path (strip_newline raw) w ->
  parse_f64 amount_text = Ok amount_kyv -> parse_f64 fee_text = Ok fee_kyv ->
  kyv_to_units amount_kyv <> 0 -> validate_address recipient = true ->
  (forall tx, exists json, to_string_pretty tx = Ok json) ->
  exists h' tx json before, main d ["kyv-wallet"; "send"; path; recipient; amount_text; fee_text] h = (h', 0) /\
    files h' = files h /\
    signed_by w (new_transaction (tx_now_ms d) (w_address w) recipient (kyv_to_units amount_kyv)
      (kyv_to_units fee_kyv) 0 Transfer "") (new_transaction_nonce (nonce_now_ms d) 0 chain_state) tx /\
    to_string_pretty tx = Ok json /\ host_stdout h' = before ++ [json +:+ newline].
Proof.
  intros w Hr Hw Ha Hf Hu Hv Hp. destruct (load_with_password_run path h raw w Hr Hw) as [rest Hload].
  destruct (send_builds d0 label (tx_now_ms d) (nonce_now_ms d) (signature_entropy d) recipient
    (kyv_to_units amount_kyv) (kyv_to_units fee_kyv) 0 chain_state Hu Hv) as (tx & Htx & Hsigned).
  destruct (Hp tx) as [json Hjson]. fold w in Htx, Hsigned.
  unfold main. cbn [length Nat.ltb Nat.leb].
  change (run_command d ["kyv-wallet"; "send"; path; recipient; amount_text; fee_text])
    with (cmd_send d ["kyv-wallet"; "send"; path; recipient; amount_text; fee_text]).
  unfold cmd_send, arg. cbn [length Nat.ltb Nat.leb lookup list_lookup from_option id]. cbv zeta.
  rewrite st_bind_run. unfold st_lift at 1. rewrite Ha. cbn [map_err].
  rewrite st_bind_run. unfold st_lift at 1. rewrite Hf. cbn [map_err].
  rewrite st_bind_run, Hload, st_bind_run. unfold st_lift at 1. rewrite Htx. cbn [map_err].
  rewrite st_bind_run, println_all_run by done. rewrite st_bind_run. unfold st_lift. rewrite Hjson.
  rewrite println_all_run by done. do 4 eexists. split; [reflexivity|]. split; [done|]. split; [exact Hsigned|].
  split; [done|]. cbn [host_stdout with_stdout with_stdin map]. by rewrite cons_middle, app_assoc.
Qed.

(** [restore] does not use the seed phrase beyond checking it: two valid
    phrases, with the same random draws, end in the same wallet. *)
Theorem restore_ignores_phrase d path h phrase1 phrase2 rest :
  host_stdout_left h = None -> files h !! path = None ->
  utf8_valid phrase1 = true -> utf8_valid phrase2 = true ->
  validate_seed_phrase (trim (strip_newline phrase1)) = true ->
  validate_seed_phrase (trim (strip_newline phrase2)) = true ->
  main d ["kyv-wallet"; "restore"; path] (with_stdin (Line phrase1 :: rest) h) =
  main d ["kyv-wallet"; "restore"; path] (with_stdin (Line phrase2 :: rest) h).
Proof.
  intros Hl Hp Hu1 Hu2 Hv1 Hv2. unfold main. cbn [length Nat.ltb Nat.leb].
  change (run_command d ["kyv-wallet"; "restore"; path]) with (cmd_restore d ["kyv-wallet"; "restore"; path]).
  by rewrite (restore_run d path h phrase1), (restore_run d path h phrase2).
Qed.
End cli_properties.

(** C36: the amount a command signs for a decimal with at most nine digits after the
    point: exactly what was typed for a whole number of KYV below 2^53 units
    (nine million KYV), and what was typed or one unit less for any such decimal
    below 2^51 units (2.25 million KYV).  Above these bounds it can be several
    units less, or more ([CliWitness.large_amounts]). *)
Theorem amount_conversion ip fp :
  str_forall is_digit ip = true -> str_forall is_digit fp = true -> (String.length fp <= 9)%nat ->
  let whole := digits_value ip 0 * 10 ^ 9 in
  let units := digits_value (ip +:+ fp) 0 * 10 ^ (9 - str_len fp) in
  (ip <> "" -> whole < 2 ^ 53 -> exists kyv, parse_f64 ip = Ok kyv /\ kyv_to_units kyv = whole) /\
  (ip +:+ fp <> "" -> units < 2 ^ 51 ->
    exists kyv, parse_f64 (ip +:+ "." +:+ fp) = Ok kyv /\ units - 1 <= kyv_to_units kyv <= units).
Proof.
  intros Hi Hf Hl whole units. assert (forall s, str_forall is_digit s = true -> 0 <= digits_value s 0) as Hnonneg.
  { intros s Hs. by apply (digits_value_mono s 0 0). }
  split.
  - intros Hne Hw. eexists. split; [by apply parse_f64_digits|].
    destruct (decimal_units (digits_value ip 0) 0) as [_ He]; [by apply Hnonneg|lia|done|]. by apply He.
  - intros Hne Hu. eexists. split; [by apply parse_f64_point|].
    assert (0 <= str_len fp <= 9) by (unfold str_len; lia).
    destruct (decimal_units (digits_value (ip +:+ fp) 0) (str_len fp)) as [He _]; [|done|fold units; lia|by apply He].
    apply Hnonneg. by rewrite str_forall_app, Hi, Hf.
Qed.

(** The text [stake] prints for a tier. *)
Definition tier_text (tier : option ValidatorTier) : string :=
  match tier with
  | Some Nexus => "Nexus (+35% reward bonus)"
  | Some Kinetic => "Kinetic (+15% reward bonus)"
  | Some Igniter => "Igniter (standard rewards)"
  | None => "Below minimum — 500 KYV required for Igniter tier"
  end.
Lemma stake_tier_label_text amount : stake_tier_label amount = tier_text (from_staked_balance amount).
Proof. unfold stake_tier_label, from_staked_balance, minimum_stake. by repeat case_match. Qed.

Section stake_tier.
Context `{Build} `{SledLaws} `{!Serde Account} `{!SerdeLaws Account}.

(** The tier that [stake] announces for an amount is the one the ledger records
    when it applies the stake lock, for an account that staked nothing before;
    and for others the one of the whole stake. *)
Theorem announced_tier_recorded tx w :
  tx_wf tx -> tx_transaction_type tx = StakeLock -> tiers_consistent w ->
  wp (apply_transaction tx) w (fun r w' => r = Ok tt ->
    let staked := acc_staked_balance (account_at (tx_sender tx) w) in
    let tier := acc_validator_tier (account_at (tx_sender tx) w') in
    tier_text tier = stake_tier_label (staked + tx_amount tx)).
Proof.
  intros Htx Hty Ht. apply wp_valid. intros Hw. eapply wp_mono; [|by apply apply_transaction_refines].
  cbn beta. intros r w' He ->. symmetry in He. cbv zeta.
  destruct (transition_facts _ _ _ _ Hw Htx He) as (_ & Ht' & _).
  rewrite stake_tier_label_text, <-(transition_locks tx w w' Hw Htx Hty He). f_equal.
  exact (account_at_tier _ _ (Ht' Ht)).
Qed.
End stake_tier.

Module CliWitness.
Import Mem MemPq.
#[local] Existing Instance StorageWitness.toy_aes.
#[local] Existing Instance StorageWitness.toy_aes_laws.
#[local] Existing Instance StorageWitness.KyveraWallet_codec.
#[local] Existing Instance WalletWitness.toy_bip39.
#[local] Existing Instance WalletWitness.toy_bip39_laws.
#[local] Instance toy_chrono : Chrono := fun ts => Some (show_int ts).
#[local] Instance toy_pretty : SerdePretty Transaction := fun tx => to_vec tx.

Definition key1 : sign_entropy dilithium3 := "sixteen bytes or more".
Definition key2 : kem_entropy kyber768 := "network".
Definition key3 : sign_entropy sphincs := "epoch".
Definition draws : Draws := mkDraws _ (str_repeat 32 "e") key1 key2 key3 1700000000 "twelve bytes" 1000 1001 key1.
Definition typing (fs : FileSystem) (l : list string) : Host :=
  mkHost fs (map (fun s => Line (s +:+ newline)) l) [] None [].
Definition empty_disk : FileSystem := mkFileSystem ∅ [].
Definition fresh : Host := typing empty_disk ["secret"; "secret"].
Definition create_line : list string := ["kyv-wallet"; "create"; "main"; "w"].
Definition created : Host := (main draws create_line fresh).1.

Lemma create_then_info_witness :
  let '(h1, status) := main draws create_line fresh in
  status = 0 /\
  forall d' h2 raw, ready h2 [raw] -> strip_newline raw = strip_newline ("secret" +:+ newline) -> files h2 = files h1 ->
    let '(h3, status') := main d' ["kyv-wallet"; "info"; "w"] h2 in
    status' = 0 /\ files h3 = files h2 /\
    ("  Label:   " +:+ "main" +:+ newline) ∈ host_stdout h3 /\
    ("  Address: " +:+ Dilithium.address (Dilithium.generate (signing_entropy draws)) +:+ newline) ∈ host_stdout h3.
Proof.
  apply (create_then_info draws "main" "w" fresh ("secret" +:+ newline) ("secret" +:+ newline)).
  - split; [done|done|by exists []|by repeat constructor].
  - done.
  - done.
  - done.
  - done.
  - intros json Hj. apply Z.leb_le.
    assert (match to_vec (generate_from draws "main") with Ok j => str_len j <=? AES_GCM_P_MAX | _ => true end = true)
      as Hlen by (vm_compute; reflexivity). by rewrite Hj in Hlen.
  - vm_compute. lia.
Defined.

(** [create] over the wallet just created: status 1, and the file is kept. *)
Definition again : Host := typing (host_fs created) ["other"; "other"].
Lemma commands_protect_files_witness :
  fs_fault (host_fs again) = None /\ is_Some (files again !! "w") /\
  (main draws create_line again).2 = 1 /\ files (main draws create_line again).1 = files again.
Proof.
  assert (fs_fault (host_fs again) = None) as Hf by (vm_compute; reflexivity).
  assert (is_Some (files again !! "w")) as Hi by (refine (bool_decide_eq_true_1 _ _); vm_compute; reflexivity).
  split; [exact Hf|]. split; [exact Hi|]. split; [vm_compute; reflexivity|].
  pose proof (commands_protect_files draws create_line again) as Hsafe.
  destruct (main draws create_line again) as [h' status].
  destruct Hsafe as (_ & _ & Hsafe). exact (Hsafe Hf Hi).
Defined.

#[local] Existing Instance StorageWitness.KyveraWallet_eq_dec.
Lemma holds_wallet_computed fs path password w :
  match fs_files fs !! path with
  | Some file => match decode_wallet file password with Ok w' => bool_decide (w' = w) | _ => false end
  | None => false
  end = true -> holds_wallet fs path password w.
Proof.
  unfold holds_wallet. destruct (fs_files fs !! path) as [file|]; [|done].
  destruct (decode_wallet file password) as [w'|e|] eqn:Hd; [|done..].
  intros ->%bool_decide_eq_true. eauto.
Qed.
Definition bob : string := WalletWitness.bob.
Lemma send_signs_witness :
  let w := generate_from draws "main" in
  let h := typing (host_fs created) ["secret"] in
  exists h' tx json before, main draws ["kyv-wallet"; "send"; "w"; bob; "2.01"; "0.001"] h = (h', 0) /\
    files h' = files h /\
    signed_by w (new_transaction 1000 (w_address w) bob 2009999999 1000000 0 Transfer "")
      (new_transaction_nonce 1001 0 chain_state) tx /\
    to_string_pretty tx = Ok json /\ host_stdout h' = before ++ [json +:+ newline].
Proof.
  intros w h. pose (amount := match parse_f64 "2.01" with Ok x => x | _ => S754_nan end).
  pose (fee := match parse_f64 "0.001" with Ok x => x | _ => S754_nan end).
  assert (kyv_to_units amount = 2009999999) as Ha by (vm_compute; reflexivity).
  assert (kyv_to_units fee = 1000000) as Hf by (vm_compute; reflexivity).
  rewrite <-Ha, <-Hf.
  apply (send_signs draws "main" draws "w" bob "2.01" "0.001" amount fee h ("secret" +:+ newline)).
  - split; [done|vm_compute; done|by exists []|by repeat constructor].
  - apply holds_wallet_computed. vm_compute. reflexivity.
  - vm_compute. reflexivity.
  - vm_compute. reflexivity.
  - by rewrite Ha.
  - vm_compute. reflexivity.
  - intros tx. apply to_vec_total.
Defined.

Lemma restore_ignores_phrase_witness :
  main draws ["kyv-wallet"; "restore"; "w"]
    (with_stdin (map Line ["abandon ability"; "old"; "pw"; "pw"]) (typing empty_disk [])) =
  main draws ["kyv-wallet"; "restore"; "w"]
    (with_stdin (map Line ["zoo zone"; "old"; "pw"; "pw"]) (typing empty_disk [])).
Proof.
  apply (restore_ignores_phrase draws "w" (typing empty_disk []) "abandon ability" "zoo zone"
    (map Line ["old"; "pw"; "pw"])); done.
Defined.

Lemma amount_conversion_witness :
  let whole := digits_value "2" 0 * 10 ^ 9 in
  let units := digits_value ("2" +:+ "01") 0 * 10 ^ (9 - str_len "01") in
  ("2" <> "" -> whole < 2 ^ 53 -> exists kyv, parse_f64 "2" = Ok kyv /\ kyv_to_units kyv = whole) /\
  ("2" +:+ "01" <> "" -> units < 2 ^ 51 ->
    exists kyv, parse_f64 ("2" +:+ "." +:+ "01") = Ok kyv /\ units - 1 <= kyv_to_units kyv <= units).
Proof. apply (amount_conversion "2" "01"); [done|done|]. vm_compute. lia. Defined.

Definition units_of (s : string) : option (Z * string) :=
  match parse_f64 s with Ok x => Some (kyv_to_units x, show_f64 x) | _ => None end.
(** 2.01 KYV loses a unit; the two exact ones do not; what is no amount becomes
    zero or the largest [u64]. *)
Example amounts :
  map units_of ["2.01"; "10.5"; "0.001"; "-3"; "NaN"; "inf"; "1e30"; "1,5"; ""] =
  [Some (2009999999, "2.01"); Some (10500000000, "10.5"); Some (1000000, "0.001"); Some (0, "-3");
   Some (0, "NaN"); Some (u64_max, "inf"); Some (u64_max, "1000000000000000000000000000000"); None; None].
Proof. vm_compute. reflexivity. Qed.

(** Beyond the bounds of [amount_conversion]: three units less, and one more. *)
Example large_amounts :
  map units_of ["148431320.319301763"; "8633255.457937087"] =
  [Some (148431320319301760, "148431320.31930175"); Some (8633255457937088, "8633255.457937088")].
Proof. vm_compute. reflexivity. Qed.

(** Different passwords end with status 1. *)
Example mismatch :
  let '(h, status) := main draws create_line (typing empty_disk ["secret"; "secrot"]) in
  status = 1 /\ files h = ∅ /\ host_stderr h = ["Error: Passwords do not match. Wallet not saved." +:+ newline].
Proof. vm_compute. done. Qed.
(** A failed query for the file counts as no file: the wallet is replaced. *)
Example query_failed :
  let h := typing (mkFileSystem {[ "w" := "old wallet" ]} [Some (mkFault "Permission denied (os error 13)" None)])
    ["secret"; "secret"] in
  (main draws create_line h).2 = 0 /\
  bool_decide (files (main draws create_line h).1 !! "w" = Some "old wallet") = false.
Proof. split; vm_compute; reflexivity. Qed.
(** A wallet whose public key has less than 16 bytes makes [info] panic. *)
Example short_key :
  let fs := (save_wallet_v2 "twelve bytes" StorageWitness.wallet "w" "pass" empty_disk).1 in
  (main draws ["kyv-wallet"; "info"; "w"] (typing fs ["pass"])).2 = 101.
Proof. vm_compute. reflexivity. Qed.
Example trimmed : trim ("  two words " +:+ carriage_return) = "two words".
Proof. vm_compute. reflexivity. Qed.

Import MemWorld.
Definition lock : Transaction := mkTransaction "h" "val" staking_contract 600000000000 1000000 0 "sig" 1000 StakeLock "".
Definition staker : World := world_with [funded "val" 900000000000 0 0].
Lemma announced_tier_recorded_witness :
  wp (apply_transaction lock) staker (fun r w' => r = Ok tt ->
    let staked := acc_staked_balance (account_at "val" staker) in
    let tier := acc_validator_tier (account_at "val" w') in
    tier_text tier = stake_tier_label (staked + 600000000000)).
Proof.
  apply (announced_tier_recorded lock staker); [concrete|done|]. apply world_with_tiers. by repeat constructor.
Defined.
End CliWitness.
