(* ===== verification/TestKit.v ===== *)
(** * Running the tests of the crate

    The files [Tests*.v] are the unit tests of the crate, each a definition with
    the name and the steps of the Rust function, evaluated on the instances of
    [InMemory.v].  A test is a computation whose value says how the Rust test
    ends: [Ok tt] if every assertion holds, [Panic] where one fails or an
    [unwrap] meets nothing.  What a test draws from the clock is [clock]. *)
From S2P Require Import Prelude Text Extern InMemory Db.

Definition test : Type := res string unit.

(** The computations a test can be written in: an outcome, or steps on a store. *)
Class Testing (M : Type -> Type) := from_res : forall A, res string A -> M A.
Arguments from_res {M _ A} r.
#[export] Instance testing_res : Testing (res string) := fun A r => r.
#[export] Instance testing_st S : Testing (st S string) := fun A r => st_lift r.

Section assertions.
Context {M : Type -> Type} `{Testing M}.

(** [assert!], [assert_eq!], [assert_ne!] *)
Definition assert (b : bool) : M unit := from_res (if b then Ok tt else Panic).
Definition assert_eq {A} `{EqDecision A} (x y : A) : M unit := assert (bool_decide (x = y)).
Definition assert_ne {A} `{EqDecision A} (x y : A) : M unit := assert (negb (bool_decide (x = y))).

(** [unwrap] and [unwrap_err] of a [Result], [unwrap] of an [Option]. *)
Definition unwrap {E A} (r : res E A) : M A :=
  from_res match r with Ok a => Ok a | _ => Panic end.
Definition unwrap_err {E A} (r : res E A) : M E :=
  from_res match r with Err e => Ok e | _ => Panic end.
Definition unwrap_some {A} (o : option A) : M A :=
  from_res match o with Some a => Ok a | None => Panic end.

(** [r.is_ok()], [r.is_err()]: a panic inside [r] is the test's. *)
Definition did_ok {E A} (r : res E A) : M bool :=
  from_res match r with Ok _ => Ok true | Err _ => Ok false | Panic => Panic end.
Definition assert_ok {E A} (r : res E A) : M unit := from_res match r with Ok _ => Ok tt | _ => Panic end.
Definition assert_err {E A} (r : res E A) : M unit := from_res match r with Err _ => Ok tt | _ => Panic end.

(** [for x in l { body }] *)
Fixpoint for_each `{!MRet M, !MBind M} {A} (l : list A) (body : A -> M unit) : M unit :=
  match l with
  | [] => mret tt
  | x :: l => _ ← body x; for_each l body
  end.
End assertions.

(** The same for a step on a store: what it wrote before an error stays. *)
Definition outcome {S E A} (c : st S E A) : st S string (res E A) := fun s =>
  match c s with
  | (s', Panic) => (s', Panic)
  | (s', r) => (s', Ok r)
  end.
Definition do_unwrap {S E A} (c : st S E A) : st S string A := r ← outcome c; unwrap r.
Definition do_unwrap_some {S E A} (c : st S E (option A)) : st S string A := o ← do_unwrap c; unwrap_some o.
Definition do_err {S E A} (c : st S E A) : st S string unit := r ← outcome c; assert_err r.
Definition do_ok {S E A} (c : st S E A) : st S string unit := r ← outcome c; assert_ok r.
Definition do_unwrap_err {S E A} (c : st S E A) : st S string E := r ← outcome c; unwrap_err r.

(** [assert_eq!(c.unwrap(), a)], [assert!(c.unwrap())] *)
Definition expect {S E A} `{EqDecision A} (c : st S E A) (a : A) : st S string unit := x ← do_unwrap c; assert_eq x a.
Definition expect_true {S E} (c : st S E bool) : st S string unit := b ← do_unwrap c; assert b.

(** A step on the first or the second of two stores, or on a store inside another. *)
Definition on_fst {S T E A} (c : st S E A) : st (S * T) E A := fun '(s, t) => let '(s', r) := c s in ((s', t), r).
Definition on_snd {S T E A} (c : st T E A) : st (S * T) E A := fun '(s, t) => let '(t', r) := c t in ((s, t'), r).

(** [let db = KyveraDb::open_temp().unwrap();] and what follows. *)
Definition with_temp_db `{Sled} (body : st KyveraDb string unit) : test :=
  db ← unwrap open_temp; (body db).2.

(** [format!("kyv1{}", hex::encode([n; 32]))] *)
Definition byte_address `{HexCodec} (n : Z) : string := "kyv1" +:+ hex_encode (str_repeat 32 (String (of_byte n) "")).

(** [format!("{:0w$x}", n)] of a [u64], with at least 16 places. *)
Definition show_padded_hex `{HexCodec} (w : nat) (n : Z) : string :=
  str_repeat (w - 16) "0" +:+ hex_encode (u64_to_be_bytes n).
Definition option_list {A} (o : option A) : list A := match o with Some a => [a] | None => [] end.

(** [s.contains(p)] *)
Fixpoint str_contains (p s : string) : bool :=
  starts_with p s || match s with EmptyString => false | String _ s => str_contains p s end.

(** The time at which the tests run, in milliseconds. *)
Definition clock : Z := 1700000000000.

(** [(0..n)] *)
Definition upto (n : Z) : list Z := seqZ 0 n.

Definition pass (l : list test) : Prop := Forall (fun t => t = Ok tt) l.
(** Evaluates the tests one by one. *)
Ltac run := repeat (apply Forall_cons; split; [vm_compute; reflexivity|]); apply Forall_nil; exact I.
