(* ===== verification/TestsTypes.v ===== *)
(** * The tests of types/

    types/account.rs, types/transaction.rs and types/block.rs. *)
From S2P Require Import Prelude Text Codec Types Extern InMemory TestKit.

Module AccountTests.
Section tests.
Context `{Build} `{!Serde Account}.

Definition test_new_account_starts_empty : test :=
  let account := new_account "kyv1_test_address" in
  assert_eq (acc_balance account) 0;;
  assert_eq (acc_staked_balance account) 0;;
  assert_eq (acc_nonce account) 0;;
  assert_eq (acc_validator_tier account) None;;
  assert (negb (acc_is_contract account));;
  assert (negb (is_validator account)).

Definition test_total_balance : test :=
  let account := new_account "kyv1_test_address" in
  let account := set_balance 10000000000 account in
  let account := set_staked_balance 500000000000 account in
  total ← total_balance account;
  assert_eq total 510000000000.

Definition test_can_afford : test :=
  let account := new_account "kyv1_test_address" in
  let account := set_balance 10000000000 account in
  enough ← can_afford account 9000000000 1000000;
  assert enough;;
  enough ← can_afford account 10000000000 1000000;
  assert (negb enough).

Definition test_validator_tier_from_stake : test :=
  assert_eq (from_staked_balance 100000000000) None;;
  assert_eq (from_staked_balance 500000000000) (Some Igniter);;
  assert_eq (from_staked_balance 5000000000000) (Some Kinetic);;
  assert_eq (from_staked_balance 25000000000000) (Some Nexus).

Definition test_update_validator_tier : test :=
  let account := new_account "kyv1_test_address" in
  let account := update_validator_tier account in
  assert_eq (acc_validator_tier account) None;;
  let account := set_staked_balance 500000000000 account in
  let account := update_validator_tier account in
  assert_eq (acc_validator_tier account) (Some Igniter);;
  let account := set_staked_balance 5000000000000 account in
  let account := update_validator_tier account in
  assert_eq (acc_validator_tier account) (Some Kinetic);;
  let account := set_staked_balance 25000000000000 account in
  let account := update_validator_tier account in
  assert_eq (acc_validator_tier account) (Some Nexus).

Definition test_account_serialization : test :=
  let account := new_account "kyv1_test_address" in
  let account := set_balance 50000000000 account in
  let account := set_staked_balance 500000000000 account in
  let account := update_validator_tier account in
  json ← unwrap (to_vec account);
  decoded ← unwrap (from_slice json);
  assert_eq account decoded;;
  assert_eq (acc_validator_tier decoded) (Some Igniter).
End tests.
End AccountTests.

Module TransactionTests.
Section tests.
Context `{!Serde Transaction}.

Definition test_transaction_creation : test :=
  let tx := new_transaction clock "sender_address" "receiver_address" 10000000000 1000000 0 Transfer "" in
  assert_eq (tx_amount tx) 10000000000;;
  assert_eq (tx_fee tx) 1000000;;
  assert_eq (tx_nonce tx) 0;;
  assert (is_empty (tx_hash tx));;
  assert (is_empty (tx_signature tx));;
  assert (0 <? tx_timestamp tx).

Definition test_transaction_not_signed_on_creation : test :=
  let tx := new_transaction clock "sender" "receiver" 1000000000 1000000 0 Transfer "" in
  assert (negb (is_signed tx)).

Definition test_transaction_type_checks : test :=
  let transfer := new_transaction clock "sender" "receiver" 1000000000 1000000 0 Transfer "" in
  let deploy := new_transaction clock "sender" "contract_address" 0 5000000 1 ContractDeploy
    (String (of_byte 0) "asm") in
  assert (is_transfer transfer);;
  assert (negb (is_contract_deploy transfer));;
  assert (is_contract_deploy deploy);;
  assert (negb (is_transfer deploy)).

Definition test_transaction_serialization : test :=
  let tx := new_transaction clock "sender_address" "receiver_address" 5000000000 1000000 42 Transfer "" in
  json ← unwrap (to_vec tx);
  decoded ← unwrap (from_slice json);
  assert_eq tx decoded;;
  assert_eq (tx_nonce decoded) 42;;
  assert_eq (tx_amount decoded) 5000000000.
End tests.
End TransactionTests.

Module BlockTests.
Section tests.
Context `{!Serde Block}.

Definition test_block_header_creation : test :=
  let header := new_header clock 0 (str_repeat 64 "0") "merkle_root_placeholder" 4 true 0 in
  assert_eq (hdr_index header) 0;;
  assert_eq (hdr_nonce header) 0;;
  assert_eq (hdr_difficulty header) 4;;
  assert (hdr_is_epoch_block header);;
  assert_eq (hdr_epoch_index header) 0;;
  assert (0 <? hdr_timestamp header).

Definition test_block_creation : test :=
  let header := new_header clock 0 (str_repeat 64 "0") "merkle_root_placeholder" 4 true 0 in
  let block := new_block header ["tx_hash_1"; "tx_hash_2"] "miner_address_placeholder" 50000000000 in
  assert_eq (height block) 0;;
  assert (is_epoch_block block);;
  assert_eq (length (blk_transaction_hashes block)) 2%nat;;
  assert_eq (blk_block_reward block) 50000000000;;
  assert (is_empty (blk_hash block)).

Definition test_block_serialization : test :=
  let header := new_header clock 1 "prev_hash" "merkle" 4 false 0 in
  let block := new_block header [] "producer" 0 in
  json ← unwrap (to_vec block);
  decoded ← unwrap (from_slice json);
  assert_eq block decoded;;
  assert_eq (hdr_index (blk_header decoded)) 1;;
  assert (negb (hdr_is_epoch_block (blk_header decoded))).
End tests.
End BlockTests.

Module TypesPass.
Import Mem.

Example account_tests : pass [AccountTests.test_new_account_starts_empty; AccountTests.test_total_balance;
  AccountTests.test_can_afford; AccountTests.test_validator_tier_from_stake; AccountTests.test_update_validator_tier;
  AccountTests.test_account_serialization].
Proof. run. Qed.

Example transaction_tests : pass [TransactionTests.test_transaction_creation;
  TransactionTests.test_transaction_not_signed_on_creation; TransactionTests.test_transaction_type_checks;
  TransactionTests.test_transaction_serialization].
Proof. run. Qed.

Example block_tests : pass [BlockTests.test_block_header_creation; BlockTests.test_block_creation;
  BlockTests.test_block_serialization].
Proof. run. Qed.
End TypesPass.
