(* ===== verification/TestsChain.v ===== *)
(** * The tests of chain/

    chain/hash.rs, chain/merkle.rs, chain/mining.rs and
    chain/block_producer.rs. *)
From S2P Require Import Prelude Text Codec Types Extern InMemory Hash Merkle Mining Db BlockProducer TestKit.

Module HashTests.
Section tests.
Context `{Sha3} `{HexCodec}.

Definition test_sha3_256_is_deterministic : test :=
  let input := "kyvera genesis block" in
  let hash1 := sha3_256_hex input in
  let hash2 := sha3_256_hex input in
  assert_eq hash1 hash2.

Definition test_sha3_256_produces_64_char_hex : test :=
  let hash := sha3_256_hex "test" in
  assert_eq (str_len hash) 64.

Definition test_different_inputs_produce_different_hashes : test :=
  let hash1 := sha3_256_hex "kyvera block 1" in
  let hash2 := sha3_256_hex "kyvera block 2" in
  assert_ne hash1 hash2.

Definition test_double_sha3_differs_from_single : test :=
  let input := "kyvera" in
  let single := sha3_256_hex input in
  let double := double_sha3_256 input in
  assert_ne single double;;
  assert_eq (str_len double) 64.

Definition test_block_header_hash_is_deterministic : test :=
  let hash1 := hash_block_header 0 1234567890 (str_repeat 64 "0") "merkle_root_placeholder" 42 4 true 0 "" in
  let hash2 := hash_block_header 0 1234567890 (str_repeat 64 "0") "merkle_root_placeholder" 42 4 true 0 "" in
  assert_eq hash1 hash2;;
  assert_eq (str_len hash1) 64.

Definition test_changing_nonce_changes_hash : test :=
  let hash1 := hash_block_header 0 1234567890 "prev" "merkle" 0 4 false 0 "" in
  let hash2 := hash_block_header 0 1234567890 "prev" "merkle" 1 4 false 0 "" in
  assert_ne hash1 hash2.

Definition test_meets_difficulty_zero_is_always_true : test :=
  let hash := sha3_256_hex "anything" in
  assert (meets_difficulty hash 0).

Definition test_meets_difficulty_checks_leading_zeros : test :=
  assert (meets_difficulty "0000abcd" 4);;
  assert (meets_difficulty "000abcde" 3);;
  assert (negb (meets_difficulty "000abcde" 4));;
  assert (negb (meets_difficulty "abcdef00" 1)).

Definition test_count_leading_zeros : test :=
  assert_eq (count_leading_zeros "0000abcd") 4;;
  assert_eq (count_leading_zeros "000abcde") 3;;
  assert_eq (count_leading_zeros "abcdef00") 0;;
  assert_eq (count_leading_zeros "00000000") 8.

Definition test_transaction_hash_is_deterministic : test :=
  let hash1 := hash_transaction "kyv1sender" "kyv1receiver" 1000000000 1000000 0 1234567890 "Transfer" "" "signature" in
  let hash2 := hash_transaction "kyv1sender" "kyv1receiver" 1000000000 1000000 0 1234567890 "Transfer" "" "signature" in
  assert_eq hash1 hash2.

Definition test_changing_amount_changes_transaction_hash : test :=
  let hash1 := hash_transaction "kyv1sender" "kyv1receiver" 1000000000 1000000 0 1234567890 "Transfer" "" "sig" in
  let hash2 := hash_transaction "kyv1sender" "kyv1receiver" 2000000000 1000000 0 1234567890 "Transfer" "" "sig" in
  assert_ne hash1 hash2.
End tests.
End HashTests.

Module MerkleTests.
Section tests.
Context `{Sha3} `{HexCodec}.

Definition make_hashes (n : Z) : list string :=
  map (fun i => sha3_256_hex ("transaction_" +:+ show_uint i)) (upto n).

Definition test_empty_block_has_known_root : test :=
  let root := compute_merkle_root [] in
  assert_eq root (sha3_256_hex "kyvera-empty-block").

Definition test_single_transaction_root_is_tx_hash : test :=
  let hashes := make_hashes 1 in
  let root := compute_merkle_root hashes in
  first ← unwrap_some (hashes !! 0%nat);
  assert_eq root first.

Definition test_two_transactions : test :=
  let hashes := make_hashes 2 in
  let root := compute_merkle_root hashes in
  hash0 ← unwrap_some (hashes !! 0%nat);
  hash1 ← unwrap_some (hashes !! 1%nat);
  let expected := hash_pair hash0 hash1 in
  assert_eq root expected;;
  assert_eq (str_len root) 64.

Definition test_merkle_root_is_deterministic : test :=
  let hashes := make_hashes 8 in
  let root1 := compute_merkle_root hashes in
  let root2 := compute_merkle_root hashes in
  assert_eq root1 root2.

Definition test_changing_one_transaction_changes_root : test :=
  let hashes := make_hashes 4 in
  let root1 := compute_merkle_root hashes in
  let hashes := <[2%nat := sha3_256_hex "tampered transaction"]> hashes in
  let root2 := compute_merkle_root hashes in
  assert_ne root1 root2.

(** [generate_proof(hashes, target).unwrap()] *)
Definition proof_of (hashes : list string) (target : string) : res string MerkleProof :=
  proof ← generate_proof hashes target;
  unwrap_some proof.

Definition test_proof_generation_and_verification : test :=
  let hashes := make_hashes 8 in
  target ← unwrap_some (hashes !! 3%nat);
  proof ← proof_of hashes target;
  assert (verify_proof proof);;
  assert_eq (mp_root proof) (compute_merkle_root hashes).

Definition test_proof_for_every_transaction_in_block : test :=
  let hashes := make_hashes 7 in
  for_each hashes (fun hash =>
    proof ← proof_of hashes hash;
    assert (verify_proof proof)).

Definition test_tampered_proof_fails_verification : test :=
  let hashes := make_hashes 4 in
  first ← unwrap_some (hashes !! 0%nat);
  proof ← proof_of hashes first;
  let proof := mkMerkleProof (sha3_256_hex "fake transaction") (mp_siblings proof) (mp_root proof) in
  assert (negb (verify_proof proof)).

Definition test_proof_for_nonexistent_transaction_returns_none : test :=
  let hashes := make_hashes 4 in
  let fake_hash := sha3_256_hex "not in this block" in
  proof ← generate_proof hashes fake_hash;
  assert (negb (bool_decide (is_Some proof))).

Definition test_odd_number_of_transactions : test :=
  let hashes := make_hashes 5 in
  let root := compute_merkle_root hashes in
  assert_eq (str_len root) 64;;
  for_each hashes (fun hash =>
    proof ← proof_of hashes hash;
    assert (verify_proof proof)).

Definition test_large_block : test :=
  let hashes := make_hashes 128 in
  let root := compute_merkle_root hashes in
  assert_eq (str_len root) 64;;
  for_each [0; 1; 63; 64; 127]%nat (fun i =>
    hash ← unwrap_some (hashes !! i);
    proof ← proof_of hashes hash;
    assert (verify_proof proof)).
End tests.
End MerkleTests.

Module MiningTests.
Section tests.
Context `{Build} `{Sha3} `{HexCodec}.

Definition test_header (difficulty : Z) : BlockHeader :=
  new_header clock 0 (str_repeat 64 "0") "merkle_root_placeholder" difficulty true 0.

Definition test_genesis_block_reward : test :=
  assert_eq (calculate_block_reward 0) (50 * KYV_UNITS);;
  assert_eq (calculate_block_reward 1) (50 * KYV_UNITS);;
  assert_eq (calculate_block_reward 289999) (50 * KYV_UNITS).

Definition test_first_halving : test :=
  assert_eq (calculate_block_reward 290000) (25 * KYV_UNITS);;
  assert_eq (calculate_block_reward 579999) (25 * KYV_UNITS).

Definition test_second_halving : test :=
  assert_eq (calculate_block_reward 580000) (12 * KYV_UNITS + 500000000).

Definition test_reward_eventually_reaches_zero : test :=
  assert_eq (calculate_block_reward (290000 * 100)) 0.

Definition test_mine_block_at_low_difficulty : test :=
  let header := test_header 1 in
  let result := mine_block header 100000 in
  assert (bool_decide (is_Some result));;
  mined ← unwrap_some result;
  assert (starts_with "0" (mined_hash mined));;
  assert (verify_proof_of_work (mined_hash mined) 1).

Definition test_mine_block_at_difficulty_2 : test :=
  let header := test_header 2 in
  let result := mine_block header 1000000 in
  assert (bool_decide (is_Some result));;
  mined ← unwrap_some result;
  assert (starts_with "00" (mined_hash mined));;
  assert (verify_proof_of_work (mined_hash mined) 2).

Definition test_mining_respects_max_attempts : test :=
  let header := test_header 4 in
  let result := mine_block header 1 in
  let _ := result in
  mret tt.

Definition test_verify_proof_of_work : test :=
  let header := test_header 1 in
  mined ← unwrap_some (mine_block header 100000);
  assert (verify_proof_of_work (mined_hash mined) 1);;
  assert (negb (verify_proof_of_work (mined_hash mined) 10)).

Definition test_difficulty_adjustment_increases_when_too_fast : test :=
  let timestamps := map (fun i => i * 1) (upto 10) in
  new_diff ← calculate_next_difficulty 4 timestamps true;
  assert (4 <? new_diff).

Definition test_difficulty_adjustment_decreases_when_too_slow : test :=
  let timestamps := map (fun i => i * 1200) (upto 10) in
  new_diff ← calculate_next_difficulty 4 timestamps true;
  assert (new_diff <? 4).

Definition test_difficulty_never_goes_below_minimum : test :=
  let timestamps := map (fun i => i * 99999) (upto 10) in
  new_diff ← calculate_next_difficulty 1 timestamps true;
  assert (MIN_DIFFICULTY <=? new_diff).

Definition test_difficulty_never_exceeds_maximum : test :=
  let timestamps := map (fun i => i) (upto 10) in
  new_diff ← calculate_next_difficulty MAX_DIFFICULTY timestamps true;
  assert (new_diff <=? MAX_DIFFICULTY).

Definition test_halving_interval_constant : test :=
  assert_eq HALVING_INTERVAL 290000.

Definition test_genesis_reward_constant : test :=
  assert_eq GENESIS_BLOCK_REWARD 50000000000.
End tests.
End MiningTests.

Module ProducerTests.
Section tests.
Context `{Build} `{Sha3} `{HexCodec}.

Definition TEST_MINER : string := "kyv1" +:+ str_repeat 64 "a".

Definition test_genesis_block_production : test :=
  block ← unwrap (produce_genesis_block clock TEST_MINER);
  let header := blk_header block in
  assert_eq (hdr_index header) 0;;
  assert_eq (hdr_previous_hash header) (str_repeat 64 "0");;
  assert (hdr_is_epoch_block header);;
  assert_eq (hdr_epoch_index header) 0;;
  assert_eq (blk_block_reward block) GENESIS_BLOCK_REWARD;;
  assert (negb (is_empty (blk_hash block)));;
  assert (verify_proof_of_work (blk_hash block) (hdr_difficulty header)).

Definition test_chain_tip_starts_at_genesis : test :=
  let tip := genesis_tip in
  assert_eq (tip_height tip) 0;;
  assert_eq (tip_hash tip) (str_repeat 64 "0");;
  assert_eq (tip_epoch_index tip) 0;;
  assert_eq (tip_total_work tip) 0.

Definition test_chain_tip_advances_after_block : test :=
  block ← unwrap (produce_genesis_block clock TEST_MINER);
  let tip := genesis_tip in
  tip ← advance tip block;
  assert_eq (tip_hash tip) (blk_hash block);;
  assert_eq (tip_height tip) 0;;
  assert_eq (tip_epoch_index tip) 0;;
  assert (0 <? tip_total_work tip).

Definition test_micro_block_production : test :=
  genesis ← unwrap (produce_genesis_block clock TEST_MINER);
  tip ← advance genesis_tip genesis;
  micro ← unwrap (produce_micro_block clock [] tip TEST_MINER u64_max);
  let header := blk_header micro in
  assert_eq (hdr_index header) 1;;
  assert_eq (hdr_previous_hash header) (blk_hash genesis);;
  assert (negb (hdr_is_epoch_block header));;
  assert_eq (blk_block_reward micro) 0;;
  assert (verify_proof_of_work (blk_hash micro) (hdr_difficulty header)).

Definition test_epoch_block_production : test :=
  genesis ← unwrap (produce_genesis_block clock TEST_MINER);
  tip ← advance genesis_tip genesis;
  epoch ← unwrap (produce_epoch_block clock [blk_hash genesis] tip TEST_MINER "state_root_placeholder" u64_max);
  let header := blk_header epoch in
  assert_eq (hdr_index header) 1;;
  assert (hdr_is_epoch_block header);;
  assert_eq (hdr_epoch_index header) 1;;
  assert_eq (blk_block_reward epoch) GENESIS_BLOCK_REWARD;;
  assert (verify_proof_of_work (blk_hash epoch) (hdr_difficulty header)).

Definition test_block_validation_passes_for_valid_block : test :=
  genesis ← unwrap (produce_genesis_block clock TEST_MINER);
  tip ← advance genesis_tip genesis;
  micro ← unwrap (produce_micro_block clock [] tip TEST_MINER u64_max);
  let result := validate_block clock micro tip [] in
  assert_ok result.

(** A block with another header. *)
Definition set_header (header : BlockHeader) (b : Block) : Block :=
  mkBlock header (blk_transaction_hashes b) (blk_hash b) (blk_validator_signature b)
    (blk_producer_address b) (blk_block_reward b).
Definition set_previous_hash (hash : string) (h : BlockHeader) : BlockHeader :=
  mkBlockHeader (hdr_index h) (hdr_timestamp h) hash (hdr_merkle_root h) (hdr_nonce h)
    (hdr_difficulty h) (hdr_is_epoch_block h) (hdr_epoch_index h) (hdr_state_root h).
Definition set_difficulty (difficulty : Z) (h : BlockHeader) : BlockHeader :=
  mkBlockHeader (hdr_index h) (hdr_timestamp h) (hdr_previous_hash h) (hdr_merkle_root h)
    (hdr_nonce h) difficulty (hdr_is_epoch_block h) (hdr_epoch_index h) (hdr_state_root h).

Definition test_validation_rejects_wrong_previous_hash : test :=
  genesis ← unwrap (produce_genesis_block clock TEST_MINER);
  tip ← advance genesis_tip genesis;
  micro ← unwrap (produce_micro_block clock [] tip TEST_MINER u64_max);
  let micro := set_header (set_previous_hash (str_repeat 64 "1") (blk_header micro)) micro in
  let result := validate_block clock micro tip [] in
  assert match result with Err (InvalidPreviousHash _ _) => true | _ => false end.

Definition test_validation_rejects_insufficient_pow : test :=
  genesis ← unwrap (produce_genesis_block clock TEST_MINER);
  tip ← advance genesis_tip genesis;
  micro ← unwrap (produce_micro_block clock [] tip TEST_MINER u64_max);
  let micro := set_header (set_difficulty 20 (blk_header micro)) micro in
  let result := validate_block clock micro tip [] in
  assert match result with Err InsufficientProofOfWork => true | _ => false end.

Definition test_epoch_counter_increments_correctly : test :=
  genesis ← unwrap (produce_genesis_block clock TEST_MINER);
  tip ← advance genesis_tip genesis;
  epoch1 ← unwrap (produce_epoch_block clock [blk_hash genesis] tip TEST_MINER "state_root_1" u64_max);
  assert_eq (hdr_epoch_index (blk_header epoch1)) 1;;
  tip ← advance tip epoch1;
  epoch2 ← unwrap (produce_epoch_block clock [blk_hash epoch1] tip TEST_MINER "state_root_2" u64_max);
  assert_eq (hdr_epoch_index (blk_header epoch2)) 2.

Definition test_halving_reflected_in_epoch_rewards : test :=
  let reward_before := calculate_block_reward 289999 in
  let reward_after := calculate_block_reward 290000 in
  assert_eq reward_before GENESIS_BLOCK_REWARD;;
  assert_eq reward_after (GENESIS_BLOCK_REWARD / 2).
End tests.
End ProducerTests.

Module ChainPass.
Import Mem.

Example hash_tests : pass [HashTests.test_sha3_256_is_deterministic; HashTests.test_sha3_256_produces_64_char_hex;
  HashTests.test_different_inputs_produce_different_hashes; HashTests.test_double_sha3_differs_from_single;
  HashTests.test_block_header_hash_is_deterministic; HashTests.test_changing_nonce_changes_hash;
  HashTests.test_meets_difficulty_zero_is_always_true; HashTests.test_meets_difficulty_checks_leading_zeros;
  HashTests.test_count_leading_zeros; HashTests.test_transaction_hash_is_deterministic;
  HashTests.test_changing_amount_changes_transaction_hash].
Proof. run. Qed.

Example merkle_tests : pass [MerkleTests.test_empty_block_has_known_root;
  MerkleTests.test_single_transaction_root_is_tx_hash; MerkleTests.test_two_transactions;
  MerkleTests.test_merkle_root_is_deterministic; MerkleTests.test_changing_one_transaction_changes_root;
  MerkleTests.test_proof_generation_and_verification; MerkleTests.test_proof_for_every_transaction_in_block;
  MerkleTests.test_tampered_proof_fails_verification; MerkleTests.test_proof_for_nonexistent_transaction_returns_none;
  MerkleTests.test_odd_number_of_transactions; MerkleTests.test_large_block].
Proof. run. Qed.

Example mining_tests : pass [MiningTests.test_genesis_block_reward; MiningTests.test_first_halving;
  MiningTests.test_second_halving; MiningTests.test_reward_eventually_reaches_zero;
  MiningTests.test_mine_block_at_low_difficulty; MiningTests.test_mine_block_at_difficulty_2;
  MiningTests.test_mining_respects_max_attempts; MiningTests.test_verify_proof_of_work;
  MiningTests.test_difficulty_adjustment_increases_when_too_fast;
  MiningTests.test_difficulty_adjustment_decreases_when_too_slow;
  MiningTests.test_difficulty_never_goes_below_minimum; MiningTests.test_difficulty_never_exceeds_maximum;
  MiningTests.test_halving_interval_constant; MiningTests.test_genesis_reward_constant].
Proof. run. Qed.

Example producer_tests : pass [ProducerTests.test_genesis_block_production;
  ProducerTests.test_chain_tip_starts_at_genesis; ProducerTests.test_chain_tip_advances_after_block;
  ProducerTests.test_micro_block_production; ProducerTests.test_epoch_block_production;
  ProducerTests.test_block_validation_passes_for_valid_block;
  ProducerTests.test_validation_rejects_wrong_previous_hash; ProducerTests.test_validation_rejects_insufficient_pow;
  ProducerTests.test_epoch_counter_increments_correctly; ProducerTests.test_halving_reflected_in_epoch_rewards].
Proof. run. Qed.
End ChainPass.
