(* ===== verification/TestsStorage.v ===== *)
(** * The tests of storage/

    storage/db.rs, account_store.rs, tx_store.rs, block_store.rs and
    state_trie.rs.  Each opens a database of its own. *)
From S2P Require Import Prelude Text Codec Types Extern InMemory Hash Merkle Mining Db AccountStore TxStore.
From S2P Require Import BlockProducer BlockStore StateTrie TestKit.

Module DbTests.
Section tests.
Context `{Sled}.

Definition test_open_temp_database : test := with_temp_db (
  db ← st_get;
  assert_eq (count BlocksByHash db) 0;;
  assert_eq (count Accounts db) 0;;
  assert_eq (count Transactions db) 0).

Definition test_write_and_read : test := with_temp_db (
  let key := "test_key" in
  let value := "test_value" in
  do_unwrap (write Metadata key value);;
  result ← do_unwrap (read Metadata key);
  assert_eq result (Some value)).

Definition test_read_nonexistent_key_returns_none : test := with_temp_db (
  result ← do_unwrap (read Metadata "does_not_exist");
  assert_eq result None).

Definition test_exists : test := with_temp_db (
  expect (exists_ Metadata "key") false;;
  do_unwrap (write Metadata "key" "value");;
  expect_true (exists_ Metadata "key")).

Definition test_delete : test := with_temp_db (
  do_unwrap (write Metadata "key" "value");;
  expect_true (exists_ Metadata "key");;
  do_unwrap (delete Metadata "key");;
  expect (exists_ Metadata "key") false).

Definition test_metadata_helpers : test := with_temp_db (
  do_unwrap (set_metadata "chain_tip" "some_hash");;
  result ← do_unwrap (get_metadata "chain_tip");
  assert_eq result (Some "some_hash")).

Definition test_count : test := with_temp_db (
  db ← st_get;
  assert_eq (count Accounts db) 0;;
  do_unwrap (write Accounts "addr1" "data1");;
  do_unwrap (write Accounts "addr2" "data2");;
  db ← st_get;
  assert_eq (count Accounts db) 2).

Definition test_multiple_trees_are_independent : test := with_temp_db (
  do_unwrap (write BlocksByHash "same_key" "block_data");;
  in_blocks ← do_unwrap (read BlocksByHash "same_key");
  in_accounts ← do_unwrap (read Accounts "same_key");
  assert (bool_decide (is_Some in_blocks));;
  assert_eq in_accounts None).
End tests.
End DbTests.

Module AccountStoreTests.
Section tests.
Context `{Build} `{HexCodec} `{Sled} `{!Serde Account}.

Definition test_address (n : Z) : string := byte_address n.

Definition test_get_balance_returns_zero_for_unknown_address : test := with_temp_db (
  balance ← do_unwrap (get_balance (test_address 1));
  assert_eq balance 0).

Definition test_credit_and_get_balance : test := with_temp_db (
  let addr := test_address 1 in
  do_unwrap (credit_account addr 50000000000);;
  balance ← do_unwrap (get_balance addr);
  assert_eq balance 50000000000).

Definition test_debit_reduces_balance : test := with_temp_db (
  let addr := test_address 1 in
  do_unwrap (credit_account addr 50000000000);;
  do_unwrap (debit_account addr 10000000000);;
  expect (get_balance addr) 40000000000).

Definition test_debit_insufficient_balance_fails : test := with_temp_db (
  let addr := test_address 1 in
  do_unwrap (credit_account addr 5000000000);;
  do_err (debit_account addr 10000000000)).

Definition test_nonce_starts_at_zero : test := with_temp_db (
  expect (get_nonce (test_address 1)) 0).

Definition test_nonce_increments : test := with_temp_db (
  let addr := test_address 1 in
  do_unwrap (credit_account addr 1000000000);;
  do_unwrap (increment_nonce addr);;
  do_unwrap (increment_nonce addr);;
  expect (get_nonce addr) 2).

Definition test_stake_lock_moves_balance : test := with_temp_db (
  let addr := test_address 1 in
  do_unwrap (credit_account addr 1000000000000);;
  do_unwrap (lock_stake addr 500000000000);;
  account ← do_unwrap_some (get_account addr);
  assert_eq (acc_balance account) 500000000000;;
  assert_eq (acc_staked_balance account) 500000000000;;
  assert (is_validator account)).

Definition test_stake_unlock_moves_balance_back : test := with_temp_db (
  let addr := test_address 1 in
  do_unwrap (credit_account addr 1000000000000);;
  do_unwrap (lock_stake addr 500000000000);;
  do_unwrap (unlock_stake addr 500000000000);;
  account ← do_unwrap_some (get_account addr);
  assert_eq (acc_balance account) 1000000000000;;
  assert_eq (acc_staked_balance account) 0;;
  assert (negb (is_validator account))).

Definition test_get_validators : test := with_temp_db (
  let addr1 := test_address 1 in
  let addr2 := test_address 2 in
  let addr3 := test_address 3 in
  do_unwrap (credit_account addr1 1000000000000);;
  do_unwrap (lock_stake addr1 500000000000);;
  do_unwrap (credit_account addr2 10000000000000);;
  do_unwrap (lock_stake addr2 5000000000000);;
  do_unwrap (credit_account addr3 1000000000000);;
  validators ← do_unwrap get_validators;
  assert_eq (length validators) 2%nat).

Definition test_account_count : test := with_temp_db (
  db ← st_get;
  assert_eq (account_count db) 0;;
  do_unwrap (credit_account (test_address 1) 1000000000);;
  do_unwrap (credit_account (test_address 2) 1000000000);;
  db ← st_get;
  assert_eq (account_count db) 2).
End tests.
End AccountStoreTests.

Module TxStoreTests.
Section tests.
Context `{HexCodec} `{Sled} `{!Serde Transaction}.

Definition make_tx (sender receiver : string) (nonce : Z) (hash : string) : Transaction :=
  let tx := new_transaction clock sender receiver 1000000000 1000000 nonce Transfer "" in
  let tx := set_tx_hash hash tx in
  set_tx_signature "test_signature" tx.

Definition addr (n : Z) : string := byte_address n.

Definition test_save_and_get_transaction : test := with_temp_db (
  let tx := make_tx (addr 1) (addr 2) 0 (show_padded 64 1) in
  do_unwrap (save_transaction tx);;
  loaded ← do_unwrap (get_transaction (tx_hash tx));
  assert (bool_decide (is_Some loaded));;
  loaded ← unwrap_some loaded;
  assert_eq (tx_hash loaded) (tx_hash tx);;
  assert_eq (tx_sender loaded) (tx_sender tx);;
  assert_eq (tx_nonce loaded) 0).

Definition test_transaction_exists : test := with_temp_db (
  let tx := make_tx (addr 1) (addr 2) 0 (show_padded 64 1) in
  expect (transaction_exists (tx_hash tx)) false;;
  do_unwrap (save_transaction tx);;
  expect_true (transaction_exists (tx_hash tx))).

Definition test_get_nonexistent_transaction_returns_none : test := with_temp_db (
  result ← do_unwrap (get_transaction (show_padded 64 99));
  assert_eq result None).

Definition test_get_transactions_by_sender : test := with_temp_db (
  let sender := addr 1 in
  let receiver := addr 2 in
  for_each (upto 3) (fun nonce =>
    let tx := make_tx sender receiver nonce (show_padded 64 (nonce + 1)) in
    do_unwrap (save_transaction tx));;
  let other_tx := make_tx (addr 3) receiver 0 (show_padded 64 99) in
  do_unwrap (save_transaction other_tx);;
  hashes ← do_unwrap (get_transactions_by_sender sender);
  assert_eq (length hashes) 3%nat).

Definition test_transactions_returned_in_nonce_order : test := with_temp_db (
  let sender := addr 1 in
  for_each [2; 0; 1] (fun nonce =>
    let tx := make_tx sender (addr 2) nonce (show_padded_hex 64 (nonce + 10)) in
    do_unwrap (save_transaction tx));;
  hashes ← do_unwrap (get_transactions_by_sender sender);
  txs ← st_fold hashes [] (fun txs h =>
    tx ← do_unwrap (get_transaction h);
    mret (txs ++ option_list tx));
  tx0 ← unwrap_some (txs !! 0%nat);
  assert_eq (tx_nonce tx0) 0;;
  tx1 ← unwrap_some (txs !! 1%nat);
  assert_eq (tx_nonce tx1) 1;;
  tx2 ← unwrap_some (txs !! 2%nat);
  assert_eq (tx_nonce tx2) 2).

Definition test_save_block_transactions : test := with_temp_db (
  let txs := map (fun i => make_tx (addr 1) (addr 2) i (show_padded 64 (i + 1))) (upto 5) in
  do_unwrap (save_block_transactions txs);;
  db ← st_get;
  assert_eq (transaction_count db) 5).

Definition test_cannot_save_transaction_with_empty_hash : test := with_temp_db (
  let tx := make_tx (addr 1) (addr 2) 0 "" in
  let tx := set_tx_hash "" tx in
  do_err (save_transaction tx)).

Definition test_get_recent_transactions_limit : test := with_temp_db (
  let sender := addr 1 in
  for_each (upto 10) (fun nonce =>
    let tx := make_tx sender (addr 2) nonce (show_padded 64 (nonce + 1)) in
    do_unwrap (save_transaction tx));;
  recent ← do_unwrap (get_recent_transactions_by_sender sender 3);
  assert_eq (length recent) 3%nat).
End tests.
End TxStoreTests.

Module BlockStoreTests.
Section tests.
Context `{Build} `{Sha3} `{HexCodec} `{Sled} `{!Serde Block} `{!Serde ChainTip}.

Definition TEST_MINER : string := "kyv1" +:+ str_repeat 64 "a".

Definition test_save_and_load_block_by_hash : test := with_temp_db (
  block ← unwrap (produce_genesis_block clock TEST_MINER);
  do_unwrap (save_block block);;
  loaded ← do_unwrap (get_block_by_hash (blk_hash block));
  assert (bool_decide (is_Some loaded));;
  loaded ← unwrap_some loaded;
  assert_eq (blk_hash loaded) (blk_hash block);;
  assert_eq (hdr_index (blk_header loaded)) 0;;
  assert_eq (blk_block_reward loaded) (blk_block_reward block)).

Definition test_save_and_load_block_by_height : test := with_temp_db (
  block ← unwrap (produce_genesis_block clock TEST_MINER);
  do_unwrap (save_block block);;
  loaded ← do_unwrap (get_block_by_height 0);
  assert (bool_decide (is_Some loaded));;
  loaded ← unwrap_some loaded;
  assert_eq (blk_hash loaded) (blk_hash block)).

Definition test_block_exists : test := with_temp_db (
  block ← unwrap (produce_genesis_block clock TEST_MINER);
  expect (block_exists (blk_hash block)) false;;
  do_unwrap (save_block block);;
  expect_true (block_exists (blk_hash block))).

Definition test_nonexistent_block_returns_none : test := with_temp_db (
  result ← do_unwrap (get_block_by_hash "nonexistent_hash");
  assert_eq result None).

Definition test_block_count : test := with_temp_db (
  db ← st_get;
  assert_eq (block_count db) 0;;
  block ← unwrap (produce_genesis_block clock TEST_MINER);
  do_unwrap (save_block block);;
  db ← st_get;
  assert_eq (block_count db) 1).

Definition test_save_and_load_chain_tip : test := with_temp_db (
  block ← unwrap (produce_genesis_block clock TEST_MINER);
  tip ←? advance genesis_tip block;
  do_unwrap (save_chain_tip tip);;
  loaded ← do_unwrap load_chain_tip;
  assert (bool_decide (is_Some loaded));;
  loaded ← unwrap_some loaded;
  assert_eq (tip_hash loaded) (tip_hash tip);;
  assert_eq (tip_height loaded) (tip_height tip);;
  assert_eq (tip_epoch_index loaded) (tip_epoch_index tip)).

Definition test_load_chain_tip_returns_none_on_fresh_db : test := with_temp_db (
  tip ← do_unwrap load_chain_tip;
  assert_eq tip None).

Definition test_chain_tip_updates_on_new_block : test := with_temp_db (
  block ← unwrap (produce_genesis_block clock TEST_MINER);
  tip ←? advance genesis_tip block;
  do_unwrap (save_chain_tip tip);;
  restored_tip ← do_unwrap_some load_chain_tip;
  assert_eq (tip_hash restored_tip) (blk_hash block)).
End tests.
End BlockStoreTests.

Module StateTrieTests.
Section tests.
Context `{Build} `{Sha3} `{HexCodec} `{Sled} `{!Serde Account}.

Definition addr (n : Z) : string := byte_address n.

Definition make_transfer (sender receiver : string) (amount fee nonce : Z) : Transaction :=
  let tx := new_transaction clock sender receiver amount fee nonce Transfer "" in
  let tx := set_tx_hash (show_padded 64 (nonce + 1)) tx in
  set_tx_signature "sig" tx.

Definition test_empty_state_has_known_root : test := with_temp_db (
  root ← do_unwrap compute_state_root;
  assert_eq (str_len root) 64;;
  root2 ← do_unwrap compute_state_root;
  assert_eq root root2).

Definition test_state_root_changes_when_account_changes : test := with_temp_db (
  root_before ← do_unwrap compute_state_root;
  do_unwrap (credit_account (addr 1) 1000000000);;
  root_after ← do_unwrap compute_state_root;
  assert_ne root_before root_after).

Definition test_save_and_load_state_root : test := with_temp_db (
  root ← do_unwrap compute_state_root;
  do_unwrap (save_state_root root);;
  loaded ← do_unwrap load_state_root;
  assert_eq loaded (Some root)).

Definition test_apply_transfer : test := with_temp_db (
  let sender := addr 1 in
  let receiver := addr 2 in
  do_unwrap (credit_account sender 100000000000);;
  let tx := make_transfer sender receiver 10000000000 1000000 0 in
  do_unwrap (apply_transaction tx);;
  sender_balance ← do_unwrap (get_balance sender);
  receiver_balance ← do_unwrap (get_balance receiver);
  assert_eq sender_balance (100000000000 - 10000000000 - 1000000);;
  assert_eq receiver_balance 10000000000).

Definition test_transfer_increments_nonce : test := with_temp_db (
  let sender := addr 1 in
  do_unwrap (credit_account sender 100000000000);;
  let tx := make_transfer sender (addr 2) 1000000000 1000000 0 in
  do_unwrap (apply_transaction tx);;
  nonce ← do_unwrap (get_nonce sender);
  assert_eq nonce 1).

Definition test_transfer_insufficient_balance_fails : test := with_temp_db (
  let sender := addr 1 in
  do_unwrap (credit_account sender 1000000);;
  let tx := make_transfer sender (addr 2) 10000000000 1000000 0 in
  do_err (apply_transaction tx)).

Definition test_transfer_wrong_nonce_fails : test := with_temp_db (
  let sender := addr 1 in
  do_unwrap (credit_account sender 100000000000);;
  let tx := make_transfer sender (addr 2) 1000000000 1000000 1 in
  do_err (apply_transaction tx)).

Definition test_snapshot_and_rollback : test := with_temp_db (
  let sender := addr 1 in
  let receiver := addr 2 in
  do_unwrap (credit_account sender 100000000000);;
  root_before ← do_unwrap compute_state_root;
  snapshot ← do_unwrap (take_snapshot 1 [sender; receiver]);
  let tx := make_transfer sender receiver 10000000000 1000000 0 in
  do_unwrap (apply_transaction tx);;
  root_after ← do_unwrap compute_state_root;
  assert_ne root_before root_after;;
  do_unwrap (rollback_to_snapshot snapshot);;
  sender_balance ← do_unwrap (get_balance sender);
  assert_eq sender_balance 100000000000;;
  receiver_balance ← do_unwrap (get_balance receiver);
  assert_eq receiver_balance 0).

Definition test_same_state_produces_same_root : test :=
  db1 ← unwrap open_temp;
  db2 ← unwrap open_temp;
  let steps : st (KyveraDb * KyveraDb) string unit :=
    for_each [1; 2; 3] (fun i =>
      do_unwrap (on_fst (credit_account (addr i) (1000000000 * i)));;
      do_unwrap (on_snd (credit_account (addr i) (1000000000 * i))));;
    root1 ← do_unwrap (on_fst compute_state_root);
    root2 ← do_unwrap (on_snd compute_state_root);
    assert_eq root1 root2 in
  (steps (db1, db2)).2.
End tests.
End StateTrieTests.

Module StoragePass.
Import Mem.

Example db_tests : pass [DbTests.test_open_temp_database; DbTests.test_write_and_read;
  DbTests.test_read_nonexistent_key_returns_none; DbTests.test_exists; DbTests.test_delete;
  DbTests.test_metadata_helpers; DbTests.test_count; DbTests.test_multiple_trees_are_independent].
Proof. run. Qed.

Example account_store_tests : pass [AccountStoreTests.test_get_balance_returns_zero_for_unknown_address;
  AccountStoreTests.test_credit_and_get_balance; AccountStoreTests.test_debit_reduces_balance;
  AccountStoreTests.test_debit_insufficient_balance_fails; AccountStoreTests.test_nonce_starts_at_zero;
  AccountStoreTests.test_nonce_increments; AccountStoreTests.test_stake_lock_moves_balance;
  AccountStoreTests.test_stake_unlock_moves_balance_back; AccountStoreTests.test_get_validators;
  AccountStoreTests.test_account_count].
Proof. run. Qed.

Example tx_store_tests : pass [TxStoreTests.test_save_and_get_transaction; TxStoreTests.test_transaction_exists;
  TxStoreTests.test_get_nonexistent_transaction_returns_none; TxStoreTests.test_get_transactions_by_sender;
  TxStoreTests.test_transactions_returned_in_nonce_order; TxStoreTests.test_save_block_transactions;
  TxStoreTests.test_cannot_save_transaction_with_empty_hash; TxStoreTests.test_get_recent_transactions_limit].
Proof. run. Qed.

Example block_store_tests : pass [BlockStoreTests.test_save_and_load_block_by_hash;
  BlockStoreTests.test_save_and_load_block_by_height; BlockStoreTests.test_block_exists;
  BlockStoreTests.test_nonexistent_block_returns_none; BlockStoreTests.test_block_count;
  BlockStoreTests.test_save_and_load_chain_tip; BlockStoreTests.test_load_chain_tip_returns_none_on_fresh_db;
  BlockStoreTests.test_chain_tip_updates_on_new_block].
Proof. run. Qed.

Example state_trie_tests : pass [StateTrieTests.test_empty_state_has_known_root;
  StateTrieTests.test_state_root_changes_when_account_changes; StateTrieTests.test_save_and_load_state_root;
  StateTrieTests.test_apply_transfer; StateTrieTests.test_transfer_increments_nonce;
  StateTrieTests.test_transfer_insufficient_balance_fails; StateTrieTests.test_transfer_wrong_nonce_fails;
  StateTrieTests.test_snapshot_and_rollback; StateTrieTests.test_same_state_produces_same_root].
Proof. run. Qed.
End StoragePass.
