(* ===== verification/TestsConsensus.v ===== *)
(** * The tests of consensus/

    consensus/coinbase.rs, genesis.rs, staking.rs, validators.rs and rules.rs. *)
From S2P Require Import Prelude Text Codec Types Extern InMemory Hash Merkle Mining Db AccountStore.
From S2P Require Import BlockProducer BlockStore StateTrie Coinbase Genesis Staking Validators Rules TestKit.

Definition set_amount (amount : Z) (t : Transaction) : Transaction :=
  mkTransaction (tx_hash t) (tx_sender t) (tx_receiver t) amount (tx_fee t) (tx_nonce t)
    (tx_signature t) (tx_timestamp t) (tx_transaction_type t) (tx_data t).
Definition set_sender (sender : string) (t : Transaction) : Transaction :=
  mkTransaction (tx_hash t) sender (tx_receiver t) (tx_amount t) (tx_fee t) (tx_nonce t)
    (tx_signature t) (tx_timestamp t) (tx_transaction_type t) (tx_data t).

Module CoinbaseTests.
Section tests.
Context `{Build} `{Sha3} `{HexCodec} `{Sled} `{!Serde Account}.

Definition TEST_MINER : string := "kyv1" +:+ str_repeat 64 "a".

Definition test_build_coinbase_genesis_reward : test :=
  let coinbase := build_coinbase clock TEST_MINER 0 (str_repeat 64 "a") in
  assert_eq (tx_sender coinbase) COINBASE_SENDER;;
  assert_eq (tx_receiver coinbase) TEST_MINER;;
  assert_eq (tx_amount coinbase) GENESIS_BLOCK_REWARD;;
  assert_eq (tx_fee coinbase) 0;;
  assert_eq (tx_nonce coinbase) 0;;
  assert (negb (is_empty (tx_hash coinbase))).

Definition test_coinbase_hash_is_deterministic : test :=
  let block_hash := str_repeat 64 "b" in
  let cb1 := build_coinbase clock TEST_MINER 1 block_hash in
  let cb2 := build_coinbase clock TEST_MINER 1 block_hash in
  assert_eq (tx_hash cb1) (tx_hash cb2).

Definition test_different_epochs_produce_different_hashes : test :=
  let block_hash := str_repeat 64 "c" in
  let cb1 := build_coinbase clock TEST_MINER 0 block_hash in
  let cb2 := build_coinbase clock TEST_MINER 1 block_hash in
  assert_ne (tx_hash cb1) (tx_hash cb2).

Definition test_coinbase_reward_halves_correctly : test :=
  let cb_epoch0 := build_coinbase clock TEST_MINER 0 (str_repeat 64 "a") in
  let cb_epoch1 := build_coinbase clock TEST_MINER HALVING_INTERVAL (str_repeat 64 "b") in
  assert_eq (tx_amount cb_epoch0) (50 * KYV_UNITS);;
  assert_eq (tx_amount cb_epoch1) (25 * KYV_UNITS).

Definition test_verify_coinbase_valid : test :=
  let block_hash := str_repeat 64 "d" in
  let coinbase := build_coinbase clock TEST_MINER 5 block_hash in
  assert (verify_coinbase coinbase 5 block_hash).

Definition test_verify_coinbase_wrong_reward_fails : test :=
  let block_hash := str_repeat 64 "e" in
  let coinbase := build_coinbase clock TEST_MINER 0 block_hash in
  let coinbase := set_amount 999999999999 coinbase in
  assert (negb (verify_coinbase coinbase 0 block_hash)).

Definition test_verify_coinbase_wrong_height_fails : test :=
  let block_hash := str_repeat 64 "f" in
  let coinbase := build_coinbase clock TEST_MINER 0 block_hash in
  assert (negb (verify_coinbase coinbase 1 block_hash)).

Definition test_apply_coinbase_credits_miner : test := with_temp_db (
  let block_hash := str_repeat 64 "g" in
  let coinbase := build_coinbase clock TEST_MINER 0 block_hash in
  do_unwrap (apply_coinbase coinbase 0);;
  balance ← do_unwrap (get_balance TEST_MINER);
  assert_eq balance GENESIS_BLOCK_REWARD).

Definition test_apply_coinbase_with_fee_share : test := with_temp_db (
  let block_hash := str_repeat 64 "h" in
  let coinbase := build_coinbase clock TEST_MINER 0 block_hash in
  let fee_share := 5000000 in
  do_unwrap (apply_coinbase coinbase fee_share);;
  balance ← do_unwrap (get_balance TEST_MINER);
  assert_eq balance (GENESIS_BLOCK_REWARD + fee_share)).

Definition test_apply_non_coinbase_fails : test := with_temp_db (
  let coinbase := build_coinbase clock TEST_MINER 0 (str_repeat 64 "i") in
  let coinbase := set_sender TEST_MINER coinbase in
  do_err (apply_coinbase coinbase 0)).

Definition test_validator_fee_share_is_40_percent : test :=
  let total_fees := 100000000 in
  share ← calculate_validator_fee_share total_fees;
  assert_eq share 40000000.

(** [calculate_mined_supply(h)]: the loop has ended. *)
Definition mined_supply (h : Z) : res string Z :=
  supply ← unwrap_some (calculate_mined_supply h);
  supply.

Definition test_mined_supply_at_genesis : test :=
  supply ← mined_supply 0;
  assert_eq supply GENESIS_BLOCK_REWARD.

Definition test_mined_supply_never_exceeds_mining_allocation : test :=
  supply ← mined_supply (HALVING_INTERVAL * 10);
  assert (supply <=? MINING_ALLOCATION).

Lemma mined_supply_run h x : calculate_mined_supply (E:=string) h = Some (Ok x) -> mined_supply h = Ok x.
Proof. unfold mined_supply. intros ->. done. Qed.
(** The 2,900,000 rounds of the last test are not run: what they compute is known. *)
Lemma mined_supply_test_passes : test_mined_supply_never_exceeds_mining_allocation = Ok tt.
Proof.
  unfold test_mined_supply_never_exceeds_mining_allocation.
  assert (0 <= HALVING_INTERVAL * 10 < HALVING_INTERVAL * (u32_max + 1) - 1) as Hh by done.
  rewrite (mined_supply_run _ _ (mined_supply_loop _ Hh)).
  destruct (rewards_below_range (HALVING_INTERVAL * 10 + 1)) as [_ Hr]; [done|].
  revert Hr. generalize (rewards_below (HALVING_INTERVAL * 10 + 1)). intros supply Hr.
  assert (mined_cap <= MINING_ALLOCATION) as Hc by done. cbn. rewrite (proj2 (Z.leb_le _ _)); [done|lia].
Qed.
End tests.
End CoinbaseTests.

Module GenesisTests.
Section tests.
Context `{Build} `{Sha3} `{HexCodec} `{Sled} `{!Serde Account} `{!Serde Block} `{!Serde ChainTip}.

Definition test_genesis_allocations_sum_to_total_supply : test :=
  let sum := MINING_ALLOCATION + ECOSYSTEM_ALLOCATION + FOUNDER_ALLOCATION + COMMUNITY_ALLOCATION
    + TREASURY_ALLOCATION in
  assert_eq sum TOTAL_SUPPLY.

Definition test_initialize_chain : test := with_temp_db (
  tip ← do_unwrap (initialize_chain clock);
  assert_eq (tip_height tip) 0;;
  assert (negb (is_empty (tip_hash tip)));;
  assert_eq (tip_epoch_index tip) 0).

Definition test_cannot_initialize_twice : test := with_temp_db (
  do_unwrap (initialize_chain clock);;
  e ← do_unwrap_err (initialize_chain clock);
  assert (str_contains "already initialized" e)).

Definition test_genesis_allocations_applied_correctly : test := with_temp_db (
  do_unwrap (initialize_chain clock);;
  expect (get_balance ECOSYSTEM_ADDRESS) ECOSYSTEM_ALLOCATION;;
  expect (get_balance COMMUNITY_ADDRESS) COMMUNITY_ALLOCATION;;
  expect (get_balance TREASURY_ADDRESS) TREASURY_ALLOCATION).

Definition test_founder_gets_genesis_block_reward : test := with_temp_db (
  do_unwrap (initialize_chain clock);;
  founder_balance ← do_unwrap (get_balance FOUNDER_ADDRESS);
  assert_eq founder_balance (FOUNDER_ALLOCATION + GENESIS_BLOCK_REWARD)).

Definition test_genesis_block_saved_to_database : test := with_temp_db (
  do_unwrap (initialize_chain clock);;
  genesis ← do_unwrap_some (get_block_by_height 0);
  assert_eq (hdr_index (blk_header genesis)) 0;;
  assert (hdr_is_epoch_block (blk_header genesis));;
  assert_eq (blk_producer_address genesis) GENESIS_MINER).

Definition test_state_root_committed_at_genesis : test := with_temp_db (
  do_unwrap (initialize_chain clock);;
  root ← do_unwrap load_state_root;
  assert (bool_decide (is_Some root));;
  root ← unwrap_some root;
  assert_eq (str_len root) 64).

Definition test_verify_genesis_integrity : test := with_temp_db (
  do_unwrap (initialize_chain clock);;
  expect_true verify_genesis_integrity).

Definition test_verify_genesis_integrity_fails_on_empty_db : test := with_temp_db (
  expect verify_genesis_integrity false).
End tests.
End GenesisTests.

Module StakingTests.
Section tests.
Context `{Build} `{HexCodec} `{Sled} `{!Serde Account} `{!Serde PendingUnstake}.

Definition addr (n : Z) : string := byte_address n.

Definition test_request_unstake_removes_staked_balance_immediately : test := with_temp_db (
  let validator := addr 1 in
  do_unwrap (credit_account validator 1000000000000);;
  do_unwrap (lock_stake validator 500000000000);;
  do_unwrap (request_unstake validator 500000000000 0);;
  account ← do_unwrap_some (get_account validator);
  assert_eq (acc_staked_balance account) 0;;
  assert_eq (acc_balance account) 500000000000).

Definition test_unstake_demotes_validator_immediately : test := with_temp_db (
  let validator := addr 2 in
  do_unwrap (credit_account validator 1000000000000);;
  do_unwrap (lock_stake validator 500000000000);;
  account ← do_unwrap_some (get_account validator);
  assert (is_validator account);;
  do_unwrap (request_unstake validator 500000000000 0);;
  account ← do_unwrap_some (get_account validator);
  assert (negb (is_validator account))).

Definition test_unlock_epoch_is_request_plus_unbonding_period : test := with_temp_db (
  let validator := addr 3 in
  do_unwrap (credit_account validator 1000000000000);;
  do_unwrap (lock_stake validator 500000000000);;
  pending ← do_unwrap (request_unstake validator 500000000000 5);
  assert_eq (pu_request_epoch pending) 5;;
  assert_eq (pu_unlock_epoch pending) (5 + UNBONDING_PERIOD_EPOCHS)).

Definition test_funds_not_released_before_unlock_epoch : test := with_temp_db (
  let validator := addr 4 in
  do_unwrap (credit_account validator 1000000000000);;
  do_unwrap (lock_stake validator 500000000000);;
  do_unwrap (request_unstake validator 500000000000 0);;
  processed ← do_unwrap (process_matured_unstakes (UNBONDING_PERIOD_EPOCHS - 1));
  assert_eq processed 0;;
  account ← do_unwrap_some (get_account validator);
  assert_eq (acc_balance account) 500000000000).

Definition test_funds_released_at_unlock_epoch : test := with_temp_db (
  let validator := addr 5 in
  do_unwrap (credit_account validator 1000000000000);;
  do_unwrap (lock_stake validator 500000000000);;
  do_unwrap (request_unstake validator 500000000000 0);;
  processed ← do_unwrap (process_matured_unstakes UNBONDING_PERIOD_EPOCHS);
  assert_eq processed 500000000000;;
  account ← do_unwrap_some (get_account validator);
  assert_eq (acc_balance account) 1000000000000).

Definition test_processing_removes_pending_entry : test := with_temp_db (
  let validator := addr 6 in
  do_unwrap (credit_account validator 1000000000000);;
  do_unwrap (lock_stake validator 500000000000);;
  do_unwrap (request_unstake validator 500000000000 0);;
  do_unwrap (process_matured_unstakes UNBONDING_PERIOD_EPOCHS);;
  pending ← do_unwrap (get_pending_unstakes validator);
  assert_eq pending [];;
  processed_again ← do_unwrap (process_matured_unstakes UNBONDING_PERIOD_EPOCHS);
  assert_eq processed_again 0).

Definition test_insufficient_staked_balance_rejected : test := with_temp_db (
  let validator := addr 7 in
  do_unwrap (credit_account validator 1000000000000);;
  do_unwrap (lock_stake validator 100000000000);;
  do_err (request_unstake validator 500000000000 0)).

Definition test_multiple_pending_unstakes_tracked_separately : test := with_temp_db (
  let validator := addr 8 in
  do_unwrap (credit_account validator 2000000000000);;
  do_unwrap (lock_stake validator 1000000000000);;
  do_unwrap (request_unstake validator 400000000000 0);;
  do_unwrap (request_unstake validator 600000000000 2);;
  pending ← do_unwrap (get_pending_unstakes validator);
  assert_eq (length pending) 2%nat).
End tests.
End StakingTests.

Module ValidatorsTests.
Section tests.
Context `{Build} `{Sha3} `{HexCodec} `{Sled} `{!Serde Account}.

Definition addr (n : Z) : string := byte_address n.
Definition MINER : string := "kyv1" +:+ str_repeat 64 "a".

Definition test_igniter_has_no_bonus_weight : test :=
  let account := new_account (addr 1) in
  let account := set_staked_balance 500000000000 account in
  let account := update_validator_tier account in
  assert_eq (acc_validator_tier account) (Some Igniter);;
  assert_eq (calculate_validator_weight account) 500000000000.

Definition test_kinetic_weight_includes_15_percent_bonus : test :=
  let account := new_account (addr 2) in
  let account := set_staked_balance 5000000000000 account in
  let account := update_validator_tier account in
  assert_eq (acc_validator_tier account) (Some Kinetic);;
  let weight := calculate_validator_weight account in
  assert_eq weight 5750000000000.

Definition test_nexus_weight_includes_35_percent_bonus : test :=
  let account := new_account (addr 3) in
  let account := set_staked_balance 25000000000000 account in
  let account := update_validator_tier account in
  assert_eq (acc_validator_tier account) (Some Nexus);;
  let weight := calculate_validator_weight account in
  assert_eq weight 33750000000000.

Definition test_unstaked_account_has_no_bonus_weight : test :=
  let account := new_account (addr 99) in
  assert_eq (acc_validator_tier account) None;;
  assert_eq (calculate_validator_weight account) 0.

Definition test_distribute_rewards_with_no_validators_returns_zero : test := with_temp_db (
  distributed ← do_unwrap (distribute_validator_rewards 1000000000);
  assert_eq distributed 0).

Definition test_distribute_rewards_single_validator_gets_everything : test := with_temp_db (
  let validator := addr 1 in
  do_unwrap (credit_account validator 1000000000000);;
  do_unwrap (lock_stake validator 500000000000);;
  let total_share := 1000000000 in
  distributed ← do_unwrap (distribute_validator_rewards total_share);
  assert_eq distributed total_share;;
  balance ← do_unwrap (get_balance validator);
  assert_eq balance (500000000000 + total_share)).

Definition test_distribute_rewards_proportional_by_tier : test := with_temp_db (
  let igniter := addr 1 in
  let nexus := addr 2 in
  do_unwrap (credit_account igniter 1000000000000);;
  do_unwrap (lock_stake igniter 500000000000);;
  do_unwrap (credit_account nexus 30000000000000);;
  do_unwrap (lock_stake nexus 25000000000000);;
  let total_share := 1000000000000 in
  do_unwrap (distribute_validator_rewards total_share);;
  igniter_balance ← do_unwrap (get_balance igniter);
  nexus_balance ← do_unwrap (get_balance nexus);
  igniter_reward ←? sub_u64 igniter_balance 500000000000;
  nexus_reward ←? sub_u64 nexus_balance 5000000000000;
  fifty ←? mul_u64 igniter_reward 50;
  assert (fifty <? nexus_reward);;
  total_distributed ←? add_u64 igniter_reward nexus_reward;
  assert (total_distributed <=? total_share);;
  assert (total_share - 1000 <? total_distributed)).

Definition test_apply_epoch_rewards_full_cycle : test := with_temp_db (
  let validator := addr 5 in
  do_unwrap (credit_account validator 1000000000000);;
  do_unwrap (lock_stake validator 500000000000);;
  let block_hash := str_repeat 64 "a" in
  let coinbase := build_coinbase clock MINER 0 block_hash in
  let total_fees := 100000000 in
  do_unwrap (apply_epoch_rewards coinbase total_fees);;
  miner_balance ← do_unwrap (get_balance MINER);
  assert (0 <? miner_balance);;
  validator_balance ← do_unwrap (get_balance validator);
  assert (500000000000 <? validator_balance)).

Definition test_apply_epoch_rewards_no_validators_sends_share_to_treasury : test := with_temp_db (
  let block_hash := str_repeat 64 "b" in
  let coinbase := build_coinbase clock MINER 0 block_hash in
  let total_fees := 100000000 in
  do_unwrap (apply_epoch_rewards coinbase total_fees);;
  validator_share ←? calculate_validator_fee_share total_fees;
  treasury_balance ← do_unwrap (get_balance TREASURY_ADDRESS);
  assert_eq treasury_balance validator_share).

Definition test_minor_slash_reduces_stake : test := with_temp_db (
  let validator := addr 6 in
  do_unwrap (credit_account validator 1000000000000);;
  do_unwrap (lock_stake validator 1000000000000);;
  slashed ← do_unwrap (slash_validator validator MINOR_SLASH_BPS);
  assert_eq slashed 10000000000;;
  account ← do_unwrap_some (get_account validator);
  assert_eq (acc_staked_balance account) 990000000000).

Definition test_major_slash_can_demote_tier : test := with_temp_db (
  let validator := addr 7 in
  do_unwrap (credit_account validator 500000000000);;
  do_unwrap (lock_stake validator 500000000000);;
  account ← do_unwrap_some (get_account validator);
  assert_eq (acc_validator_tier account) (Some Igniter);;
  do_unwrap (slash_validator validator MAJOR_SLASH_BPS);;
  account ← do_unwrap_some (get_account validator);
  assert_eq (acc_staked_balance account) 450000000000;;
  assert_eq (acc_validator_tier account) None;;
  assert (negb (is_validator account))).

Definition test_slashed_funds_go_to_treasury : test := with_temp_db (
  let validator := addr 8 in
  do_unwrap (credit_account validator 1000000000000);;
  do_unwrap (lock_stake validator 1000000000000);;
  do_unwrap (slash_validator validator MAJOR_SLASH_BPS);;
  treasury_balance ← do_unwrap (get_balance TREASURY_ADDRESS);
  assert_eq treasury_balance 100000000000).

Definition test_slash_on_unstaked_account_fails : test := with_temp_db (
  let account_addr := addr 9 in
  do_unwrap (credit_account account_addr 1000000000);;
  do_err (slash_validator account_addr MINOR_SLASH_BPS)).

Definition test_full_cycle_mining_to_igniter_tier : test := with_temp_db (
  let miner := addr 10 in
  total_mined ← st_fold (upto 15) 0 (fun total_mined epoch =>
    let coinbase := build_coinbase clock miner epoch (show_padded 64 epoch) in
    do_unwrap (apply_coinbase coinbase 0);;
    st_lift (add_u64 total_mined (tx_amount coinbase)));
  assert (500000000000 <=? total_mined);;
  balance ← do_unwrap (get_balance miner);
  assert_eq balance total_mined;;
  do_unwrap (lock_stake miner 500000000000);;
  account ← do_unwrap_some (get_account miner);
  assert_eq (acc_validator_tier account) (Some Igniter);;
  assert (is_validator account)).
End tests.
End ValidatorsTests.

Module RulesTests.
Section tests.
Context `{Build} `{Sha3} `{HexCodec} `{Sled} `{!Serde Account}.

Definition MINER : string := "kyv1" +:+ str_repeat 64 "a".

(** [genesis.header.index = 5] and the like. *)
Definition with_header (f : BlockHeader -> BlockHeader) (b : Block) : Block :=
  mkBlock (f (blk_header b)) (blk_transaction_hashes b) (blk_hash b) (blk_validator_signature b)
    (blk_producer_address b) (blk_block_reward b).

Definition test_valid_genesis_passes_all_rules : test := with_temp_db (
  genesis ← unwrap (produce_genesis_block clock MINER);
  let tip := genesis_tip in
  do_ok (validate_block_rules clock genesis [] tip)).

Definition test_wrong_height_rejected : test := with_temp_db (
  genesis ← unwrap (produce_genesis_block clock MINER);
  let tip := genesis_tip in
  let genesis := with_header (fun h => mkBlockHeader 5 (hdr_timestamp h) (hdr_previous_hash h)
    (hdr_merkle_root h) (hdr_nonce h) (hdr_difficulty h) (hdr_is_epoch_block h) (hdr_epoch_index h)
    (hdr_state_root h)) genesis in
  result ← outcome (validate_block_rules clock genesis [] tip);
  assert match result with Err (Violation.InvalidHeight _ _) => true | _ => false end).

Definition test_wrong_previous_hash_rejected : test := with_temp_db (
  genesis ← unwrap (produce_genesis_block clock MINER);
  let tip := genesis_tip in
  let genesis := with_header (fun h => mkBlockHeader (hdr_index h) (hdr_timestamp h) (str_repeat 64 "1")
    (hdr_merkle_root h) (hdr_nonce h) (hdr_difficulty h) (hdr_is_epoch_block h) (hdr_epoch_index h)
    (hdr_state_root h)) genesis in
  result ← outcome (validate_block_rules clock genesis [] tip);
  assert match result with Err (Violation.InvalidPreviousHash _ _) => true | _ => false end).

Definition test_insufficient_pow_rejected : test := with_temp_db (
  genesis ← unwrap (produce_genesis_block clock MINER);
  let tip := genesis_tip in
  let genesis := with_header (fun h => mkBlockHeader (hdr_index h) (hdr_timestamp h) (hdr_previous_hash h)
    (hdr_merkle_root h) (hdr_nonce h) 20 (hdr_is_epoch_block h) (hdr_epoch_index h)
    (hdr_state_root h)) genesis in
  result ← outcome (validate_block_rules clock genesis [] tip);
  assert match result with
    | Err (Violation.InsufficientProofOfWork _ _) | Err Violation.InvalidHash => true
    | _ => false end).

Definition test_duplicate_transactions_rejected : test := with_temp_db (
  let sender := byte_address 1 in
  let receiver := byte_address 2 in
  do_unwrap (credit_account sender 100000000000);;
  let tx := new_transaction clock sender receiver 1000000000 1000000 0 Transfer "" in
  let tx := set_tx_hash (show_padded 64 1) tx in
  let tx := set_tx_signature "sig" tx in
  let transactions := [tx; tx] in
  result ← outcome (check_transactions transactions);
  assert match result with Err (Violation.DuplicateTransaction _) => true | _ => false end).

Definition test_insufficient_balance_rejected : test := with_temp_db (
  let sender := byte_address 3 in
  let receiver := byte_address 4 in
  do_unwrap (credit_account sender 1000000000);;
  let tx := new_transaction clock sender receiver 100000000000 1000000 0 Transfer "" in
  let tx := set_tx_hash (show_padded 64 2) tx in
  let tx := set_tx_signature "sig" tx in
  result ← outcome (check_transactions [tx]);
  assert match result with Err (Violation.InsufficientBalance _ _ _) => true | _ => false end).

Definition test_wrong_nonce_rejected : test := with_temp_db (
  let sender := byte_address 5 in
  let receiver := byte_address 6 in
  do_unwrap (credit_account sender 100000000000);;
  let tx := new_transaction clock sender receiver 1000000000 1000000 5 Transfer "" in
  let tx := set_tx_hash (show_padded 64 3) tx in
  let tx := set_tx_signature "sig" tx in
  result ← outcome (check_transactions [tx]);
  assert match result with Err (Violation.InvalidTransactionNonce _ _) => true | _ => false end).

Definition test_micro_block_with_coinbase_rejected : test :=
  let coinbase := build_coinbase clock MINER 0 (str_repeat 64 "a") in
  let result := check_no_coinbase [coinbase] in
  assert match result with Err Violation.UnexpectedCoinbase => true | _ => false end.

Definition test_epoch_block_missing_coinbase_rejected : test := with_temp_db (
  genesis ← unwrap (produce_genesis_block clock MINER);
  let _tip := genesis_tip in
  let result := check_coinbase genesis [] in
  assert match result with Err Violation.MissingCoinbase => true | _ => false end).
End tests.
End RulesTests.

Module ConsensusPass.
Import Mem.

Example coinbase_tests : pass [CoinbaseTests.test_build_coinbase_genesis_reward;
  CoinbaseTests.test_coinbase_hash_is_deterministic; CoinbaseTests.test_different_epochs_produce_different_hashes;
  CoinbaseTests.test_coinbase_reward_halves_correctly; CoinbaseTests.test_verify_coinbase_valid;
  CoinbaseTests.test_verify_coinbase_wrong_reward_fails; CoinbaseTests.test_verify_coinbase_wrong_height_fails;
  CoinbaseTests.test_apply_coinbase_credits_miner; CoinbaseTests.test_apply_coinbase_with_fee_share;
  CoinbaseTests.test_apply_non_coinbase_fails; CoinbaseTests.test_validator_fee_share_is_40_percent;
  CoinbaseTests.test_mined_supply_at_genesis].
Proof. run. Qed.

Example genesis_tests : pass [GenesisTests.test_genesis_allocations_sum_to_total_supply;
  GenesisTests.test_initialize_chain; GenesisTests.test_cannot_initialize_twice;
  GenesisTests.test_genesis_allocations_applied_correctly; GenesisTests.test_founder_gets_genesis_block_reward;
  GenesisTests.test_genesis_block_saved_to_database; GenesisTests.test_state_root_committed_at_genesis;
  GenesisTests.test_verify_genesis_integrity; GenesisTests.test_verify_genesis_integrity_fails_on_empty_db].
Proof. run. Qed.

Example staking_tests : pass [StakingTests.test_request_unstake_removes_staked_balance_immediately;
  StakingTests.test_unstake_demotes_validator_immediately;
  StakingTests.test_unlock_epoch_is_request_plus_unbonding_period;
  StakingTests.test_funds_not_released_before_unlock_epoch; StakingTests.test_funds_released_at_unlock_epoch;
  StakingTests.test_processing_removes_pending_entry; StakingTests.test_insufficient_staked_balance_rejected;
  StakingTests.test_multiple_pending_unstakes_tracked_separately].
Proof. run. Qed.

Example validators_tests : pass [ValidatorsTests.test_igniter_has_no_bonus_weight;
  ValidatorsTests.test_kinetic_weight_includes_15_percent_bonus;
  ValidatorsTests.test_nexus_weight_includes_35_percent_bonus;
  ValidatorsTests.test_unstaked_account_has_no_bonus_weight;
  ValidatorsTests.test_distribute_rewards_with_no_validators_returns_zero;
  ValidatorsTests.test_distribute_rewards_single_validator_gets_everything;
  ValidatorsTests.test_distribute_rewards_proportional_by_tier; ValidatorsTests.test_apply_epoch_rewards_full_cycle;
  ValidatorsTests.test_apply_epoch_rewards_no_validators_sends_share_to_treasury;
  ValidatorsTests.test_minor_slash_reduces_stake; ValidatorsTests.test_major_slash_can_demote_tier;
  ValidatorsTests.test_slashed_funds_go_to_treasury; ValidatorsTests.test_slash_on_unstaked_account_fails;
  ValidatorsTests.test_full_cycle_mining_to_igniter_tier].
Proof. run. Qed.

Example rules_tests : pass [RulesTests.test_valid_genesis_passes_all_rules; RulesTests.test_wrong_height_rejected;
  RulesTests.test_wrong_previous_hash_rejected; RulesTests.test_insufficient_pow_rejected;
  RulesTests.test_duplicate_transactions_rejected; RulesTests.test_insufficient_balance_rejected;
  RulesTests.test_wrong_nonce_rejected; RulesTests.test_micro_block_with_coinbase_rejected;
  RulesTests.test_epoch_block_missing_coinbase_rejected].
Proof. run. Qed.
End ConsensusPass.
