(* ===== verification/TestsMempool.v ===== *)
(** * The tests of mempool/

    mempool/fees.rs and mempool/pool.rs. *)
From S2P Require Import Prelude Text Codec Types Extern InMemory Float Db AccountStore Fees Mempool TestKit.
From Stdlib Require Import SpecFloat.

Module FeesTests.

(** The literal [m * 10 ^ e]. *)
Definition lit (m e : Z) : f64 := f64_of_decimal false m e.

Section tests.
Context `{Build}.

Definition make_tx (fee : Z) (tx_type : TransactionType) : Transaction :=
  let tx := new_transaction clock ("kyv1" +:+ str_repeat 64 "a") ("kyv1" +:+ str_repeat 64 "b")
    1000000000 fee 0 tx_type "" in
  let tx := set_tx_hash (show_padded 64 fee) tx in
  set_tx_signature "sig" tx.

Definition test_minimum_fees_are_correct : test :=
  assert_eq (minimum_fee Transfer) FEE_TRANSFER;;
  assert_eq (minimum_fee ContractCall) FEE_CONTRACT_CALL;;
  assert_eq (minimum_fee ContractDeploy) FEE_CONTRACT_DEPLOY;;
  assert_eq (minimum_fee StakeLock) FEE_STAKE_LOCK;;
  assert_eq (minimum_fee StakeUnlock) FEE_STAKE_UNLOCK.

Definition test_fee_is_sufficient : test :=
  let tx := make_tx FEE_TRANSFER Transfer in
  assert (fee_is_sufficient tx).

Definition test_fee_below_minimum_fails : test :=
  let tx := make_tx (FEE_TRANSFER - 1) Transfer in
  assert (negb (fee_is_sufficient tx)).

(** [burn + validator + treasury] *)
Definition sum3 (x y z : Z) : res string Z := xy ← add_u64 x y; add_u64 xy z.

Definition test_fee_split_sums_to_total : test :=
  let fee := 10000000 in
  '(burn, validator, treasury) ← calculate_fee_split fee;
  sum ← sum3 burn validator treasury;
  assert_eq sum fee.

Definition test_fee_split_proportions : test :=
  let fee := 10000000 in
  '(burn, validator, treasury) ← calculate_fee_split fee;
  assert_eq burn 5000000;;
  assert_eq validator 4000000;;
  assert_eq treasury 1000000.

Definition test_fee_split_no_dust_at_clean_numbers : test :=
  let fee := 1000000 in
  '(burn, validator, treasury) ← calculate_fee_split fee;
  sum ← sum3 burn validator treasury;
  assert_eq sum fee.

Definition test_burn_is_largest_share : test :=
  let fee := 9999999 in
  '(burn, validator, treasury) ← calculate_fee_split fee;
  assert (validator <=? burn);;
  assert (treasury <=? burn);;
  sum ← sum3 burn validator treasury;
  assert_eq sum fee.

Definition test_base_fee_rises_when_blocks_are_full : test :=
  let new_mult := adjust_base_fee_multiplier (lit 9 (-1)) (lit 1 0) in
  assert (SFltb (lit 1 0) new_mult).

Definition test_base_fee_falls_when_blocks_are_empty : test :=
  let new_mult := adjust_base_fee_multiplier (lit 1 (-1)) (lit 2 0) in
  assert (SFltb new_mult (lit 2 0)).

Definition test_base_fee_stable_at_target_utilization : test :=
  let new_mult := adjust_base_fee_multiplier (lit 5 (-1)) (lit 15 (-1)) in
  assert (SFltb (SFabs (f64_sub new_mult (lit 15 (-1)))) (lit 1 (-3))).

Definition test_multiplier_never_goes_below_one : test :=
  let new_mult := adjust_base_fee_multiplier (lit 0 0) (lit 1 0) in
  assert (SFleb (lit 1 0) new_mult).

Definition test_multiplier_capped_at_maximum : test :=
  let new_mult := adjust_base_fee_multiplier (lit 1 0) (lit 100 0) in
  assert (SFleb new_mult (lit 100 0)).

Definition test_effective_minimum_fee_scales_with_multiplier : test :=
  let base := minimum_fee Transfer in
  let doubled := effective_minimum_fee Transfer (lit 2 0) in
  assert_eq doubled (base * 2).

Definition test_total_fees_sums_correctly : test :=
  let txs := [make_tx 1000000 Transfer; make_tx 5000000 ContractCall; make_tx 10000000 ContractDeploy] in
  total ← total_fees txs;
  assert_eq total 16000000.

Definition test_zero_fee_split_is_all_zeros : test :=
  '(burn, validator, treasury) ← calculate_fee_split 0;
  assert_eq burn 0;;
  assert_eq validator 0;;
  assert_eq treasury 0.
End tests.
End FeesTests.

Module PoolTests.
Section tests.
Context `{HexCodec} `{Sled} `{!Serde Account}.

(** A test has a database and a pool. *)
Definition with_pool (body : st (KyveraDb * Mempool) string unit) : test :=
  db ← unwrap open_temp; (body (db, empty_pool)).2.
Definition credit (address : string) (amount : Z) : st (KyveraDb * Mempool) string unit :=
  do_unwrap (on_fst (credit_account address amount)).
Definition add (tx : Transaction) : st (KyveraDb * Mempool) MempoolError unit := fun '(db, pool) =>
  let '(pool', r) := add_transaction tx db pool in ((db, pool'), r).
Definition pool_of : st (KyveraDb * Mempool) string Mempool := on_snd st_get.
Definition set_pool (pool : Mempool) : st (KyveraDb * Mempool) string unit := on_snd (st_modify (fun _ => pool)).

Definition addr (n : Z) : string := byte_address n.

Definition make_tx (sender receiver : string) (amount fee nonce hash_seed : Z) : Transaction :=
  let tx := new_transaction clock sender receiver amount fee nonce Transfer "" in
  let tx := set_tx_hash (show_padded 64 hash_seed) tx in
  set_tx_signature "sig" tx.

Definition test_add_valid_transaction : test := with_pool (
  let sender := addr 1 in
  credit sender 100000000000;;
  let tx := make_tx sender (addr 2) 1000000000 1000000 0 1 in
  do_unwrap (add tx);;
  pool ← pool_of;
  assert_eq (len pool) 1;;
  assert (contains pool (tx_hash tx))).

Definition test_duplicate_transaction_rejected : test := with_pool (
  let sender := addr 1 in
  credit sender 100000000000;;
  let tx := make_tx sender (addr 2) 1000000000 1000000 0 1 in
  do_unwrap (add tx);;
  result ← outcome (add tx);
  assert match result with Err AlreadyExists => true | _ => false end).

Definition test_duplicate_nonce_from_same_sender_rejected : test := with_pool (
  let sender := addr 1 in
  credit sender 100000000000;;
  let tx1 := make_tx sender (addr 2) 1000000000 1000000 0 1 in
  let tx2 := make_tx sender (addr 3) 2000000000 1000000 0 2 in
  do_unwrap (add tx1);;
  result ← outcome (add tx2);
  assert match result with Err (DuplicateNonce _ _) => true | _ => false end).

Definition test_insufficient_balance_rejected : test := with_pool (
  let sender := addr 1 in
  credit sender 1000000;;
  let tx := make_tx sender (addr 2) 100000000000 1000000 0 1 in
  result ← outcome (add tx);
  assert match result with Err (InsufficientBalance _ _ _) => true | _ => false end).

Definition test_wrong_initial_nonce_rejected : test := with_pool (
  let sender := addr 1 in
  credit sender 100000000000;;
  let tx := make_tx sender (addr 2) 1000000000 1000000 3 1 in
  result ← outcome (add tx);
  assert match result with Err (InvalidNonce _ _) => true | _ => false end).

Definition test_sequential_nonces_from_same_sender_allowed : test := with_pool (
  let sender := addr 1 in
  credit sender 100000000000;;
  let tx0 := make_tx sender (addr 2) 1000000000 1000000 0 1 in
  let tx1 := make_tx sender (addr 2) 1000000000 1000000 1 2 in
  let tx2 := make_tx sender (addr 2) 1000000000 1000000 2 3 in
  do_unwrap (add tx0);;
  do_unwrap (add tx1);;
  do_unwrap (add tx2);;
  pool ← pool_of;
  assert_eq (len pool) 3).

Definition test_top_by_fee_ordering : test := with_pool (
  let sender := addr 1 in
  credit sender 1000000000000;;
  let low := make_tx sender (addr 2) 1000000000 1000000 0 1 in
  let high := make_tx sender (addr 2) 1000000000 5000000 1 2 in
  let mid := make_tx sender (addr 2) 1000000000 3000000 2 3 in
  do_unwrap (add low);;
  do_unwrap (add high);;
  do_unwrap (add mid);;
  pool ← pool_of;
  let top := top_by_fee 3 pool in
  top0 ← unwrap_some (top !! 0%nat);
  top2 ← unwrap_some (top !! 2%nat);
  assert_eq (tx_hash top0) (tx_hash high);;
  assert_eq (tx_fee top0) 5000000;;
  assert_eq (tx_fee top2) 1000000).

Definition test_remove_transaction : test := with_pool (
  let sender := addr 1 in
  credit sender 100000000000;;
  let tx := make_tx sender (addr 2) 1000000000 1000000 0 1 in
  do_unwrap (add tx);;
  pool ← pool_of;
  let '(pool, removed) := remove (tx_hash tx) pool in
  assert (bool_decide (is_Some removed));;
  assert_eq (len pool) 0;;
  assert (negb (contains pool (tx_hash tx)))).

Definition test_remove_batch : test := with_pool (
  let sender := addr 1 in
  credit sender 1000000000000;;
  let tx0 := make_tx sender (addr 2) 1000000000 1000000 0 1 in
  let tx1 := make_tx sender (addr 2) 1000000000 1000000 1 2 in
  do_unwrap (add tx0);;
  do_unwrap (add tx1);;
  pool ← pool_of;
  let pool := remove_batch [tx_hash tx0; tx_hash tx1] pool in
  assert_eq (len pool) 0).

Definition test_after_removal_nonce_can_be_reused : test := with_pool (
  let sender := addr 1 in
  credit sender 100000000000;;
  let tx := make_tx sender (addr 2) 1000000000 1000000 0 1 in
  do_unwrap (add tx);;
  pool ← pool_of;
  set_pool (remove (tx_hash tx) pool).1;;
  let tx2 := make_tx sender (addr 2) 1000000000 1000000 0 2 in
  do_unwrap (add tx2);;
  pool ← pool_of;
  assert_eq (len pool) 1).

Definition test_malformed_transaction_rejected : test := with_pool (
  let tx := make_tx (addr 1) (addr 2) 1000000000 1000000 0 1 in
  let tx := set_tx_signature "" tx in
  result ← outcome (add tx);
  assert match result with Err (MalformedTransaction _) => true | _ => false end).
End tests.
End PoolTests.

Module MempoolPass.
Import Mem.

Example fees_tests : pass [FeesTests.test_minimum_fees_are_correct; FeesTests.test_fee_is_sufficient;
  FeesTests.test_fee_below_minimum_fails; FeesTests.test_fee_split_sums_to_total;
  FeesTests.test_fee_split_proportions; FeesTests.test_fee_split_no_dust_at_clean_numbers;
  FeesTests.test_burn_is_largest_share; FeesTests.test_base_fee_rises_when_blocks_are_full;
  FeesTests.test_base_fee_falls_when_blocks_are_empty; FeesTests.test_base_fee_stable_at_target_utilization;
  FeesTests.test_multiplier_never_goes_below_one; FeesTests.test_multiplier_capped_at_maximum;
  FeesTests.test_effective_minimum_fee_scales_with_multiplier; FeesTests.test_total_fees_sums_correctly;
  FeesTests.test_zero_fee_split_is_all_zeros].
Proof. run. Qed.

Example pool_tests : pass [PoolTests.test_add_valid_transaction; PoolTests.test_duplicate_transaction_rejected;
  PoolTests.test_duplicate_nonce_from_same_sender_rejected; PoolTests.test_insufficient_balance_rejected;
  PoolTests.test_wrong_initial_nonce_rejected; PoolTests.test_sequential_nonces_from_same_sender_allowed;
  PoolTests.test_top_by_fee_ordering; PoolTests.test_remove_transaction; PoolTests.test_remove_batch;
  PoolTests.test_after_removal_nonce_can_be_reused; PoolTests.test_malformed_transaction_rejected].
Proof. run. Qed.
End MempoolPass.
