(* ===== verification/TestsCrypto.v ===== *)
(** * The tests of crypto/

    crypto/dilithium.rs, sphincs.rs, kyber.rs and mod.rs.  They need schemes
    with keys and signatures of the right sizes that tell messages and keys
    apart: [Sized] has toy ones.  A draw of randomness is numbered. *)
From S2P Require Import Prelude Text Extern InMemory Hash Db Crypto TestKit.

(** The randomness a test draws. *)
Class Random `{PqCrypto} := {
  draw_dilithium : Z -> sign_entropy dilithium3;
  draw_sphincs : Z -> sign_entropy sphincs;
  draw_kyber : Z -> kem_entropy kyber768;
}.

Module DilithiumTests.
Section tests.
Context `{Random} `{Sha3} `{HexCodec}.

Definition test_keypair_generation : test :=
  let keypair := Dilithium.generate (draw_dilithium 1) in
  assert_eq (str_len (Dilithium.public_key keypair)) 1952;;
  assert_eq (str_len (Dilithium.secret_key keypair)) 4032.

Definition test_address_derivation : test :=
  let keypair := Dilithium.generate (draw_dilithium 1) in
  let address := Dilithium.address keypair in
  assert (starts_with "kyv1" address);;
  assert_eq (str_len address) 68.

Definition test_two_keypairs_produce_different_addresses : test :=
  let keypair1 := Dilithium.generate (draw_dilithium 1) in
  let keypair2 := Dilithium.generate (draw_dilithium 2) in
  assert_ne (Dilithium.address keypair1) (Dilithium.address keypair2).

Definition test_sign_and_verify : test :=
  let keypair := Dilithium.generate (draw_dilithium 1) in
  let message := "send 10 KYV to kyv1abc" in
  signature ← unwrap (Dilithium.sign (draw_dilithium 2) keypair message);
  assert (Dilithium.verify signature message (Dilithium.public_key_hex keypair)).

Definition test_tampered_message_fails_verification : test :=
  let keypair := Dilithium.generate (draw_dilithium 1) in
  let message := "send 10 KYV to kyv1abc" in
  let tampered := "send 999 KYV to kyv1abc" in
  signature ← unwrap (Dilithium.sign (draw_dilithium 2) keypair message);
  assert (negb (Dilithium.verify signature tampered (Dilithium.public_key_hex keypair))).

Definition test_wrong_key_fails_verification : test :=
  let keypair1 := Dilithium.generate (draw_dilithium 1) in
  let keypair2 := Dilithium.generate (draw_dilithium 2) in
  let message := "send 10 KYV to kyv1abc" in
  signature ← unwrap (Dilithium.sign (draw_dilithium 3) keypair1 message);
  assert (negb (Dilithium.verify signature message (Dilithium.public_key_hex keypair2))).

Definition test_signature_hex_round_trip : test :=
  let keypair := Dilithium.generate (draw_dilithium 1) in
  let message := "test transaction payload" in
  signature ← unwrap (Dilithium.sign (draw_dilithium 2) keypair message);
  let hex := Dilithium.to_hex signature in
  reconstructed ← unwrap (Dilithium.from_hex hex);
  assert (Dilithium.verify reconstructed message (Dilithium.public_key_hex keypair));;
  assert_eq (str_len hex) 6618.
End tests.
End DilithiumTests.

Module SphincsTests.
Section tests.
Context `{Random} `{HexCodec}.

Definition test_keypair_generation : test :=
  let keypair := Sphincs.generate (draw_sphincs 1) in
  assert_eq (str_len (Sphincs.public_key keypair)) 32;;
  assert_eq (str_len (Sphincs.secret_key keypair)) 64.

Definition test_sign_and_verify : test :=
  let keypair := Sphincs.generate (draw_sphincs 1) in
  let epoch_block_header := "epoch_block_header_bytes_placeholder" in
  signature ← unwrap (Sphincs.sign (draw_sphincs 2) keypair epoch_block_header);
  assert (Sphincs.verify signature epoch_block_header (Sphincs.public_key_hex keypair)).

Definition test_tampered_message_fails : test :=
  let keypair := Sphincs.generate (draw_sphincs 1) in
  let original := "epoch block 290000" in
  let tampered := "epoch block 290001" in
  signature ← unwrap (Sphincs.sign (draw_sphincs 2) keypair original);
  assert (negb (Sphincs.verify signature tampered (Sphincs.public_key_hex keypair))).

Definition test_wrong_key_fails : test :=
  let keypair1 := Sphincs.generate (draw_sphincs 1) in
  let keypair2 := Sphincs.generate (draw_sphincs 2) in
  let message := "epoch block header" in
  signature ← unwrap (Sphincs.sign (draw_sphincs 3) keypair1 message);
  assert (negb (Sphincs.verify signature message (Sphincs.public_key_hex keypair2))).

Definition test_hex_round_trip : test :=
  let keypair := Sphincs.generate (draw_sphincs 1) in
  let message := "epoch block header" in
  signature ← unwrap (Sphincs.sign (draw_sphincs 2) keypair message);
  let hex := Sphincs.to_hex signature in
  reconstructed ← unwrap (Sphincs.from_hex hex);
  assert (Sphincs.verify reconstructed message (Sphincs.public_key_hex keypair)).
End tests.
End SphincsTests.

Module KyberTests.
Section tests.
Context `{Random} `{HexCodec}.

Definition test_keypair_generation : test :=
  let keypair := Kyber.generate (draw_kyber 1) in
  assert_eq (str_len (Kyber.public_key keypair)) 1184;;
  assert_eq (str_len (Kyber.secret_key keypair)) 2400.

Definition test_encapsulate_and_decapsulate : test :=
  let keypair := Kyber.generate (draw_kyber 1) in
  encapsulation ← unwrap (Kyber.encapsulate (draw_kyber 2) (Kyber.public_key_hex keypair));
  recovered_secret ← unwrap (Kyber.decapsulate keypair (Kyber.ciphertext_hex encapsulation));
  assert_eq (Kyber.shared_secret encapsulation) recovered_secret.

Definition test_shared_secret_is_32_bytes : test :=
  let keypair := Kyber.generate (draw_kyber 1) in
  encapsulation ← unwrap (Kyber.encapsulate (draw_kyber 2) (Kyber.public_key_hex keypair));
  assert_eq (str_len (Kyber.shared_secret encapsulation)) 32.

Definition test_wrong_key_cannot_decapsulate : test :=
  let keypair1 := Kyber.generate (draw_kyber 1) in
  let keypair2 := Kyber.generate (draw_kyber 2) in
  encapsulation ← unwrap (Kyber.encapsulate (draw_kyber 3) (Kyber.public_key_hex keypair1));
  wrong_secret ← unwrap (Kyber.decapsulate keypair2 (Kyber.ciphertext_hex encapsulation));
  assert_ne (Kyber.shared_secret encapsulation) wrong_secret.

Definition test_two_sessions_produce_different_secrets : test :=
  let keypair := Kyber.generate (draw_kyber 1) in
  session1 ← unwrap (Kyber.encapsulate (draw_kyber 2) (Kyber.public_key_hex keypair));
  session2 ← unwrap (Kyber.encapsulate (draw_kyber 3) (Kyber.public_key_hex keypair));
  assert_ne (Kyber.shared_secret session1) (Kyber.shared_secret session2).
End tests.
End KyberTests.

Module IdentityTests.
Section tests.
Context `{Random} `{Sha3} `{HexCodec}.

(** [KyveraIdentity::generate()] with the i-th draws. *)
Definition identity_of (i : Z) : KyveraIdentity :=
  generate_identity (draw_dilithium i) (draw_kyber i) (draw_sphincs i).

Definition test_identity_generation : test :=
  let identity := identity_of 1 in
  assert (starts_with "kyv1" (id_address identity));;
  assert_eq (str_len (id_address identity)) 68.

Definition test_two_identities_are_unique : test :=
  let id1 := identity_of 1 in
  let id2 := identity_of 2 in
  assert_ne (id_address id1) (id_address id2).

Definition test_sign_and_verify_transaction : test :=
  let identity := identity_of 1 in
  let tx_bytes := "send 10 KYV to kyv1abc" in
  let nonce := new_transaction_nonce clock 0 "abc123chain_state_hash" in
  signature ← unwrap (sign_transaction (draw_dilithium 2) identity tx_bytes nonce);
  assert (verify_transaction_signature tx_bytes nonce (Dilithium.to_hex signature)
    (Dilithium.public_key_hex (id_signing_keypair identity))).

Definition test_replayed_transaction_fails : test :=
  let identity := identity_of 1 in
  let tx_bytes := "send 10 KYV to kyv1abc" in
  let nonce_original := new_transaction_nonce clock 0 "state_hash_at_block_100" in
  signature ← unwrap (sign_transaction (draw_dilithium 2) identity tx_bytes nonce_original);
  let nonce_replayed := new_transaction_nonce clock 0 "state_hash_at_block_200" in
  assert (negb (verify_transaction_signature tx_bytes nonce_replayed (Dilithium.to_hex signature)
    (Dilithium.public_key_hex (id_signing_keypair identity)))).

Definition test_sign_and_verify_epoch_block : test :=
  let identity := identity_of 1 in
  let header_bytes := "epoch_block_290000_header" in
  signature ← unwrap (sign_epoch_block (draw_sphincs 2) identity header_bytes);
  assert (verify_epoch_block_signature header_bytes (Sphincs.to_hex signature)
    (Sphincs.public_key_hex (id_epoch_keypair identity))).

Definition test_session_establishment : test :=
  let _node_a := identity_of 1 in
  let node_b := identity_of 2 in
  encapsulation ← unwrap (initiate_session (draw_kyber 3) (Kyber.public_key_hex (id_network_keypair node_b)));
  secret_b ← unwrap (accept_session node_b (Kyber.ciphertext_hex encapsulation));
  assert_eq (Kyber.shared_secret encapsulation) secret_b.

Definition test_sha3_256_is_deterministic : test :=
  let input := "kyvera block header" in
  let hash1 := sha3_256 input in
  let hash2 := sha3_256 input in
  assert_eq hash1 hash2;;
  assert_eq (str_len hash1) 64.
End tests.
End IdentityTests.

(** ** Toy schemes of the right sizes

    A key starts with the 32 bytes of its draw; a signature with the digest of
    these and the message, a ciphertext with the draw it was made from.  Bytes
    of another length are refused. *)
Module Sized.
Import Mem.

Definition pad (n : nat) (s : string) : string := str_take n (s +:+ str_repeat n "0").
Definition sized (n : nat) (s : string) : res string string :=
  if (String.length s =? n)%nat then Ok s else Err "wrong length".
Definition key_id (key : string) : string := str_take 32 key.

Definition sized_sign (pk sk sig : nat) : SignScheme := {|
  sign_entropy := string; sign_pk := string; sign_sk := string; sign_sig := string;
  keypair e := (pad pk (pad 32 e), pad sk (pad 32 e));
  detached_sign _ m key := pad sig (sha3_256_digest (key_id key +:+ m));
  verify_detached_signature s m key := String.eqb s (pad sig (sha3_256_digest (key_id key +:+ m)));
  pk_as_bytes x := x; pk_from_bytes := sized pk; sk_as_bytes x := x; sk_from_bytes := sized sk;
  sig_as_bytes x := x; sig_from_bytes := sized sig |}.
Definition sized_kem (pk sk ct : nat) : Kem := {|
  kem_entropy := string; kem_pk := string; kem_sk := string; kem_ct := string; kem_ss := string;
  kem_keypair e := (pad pk (pad 32 e), pad sk (pad 32 e));
  kem_encapsulate e key := (sha3_256_digest (key_id key +:+ pad 32 e), pad ct (pad 32 e));
  kem_decapsulate c key := sha3_256_digest (key_id key +:+ key_id c);
  kem_pk_as_bytes x := x; kem_pk_from_bytes := sized pk; kem_sk_as_bytes x := x; kem_sk_from_bytes := sized sk;
  kem_ct_as_bytes x := x; kem_ct_from_bytes := sized ct; kem_ss_as_bytes x := x |}.
#[export] Instance sized_pq : PqCrypto := {|
  dilithium3 := sized_sign 1952 4032 3309; sphincs := sized_sign 32 64 17088;
  kyber768 := sized_kem 1184 2400 1088 |}.
#[export] Instance sized_random : Random := {|
  draw_dilithium := show_uint : Z -> sign_entropy dilithium3;
  draw_sphincs := show_uint : Z -> sign_entropy sphincs;
  draw_kyber := show_uint : Z -> kem_entropy kyber768 |}.
(** The i-th entropy of a phrase and the i-th nonce of a save. *)
Definition draw_bytes (i : Z) : string := pad 32 (show_uint i).
Definition draw_nonce (i : Z) : string := pad 12 (show_uint i).
End Sized.

Module CryptoPass.
Import Mem Sized.

Example dilithium_tests : pass [DilithiumTests.test_keypair_generation; DilithiumTests.test_address_derivation;
  DilithiumTests.test_two_keypairs_produce_different_addresses; DilithiumTests.test_sign_and_verify;
  DilithiumTests.test_tampered_message_fails_verification; DilithiumTests.test_wrong_key_fails_verification;
  DilithiumTests.test_signature_hex_round_trip].
Proof. run. Qed.

Example sphincs_tests : pass [SphincsTests.test_keypair_generation; SphincsTests.test_sign_and_verify;
  SphincsTests.test_tampered_message_fails; SphincsTests.test_wrong_key_fails; SphincsTests.test_hex_round_trip].
Proof. run. Qed.

Example kyber_tests : pass [KyberTests.test_keypair_generation; KyberTests.test_encapsulate_and_decapsulate;
  KyberTests.test_shared_secret_is_32_bytes; KyberTests.test_wrong_key_cannot_decapsulate;
  KyberTests.test_two_sessions_produce_different_secrets].
Proof. run. Qed.

Example identity_tests : pass [IdentityTests.test_identity_generation; IdentityTests.test_two_identities_are_unique;
  IdentityTests.test_sign_and_verify_transaction; IdentityTests.test_replayed_transaction_fails;
  IdentityTests.test_sign_and_verify_epoch_block; IdentityTests.test_session_establishment;
  IdentityTests.test_sha3_256_is_deterministic].
Proof. run. Qed.
End CryptoPass.
