(* ===== verification/TestsWallet.v ===== *)
(** * The tests of wallet/

    wallet/keys.rs, seed.rs, storage.rs and transaction_builder.rs, on the
    schemes of [TestsCrypto] and a toy word list that makes phrases of 24 words
    and refuses all others. *)
From S2P Require Import Prelude Text Codec Types Extern InMemory Hash Db Crypto Wallet WalletStorage TestKit TestsCrypto.

(** [KyveraWallet::generate(label)] with the i-th draws. *)
Definition wallet_of `{Random} `{Sha3} `{HexCodec} (i : Z) (label : string) : KyveraWallet :=
  generate_wallet (clock / 1000) (draw_dilithium i) (draw_kyber i) (draw_sphincs i) label.

Module KeysTests.
Section tests.
Context `{Random} `{Sha3} `{HexCodec} `{!Serde KyveraWallet}.

Definition test_wallet_generation : test :=
  let wallet := wallet_of 1 "main" in
  assert (starts_with "kyv1" (w_address wallet));;
  assert_eq (str_len (w_address wallet)) 68;;
  assert_eq (w_label wallet) "main";;
  assert (0 <? w_created_at wallet).

Definition test_two_wallets_have_different_addresses : test :=
  let wallet1 := wallet_of 1 "wallet1" in
  let wallet2 := wallet_of 2 "wallet2" in
  assert_ne (w_address wallet1) (w_address wallet2).

Definition test_wallet_info_contains_no_secret_keys : test :=
  let wallet := wallet_of 1 "test" in
  let info := info wallet in
  assert (negb (is_empty (info_signing_public_key info)));;
  assert (negb (is_empty (info_network_public_key info)));;
  assert (negb (is_empty (info_epoch_public_key info)));;
  assert_eq (info_address info) (w_address wallet).

Definition test_address_integrity_check : test :=
  let wallet := wallet_of 1 "test" in
  assert (verify_address_integrity wallet).

Definition test_wallet_serialization : test :=
  let wallet := wallet_of 1 "savings" in
  json ← unwrap (to_vec wallet);
  restored ← unwrap (from_slice (A:=KyveraWallet) json);
  assert_eq (w_address wallet) (w_address restored);;
  assert_eq (w_label wallet) (w_label restored);;
  assert_eq (Dilithium.public_key (w_signing_keypair wallet)) (Dilithium.public_key (w_signing_keypair restored));;
  assert (verify_address_integrity restored).
End tests.
End KeysTests.

Module SeedTests.
Section tests.
Context `{Bip39} `{Sha3}.
(** The bytes of the i-th phrase. *)
Context (entropy : Z -> string).

Definition phrase_of (i : Z) : res string string := generate_seed_phrase (entropy i).

Definition test_seed_phrase_generates_24_words : test :=
  phrase ← phrase_of 1;
  let word_count := Z.of_nat (length (split_whitespace phrase)) in
  assert_eq word_count SEED_WORD_COUNT.

Definition test_two_phrases_are_different : test :=
  phrase1 ← phrase_of 1;
  phrase2 ← phrase_of 2;
  assert_ne phrase1 phrase2.

Definition test_valid_phrase_passes_validation : test :=
  phrase ← phrase_of 1;
  assert (validate_seed_phrase phrase).

Definition test_garbage_fails_validation : test :=
  assert (negb (validate_seed_phrase "this is not a valid seed phrase at all"));;
  assert (negb (validate_seed_phrase ""));;
  assert (negb (validate_seed_phrase "abandon abandon abandon")).

Definition test_same_phrase_produces_same_seed : test :=
  phrase ← phrase_of 1;
  seed1 ← unwrap (seed_from_phrase phrase "");
  seed2 ← unwrap (seed_from_phrase phrase "");
  assert_eq seed1 seed2.

Definition test_different_passphrases_produce_different_seeds : test :=
  phrase ← phrase_of 1;
  seed_no_pass ← unwrap (seed_from_phrase phrase "");
  seed_with_pass ← unwrap (seed_from_phrase phrase "my-extra-password");
  assert_ne seed_no_pass seed_with_pass.

Definition test_seed_is_64_bytes : test :=
  phrase ← phrase_of 1;
  seed ← unwrap (seed_from_phrase phrase "");
  assert_eq (str_len seed) 64.

Definition test_domain_separation_produces_different_keys : test :=
  phrase ← phrase_of 1;
  master ← unwrap (seed_from_phrase phrase "");
  let signing_seed := derive_key_seed master "kyvera-signing" in
  let network_seed := derive_key_seed master "kyvera-network" in
  let epoch_seed := derive_key_seed master "kyvera-epoch" in
  assert_ne signing_seed network_seed;;
  assert_ne signing_seed epoch_seed;;
  assert_ne network_seed epoch_seed.

Definition test_format_seed_phrase_for_display : test :=
  phrase ← phrase_of 1;
  let formatted := format_seed_phrase_for_display phrase in
  assert (starts_with "1." formatted);;
  assert (str_contains "24." formatted).

Definition test_invalid_phrase_returns_error : test :=
  let result := seed_from_phrase "not a valid phrase at all really" "" in
  assert_err result.
End tests.
End SeedTests.

Module StorageTests.
Section tests.
Context `{Random} `{Sha3} `{HexCodec} `{!Serde KyveraWallet} `{Aes256Gcm}.
(** The nonce of the i-th save. *)
Context (gcm_nonce : Z -> string).

(** A disk without files. *)
Definition with_disk (body : st FileSystem string unit) : test := (body (mkFileSystem ∅ [])).2.

Definition temp_wallet_path (name : string) : string := "/tmp/kyvera_test_" +:+ name +:+ ".wallet".
Definition cleanup (path : string) : st FileSystem string unit :=
  outcome (fs_remove_file path);;
  outcome (fs_remove_file (path +:+ ".tmp"));;
  mret tt.

Definition test_save_and_load_wallet : test := with_disk (
  let path := temp_wallet_path "save_load" in
  cleanup path;;
  let wallet := wallet_of 1 "test" in
  let password := "correct-horse-battery-staple" in
  do_unwrap (save_wallet_v2 (gcm_nonce 1) wallet path password);;
  loaded ← do_unwrap (load_wallet path password);
  assert_eq (w_address wallet) (w_address loaded);;
  assert_eq (w_label wallet) (w_label loaded);;
  assert_eq (Dilithium.public_key (w_signing_keypair wallet)) (Dilithium.public_key (w_signing_keypair loaded));;
  cleanup path).

Definition test_wrong_password_fails : test := with_disk (
  let path := temp_wallet_path "wrong_pass" in
  cleanup path;;
  let wallet := wallet_of 1 "test" in
  do_unwrap (save_wallet_v2 (gcm_nonce 1) wallet path "correct-password");;
  result ← outcome (load_wallet path "wrong-password");
  assert match result with Err DecryptionFailed => true | _ => false end;;
  cleanup path).

Definition test_wallet_exists : test := with_disk (
  let path := temp_wallet_path "exists" in
  cleanup path;;
  expect (wallet_exists (E:=string) path) false;;
  let wallet := wallet_of 1 "test" in
  do_unwrap (save_wallet_v2 (gcm_nonce 1) wallet path "password");;
  expect_true (wallet_exists (E:=string) path);;
  cleanup path).

Definition test_delete_wallet : test := with_disk (
  let path := temp_wallet_path "delete" in
  cleanup path;;
  let wallet := wallet_of 1 "test" in
  do_unwrap (save_wallet_v2 (gcm_nonce 1) wallet path "password");;
  expect_true (wallet_exists (E:=string) path);;
  do_unwrap (delete_wallet path);;
  expect (wallet_exists (E:=string) path) false).

Definition test_invalid_file_rejected : test := with_disk (
  let path := temp_wallet_path "invalid" in
  cleanup path;;
  do_unwrap (fs_write path "this is not a wallet file at all");;
  result ← outcome (load_wallet path "anypassword");
  assert match result with Err InvalidWalletFile => true | _ => false end;;
  cleanup path).

Definition test_different_saves_produce_different_ciphertext : test := with_disk (
  let path1 := temp_wallet_path "diff1" in
  let path2 := temp_wallet_path "diff2" in
  cleanup path1;;
  cleanup path2;;
  let wallet := wallet_of 1 "test" in
  do_unwrap (save_wallet_v2 (gcm_nonce 1) wallet path1 "same-password");;
  do_unwrap (save_wallet_v2 (gcm_nonce 2) wallet path2 "same-password");;
  file1 ← do_unwrap (fs_read path1);
  file2 ← do_unwrap (fs_read path2);
  assert_ne file1 file2;;
  cleanup path1;;
  cleanup path2).

Definition test_address_integrity_verified_after_load : test := with_disk (
  let path := temp_wallet_path "integrity" in
  cleanup path;;
  let wallet := wallet_of 1 "main" in
  do_unwrap (save_wallet_v2 (gcm_nonce 1) wallet path "password");;
  loaded ← do_unwrap (load_wallet path "password");
  assert (verify_address_integrity loaded);;
  cleanup path).
End tests.
End StorageTests.

Module BuilderTests.
Section tests.
Context `{Random} `{Sha3} `{HexCodec} `{!Serde Transaction}.

Definition mock_chain_state : string := str_repeat 64 "a".

Definition test_valid_address_passes_validation : test :=
  let valid := "kyv1" +:+ str_repeat 64 "a" in
  assert (validate_address valid).

Definition test_invalid_addresses_rejected : test :=
  assert (negb (validate_address ("eth0" +:+ str_repeat 64 "a")));;
  assert (negb (validate_address ("kyv1" +:+ str_repeat 32 "a")));;
  assert (negb (validate_address ("kyv1" +:+ str_repeat 65 "a")));;
  assert (negb (validate_address ("kyv1" +:+ str_repeat 64 "z")));;
  assert (negb (validate_address "")).

Definition test_build_transfer_produces_signed_transaction : test :=
  let wallet := wallet_of 1 "test" in
  let recipient := "kyv1" +:+ str_repeat 64 "b" in
  tx ← unwrap (build_transfer clock clock (draw_dilithium 2) wallet recipient 10000000000 1000000 0 mock_chain_state);
  assert (negb (is_empty (tx_hash tx)));;
  assert (negb (is_empty (tx_signature tx)));;
  assert_eq (tx_sender tx) (w_address wallet);;
  assert_eq (tx_receiver tx) recipient;;
  assert_eq (tx_amount tx) 10000000000;;
  assert_eq (tx_nonce tx) 0.

Definition test_zero_amount_rejected : test :=
  let wallet := wallet_of 1 "test" in
  let recipient := "kyv1" +:+ str_repeat 64 "b" in
  let result := build_transfer clock clock (draw_dilithium 2) wallet recipient 0 1000000 0 mock_chain_state in
  assert match result with Err Builder.ZeroAmount => true | _ => false end.

Definition test_invalid_recipient_rejected : test :=
  let wallet := wallet_of 1 "test" in
  let result := build_transfer clock clock (draw_dilithium 2) wallet "not-an-address" 1000000 1000000 0
    mock_chain_state in
  assert match result with Err (Builder.InvalidAddress _) => true | _ => false end.

Definition test_different_nonces_produce_different_hashes : test :=
  let wallet := wallet_of 1 "test" in
  let recipient := "kyv1" +:+ str_repeat 64 "b" in
  tx1 ← unwrap (build_transfer clock clock (draw_dilithium 2) wallet recipient 1000000000 1000000 0 mock_chain_state);
  tx2 ← unwrap (build_transfer clock clock (draw_dilithium 3) wallet recipient 1000000000 1000000 1 mock_chain_state);
  assert_ne (tx_hash tx1) (tx_hash tx2);;
  assert_ne (tx_signature tx1) (tx_signature tx2).

Definition test_build_stake_lock : test :=
  let wallet := wallet_of 1 "test" in
  tx ← unwrap (build_stake_lock clock clock (draw_dilithium 2) wallet 500000000000 1000000 0 mock_chain_state);
  assert (negb (is_empty (tx_hash tx)));;
  assert (negb (is_empty (tx_signature tx)));;
  assert_eq (tx_transaction_type tx) StakeLock;;
  assert_eq (tx_amount tx) 500000000000.

Definition test_build_stake_unlock : test :=
  let wallet := wallet_of 1 "test" in
  tx ← unwrap (build_stake_unlock clock clock (draw_dilithium 2) wallet 500000000000 1000000 1 mock_chain_state);
  assert (negb (is_empty (tx_hash tx)));;
  assert_eq (tx_transaction_type tx) StakeUnlock.

Definition test_transaction_hash_is_deterministic : test :=
  let wallet := wallet_of 1 "test" in
  let recipient := "kyv1" +:+ str_repeat 64 "c" in
  tx ← unwrap (build_transfer clock clock (draw_dilithium 2) wallet recipient 1000000000 1000000 0 mock_chain_state);
  let recomputed := compute_transaction_hash tx in
  assert_eq (tx_hash tx) recomputed.
End tests.
End BuilderTests.

(** ** A toy word list

    Sixteen words spell the 32 bytes of the entropy, eight check them. *)
Module Words.
Import Mem.

Fixpoint words_of (n : nat) (hex : string) : list string :=
  match n with O => [] | S n => str_take 4 hex :: words_of n (str_drop 4 hex) end.
Definition phrase (entropy : string) : string :=
  String.concat " " (words_of 16 (hex_encode entropy) ++ words_of 8 (hex_encode (sha3_256_digest entropy))).
#[export] Instance word_list : Bip39 := {|
  mnemonic := string;
  mnemonic_from_entropy e := if (String.length e =? 32)%nat then Ok (phrase e) else Err "bad entropy";
  mnemonic_parse s :=
    let words := split_whitespace s in
    if negb (length words =? 24)%nat then Err "bad word count"
    else match hex_decode (str_concat (take 16 words)) with
      | Ok e => if String.eqb (phrase e) (String.concat " " words) then Ok (phrase e) else Err "bad checksum"
      | _ => Err "unknown word"
      end;
  mnemonic_to_string m := m;
  mnemonic_to_seed m p := sha3_256_digest ("1" +:+ m +:+ p) +:+ sha3_256_digest ("2" +:+ m +:+ p) |}.
#[export] Existing Instance StorageWitness.toy_aes.
#[export] Existing Instance StorageWitness.KyveraWallet_codec.
End Words.

Module WalletPass.
Import Mem Sized Words.

Example keys_tests : pass [KeysTests.test_wallet_generation; KeysTests.test_two_wallets_have_different_addresses;
  KeysTests.test_wallet_info_contains_no_secret_keys; KeysTests.test_address_integrity_check;
  KeysTests.test_wallet_serialization].
Proof. run. Qed.

Example seed_tests : pass [SeedTests.test_seed_phrase_generates_24_words draw_bytes;
  SeedTests.test_two_phrases_are_different draw_bytes; SeedTests.test_valid_phrase_passes_validation draw_bytes;
  SeedTests.test_garbage_fails_validation; SeedTests.test_same_phrase_produces_same_seed draw_bytes;
  SeedTests.test_different_passphrases_produce_different_seeds draw_bytes; SeedTests.test_seed_is_64_bytes draw_bytes;
  SeedTests.test_domain_separation_produces_different_keys draw_bytes;
  SeedTests.test_format_seed_phrase_for_display draw_bytes; SeedTests.test_invalid_phrase_returns_error].
Proof. run. Qed.

Example storage_tests : pass [StorageTests.test_save_and_load_wallet draw_nonce;
  StorageTests.test_wrong_password_fails draw_nonce; StorageTests.test_wallet_exists draw_nonce;
  StorageTests.test_delete_wallet draw_nonce; StorageTests.test_invalid_file_rejected;
  StorageTests.test_different_saves_produce_different_ciphertext draw_nonce;
  StorageTests.test_address_integrity_verified_after_load draw_nonce].
Proof. run. Qed.

Example builder_tests : pass [BuilderTests.test_valid_address_passes_validation;
  BuilderTests.test_invalid_addresses_rejected; BuilderTests.test_build_transfer_produces_signed_transaction;
  BuilderTests.test_zero_amount_rejected; BuilderTests.test_invalid_recipient_rejected;
  BuilderTests.test_different_nonces_produce_different_hashes; BuilderTests.test_build_stake_lock;
  BuilderTests.test_build_stake_unlock; BuilderTests.test_transaction_hash_is_deterministic].
Proof. run. Qed.
End WalletPass.
